(* ===== verification/_CoqProject ===== *)
-Q . S2P
Prelude.v
Threads.v
GoStrings.v
GoHeap.v
GoUtf8.v
GoTime.v
GoTimeFacts.v
GoCrypto.v
GoJson.v
GoJsonFacts.v
GoJsonCodec.v
Api.v
Conditions.v
DeepCopy.v
SpecHash.v
GoStrconv.v
GoFlag.v
GoPath.v
Kube.v
KubeServer.v
Samples.v
SpecCodec.v
GatewayState.v
GatewayStatus.v
GatewayServer.v
GatewayThreads.v
Wire.v
GatewayAuth.v
GatewayDesired.v
GatewayEffects.v
GatewayDevices.v
GatewayConnection.v
GatewayReport.v
Manager.v
GatewayMain.v
GatewaySystem.v
GatewayInterleaving.v
GatewayRuns.v
ControllerApi.v
ControllerBuild.v
Cluster.v
Controller.v
ControllerMain.v
ControllerProps.v
ControllerWatch.v
ControllerSamples.v
EndToEnd.v
GoNet.v
AgentRender.v
AgentFiles.v
AgentPaths.v
AgentHost.v
AgentSystemd.v
AgentSystemdFacts.v
AgentUnits.v
AgentOci.v
AgentOciLaws.v
AgentOciFacts.v
AgentOciProps.v
AgentOciCalls.v
AgentFetcher.v
Agent.v
AgentState.v
AgentMain.v
AgentProps.v
AgentReconcile.v
AgentReload.v
AgentRun.v
AgentRunProps.v
AgentGateway.v
AgentThreads.v
Site.v
AgentTurn.v
