(* ===== verification/Prelude.v ===== *)
(** * Praetor: a verification library

    Praetor runs processes on network devices from Kubernetes objects.  A
    DeviceProcessDeployment selects NetworkSwitches; the _deployment controller_
    makes one DeviceProcess per selected switch; the _device gateway_ hands the
    DeviceProcesses of a device to the _agent_ on it, over HTTP; the agent fetches
    artifacts, renders systemd units, keeps them running and reports what it
    sees; the gateway writes that into the status of the DeviceProcesses; and the
    controller counts the statuses into the status of the deployment.  This
    library models the three programs and proves what they promise to each other
    and to the machine.

    ** How programs are modelled

    A program is a computation of the monad [M] of this file over a [World]: its
    own variables ([self]), what is outside it ([env]: the API server, or the
    machine of the agent), a clock that is read by position and may do anything
    in between, and the trace of the calls that may change the outside.  The
    outside is always a parameter: a type class of operations ([GatewayClient],
    [ControllerClient], [Host], [OciHost]) with a class of laws that states the
    documented behaviour the code relies on, each with an executable instance
    ([Store], [Cluster], [Machine], [OciMachine]) on which the witnesses of the
    properties evaluate.  [ConcurrentClient] adds what the gateway
    relies on when other clients change the objects it reads and its cache lags
    behind; [keeps_up] says that what it reads is current, where a property needs
    that; the instance is [Server].  Every operation may fail
    whenever the code checks it for an error.  Go's libraries are modelled as the
    programs use them; Go's map order and [sort.Slice] are the classes [MapRange]
    and [SortSlice], which fix only what Go documents; the Unicode tables beyond
    ASCII are the class [Unicode].  Machine integers are [Z] with [int32] and [int64] written where
    the code converts.  Properties of all intermediate states (a crash after any
    call) are stated over an outside that remembers its states
    ([logged_host], [logged_oci]).  [writes], [emits], [self_rel], [env_rel],
    [keeps], [answers], [triple], [env_triple] and [traced] are the program logics
    of this file; [effects] is their automation.

    A computation of [M] runs alone.  [Threads] finds the thread of atomic steps
    of a computation (class [Threaded]), so that the same definitions also run
    interleaved with each other, and has a rely-guarantee logic for them ([rg]).
    Values do not share memory in [M]; the one slice whose sharing matters to a
    program is modelled with both of its views ([Aliased] of [Controller]), and
    the deep copies, which are about sharing, over the memory of [GoHeap].

    ** Go's libraries

    [GoStrings] (strings, unicode/utf8), [GoUtf8] (runes and encodings), [GoTime]
    and [GoTimeFacts] (instants, RFC 3339), [GoCrypto] (SHA-256, SHA-1, HMAC, hex,
    computed), [GoJson], [GoJsonFacts] and [GoJsonCodec] (encoding/json both ways:
    printers, scanner, struct decoding, and that what is marshalled is
    unmarshalled), [GoStrconv], [GoFlag] (command lines), [GoPath], [GoNet],
    [GoHeap] (memory, references and deep copies).

    ** Shared types

    [Api] (src/api/azure.com/v1alpha1), [DeepCopy] (its zz_generated.deepcopy.go:
    a copy has the contents of its original and shares nothing with it, while an
    assigned struct shares its slices), [Conditions] (src/pkg/conditions),
    [SpecHash] (hashSpec of src/gateway/server.go and the encoding of specs),
    [SpecCodec] (their decoding; a spec hash identifies the spec), [Wire] (the
    JSON of reports and desired states), [Kube] and [KubeServer] (the API server,
    alone and with other clients), [Manager] (the manager of controller-runtime, as
    the entry points call it), [Samples].

    ** The gateway (src/gateway/server.go)

    [GatewayState]: the maps lastSeen, lastReport and heartbeatHints with the
    critical sections that use them.  [GatewayStatus]: the body of
    updateStatusForObservation, stage by stage, and the specification of its
    result.  [GatewayServer]: hashDesired, authorize, computeDesired, the retry
    loop of updateStatusForObservation, the handlers, handleDevice and one pass of
    markStaleDevices.  Properties: who may speak for a device ([GatewayAuth]), the
    desired state and its ETag ([GatewayDesired]), what a request may change and
    the refinement of an observation ([GatewayEffects]), which devices count as
    alive ([GatewayDevices]), the connection conditions ([GatewayConnection]), what
    an acknowledged report means, and how often handling it writes
    ([GatewayReport]).

    [GatewayThreads] has the threads of the handlers and of the staleness pass,
    and [GatewaySystem] the step relation [gw_step]: requests arrive, the ticker
    starts a pass unless one runs, any thread takes an atomic step, other clients
    change the API server.  [GatewayInterleaving] and [GatewayRuns] show what holds
    in every such run: each change of a stored process is the status its job calls
    for, computed from the very status it replaces; the bookkeeping keeps its
    invariant; the system drains when nothing arrives; and a handler that is
    not interrupted is the computation of [GatewayServer].  One run shows a
    race: the pass marks a device disconnected after a report of it was
    acknowledged.

    [GatewayMain] is the command line (src/cmd/gateway/main.go), NewGateway and
    Start with its mux: what the flags and the environment make the configuration,
    in which order the program is put together, and that what the mux lets through
    to a change of the API server was authorized.

    ** The controller (src/controller/reconcilers)

    [ControllerApi], [Cluster]: the libraries and the API server it uses, where a
    write leaves the fields it sets and nothing more is assumed of the rest.
    [ControllerBuild]: names, labels and specs of the processes it makes.
    [Controller]: Reconcile with applyDeviceProcess, cleanupStale and updateStatus,
    the slice shared by the copied status included.  [ControllerWatch]: the event
    handlers of switches and the field index.  [ControllerMain]: the command line
    and SetupWithManager (src/controller/main.go).  [ControllerProps] and
    [ControllerSamples]: convergence, footprint, counts, frozen conditions.

    ** The agent (src/agent)

    [AgentRender], [AgentFiles]: unit files, environment files and command lines
    (main.go, envfile.go): the exact lines of a unit file, an ExecStart line that
    determines its command, and environment files that give back the variables.  [AgentPaths]: names
    and paths (systemd/manager.go).  [AgentHost], [AgentSystemd],
    [AgentSystemdFacts], [AgentUnits]: files, systemctl and what the file
    operations guarantee.  [AgentOci]: Ensure and extractLayer (artifact_oci.go),
    with [AgentOciLaws], [AgentOciFacts], [AgentOciProps], [AgentOciCalls]: the
    cache directory is complete or does not look ready, the extraction is
    confined and bounded, the lock and the registry are used as they should be;
    [AgentFetcher] puts Ensure behind the interface [Host] of the rest of the
    agent.  [Agent]: reconcile, polls, reports and the state file as it is
    written; [AgentState]: the state file as it is read, and main up to the loop;
    [AgentMain]: its command line; [AgentProps], [AgentReconcile], [AgentReload]:
    what a reconcile deploys, observes, touches, leaves alone, removes and
    forgets.  [AgentRun], [AgentRunProps]: the main loop with its tickers and
    back-off as a step relation, with invariants of all its states.
    [AgentThreads]: the threads of the agent's programs.

    ** The programs together

    [EndToEnd]: a process the controller made, the agent runs and the gateway
    reports is counted by the controller.  [AgentGateway]: the requests of an
    agent, with their JSON, delivered to the handlers of the gateway: they are
    authorized and handled as sent, and after a poll the agent holds the gateway's
    desired state.  [Site]: a machine and its gateway as one [Host], with a network
    that may lose requests and answers.  [AgentTurn]: a turn of an agent at a site
    that ended without an error brings the API server and the machine in line,
    over all three programs and with a cache that may lag.

    ** Bounds and fuel

    updateStatusForObservation makes [maxAttempts] (3) rounds and Ensure 3
    attempts, as the code does: the loops recurse on what is left of them.
    [scan_value] recurses on fuel; [scan_fuel] is enough for every text
    ([scan_fuel_enough]), and [quote_runes] consumes a byte per step.  All other
    recursion is structural.

    ** What is not modelled

    HTTP itself: a request is its method, path, two headers and body; URLs are not
    escaped and redirects not followed, and the server of net/http is the mux with
    a thread per request.  Formats other than JSON: a layer is the sequence of its
    tar headers and contents, and gunzip is a parameter; systemd is what its
    systemctl answers, and how it reads an ExecStart line is not modelled.  The registry client (oras, image-spec), the Kubernetes
    client, the manager and the helpers of apimachinery and controller-runtime are
    the parameters named above.  Of the API machinery: ManagedFields, which only
    server-side apply reads, and the cut of stored times to seconds.  Outside of
    [GoHeap], a nil slice or map is not distinguished from an empty one, and JSON
    that repeats the key of a slice is decoded into fresh elements.  Logging, the
    registration of the types in a scheme, the version string, and the tests and
    the manifests of the repository.

    The turn of [AgentTurn] is that of one agent while no other client writes; the
    runs of [gw_step] have every other client, but not the machines of the agents.

    ** Plan

    Next: a fleet, in which the turns of agents are threads ([AgentThreads] has
    their steps) whose requests arrive in a run of [gw_step] and whose answers come
    back from it: that every status the gateway writes there, other than a
    disconnect mark, tells what an agent of the device observed; and the reconciler
    of the controller as one more thread over the same server. *)

From Stdlib Require Export ZArith Ascii String.
From stdpp Require Export base strings gmap list fin_maps sorting pretty.
From Stdlib Require Import Sorting.

#[global] Open Scope char_scope.
#[global] Open Scope string_scope.
#[global] Open Scope list_scope.
#[global] Open Scope Z_scope.

(** ** Tactics of the development *)

(** Split every conjunction of the goal and try to close the parts. *)
Ltac split_all := repeat match goal with |- _ ∧ _ => split end.

(** Case analysis on the first [match] scrutinee of the goal, keeping the
    equation. *)
Ltac case_goal :=
  match goal with
  | |- context [match ?x with _ => _ end] => destruct x eqn:?
  end.

(** Case analysis on the first [match] scrutinee of a hypothesis. *)
Ltac case_hyp H :=
  match type of H with
  | context [match ?x with _ => _ end] => destruct x eqn:?
  end.

(** Turn the boolean tests of the code into propositions. *)
Ltac bool_prop :=
  repeat match goal with
  | H : (_ && _) = true |- _ => apply andb_true_iff in H as [? ?]
  | H : (_ || _) = false |- _ => apply orb_false_iff in H as [? ?]
  | H : negb _ = true |- _ => apply negb_true_iff in H
  | H : negb _ = false |- _ => apply negb_false_iff in H
  | H : bool_decide _ = true |- _ => apply bool_decide_eq_true in H
  | H : bool_decide _ = false |- _ => apply bool_decide_eq_false in H
  | H : (_ <? _) = true |- _ => apply Z.ltb_lt in H
  | H : (_ <? _) = false |- _ => apply Z.ltb_ge in H
  | H : (_ <=? _) = true |- _ => apply Z.leb_le in H
  | H : (_ <=? _) = false |- _ => apply Z.leb_gt in H
  end.

(** ** Results: Go's [(T, error)] pairs *)

Inductive result (E A : Type) : Type :=
  | Ok (a : A)
  | Err (e : E).
Arguments Ok {E A} a.
Arguments Err {E A} e.

Definition is_ok {E A} (r : result E A) : bool :=
  match r with Ok _ => true | Err _ => false end.

Lemma app_cons_ne {A} (l l' : list A) x : l ++ x :: l' ≠ [].
Proof. by destruct l. Qed.

Declare Scope go_scope.
Delimit Scope go_scope with go.

(** [x, err := e1; if err != nil { return err }; e2] *)
Notation "'try' x ':=' e1 'in' e2" :=
  (match e1 with Ok x => e2 | Err err => Err err end)
  (at level 10, x pattern, e1 at level 100, e2 at level 200) : go_scope.

(** [mapM] on results: the loop [for _, x := range l { y, err := f(x); if err
    != nil { return err }; out = append(out, y) }]. *)
Fixpoint result_map {E A B} (f : A → result E B) (l : list A) : result E (list B) :=
  match l with
  | [] => Ok []
  | x :: l' =>
      match f x with
      | Err e => Err e
      | Ok y => match result_map f l' with Ok ys => Ok (y :: ys) | Err e => Err e end
      end
  end.

Lemma result_map_ok {E A B} (f : A → result E B) l ys :
  result_map f l = Ok ys ↔ Forall2 (λ x y, f x = Ok y) l ys.
Proof.
  split.
  - revert ys. induction l as [|x l IH]; intros ys H; simpl in H; simplify_eq; [done|].
    destruct (f x) eqn:Hx; [|done]. destruct (result_map f l) eqn:Hl; [|done].
    simplify_eq. constructor; auto.
  - induction 1 as [|x y l ys Hx _ IH]; simpl; [done|]. by rewrite Hx, IH.
Qed.

(** ** Machine integers *)

(** Two's complement wrap-around of Go's fixed-width signed integers. *)
Definition wrap_signed (bits z : Z) : Z :=
  (z + 2 ^ (bits - 1)) mod 2 ^ bits - 2 ^ (bits - 1).
Definition int64 (z : Z) : Z := wrap_signed 64 z.
Definition int32 (z : Z) : Z := wrap_signed 32 z.

Definition min_int64 : Z := - 2 ^ 63.
Definition max_int64 : Z := 2 ^ 63 - 1.
Definition max_int32 : Z := 2 ^ 31 - 1.

Lemma wrap_signed_id bits z :
  0 < bits → - 2 ^ (bits - 1) ≤ z < 2 ^ (bits - 1) → wrap_signed bits z = z.
Proof.
  intros Hb Hz. unfold wrap_signed.
  assert (2 ^ bits = 2 * 2 ^ (bits - 1)) as Hp.
  { rewrite <-Z.pow_succ_r by lia. f_equal. lia. }
  rewrite Z.mod_small by lia. lia.
Qed.

Lemma wrap_signed_range bits z :
  0 < bits → - 2 ^ (bits - 1) ≤ wrap_signed bits z < 2 ^ (bits - 1).
Proof.
  intros Hb. unfold wrap_signed.
  assert (2 ^ bits = 2 * 2 ^ (bits - 1)) as Hp.
  { rewrite <-Z.pow_succ_r by lia. f_equal. lia. }
  assert (0 < 2 ^ (bits - 1)) by (apply Z.pow_pos_nonneg; lia).
  pose proof (Z.mod_pos_bound (z + 2 ^ (bits - 1)) (2 ^ bits) ltac:(lia)). lia.
Qed.

Lemma int64_id z : min_int64 ≤ z ≤ max_int64 → int64 z = z.
Proof. intros. apply wrap_signed_id; [lia|]. unfold min_int64, max_int64 in *. lia. Qed.

Lemma int32_id z : - 2 ^ 31 ≤ z ≤ max_int32 → int32 z = z.
Proof. intros. apply wrap_signed_id; [lia|]. unfold max_int32 in *. lia. Qed.

(** ** The effects of a component

    A component runs in a world: its own state [self], the outside it talks to
    [env], the readings of the clock ([time.Now()] returns reading [tick] and
    advances it) and the trace of the calls it made to the outside, newest
    last. *)
Record World (G S C : Type) : Type := mkWorld {
  self : G;
  env : S;
  clock : nat → Z;
  tick : nat;
  trace : list C
}.
Arguments mkWorld {G S C} _ _ _ _ _.
Arguments self {G S C} _.
Arguments env {G S C} _.
Arguments clock {G S C} _ _.
Arguments tick {G S C} _.
Arguments trace {G S C} _.

(** Computations in a world. *)
Definition M (G S C A : Type) : Type := World G S C → A * World G S C.

Section effects.
Context {G S C : Type}.

Definition ret {A} (a : A) : M G S C A := λ w, (a, w).
Definition bind {A B} (m : M G S C A) (k : A → M G S C B) : M G S C B :=
  λ w, k (m w).1 (m w).2.

(** The component's state, under its lock where it has one. *)
Definition get_self : M G S C G := λ w, (self w, w).
Definition set_self (g : G) : M G S C unit :=
  λ w, (tt, mkWorld g (env w) (clock w) (tick w) (trace w)).

(** A critical section: [mu.Lock(); ...; mu.Unlock()]. *)
Definition locked {A} (f : G → A * G) : M G S C A :=
  λ w, ((f (self w)).1,
        mkWorld (f (self w)).2 (env w) (clock w) (tick w) (trace w)).
Definition modify (f : G → G) : M G S C unit := locked (λ g, (tt, f g)).

(** [time.Now()]. *)
Definition time_now : M G S C Z :=
  λ w, (clock w (tick w), mkWorld (self w) (env w) (clock w) (Datatypes.S (tick w)) (trace w)).

(** The next [n] readings of the clock, one per call site of a block that
    reads it at most [n] times. *)
Definition time_window (n : nat) : M G S C (nat → Z) :=
  λ w, (λ i, clock w (tick w + i)%nat,
        mkWorld (self w) (env w) (clock w) (tick w + n)%nat (trace w)).

(** A read of the outside. *)
Definition ask {A} (f : S → A) : M G S C A := λ w, (f (env w), w).

(** A call that may change the outside, recorded in the trace. *)
Definition call {A} (c : C) (f : S → A * S) : M G S C A :=
  λ w, ((f (env w)).1,
        mkWorld (self w) (f (env w)).2 (clock w) (tick w) (trace w ++ [c])).

(** A call whose answer the component does not look at. *)
Definition emit (c : C) : M G S C unit :=
  λ w, (tt, mkWorld (self w) (env w) (clock w) (tick w) (trace w ++ [c])).

(** [for _, x := range l { ... }] whose body may return from the function. *)
Fixpoint for_each {A R} (l : list A) (body : A → M G S C (option R)) : M G S C (option R) :=
  match l with
  | [] => ret None
  | x :: l' =>
      bind (body x) (λ r, match r with Some v => ret (Some v) | None => for_each l' body end)
  end.

(** [if err != nil { return err }] after a call that may fail. *)
Definition bind_ok {E A B} (m : M G S C (result E A)) (k : A → M G S C (result E B))
    : M G S C (result E B) :=
  bind m (λ r, match r with Ok a => k a | Err e => ret (Err e) end).

(** [defer d] around the rest of a function. *)
Definition deferred {A B} (d : M G S C B) (m : M G S C A) : M G S C A :=
  bind m (λ a, bind d (λ _, ret a)).

Definition when (b : bool) (m : M G S C unit) : M G S C unit := if b then m else ret tt.

(** Running a computation that starts with a read or a call. *)
Lemma run_ask {A B} (f : S → A) (k : A → M G S C B) w : bind (ask f) k w = k (f (env w)) w.
Proof. reflexivity. Qed.
Lemma run_get_self {B} (k : G → M G S C B) w : bind get_self k w = k (self w) w.
Proof. reflexivity. Qed.
Lemma run_ret {A B} (a : A) (k : A → M G S C B) w : bind (ret a) k w = k a w.
Proof. reflexivity. Qed.
Lemma run_time_now {B} (k : Z → M G S C B) w :
  bind time_now k w =
    k (clock w (tick w))
      (mkWorld (self w) (env w) (clock w) (Datatypes.S (tick w)) (trace w)).
Proof. reflexivity. Qed.
Lemma run_time_window {B} n (k : (nat → Z) → M G S C B) w :
  bind (time_window n) k w =
    k (λ i, clock w (tick w + i)%nat)
      (mkWorld (self w) (env w) (clock w) (tick w + n)%nat (trace w)).
Proof. reflexivity. Qed.
Lemma run_call {A B} c (f : S → A * S) (k : A → M G S C B) w :
  bind (call c f) k w =
    k (f (env w)).1 (mkWorld (self w) (f (env w)).2 (clock w) (tick w) (trace w ++ [c])).
Proof. reflexivity. Qed.
Lemma run_locked {A B} (f : G → A * G) (k : A → M G S C B) w :
  bind (locked f) k w =
    k (f (self w)).1 (mkWorld (f (self w)).2 (env w) (clock w) (tick w) (trace w)).
Proof. reflexivity. Qed.
Lemma run_modify {B} (f : G → G) (k : unit → M G S C B) w :
  bind (modify f) k w = k tt (mkWorld (f (self w)) (env w) (clock w) (tick w) (trace w)).
Proof. reflexivity. Qed.
Lemma run_bind {A B D} (m : M G S C A) (k : A → M G S C B) (l : B → M G S C D) w :
  bind (bind m k) l w = bind m (λ a, bind (k a) l) w.
Proof. reflexivity. Qed.

Lemma run_step {A B} (m : M G S C A) (k : A → M G S C B) w : bind m k w = k (m w).1 (m w).2.
Proof. reflexivity. Qed.

End effects.

Create Rewrite HintDb run.
#[export] Hint Rewrite @run_ask @run_get_self @run_ret @run_time_now @run_time_window @run_call
  @run_locked @run_modify @run_bind : run.

Notation "x <- m ;; k" := (bind m (λ x, k))
  (at level 100, m at next level, right associativity) : go_scope.
Notation "x <-? m ;; k" := (bind_ok m (λ x, k))
  (at level 100, m at next level, right associativity) : go_scope.
Notation "m ;;; k" := (bind m (λ _, k))
  (at level 100, right associativity) : go_scope.

(** ** Reasoning about effects

    [writes Q m]: the calls [m] adds to the trace, in order, satisfy [Q];
    [emits P m]: each of them satisfies [P].  [self_rel R m]: the component's
    state before and after [m] is related by [R]; [keeps I m]: [m] preserves the
    invariant [I] of that state.  [triple P m Q]: from a world in [P], [m]
    answers [a] in a world in [Q a]. *)
Section effect_logic.
Context {G S C : Type}.

Definition writes {A} (Q : list C → Prop) (m : M G S C A) : Prop :=
  ∀ w, ∃ new, trace (m w).2 = trace w ++ new ∧ Q new.

Definition emits {A} (P : C → Prop) (m : M G S C A) : Prop := writes (Forall P) m.

Definition self_rel {A} (R : relation G) (m : M G S C A) : Prop :=
  ∀ w, R (self w) (self (m w).2).

Definition triple {A} (P : World G S C → Prop) (m : M G S C A)
    (Q : A → World G S C → Prop) : Prop :=
  ∀ w, P w → Q (m w).1 (m w).2.

(** [answers P m]: whatever the world, the answer of [m] satisfies [P]. *)
Definition answers {A} (P : A → Prop) (m : M G S C A) : Prop := ∀ w, P (m w).1.

Lemma answers_ret {A} (P : A → Prop) a : P a → answers P (ret a).
Proof. by intros HP w. Qed.
Lemma answers_bind {A B} (P : B → Prop) (m : M G S C A) (k : A → M G S C B) :
  (∀ a, answers P (k a)) → answers P (bind m k).
Proof. intros Hk w. apply Hk. Qed.
Lemma answers_bind_post {A B} (Q : A → Prop) (P : B → Prop) (m : M G S C A) (k : A → M G S C B) :
  answers Q m → (∀ a, Q a → answers P (k a)) → answers P (bind m k).
Proof. intros Hm Hk w. apply Hk, Hm. Qed.
Lemma answers_impl {A} (P Q : A → Prop) (m : M G S C A) :
  answers P m → (∀ a, P a → Q a) → answers Q m.
Proof. intros Hm HQ w. apply HQ, Hm. Qed.
Lemma answers_for_each {A R} (P : R → Prop) (l : list A) (body : A → M G S C (option R)) :
  (∀ x, answers (λ r, ∀ v, r = Some v → P v) (body x)) →
  answers (λ r, ∀ v, r = Some v → P v) (for_each l body).
Proof.
  intros Hb. induction l as [|x l IH]; simpl; [by apply answers_ret|].
  eapply answers_bind_post; [apply Hb|]. intros [v|] Hv; [|exact IH].
  apply answers_ret. intros ? [= <-]. by apply Hv.
Qed.

Definition keeps {A} (I : G → Prop) (m : M G S C A) : Prop :=
  self_rel (λ g g', I g → I g') m.

Lemma writes_bind {A B} (Q1 Q2 Q : list C → Prop) (m : M G S C A) (k : A → M G S C B) :
  (∀ l1 l2, Q1 l1 → Q2 l2 → Q (l1 ++ l2)) →
  writes Q1 m → (∀ a, writes Q2 (k a)) → writes Q (bind m k).
Proof.
  intros HQ Hm Hk w. destruct (Hm w) as (n1 & E1 & F1).
  destruct (Hk (m w).1 (m w).2) as (n2 & E2 & F2).
  exists (n1 ++ n2). unfold bind. rewrite E2, E1, app_assoc. auto.
Qed.

Lemma writes_silent {A} (Q : list C → Prop) (m : M G S C A) :
  Q [] → (∀ w, trace (m w).2 = trace w) → writes Q m.
Proof. intros HQ H w. exists []. by rewrite H, app_nil_r. Qed.

Lemma writes_ask_bind {A B} (Q : list C → Prop) (f : S → A) (k : A → M G S C B) :
  (∀ s a, f s = a → writes Q (k a)) → writes Q (bind (ask f) k).
Proof. intros Hk w. by apply (Hk (env w)). Qed.

Lemma writes_impl {A} (Q Q' : list C → Prop) (m : M G S C A) :
  (∀ l, Q l → Q' l) → writes Q m → writes Q' m.
Proof. intros HQ Hm w. destruct (Hm w) as (n & E & F). eauto. Qed.

Lemma emits_weaken {A} (P Q : C → Prop) (m : M G S C A) :
  (∀ c, P c → Q c) → emits P m → emits Q m.
Proof. intros HPQ. apply writes_impl. intros l Hl. eapply Forall_impl; [exact Hl|done]. Qed.

(** A call that is certainly made. *)
Lemma writes_in_l {A B} c (m : M G S C A) (k : A → M G S C B) :
  writes (λ l, c ∈ l) m → (∀ a, emits (λ _, True) (k a)) → writes (λ l, c ∈ l) (bind m k).
Proof. intros Hm Hk. eapply writes_bind; [|exact Hm|exact Hk]. intros l1 l2 H1 _. apply elem_of_app. auto. Qed.

Lemma writes_in_r {A B} (Q : A → Prop) c (m : M G S C A) (k : A → M G S C B) :
  emits (λ _, True) m → answers Q m → (∀ a, Q a → writes (λ l, c ∈ l) (k a)) →
  writes (λ l, c ∈ l) (bind m k).
Proof.
  intros Hm HQ Hk w. destruct (Hm w) as (n1 & E1 & _).
  destruct (Hk (m w).1 (HQ w) (m w).2) as (n2 & E2 & Hc).
  exists (n1 ++ n2). unfold bind. rewrite E2, E1, app_assoc. split; [done|]. apply elem_of_app. auto.
Qed.

(** A loop whose body never ends it runs the body for every element. *)
Lemma writes_in_for_each {A R} c (x : A) (l : list A) (body : A → M G S C (option R)) :
  x ∈ l → (∀ y, answers (eq None) (body y)) → (∀ y, emits (λ _, True) (body y)) →
  writes (λ l, c ∈ l) (body x) → writes (λ l, c ∈ l) (for_each l body).
Proof.
  intros Hx Hn He Hb. induction l as [|y l IH]; [by apply elem_of_nil in Hx|]. cbn [for_each].
  assert (emits (λ _, True) (for_each l body)) as Hall.
  { clear -He. induction l as [|z l IH]; cbn [for_each].
    - intros w. exists []. by rewrite app_nil_r.
    - eapply writes_bind; [|apply He|]; [intros l1 l2 H1 H2; by apply Forall_app|].
      intros [r|]; [|exact IH]. intros w. exists []. by rewrite app_nil_r. }
  intros w. unfold bind. pose proof (Hn y w) as Hy.
  destruct (He y w) as (n1 & E1 & _).
  apply elem_of_cons in Hx as [<-|Hx].
  - destruct (Hb w) as (n & E & Hc). destruct (body x w) as [r w'] eqn:Eb. cbn [fst snd] in *. subst r.
    destruct (Hall w') as (n2 & E2 & _). exists (n ++ n2). rewrite E2, E, app_assoc.
    split; [done|]. apply elem_of_app. by left.
  - destruct (body y w) as [r w'] eqn:Eb. cbn [fst snd] in *. subst r.
    destruct (IH Hx w') as (n2 & E2 & Hc). exists (n1 ++ n2). rewrite E2, E1, app_assoc.
    split; [done|]. apply elem_of_app. by right.
Qed.

Section emits.
Context (P : C → Prop).

Lemma emits_silent {A} (m : M G S C A) : (∀ w, trace (m w).2 = trace w) → emits P m.
Proof. intros H w. exists []. by rewrite H, app_nil_r. Qed.

Lemma emits_ret {A} (a : A) : emits P (ret a).
Proof. by apply emits_silent. Qed.
Lemma emits_get_self : emits P get_self.
Proof. by apply emits_silent. Qed.
Lemma emits_locked {A} (f : G → A * G) : emits P (locked f).
Proof. by apply emits_silent. Qed.
Lemma emits_time_now : emits P time_now.
Proof. by apply emits_silent. Qed.
Lemma emits_time_window n : emits P (time_window n).
Proof. by apply emits_silent. Qed.
Lemma emits_ask {A} (f : S → A) : emits P (ask f).
Proof. by apply emits_silent. Qed.
Lemma emits_call {A} c (f : S → A * S) : P c → emits P (call c f).
Proof. intros H w. exists [c]. auto. Qed.
Lemma emits_emit c : P c → emits P (emit c).
Proof. intros H w. exists [c]. auto. Qed.

Lemma emits_bind {A B} (m : M G S C A) (k : A → M G S C B) :
  emits P m → (∀ a, emits P (k a)) → emits P (bind m k).
Proof.
  intros Hm Hk. eapply writes_bind; [|exact Hm|exact Hk].
  intros l1 l2 H1 H2. by apply Forall_app.
Qed.

(** The same, remembering what the first computation answers. *)
Lemma emits_bind_post {A B} (Q : A → Prop) (m : M G S C A) (k : A → M G S C B) :
  emits P m → answers Q m → (∀ a, Q a → emits P (k a)) → emits P (bind m k).
Proof.
  intros Hm HQ Hk w. destruct (Hm w) as (n1 & E1 & F1).
  destruct (Hk (m w).1 (HQ w) (m w).2) as (n2 & E2 & F2).
  exists (n1 ++ n2). unfold bind. rewrite E2, E1, app_assoc. split; [done|by apply Forall_app].
Qed.

(** The same, remembering what the outside answered. *)
Lemma emits_ask_bind {A B} (f : S → A) (k : A → M G S C B) :
  (∀ s a, f s = a → emits P (k a)) → emits P (bind (ask f) k).
Proof. intros Hk w. by apply (Hk (env w)). Qed.
Lemma emits_call_bind {A B} c (f : S → A * S) (k : A → M G S C B) :
  P c → (∀ s a s', f s = (a, s') → emits P (k a)) → emits P (bind (call c f) k).
Proof.
  intros Hc Hk w. rewrite run_call. destruct (f (env w)) as [a s'] eqn:E.
  destruct (Hk _ _ _ E (mkWorld (self w) s' (clock w) (tick w) (trace w ++ [c]))) as (n & Ht & Hn).
  exists (c :: n). cbn [fst snd]. rewrite Ht. cbn [trace]. rewrite <-app_assoc. auto.
Qed.

Lemma emits_for_each {A R} (l : list A) (body : A → M G S C (option R)) :
  (∀ x, x ∈ l → emits P (body x)) → emits P (for_each l body).
Proof.
  induction l as [|x l IH]; intros H; simpl; [apply emits_ret|].
  apply emits_bind; [apply H; constructor|]. intros [r|]; [apply emits_ret|].
  apply IH. intros y Hy. apply H. by constructor.
Qed.
End emits.

Section self_rel.
Context (R : relation G) `{!PreOrder R}.

Lemma self_rel_keeps {A} (m : M G S C A) : (∀ w, self (m w).2 = self w) → self_rel R m.
Proof. intros H w. by rewrite H. Qed.

Lemma self_rel_ret {A} (a : A) : self_rel R (ret a).
Proof. by apply self_rel_keeps. Qed.
Lemma self_rel_get_self : self_rel R get_self.
Proof. by apply self_rel_keeps. Qed.
Lemma self_rel_time_now : self_rel R time_now.
Proof. by apply self_rel_keeps. Qed.
Lemma self_rel_time_window n : self_rel R (time_window n).
Proof. by apply self_rel_keeps. Qed.
Lemma self_rel_ask {A} (f : S → A) : self_rel R (ask f).
Proof. by apply self_rel_keeps. Qed.
Lemma self_rel_call {A} c (f : S → A * S) : self_rel R (call c f).
Proof. by apply self_rel_keeps. Qed.
Lemma self_rel_emit c : self_rel R (emit c).
Proof. by apply self_rel_keeps. Qed.
Lemma self_rel_locked {A} (f : G → A * G) : (∀ g, R g (f g).2) → self_rel R (locked f).
Proof. intros H w. apply H. Qed.
Lemma self_rel_modify (f : G → G) : (∀ g, R g (f g)) → self_rel R (modify f).
Proof. intros H. by apply self_rel_locked. Qed.

Lemma self_rel_bind {A B} (m : M G S C A) (k : A → M G S C B) :
  self_rel R m → (∀ a, self_rel R (k a)) → self_rel R (bind m k).
Proof. intros Hm Hk w. etrans; [apply Hm|apply Hk]. Qed.

Lemma self_rel_for_each {A B} (l : list A) (body : A → M G S C (option B)) :
  (∀ x, x ∈ l → self_rel R (body x)) → self_rel R (for_each l body).
Proof.
  induction l as [|x l IH]; intros H; simpl; [apply self_rel_ret|].
  apply self_rel_bind; [apply H; constructor|]. intros [r|]; [apply self_rel_ret|].
  apply IH. intros y Hy. apply H. by constructor.
Qed.
End self_rel.

(** [env_rel R m]: the outside before and after [m] is related by [R]. *)
Definition env_rel {A} (R : relation S) (m : M G S C A) : Prop :=
  ∀ w, R (env w) (env (m w).2).

Section env_rel.
Context (R : relation S) `{!PreOrder R}.

Lemma env_rel_keeps {A} (m : M G S C A) : (∀ w, env (m w).2 = env w) → env_rel R m.
Proof. intros H w. by rewrite H. Qed.
Lemma env_rel_call {A} c (f : S → A * S) : (∀ s, R s (f s).2) → env_rel R (call c f).
Proof. intros H w. apply H. Qed.
Lemma env_rel_bind {A B} (m : M G S C A) (k : A → M G S C B) :
  env_rel R m → (∀ a, env_rel R (k a)) → env_rel R (bind m k).
Proof. intros Hm Hk w. etrans; [apply Hm|apply Hk]. Qed.
Lemma env_rel_for_each {A B} (l : list A) (body : A → M G S C (option B)) :
  (∀ x, x ∈ l → env_rel R (body x)) → env_rel R (for_each l body).
Proof.
  induction l as [|x l IH]; intros Hl; cbn [for_each]; [by apply env_rel_keeps|].
  apply env_rel_bind; [apply Hl; constructor|]. intros [r|]; [by apply env_rel_keeps|].
  apply IH. intros y Hy. apply Hl. by constructor.
Qed.
Lemma env_rel_ask_bind {A B} (f : S → A) (k : A → M G S C B) :
  (∀ s a, f s = a → env_rel R (k a)) → env_rel R (bind (ask f) k).
Proof. intros Hk w. by apply (Hk (env w)). Qed.
Lemma env_rel_call_bind {A B} c (f : S → A * S) (k : A → M G S C B) :
  (∀ s, R s (f s).2) → (∀ s a s', f s = (a, s') → env_rel R (k a)) → env_rel R (bind (call c f) k).
Proof.
  intros Hc Hk w. etrans; [apply (Hc (env w))|]. rewrite run_call.
  destruct (f (env w)) as [a s'] eqn:E. by apply (Hk _ _ _ E (mkWorld _ s' _ _ _)).
Qed.
End env_rel.

#[export] Instance implied_preorder (I : G → Prop) : PreOrder (λ g g', I g → I g').
Proof. split; repeat intro; auto. Qed.

(** A read of the state hands its invariant to what follows. *)
Lemma keeps_get_self {A} (I : G → Prop) (k : G → M G S C A) :
  (∀ g, I g → keeps I (k g)) → keeps I (bind get_self k).
Proof. intros Hk w Hw. by apply (Hk (self w) Hw w). Qed.

Section keeps.
Context (I : G → Prop).

Lemma keeps_silent {A} (m : M G S C A) : (∀ w, self (m w).2 = self w) → keeps I m.
Proof. intros H w. by rewrite H. Qed.
Lemma keeps_locked {A} (f : G → A * G) : (∀ g, I g → I (f g).2) → keeps I (locked f).
Proof. intros H w. apply H. Qed.
Lemma keeps_modify (f : G → G) : (∀ g, I g → I (f g)) → keeps I (modify f).
Proof. intros H. by apply keeps_locked. Qed.
Lemma keeps_bind {A B} (m : M G S C A) (k : A → M G S C B) :
  keeps I m → (∀ a, keeps I (k a)) → keeps I (bind m k).
Proof. intros Hm Hk w Hw. by apply Hk, Hm. Qed.
Lemma keeps_for_each {A B} (l : list A) (body : A → M G S C (option B)) :
  (∀ x, x ∈ l → keeps I (body x)) → keeps I (for_each l body).
Proof. apply self_rel_for_each, _. Qed.
End keeps.

Lemma triple_bind {A B} P (m : M G S C A) (k : A → M G S C B) Q R :
  triple P m Q → (∀ a, triple (Q a) (k a) R) → triple P (bind m k) R.
Proof. intros Hm Hk w Hw. apply Hk, Hm, Hw. Qed.

Lemma triple_weaken {A} (P P' : World G S C → Prop) (m : M G S C A)
    (Q Q' : A → World G S C → Prop) :
  triple P m Q → (∀ w, P' w → P w) → (∀ a w, Q a w → Q' a w) → triple P' m Q'.
Proof. intros Hm HP HQ w Hw. auto. Qed.
End effect_logic.

(** [env_triple P m Q]: from an outside in [P], [m] answers [a] and leaves an
    outside in [Q a]. *)
Section env_triple.
Context {G S C : Type}.

Definition env_triple {A} (P : S → Prop) (m : M G S C A) (Q : A → S → Prop) : Prop :=
  ∀ w, P (env w) → Q (m w).1 (env (m w).2).

Lemma env_triple_ret {A} (P : S → Prop) (a : A) (Q : A → S → Prop) :
  (∀ s, P s → Q a s) → env_triple P (ret a) Q.
Proof. intros HQ w. apply HQ. Qed.
Lemma env_triple_ask {A} (P : S → Prop) (f : S → A) (Q : A → S → Prop) :
  (∀ s, P s → Q (f s) s) → env_triple P (ask f) Q.
Proof. intros HQ w. apply HQ. Qed.
Lemma env_triple_call {A} (P : S → Prop) c (f : S → A * S) (Q : A → S → Prop) :
  (∀ s a s', f s = (a, s') → P s → Q a s') → env_triple P (call c f) Q.
Proof. intros HQ w Hw. apply (HQ (env w)); [apply surjective_pairing|done]. Qed.
Lemma env_triple_silent {A} (P : S → Prop) (m : M G S C A) :
  (∀ w, env (m w).2 = env w) → env_triple P m (λ _ s, P s).
Proof. intros H w Hw. by rewrite H. Qed.
Lemma env_triple_bind {A B} P (m : M G S C A) (k : A → M G S C B) Q R :
  env_triple P m Q → (∀ a, env_triple (Q a) (k a) R) → env_triple P (bind m k) R.
Proof. intros Hm Hk w Hw. apply Hk, Hm, Hw. Qed.
Lemma env_triple_weaken {A} (P P' : S → Prop) (m : M G S C A) (Q Q' : A → S → Prop) :
  env_triple P m Q → (∀ s, P' s → P s) → (∀ a s, Q a s → Q' a s) → env_triple P' m Q'.
Proof. intros Hm HP HQ w Hw. auto. Qed.
Lemma env_triple_pre {A} (F : Prop) (P : S → Prop) (m : M G S C A) (Q : A → S → Prop) :
  (F → env_triple P m Q) → env_triple (λ s, F ∧ P s) m Q.
Proof. intros Hm w [HF Hw]. by apply Hm. Qed.
Lemma env_triple_false {A} (m : M G S C A) (Q : A → S → Prop) : env_triple (λ _, False) m Q.
Proof. by intros w []. Qed.
End env_triple.

(** [traced Q m]: the answer of [m] and the calls it adds satisfy [Q]. *)
Section traced.
Context {G S C : Type}.

Definition traced {A} (Q : A → list C → Prop) (m : M G S C A) : Prop :=
  ∀ w, ∃ new, trace (m w).2 = trace w ++ new ∧ Q (m w).1 new.

Lemma traced_ret {A} (Q : A → list C → Prop) a : Q a [] → traced Q (ret a).
Proof. intros HQ w. exists []. by rewrite app_nil_r. Qed.
Lemma traced_silent {A} (Q : A → list C → Prop) (m : M G S C A) :
  (∀ w, trace (m w).2 = trace w) → (∀ a, Q a []) → traced Q m.
Proof. intros Hm HQ w. exists []. by rewrite app_nil_r, Hm. Qed.
Lemma traced_call {A} (Q : A → list C → Prop) c (f : S → A * S) :
  (∀ a, Q a [c]) → traced Q (call c f).
Proof. intros HQ w. by exists [c]. Qed.
Lemma traced_call_answer {A} (Q : A → list C → Prop) c (f : S → A * S) :
  (∀ s, Q (f s).1 [c]) → traced Q (call c f).
Proof. intros HQ w. exists [c]. split; [done|apply HQ]. Qed.
Lemma traced_bind {A B} (Q : A → list C → Prop) (R : B → list C → Prop) (m : M G S C A) (k : A → M G S C B) :
  traced Q m → (∀ a l, Q a l → traced (λ b l', R b (l ++ l')) (k a)) → traced R (bind m k).
Proof.
  intros Hm Hk w. destruct (Hm w) as (l & Hl & HQ). destruct (Hk _ _ HQ (m w).2) as (l' & Hl' & HR).
  exists (l ++ l'). rewrite run_step, Hl', Hl, app_assoc. done.
Qed.
Lemma traced_weaken {A} (Q R : A → list C → Prop) (m : M G S C A) :
  traced Q m → (∀ a l, Q a l → R a l) → traced R m.
Proof. intros Hm HR w. destruct (Hm w) as (l & ? & ?). exists l. auto. Qed.
Lemma traced_of {A} (P : A → Prop) (Q : C → Prop) (m : M G S C A) :
  answers P m → emits Q m → traced (λ a l, P a ∧ Forall Q l) m.
Proof. intros HP HQ w. destruct (HQ w) as (l & ? & ?). exists l. auto. Qed.
End traced.

Create HintDb effects.
#[export] Hint Resolve emits_ret emits_get_self emits_locked emits_time_now emits_time_window
  emits_ask emits_call emits_emit : effects.
#[export] Hint Resolve self_rel_ret self_rel_get_self self_rel_time_now self_rel_time_window
  self_rel_ask self_rel_call self_rel_emit self_rel_locked self_rel_modify : effects.
#[export] Hint Extern 1 (env_rel _ _) => (apply env_rel_keeps; [apply _|intros; reflexivity]) : effects.
#[export] Hint Resolve env_rel_call : effects.
#[export] Hint Extern 1 (keeps _ _) => (apply keeps_silent; intros; reflexivity) : effects.
#[export] Hint Resolve keeps_locked keeps_modify : effects.

(** Walk through a computation for [emits] or [self_rel], leaving the calls
    and critical sections that need an argument. *)
Ltac effects_step :=
  match goal with
  | |- keeps _ (bind_ok _ _) => unfold bind_ok
  | |- emits _ (bind_ok _ _) => unfold bind_ok
  | |- self_rel _ (bind_ok _ _) => unfold bind_ok
  | |- env_rel _ (bind_ok _ _) => unfold bind_ok
  | |- emits _ (deferred _ _) => unfold deferred
  | |- self_rel _ (deferred _ _) => unfold deferred
  | |- env_rel _ (deferred _ _) => unfold deferred
  | |- emits _ (when _ _) => unfold when
  | |- self_rel _ (when _ _) => unfold when
  | |- env_rel _ (when _ _) => unfold when
  | |- keeps _ (bind get_self _) => apply keeps_get_self; intros ? ?
  | |- keeps _ (bind _ _) => apply keeps_bind; [|intros ?]
  | |- keeps _ (for_each _ _) => apply keeps_for_each; intros ? ?
  | |- keeps _ (match ?x with _ => _ end) => destruct x eqn:?
  | |- keeps _ (let _ := _ in _) => cbv zeta
  | |- emits _ (bind _ _) => apply emits_bind; [|intros ?]
  | |- self_rel _ (bind _ _) => apply self_rel_bind; [apply _| |intros ?]
  | |- emits _ (for_each _ _) => apply emits_for_each; intros ? ?
  | |- self_rel _ (for_each _ _) => apply self_rel_for_each; [apply _|intros ? ?]
  | |- emits _ (match ?x with _ => _ end) => destruct x eqn:?
  | |- self_rel _ (match ?x with _ => _ end) => destruct x eqn:?
  | |- emits _ (modify _) => apply emits_locked
  | |- env_rel _ (bind _ _) => apply env_rel_bind; [apply _| |intros ?]
  | |- env_rel _ (match ?x with _ => _ end) => destruct x eqn:?
  | |- env_rel _ (let _ := _ in _) => cbv zeta
  | |- emits _ (let _ := _ in _) => cbv zeta
  | |- self_rel _ (let _ := _ in _) => cbv zeta
  | |- _ => solve [eauto with effects typeclass_instances]
  end.
Ltac effects := repeat effects_step.

(** ** Outsides that remember their states *)

(** An outside together with the states it went through, oldest first. *)
Definition logging {S A} (f : S → A * S) (sl : S * list S) : A * (S * list S) :=
  ((f sl.1).1, ((f sl.1).2, sl.2 ++ [(f sl.1).2])).

Lemma logging_inv {S A} (f : S → A * S) sl r sl' :
  logging f sl = (r, sl') → f sl.1 = (r, sl'.1).
Proof. unfold logging. intros [= <- <-]. cbn. apply surjective_pairing. Qed.

(** ** Sorting: Go's [sort.Slice]

    [sort.Slice] documents two things: the result is a permutation of the
    slice and it is sorted by the [less] function; it is not stable.  The
    development is stated for every function that does this. *)
Class SortSlice := {
  sort_slice : ∀ {A : Type}, (A → A → bool) → list A → list A;
  sort_slice_perm : ∀ A (less : A → A → bool) l, sort_slice less l ≡ₚ l;
  sort_slice_sorted : ∀ A (less : A → A → bool) l,
    (∀ x y, less x y = true → less y x = false) →
    (∀ x y z, less y x = false → less z y = false → less z x = false) →
    StronglySorted (λ x y, less y x = false) (sort_slice less l)
}.

(** The function used by the examples: what [sort.Slice] runs on slices of at
    most twelve elements, insertion sort. *)
Fixpoint insert_by {A} (less : A → A → bool) (x : A) (l : list A) : list A :=
  match l with
  | [] => [x]
  | y :: l' => if less x y then x :: l else y :: insert_by less x l'
  end.

Definition insertion_sort {A} (less : A → A → bool) (l : list A) : list A :=
  foldl (λ acc x, insert_by less x acc) [] l.

Lemma insert_by_perm {A} (less : A → A → bool) x l : insert_by less x l ≡ₚ x :: l.
Proof.
  induction l as [|y l IH]; simpl; [done|].
  destruct (less x y); [done|]. rewrite IH. constructor.
Qed.

Lemma insert_by_sorted {A} (less : A → A → bool) x l :
  (∀ x y, less x y = true → less y x = false) →
  (∀ x y z, less y x = false → less z y = false → less z x = false) →
  StronglySorted (λ x y, less y x = false) l →
  StronglySorted (λ x y, less y x = false) (insert_by less x l).
Proof.
  intros Hasym Htrans. induction 1 as [|y l Hl IH Hy]; simpl; [by repeat constructor|].
  destruct (less x y) eqn:Hxy.
  - constructor; [by constructor|]. constructor; [by apply Hasym|].
    eapply Forall_impl; [exact Hy|]. simpl. intros z Hz. eapply Htrans; eauto.
  - constructor; [done|]. rewrite insert_by_perm. by constructor.
Qed.

Lemma insertion_sort_acc_perm {A} (less : A → A → bool) l acc :
  foldl (λ acc x, insert_by less x acc) acc l ≡ₚ acc ++ l.
Proof.
  revert acc. induction l as [|x l IH]; intros acc; simpl; [by rewrite app_nil_r|].
  rewrite IH, insert_by_perm. simpl. by rewrite Permutation_middle.
Qed.

Program Definition insertion_sort_slice : SortSlice :=
  {| sort_slice := @insertion_sort |}.
Next Obligation. intros A less l. apply (insertion_sort_acc_perm less l []). Qed.
Next Obligation.
  intros A less l Hasym Htrans. unfold insertion_sort.
  assert (StronglySorted (λ x y, less y x = false) (@nil A)) as Hacc by constructor.
  revert Hacc. generalize (@nil A) as acc.
  induction l as [|x l IH]; intros acc Hacc; simpl; [done|].
  apply IH. by apply insert_by_sorted.
Qed.

(** Two sorted permutations of the same elements are equal when the order
    separates the elements. *)
Lemma sorted_perm_unique {A} (R : A → A → Prop) (l1 l2 : list A) :
  (∀ x y, x ∈ l1 → y ∈ l1 → R x y → R y x → x = y) →
  StronglySorted R l1 → StronglySorted R l2 → l1 ≡ₚ l2 → l1 = l2.
Proof.
  intros Hanti H1. revert l2 Hanti. induction H1 as [|x l1 H1 IH Hx]; intros l2 Hanti H2 Hp.
  { by apply Permutation_nil in Hp. }
  destruct H2 as [|y l2 H2 Hy]; [by apply Permutation_sym, Permutation_nil in Hp|].
  assert (x = y) as <-.
  { assert (x ∈ y :: l2) as Hxin by (rewrite <-Hp; constructor).
    assert (y ∈ x :: l1) as Hyin by (rewrite Hp; constructor).
    apply elem_of_cons in Hxin as [->|Hxin]; [done|].
    apply elem_of_cons in Hyin as [->|Hyin]; [done|].
    apply Hanti; [constructor|by constructor| |].
    - by eapply Forall_forall in Hx.
    - by eapply Forall_forall in Hy. }
  f_equal. apply IH; [|done|by eapply Permutation_cons_inv].
  intros a b Ha Hb. apply Hanti; by constructor.
Qed.

(** ** Ranging over a map

    The iteration over a Go map visits every entry once, in any order. *)
Class MapRange := {
  map_range : ∀ {A : Type}, gmap string A → list (string * A);
  map_range_perm : ∀ A (m : gmap string A), map_range m ≡ₚ map_to_list m
}.

Program Definition plain_range : MapRange := {| map_range A m := map_to_list m |}.
Next Obligation. done. Qed.
