(* ===== verification/Threads.v ===== *)
(** * Threads of atomic steps

    A computation of [M] runs alone.  A [thread] is the tree of the atomic steps
    of one: each node is an [action], a reading of the clock, a critical section,
    a read of the outside or a call, and its branches are the answers.  The class
    [Threaded] finds the thread of a computation and proves that running it
    without interruption is that computation, so the sequential properties are
    those of one schedule.  A pool of threads takes one action of one thread at
    a time.  [rg] is a rely-guarantee logic for threads; pools of threads without
    new ones end. *)

From stdpp Require Import relations well_founded.
From S2P Require Import Prelude.

(** ** Actions and threads *)

Section threads.
Context {G S C : Type}.

(** What is atomic.  [ALockedNow] is a critical section that reads the clock
    inside; [AWindow n] reads the clock [n] times, with no shared data used in
    between. *)
Inductive action : Type → Type :=
  | ATime : action Z
  | AWindow (n : nat) : action (nat → Z)
  | AGet : action G
  | ALocked {A} (f : G → A * G) : action A
  | ALockedNow {A} (f : Z → G → A * G) : action A
  | AAsk {A} (f : S → A) : action A
  | ACall {A} (c : C) (f : S → A * S) : action A
  | AEmit (c : C) : action unit.

Definition denote {A} (x : action A) : M G S C A :=
  match x in action T return M G S C T with
  | ATime => time_now
  | AWindow n => time_window n
  | AGet => get_self
  | ALocked f => locked f
  | ALockedNow f => bind time_now (λ now, locked (f now))
  | AAsk f => ask f
  | ACall c f => call c f
  | AEmit c => emit c
  end.

Inductive thread (A : Type) :=
  | Done (a : A)
  | Act {B} (x : action B) (k : B → thread A).
Arguments Done {A} a.
Arguments Act {A B} x k.

Fixpoint tbind {A B} (t : thread A) (k : A → thread B) : thread B :=
  match t with
  | Done a => k a
  | Act x l => Act x (λ b, tbind (l b) k)
  end.

(** A thread that is not interrupted. *)
Fixpoint run {A} (t : thread A) : M G S C A :=
  match t with
  | Done a => ret a
  | Act x k => bind (denote x) (λ b, run (k b))
  end.

Lemma run_tbind {A B} (t : thread A) (k : A → thread B) w :
  run (tbind t k) w = run (k (run t w).1) (run t w).2.
Proof. revert w. induction t as [a|D x l IH]; intros w; [done|]. cbn. unfold bind. by rewrite IH. Qed.

(** The computations that are sequences of actions. *)
Class Threaded {A} (m : M G S C A) := {
  thread_of : thread A;
  run_thread : ∀ w, run thread_of w = m w
}.
#[global] Arguments thread_of {A} m {_}.

Lemma run_act {A} (x : action A) w : run (Act x Done) w = denote x w.
Proof. cbn. unfold bind, ret. by destruct (denote x w). Qed.

Definition threaded_act {A} (x : action A) (m : M G S C A) (E : denote x = m) : Threaded m :=
  {| thread_of := Act x Done; run_thread w := eq_trans (run_act x w) (f_equal (λ m, m w) E) |}.

#[global] Instance threaded_ret {A} (a : A) : Threaded (ret a) :=
  {| thread_of := Done a; run_thread w := eq_refl |}.
#[global] Instance threaded_time_now : Threaded time_now := threaded_act ATime time_now eq_refl.
#[global] Instance threaded_time_window n : Threaded (time_window n) :=
  threaded_act (AWindow n) (time_window n) eq_refl.
#[global] Instance threaded_get_self : Threaded get_self := threaded_act AGet get_self eq_refl.
#[global] Instance threaded_locked {A} (f : G → A * G) : Threaded (locked f) :=
  threaded_act (ALocked f) (locked f) eq_refl.
#[global] Instance threaded_modify f : Threaded (modify f) :=
  threaded_act (ALocked (λ g, (tt, f g))) (modify f) eq_refl.
#[global] Instance threaded_ask {A} (f : S → A) : Threaded (ask f) :=
  threaded_act (AAsk f) (ask f) eq_refl.
#[global] Instance threaded_call {A} c (f : S → A * S) : Threaded (call c f) :=
  threaded_act (ACall c f) (call c f) eq_refl.
#[global] Instance threaded_emit c : Threaded (emit c) := threaded_act (AEmit c) (emit c) eq_refl.

#[global] Program Instance threaded_bind {A B} (m : M G S C A) (k : A → M G S C B)
    `{Threaded _ m} `{∀ a, Threaded (k a)} : Threaded (bind m k) :=
  {| thread_of := tbind (thread_of m) (λ a, thread_of (k a)) |}.
Next Obligation. intros A B m k ? ? w. by rewrite run_tbind, run_thread, run_thread. Qed.

#[global] Instance threaded_when b (m : M G S C unit) `{Threaded _ m} : Threaded (when b m) :=
  match b with true => _ | false => threaded_ret tt end.

#[global] Instance threaded_for_each {A R} (l : list A) (body : A → M G S C (option R))
    `{∀ x, Threaded (body x)} : Threaded (for_each l body).
Proof.
  induction l as [|x l IH]; cbn [for_each]; [apply _|].
  apply threaded_bind; [apply _|]. intros [v|]; [apply threaded_ret|exact IH].
Defined.

(** Computations read the clock; they do not set it. *)
Lemma threaded_clock {A} (m : M G S C A) `{Threaded _ m} w : clock (m w).2 = clock w.
Proof.
  rewrite <-run_thread. generalize (thread_of m) as t. clear. intros t. revert w.
  induction t as [a|D x k IH]; intros w; [done|]. cbn. unfold bind. rewrite IH. by destruct x.
Qed.
End threads.

Arguments action : clear implicits.
Arguments thread : clear implicits.
Arguments Done {G S C A} a.
Arguments Act {G S C A B} x k.

#[global] Typeclasses Opaque bind ret time_now time_window get_self locked modify ask call emit when
  for_each.

#[export] Hint Extern 3 (Threaded (match ?x with _ => _ end)) => destruct x : typeclass_instances.

(** ** Pools of threads

    Each thread of a pool has a label, which says what it works for. *)

Section pools.
Context {G S C J A : Type}.
Abbreviation W := (World G S C).
Abbreviation pool := (list (J * thread G S C A)).

Definition is_done (t : thread G S C A) : bool :=
  match t with Done _ => true | Act _ _ => false end.

(** The next action of a thread. *)
Definition thread_step (t : thread G S C A) (w : W) : option (thread G S C A * W) :=
  match t with
  | Done _ => None
  | Act x k => Some (k (denote x w).1, (denote x w).2)
  end.

(** One action of thread number [i]. *)
Definition pool_step (i : nat) (p : pool) (w : W) : option (pool * W) :=
  jt ← p !! i;
  r ← thread_step jt.2 w;
  Some (<[i := (jt.1, r.1)]> p, r.2).

Lemma pool_step_spec i p w p' w' :
  pool_step i p w = Some (p', w') ↔
  ∃ j (t t' : thread G S C A), p !! i = Some (j, t) ∧ thread_step t w = Some (t', w') ∧
    p' = <[i := (j, t')]> p.
Proof.
  unfold pool_step. split.
  - intros H. destruct (p !! i) as [[j t]|] eqn:Hi; simplify_eq/=.
    destruct (thread_step t w) as [[t' w1]|] eqn:Ht; simplify_eq/=. eauto 10.
  - intros (j & t & t' & Hi & Ht & ->). rewrite Hi. simpl. by rewrite Ht.
Qed.

(** A schedule: the threads that move, in order. *)
Fixpoint run_schedule (l : list nat) (p : pool) (w : W) : option (pool * W) :=
  match l with
  | [] => Some (p, w)
  | i :: l' => r ← pool_step i p w; run_schedule l' r.1 r.2
  end.

(** ** Every schedule ends *)

(** A thread after one of its actions, whatever the answer. *)
Definition child (t' t : thread G S C A) : Prop :=
  match t with Done _ => False | Act x k => ∃ b, t' = k b end.

Lemma child_wf : well_founded child.
Proof. intros t. induction t as [a|B x k IH]; constructor; [by intros t|]. intros t [b ->]. apply IH. Qed.

Lemma thread_step_child t w t' w' : thread_step t w = Some (t', w') → child t' t.
Proof. destruct t; simpl; [done|]. intros [= <- _]. eauto. Qed.

(** A pool with one thread after one of its actions. *)
Inductive shrinks : relation pool :=
  | shrinks_here j t t' p : child t' t → shrinks ((j, t') :: p) ((j, t) :: p)
  | shrinks_later jt p p' : shrinks p' p → shrinks (jt :: p') (jt :: p).

Lemma shrinks_wf : well_founded shrinks.
Proof.
  intros p. induction p as [|[j t] p IH]; [by constructor; inversion 1|].
  revert p IH. induction (child_wf t) as [t _ IHt].
  intros p Hp. induction Hp as [p Hp IHp]. constructor. intros p' Hs. inversion Hs; subst.
  - apply IHt; [done|]. by constructor.
  - by apply IHp.
Qed.

Lemma shrinks_insert i p j t t' : p !! i = Some (j, t) → child t' t → shrinks (<[i := (j, t')]> p) p.
Proof.
  revert i. induction p as [|jt p IH]; intros [|i] Hi Hc; simplify_eq/=; [by constructor|].
  constructor. by apply IH.
Qed.

Lemma pool_step_shrinks i p w p' w' : pool_step i p w = Some (p', w') → shrinks p' p.
Proof.
  intros (j & t & t' & Hi & Ht & ->)%pool_step_spec.
  eapply shrinks_insert; [done|]. by eapply thread_step_child.
Qed.

(** ** Rely and guarantee *)

Section rely.
Context (Rely : relation W) `{!PreOrder Rely}.

(** From a world, with anything [Rely] allows in between, every action of the
    thread is within [Guar], and it ends with [Q]. *)
Fixpoint rg {B} (Guar : relation W) (t : thread G S C B) (Q : B → W → Prop) (w : W) : Prop :=
  match t with
  | Done b => ∀ w', Rely w w' → Q b w'
  | Act x k => ∀ w', Rely w w' →
      Guar w' (denote x w').2 ∧ rg Guar (k (denote x w').1) Q (denote x w').2
  end.

Lemma rg_rely {B} Guar (t : thread G S C B) Q w w' : Rely w w' → rg Guar t Q w → rg Guar t Q w'.
Proof. destruct t; simpl; intros Hw Ht w2 Hw2; apply Ht; by transitivity w'. Qed.

Lemma rg_bind {B D} Guar (t : thread G S C B) (k : B → thread G S C D) Q w :
  rg Guar t (λ b, rg Guar (k b) Q) w → rg Guar (tbind t k) Q w.
Proof.
  revert w. induction t as [b|E x l IH]; intros w Ht; simpl in *; [by apply Ht|].
  intros w' Hw. destruct (Ht w' Hw) as [Hg Hr]. split; [done|]. by apply IH.
Qed.

Lemma rg_mono {B} Guar (t : thread G S C B) (Q Q' : B → W → Prop) w :
  (∀ b w', Q b w' → Q' b w') → rg Guar t Q w → rg Guar t Q' w.
Proof.
  intros HQ. revert w. induction t as [b|E x l IH]; intros w Ht; simpl in *; [auto|].
  intros w' Hw. destruct (Ht w' Hw). auto.
Qed.

Lemma rg_guar {B} (Guar Guar' : relation W) (t : thread G S C B) Q w :
  (∀ w w', Guar w w' → Guar' w w') → rg Guar t Q w → rg Guar' t Q w.
Proof.
  intros HG. revert w. induction t as [b|E x l IH]; intros w Ht; simpl in *; [auto|].
  intros w' Hw. destruct (Ht w' Hw). auto.
Qed.

(** Threads that guarantee what the others rely on. *)
Context (Guar : J → relation W) (Guar_rely : ∀ j w w', Guar j w w' → Rely w w').
Context (Post : J → A → W → Prop).

Definition rg_pool (p : pool) (w : W) : Prop :=
  Forall (λ jt, rg (Guar jt.1) jt.2 (Post jt.1) w) p.

Lemma rg_pool_rely p w w' : Rely w w' → rg_pool p w → rg_pool p w'.
Proof. intros Hw Hp. eapply Forall_impl; [exact Hp|]. intros jt. by apply rg_rely. Qed.

Lemma rg_pool_step i p w p' w' :
  rg_pool p w → pool_step i p w = Some (p', w') →
  rg_pool p' w' ∧ ∃ j, p.*1 !! i = Some j ∧ Guar j w w'.
Proof.
  intros Hp (j & t & t' & Hi & Ht & ->)%pool_step_spec.
  destruct t as [b|E x k]; simpl in Ht; simplify_eq.
  assert (rg (Guar j) (Act x k) (Post j) w) as Hrg.
  { eapply Forall_lookup_1 in Hp; [|exact Hi]. exact Hp. }
  destruct (Hrg w ltac:(reflexivity)) as [HG Hrg'].
  split; [|exists j; split; [by rewrite list_lookup_fmap, Hi|done]].
  apply Forall_insert; [|done]. eapply rg_pool_rely; [by eapply Guar_rely|done].
Qed.
End rely.

(** ** A thread that runs alone *)

Lemma run_alone (p : pool) i j (t : thread G S C A) w :
  p !! i = Some (j, t) →
  ∃ n, run_schedule (replicate n i) p w = Some (<[i := (j, Done (run t w).1)]> p, (run t w).2).
Proof.
  revert p w. induction t as [a|B x k IH]; intros p w Hi.
  - exists 0%nat. simpl. by rewrite list_insert_id.
  - destruct (IH (denote x w).1 (<[i := (j, k (denote x w).1)]> p) (denote x w).2) as [n Hn].
    { apply list_lookup_insert_eq. by eapply lookup_lt_Some. }
    exists (Datatypes.S n). cbn [replicate run_schedule]. unfold pool_step. rewrite Hi. cbn.
    rewrite Hn, list_insert_insert_eq. done.
Qed.
End pools.
