(* ===== verification/GoStrings.v ===== *)
(** * Go's [strings] and [unicode/utf8] packages

    A Go string is a sequence of bytes: here a [string], whose [ascii]
    characters are the bytes.  This file models the functions of [strings] the
    program calls, as the Go library defines them, with the lemmas the
    components share.  The two tables of the [unicode] package are the class
    [Unicode]: only their ASCII part is fixed. *)

From S2P Require Import Prelude.

(** The value of a byte. *)
Definition code (c : ascii) : Z := Z.of_N (N_of_ascii c).
Definition byte (z : Z) : ascii := ascii_of_N (Z.to_N z).

Definition newline : ascii := "010"%char.
Definition carriage_return : ascii := "013"%char.
Definition tab : ascii := "009"%char.
Definition dquote : ascii := "034"%char.
Definition backslash : ascii := "092"%char.
Definition slash : ascii := "047"%char.
Definition dash : ascii := "045"%char.

(** The one-byte string. *)
Definition str1 (c : ascii) : string := String c EmptyString.

Definition space : string := str1 " "%char.
Definition nl : string := str1 newline.

(** ** Predicates over the bytes *)

Fixpoint all_bytes (f : ascii → bool) (s : string) : bool :=
  match s with
  | EmptyString => true
  | String c s' => f c && all_bytes f s'
  end.

Fixpoint any_byte (f : ascii → bool) (s : string) : bool :=
  match s with
  | EmptyString => false
  | String c s' => f c || any_byte f s'
  end.

Definition contains_byte (c : ascii) (s : string) : bool := any_byte (Ascii.eqb c) s.

(** [strings.ContainsAny(s, chars)], for ASCII [chars]. *)
Definition ContainsAny (s chars : string) : bool :=
  any_byte (λ c, contains_byte c chars) s.

(** ** Prefixes and substrings *)

Fixpoint HasPrefix (s p : string) : bool :=
  match p, s with
  | EmptyString, _ => true
  | String _ _, EmptyString => false
  | String a p', String b s' => Ascii.eqb a b && HasPrefix s' p'
  end.

Fixpoint drop_bytes (n : nat) (s : string) : string :=
  match n, s with
  | O, _ => s
  | S _, EmptyString => EmptyString
  | S n', String _ s' => drop_bytes n' s'
  end.

Fixpoint take_bytes (n : nat) (s : string) : string :=
  match n, s with
  | O, _ | _, EmptyString => EmptyString
  | S n', String c s' => String c (take_bytes n' s')
  end.

Definition TrimPrefix (s p : string) : string :=
  if HasPrefix s p then drop_bytes (String.length p) s else s.

(** [strings.Contains(s, sub)]. *)
Fixpoint Contains (s sub : string) : bool :=
  HasPrefix s sub ||
  match s with
  | EmptyString => false
  | String _ s' => Contains s' sub
  end.

(** The part of [s] before its first byte [c] ([s[:strings.Index(s, c)]]), or
    all of [s] when there is none. *)
Fixpoint before_byte (c : ascii) (s : string) : string :=
  match s with
  | EmptyString => EmptyString
  | String a s' => if Ascii.eqb c a then EmptyString else String a (before_byte c s')
  end.

(** What follows the first byte [c], when there is one. *)
Fixpoint after_byte (c : ascii) (s : string) : option string :=
  match s with
  | EmptyString => None
  | String a s' => if Ascii.eqb c a then Some s' else after_byte c s'
  end.

(** ** Splitting and joining *)

(** [strings.Split(s, sep)] for a one-byte separator. *)
Fixpoint Split (c : ascii) (s : string) : list string :=
  match s with
  | EmptyString => [EmptyString]
  | String a s' =>
      if Ascii.eqb c a then EmptyString :: Split c s'
      else match Split c s' with
           | [] => [str1 a]
           | x :: xs => String a x :: xs
           end
  end.

(** [strings.SplitN(s, sep, 2)] for a one-byte separator. *)
Definition SplitN2 (c : ascii) (s : string) : list string :=
  match after_byte c s with
  | None => [s]
  | Some r => [before_byte c s; r]
  end.

(** [strings.Join(l, sep)]. *)
Fixpoint Join (sep : string) (l : list string) : string :=
  match l with
  | [] => EmptyString
  | [x] => x
  | x :: l' => x +:+ sep +:+ Join sep l'
  end.

(** [strings.ReplaceAll(s, old, new)] for a one-byte [old]. *)
Fixpoint ReplaceAll (c : ascii) (r s : string) : string :=
  match s with
  | EmptyString => EmptyString
  | String a s' => (if Ascii.eqb c a then r else str1 a) +:+ ReplaceAll c r s'
  end.

(** ** Trimming *)

Fixpoint trim_left_by (f : ascii → bool) (s : string) : string :=
  match s with
  | EmptyString => EmptyString
  | String c s' => if f c then trim_left_by f s' else s
  end.

Fixpoint trim_right_by (f : ascii → bool) (s : string) : string :=
  match s with
  | EmptyString => EmptyString
  | String c s' =>
      match trim_right_by f s' with
      | EmptyString => if f c then EmptyString else str1 c
      | r => String c r
      end
  end.

(** [strings.Trim(s, c)] for a one-byte ASCII cutset. *)
Definition Trim (c : ascii) (s : string) : string :=
  trim_right_by (Ascii.eqb c) (trim_left_by (Ascii.eqb c) s).

(** [strings.TrimSuffix(s, c)] for a one-byte suffix. *)
Fixpoint TrimSuffix (c : ascii) (s : string) : string :=
  match s with
  | EmptyString => EmptyString
  | String a EmptyString => if Ascii.eqb c a then EmptyString else s
  | String a s' => String a (TrimSuffix c s')
  end.

(** [unicode.IsSpace] on the encodings of its code points: the six ASCII
    spaces, U+0085, U+00A0, U+1680, U+2000-U+200A, U+2028, U+2029, U+202F,
    U+205F and U+3000. *)
Definition space1 (a : ascii) : bool :=
  let x := code a in ((9 <=? x) && (x <=? 13)) || (x =? 32).
Definition space2 (a b : ascii) : bool :=
  (code a =? 194) && ((code b =? 133) || (code b =? 160)).
Definition space3 (a b c : ascii) : bool :=
  let x := code a in let y := code b in let z := code c in
  ((x =? 225) && (y =? 154) && (z =? 128)) ||
  ((x =? 226) && (y =? 128) &&
     (((128 <=? z) && (z <=? 138)) || (z =? 168) || (z =? 169) || (z =? 175))) ||
  ((x =? 226) && (y =? 129) && (z =? 159)) ||
  ((x =? 227) && (y =? 128) && (z =? 128)).

Fixpoint TrimLeftSpace (s : string) : string :=
  match s with
  | EmptyString => EmptyString
  | String a s1 =>
      if space1 a then TrimLeftSpace s1
      else match s1 with
           | EmptyString => s
           | String b s2 =>
               if space2 a b then TrimLeftSpace s2
               else match s2 with
                    | EmptyString => s
                    | String c s3 => if space3 a b c then TrimLeftSpace s3 else s
                    end
           end
  end.

(** Trailing white space is a suffix that [TrimLeftSpace] removes whole. *)
Fixpoint TrimRightSpace (s : string) : string :=
  match TrimLeftSpace s with
  | EmptyString => EmptyString
  | String _ _ =>
      match s with
      | EmptyString => EmptyString
      | String c s' => String c (TrimRightSpace s')
      end
  end.

(** [strings.TrimSpace(s)]. *)
Definition TrimSpace (s : string) : string := TrimRightSpace (TrimLeftSpace s).

(** ** Runes *)

Definition RuneError : Z := 65533.

Definition in_range (lo hi : Z) (c : ascii) : bool := (lo <=? code c) && (code c <=? hi).
Definition cont (c : ascii) : bool := in_range 128 191 c.
Definition cont_bits (c : ascii) : Z := code c - 128.

(** The range of the second byte after the leading byte [x] of a three- or
    four-byte encoding ([utf8.acceptRanges]). *)
Definition accept (x : Z) (c : ascii) : bool :=
  if x =? 224 then in_range 160 191 c
  else if x =? 237 then in_range 128 159 c
  else if x =? 240 then in_range 144 191 c
  else if x =? 244 then in_range 128 143 c
  else cont c.

(** The encodings of a string: [None] for a byte that starts no valid one. *)
Fixpoint decode (s : string) : list (option Z) :=
  match s with
  | EmptyString => []
  | String a s1 =>
      let x := code a in
      if x <? 128 then Some x :: decode s1
      else match s1 with
           | String b s2 =>
               if (194 <=? x) && (x <=? 223) && cont b
               then Some ((x - 192) * 64 + cont_bits b) :: decode s2
               else match s2 with
                    | String c s3 =>
                        if (224 <=? x) && (x <=? 239) && accept x b && cont c
                        then Some ((x - 224) * 4096 + cont_bits b * 64 + cont_bits c) :: decode s3
                        else match s3 with
                             | String d s4 =>
                                 if (240 <=? x) && (x <=? 244) && accept x b && cont c && cont d
                                 then Some ((x - 240) * 262144 + cont_bits b * 4096 +
                                            cont_bits c * 64 + cont_bits d) :: decode s4
                                 else None :: decode s1
                             | EmptyString => None :: decode s1
                             end
                    | EmptyString => None :: decode s1
                    end
           | EmptyString => None :: decode s1
           end
  end.

(** The runes of a string ([for _, r := range s]). *)
Definition runes (s : string) : list Z := default RuneError <$> decode s.

(** [utf8.AppendRune]. *)
Definition encode_rune (r : Z) : string :=
  if (0 <=? r) && (r <? 128) then str1 (byte r)
  else if (128 <=? r) && (r <? 2048) then
    String (byte (192 + r / 64)) (str1 (byte (128 + r mod 64)))
  else if ((2048 <=? r) && (r <? 55296)) || ((57344 <=? r) && (r <? 65536)) then
    String (byte (224 + r / 4096))
      (String (byte (128 + r / 64 mod 64)) (str1 (byte (128 + r mod 64))))
  else if (65536 <=? r) && (r <=? 1114111) then
    String (byte (240 + r / 262144))
      (String (byte (128 + r / 4096 mod 64))
         (String (byte (128 + r / 64 mod 64)) (str1 (byte (128 + r mod 64)))))
  else String (byte 239) (String (byte 191) (str1 (byte 189))).

(** [strings.Map(f, s)], for a mapping that drops no rune. *)
Definition MapRunes (f : Z → Z) (s : string) : string :=
  foldr (λ r acc, encode_rune (f r) +:+ acc) EmptyString (runes s).

(** The tables of the [unicode] package. *)
Class Unicode := {
  to_lower : Z → Z;
  is_print : Z → bool;
  to_lower_ascii : ∀ r, 0 ≤ r < 128 →
    to_lower r = if (65 <=? r) && (r <=? 90) then r + 32 else r;
  is_print_ascii : ∀ r, 0 ≤ r < 128 → is_print r = (32 <=? r) && (r <=? 126)
}.

(** Tables that know the ASCII code points only. *)
Program Definition ascii_unicode : Unicode := {|
  to_lower r := if (65 <=? r) && (r <=? 90) then r + 32 else r;
  is_print r := (32 <=? r) && (r <=? 126)
|}.
Next Obligation. done. Qed.
Next Obligation. done. Qed.

(** [strings.ToLower(s)]. *)
Definition ToLower `{Unicode} (s : string) : string := MapRunes to_lower s.

(** ** Examples *)

Example trim_space_ex :
  TrimSpace (" a b" +:+ nl +:+ String (byte 227) (String (byte 128) (str1 (byte 128)))) = "a b".
Proof. vm_compute. reflexivity. Qed.
Example split_ex : Split slash "v1/devices//x/" = ["v1"; "devices"; ""; "x"; ""].
Proof. reflexivity. Qed.
Example splitn_ex : SplitN2 slash "a/b/c" = ["a"; "b/c"].
Proof. reflexivity. Qed.
Example to_lower_ex : @ToLower ascii_unicode "Ab-Z9" = "ab-z9".
Proof. vm_compute. reflexivity. Qed.
Example runes_ex : runes ("A" +:+ encode_rune 8364 +:+ str1 (byte 255)) = [65; 8364; RuneError].
Proof. vm_compute. reflexivity. Qed.

(** ** Lemmas *)

Lemma code_range c : 0 ≤ code c < 256.
Proof. unfold code. pose proof (N_ascii_bounded c). lia. Qed.

Lemma code_inj a b : code a = code b → a = b.
Proof.
  unfold code. intros H. apply N2Z.inj in H.
  by rewrite <-(ascii_N_embedding a), <-(ascii_N_embedding b), H.
Qed.

Lemma byte_code c : byte (code c) = c.
Proof. unfold byte, code. by rewrite N2Z.id, ascii_N_embedding. Qed.

Lemma code_byte z : 0 ≤ z < 256 → code (byte z) = z.
Proof. intros H. unfold code, byte. rewrite N_ascii_embedding by lia. lia. Qed.

Lemma app_empty_r (s : string) : s +:+ "" = s.
Proof. induction s as [|c s IH]; [done|]. unfold String.app in *. simpl. by rewrite IH. Qed.

Lemma app_cons c (s t : string) : String c s +:+ t = String c (s +:+ t).
Proof. done. Qed.

Lemma app_nil (t : string) : "" +:+ t = t.
Proof. done. Qed.

Lemma app_assoc_s (s t u : string) : (s +:+ t) +:+ u = s +:+ t +:+ u.
Proof. induction s as [|c s IH]; [done|]. by rewrite !app_cons, IH. Qed.

Lemma length_app_s (s t : string) :
  String.length (s +:+ t) = (String.length s + String.length t)%nat.
Proof. induction s as [|c s IH]; [done|]. rewrite app_cons. simpl. by rewrite IH. Qed.

Lemma app_inj_l (s t u : string) : s +:+ t = s +:+ u → t = u.
Proof. induction s as [|c s IH]; [done|]. rewrite !app_cons. intros [= H]. auto. Qed.

Lemma all_bytes_app f s t : all_bytes f (s +:+ t) = all_bytes f s && all_bytes f t.
Proof.
  induction s as [|c s IH]; [done|]. rewrite app_cons. simpl. by rewrite IH, andb_assoc.
Qed.

Lemma any_byte_app f s t : any_byte f (s +:+ t) = any_byte f s || any_byte f t.
Proof.
  induction s as [|c s IH]; [done|]. rewrite app_cons. simpl. by rewrite IH, orb_assoc.
Qed.

Lemma all_bytes_impl (f g : ascii → bool) s :
  (∀ c, f c = true → g c = true) → all_bytes f s = true → all_bytes g s = true.
Proof.
  intros Hfg. induction s as [|c s IH]; simpl; [done|]. intros H. bool_prop.
  apply andb_true_iff. auto.
Qed.

Lemma any_byte_negb f s : any_byte f s = negb (all_bytes (λ c, negb (f c)) s).
Proof.
  induction s as [|c s IH]; [done|]. simpl. rewrite IH.
  by destruct (f c), (all_bytes _ s).
Qed.

(** Strings without the byte [c]. *)
Definition lacks (c : ascii) (s : string) : bool := all_bytes (λ a, negb (Ascii.eqb c a)) s.

Lemma lacks_contains c s : lacks c s = negb (contains_byte c s).
Proof. unfold lacks, contains_byte. by rewrite any_byte_negb, negb_involutive. Qed.

Lemma lacks_app c s t : lacks c (s +:+ t) = lacks c s && lacks c t.
Proof. apply all_bytes_app. Qed.

Lemma before_byte_app c s t :
  lacks c s = true → before_byte c (s +:+ String c t) = s.
Proof.
  unfold lacks. induction s as [|a s IH]; intros H.
  - simpl. by rewrite Ascii.eqb_refl.
  - rewrite app_cons. simpl in *. bool_prop. rewrite H. by rewrite IH.
Qed.

Lemma after_byte_app c s t :
  lacks c s = true → after_byte c (s +:+ String c t) = Some t.
Proof.
  unfold lacks. induction s as [|a s IH]; intros H.
  - simpl. by rewrite Ascii.eqb_refl.
  - rewrite app_cons. simpl in *. bool_prop. rewrite H. by rewrite IH.
Qed.

Lemma before_byte_lacks c s : lacks c (before_byte c s) = true.
Proof.
  unfold lacks. induction s as [|a s IH]; simpl; [done|].
  destruct (Ascii.eqb c a) eqn:E; simpl; [done|]. by rewrite E.
Qed.

Lemma before_byte_none c s : after_byte c s = None → before_byte c s = s.
Proof.
  induction s as [|a s IH]; simpl; [done|]. destruct (Ascii.eqb c a); [done|].
  intros H. by rewrite IH.
Qed.

Lemma after_byte_some c s r :
  after_byte c s = Some r → s = before_byte c s +:+ String c r.
Proof.
  induction s as [|a s IH]; simpl; [done|]. destruct (Ascii.eqb c a) eqn:E.
  - intros [= ->]. apply Ascii.eqb_eq in E as ->. done.
  - intros H. rewrite app_cons. by rewrite <-IH.
Qed.

Lemma after_byte_lacks c s : after_byte c s = None ↔ lacks c s = true.
Proof.
  unfold lacks. induction s as [|a s IH]; simpl; [done|].
  destruct (Ascii.eqb c a) eqn:E; simpl; [done|]. exact IH.
Qed.

(** Splitting is inverted by joining, and joining pieces without the separator
    by splitting. *)
Lemma Split_nonempty c s : Split c s ≠ [].
Proof. destruct s as [|a s]; simpl; [done|]. case_match; [done|]. by case_match. Qed.

Lemma Join_cons sep x l : l ≠ [] → Join sep (x :: l) = x +:+ sep +:+ Join sep l.
Proof. destruct l; done. Qed.

Lemma Join_Split c s : Join (str1 c) (Split c s) = s.
Proof.
  induction s as [|a s IH]; simpl; [done|]. pose proof (Split_nonempty c s) as Hne.
  destruct (Ascii.eqb c a) eqn:E.
  - apply Ascii.eqb_eq in E as ->. rewrite Join_cons by done. by rewrite IH.
  - destruct (Split c s) as [|x xs]; [done|]. destruct xs as [|y ys]; simpl in *; by rewrite <-IH.
Qed.

Lemma Split_lacks c s : lacks c s = true → Split c s = [s].
Proof.
  unfold lacks. induction s as [|a s IH]; simpl; intros H; [done|].
  bool_prop. rewrite H. by rewrite IH.
Qed.

Lemma Split_app c s t : lacks c s = true → Split c (s +:+ String c t) = s :: Split c t.
Proof.
  unfold lacks. induction s as [|a s IH]; intros H.
  - simpl. by rewrite Ascii.eqb_refl.
  - rewrite app_cons. simpl in *. bool_prop. rewrite H. by rewrite IH.
Qed.

Lemma Split_app_all c s t : Split c (s +:+ String c t) = Split c s ++ Split c t.
Proof.
  induction s as [|a s IH]; [rewrite app_nil; cbn [Split]; by rewrite Ascii.eqb_refl|].
  rewrite app_cons. cbn [Split]. rewrite IH. destruct (Ascii.eqb c a); [done|].
  destruct (Split c s) eqn:E; [by apply Split_nonempty in E|done].
Qed.

Lemma Split_pieces_lack c s : Forall (λ x, lacks c x = true) (Split c s).
Proof.
  unfold lacks. induction s as [|a s IH]; simpl; [by repeat constructor|].
  destruct (Ascii.eqb c a) eqn:E; [by constructor|].
  destruct (Split c s) as [|x xs].
  - constructor; [|done]. simpl. by rewrite E.
  - inversion IH; subst. constructor; [|done]. simpl. by rewrite E.
Qed.

Lemma Split_Join c l :
  l ≠ [] → Forall (λ x, lacks c x = true) l → Split c (Join (str1 c) l) = l.
Proof.
  intros Hne Hl. induction Hl as [|x l Hx Hl IH]; [done|].
  destruct l as [|y l]; [by apply Split_lacks|].
  rewrite Join_cons by done. change (str1 c +:+ ?t) with (String c t).
  by rewrite Split_app, IH.
Qed.

Lemma HasPrefix_app p s : HasPrefix (p +:+ s) p = true.
Proof.
  induction p as [|a p IH]; [by destruct s|]. rewrite app_cons. simpl.
  by rewrite Ascii.eqb_refl, IH.
Qed.

Lemma HasPrefix_spec s p : HasPrefix s p = true ↔ ∃ t, s = p +:+ t.
Proof.
  split; [|intros [t ->]; apply HasPrefix_app].
  revert s. induction p as [|a p IH]; intros s H; [by exists s|].
  destruct s as [|b s]; simpl in H; [done|]. bool_prop.
  apply Ascii.eqb_eq in H as ->. destruct (IH s) as [t ->]; [done|]. by exists t.
Qed.

Lemma drop_bytes_app p s : drop_bytes (String.length p) (p +:+ s) = s.
Proof. induction p; [done|]. by rewrite app_cons. Qed.

Lemma TrimPrefix_app p s : TrimPrefix (p +:+ s) p = s.
Proof. unfold TrimPrefix. by rewrite HasPrefix_app, drop_bytes_app. Qed.

Lemma length_take_bytes n s : String.length (take_bytes n s) = Nat.min n (String.length s).
Proof. revert s. induction n as [|n IH]; intros [|c s]; simpl; auto. Qed.

Lemma length_trim_left_by f s : (String.length (trim_left_by f s) ≤ String.length s)%nat.
Proof. induction s as [|c s IH]; simpl; [done|]. destruct (f c); simpl; lia. Qed.

Lemma length_trim_right_by f s : (String.length (trim_right_by f s) ≤ String.length s)%nat.
Proof.
  induction s as [|c s IH]; simpl; [done|].
  destruct (trim_right_by f s) as [|a r]; [destruct (f c); simpl; lia|]. simpl in *. lia.
Qed.

Lemma length_Trim c s : (String.length (Trim c s) ≤ String.length s)%nat.
Proof.
  unfold Trim. etrans; [apply length_trim_right_by|apply length_trim_left_by].
Qed.

Lemma trim_left_by_all f g s : all_bytes g s = true → all_bytes g (trim_left_by f s) = true.
Proof.
  induction s as [|c s IH]; simpl; [done|]. intros H. bool_prop.
  destruct (f c); [auto|]. simpl. by apply andb_true_iff.
Qed.

Lemma trim_right_by_all f g s : all_bytes g s = true → all_bytes g (trim_right_by f s) = true.
Proof.
  induction s as [|c s IH]; simpl; [done|]. intros H. bool_prop.
  destruct (trim_right_by f s) as [|a r]; [destruct (f c); simpl; by rewrite ?H|].
  simpl. rewrite H. simpl. by apply IH.
Qed.

Lemma TrimLeftSpace_cons a s1 :
  TrimLeftSpace (String a s1) =
    if space1 a then TrimLeftSpace s1
    else match s1 with
         | EmptyString => String a s1
         | String b s2 =>
             if space2 a b then TrimLeftSpace s2
             else match s2 with
                  | EmptyString => String a s1
                  | String c s3 => if space3 a b c then TrimLeftSpace s3 else String a s1
                  end
         end.
Proof. done. Qed.

Lemma all_bytes_tail g c s : all_bytes g (String c s) = true → all_bytes g s = true.
Proof. simpl. intros H. by bool_prop. Qed.

Lemma TrimLeftSpace_all g s : all_bytes g s = true → all_bytes g (TrimLeftSpace s) = true.
Proof.
  induction s as [s IH] using (induction_ltof1 _ String.length). unfold ltof in IH.
  destruct s as [|a s1]; [done|]. intros H. rewrite TrimLeftSpace_cons.
  pose proof (all_bytes_tail _ _ _ H) as H1.
  destruct (space1 a); [apply IH; [simpl; lia|done]|].
  destruct s1 as [|b s2]; [done|]. pose proof (all_bytes_tail _ _ _ H1) as H2.
  destruct (space2 a b); [apply IH; [simpl; lia|done]|].
  destruct s2 as [|c s3]; [done|]. pose proof (all_bytes_tail _ _ _ H2) as H3.
  destruct (space3 a b c); [apply IH; [simpl; lia|done]|done].
Qed.

Lemma TrimRightSpace_all g s : all_bytes g s = true → all_bytes g (TrimRightSpace s) = true.
Proof.
  induction s as [|c s IH]; [done|]. intros H.
  change (TrimRightSpace (String c s)) with
    (match TrimLeftSpace (String c s) with
     | EmptyString => EmptyString | String _ _ => String c (TrimRightSpace s) end).
  destruct (TrimLeftSpace (String c s)); [done|]. simpl in *. bool_prop. by rewrite H, IH.
Qed.

Lemma TrimSpace_all g s : all_bytes g s = true → all_bytes g (TrimSpace s) = true.
Proof. intros. by apply TrimRightSpace_all, TrimLeftSpace_all. Qed.

(** A byte that is printed and is no space. *)
Definition visible (c : ascii) : bool := in_range 33 126 c.

Lemma TrimLeftSpace_visible c s : visible c = true → TrimLeftSpace (String c s) = String c s.
Proof.
  unfold visible, in_range. intros H. bool_prop. rewrite TrimLeftSpace_cons.
  assert (space1 c = false) as ->.
  { unfold space1. cbv zeta. apply orb_false_iff. split; [|lia]. apply andb_false_iff. right. lia. }
  destruct s as [|b s]; [done|].
  assert (space2 c b = false) as ->.
  { unfold space2. apply andb_false_iff. left. lia. }
  destruct s as [|d s]; [done|].
  assert (space3 c b d = false) as ->; [|done].
  unfold space3. cbv zeta.
  replace (code c =? 225) with false by lia. replace (code c =? 226) with false by lia.
  by replace (code c =? 227) with false by lia.
Qed.

Lemma TrimSpace_nonempty c s : visible c = true → TrimSpace (String c s) ≠ "".
Proof.
  intros Hc. unfold TrimSpace. rewrite TrimLeftSpace_visible by done.
  change (TrimRightSpace (String c s)) with
    (match TrimLeftSpace (String c s) with
     | EmptyString => EmptyString | String _ _ => String c (TrimRightSpace s) end).
  by rewrite TrimLeftSpace_visible.
Qed.

Lemma TrimSpace_visible s : all_bytes visible s = true → TrimSpace s = s.
Proof.
  intros Hs. unfold TrimSpace.
  assert (TrimLeftSpace s = s) as ->.
  { destruct s as [|c s]; [done|]. apply TrimLeftSpace_visible. cbn in Hs. by bool_prop. }
  induction s as [|c s IH]; [done|]. cbn [all_bytes] in Hs. bool_prop.
  change (TrimRightSpace (String c s)) with
    (match TrimLeftSpace (String c s) with
     | EmptyString => EmptyString | String _ _ => String c (TrimRightSpace s) end).
  rewrite TrimLeftSpace_visible by done. by rewrite IH.
Qed.

(** The library's database for strings: normal forms of concatenations. *)
Create HintDb go_str.
Create Rewrite HintDb go_str_norm.
#[export] Hint Rewrite app_cons app_nil app_empty_r app_assoc_s length_app_s
  all_bytes_app any_byte_app lacks_app : go_str_norm.
#[export] Hint Resolve before_byte_lacks Split_nonempty TrimSpace_all : go_str.

(** ** Order *)

Lemma ltb_false_le s t : String.ltb t s = false ↔ String.le s t.
Proof.
  unfold String.ltb, String.le, String.leb. rewrite (String.compare_antisym s t).
  destruct (String.compare t s); simpl; naive_solver.
Qed.

Lemma ltb_true_le s t : String.ltb s t = true → String.le s t.
Proof.
  unfold String.ltb, String.le, String.leb. by destruct (String.compare s t).
Qed.

Lemma le_antisym_s s t : String.le s t → String.le t s → s = t.
Proof. apply (anti_symm String.le). Qed.

(** ** More on splitting and trimming *)

Lemma before_byte_app_some c s t r :
  after_byte c s = Some r → before_byte c (s +:+ t) = before_byte c s.
Proof.
  induction s as [|a s IH]; [done|]. rewrite app_cons. simpl.
  destruct (Ascii.eqb c a); [done|]. intros H. by rewrite IH.
Qed.

Lemma Split_head c s d a l :
  Split c s = d :: a :: l → before_byte c s = d ∧ ∃ r, after_byte c s = Some r.
Proof.
  intros H. destruct (after_byte c s) as [r|] eqn:Hr.
  - split; [|by eexists]. pose proof (after_byte_some _ _ _ Hr) as Hs.
    rewrite Hs, Split_app in H by apply before_byte_lacks. by simplify_eq.
  - apply after_byte_lacks in Hr. rewrite Split_lacks in H by done. done.
Qed.

Lemma trim_right_by_split f s : ∃ t, s = trim_right_by f s +:+ t ∧ all_bytes f t = true.
Proof.
  induction s as [|c s (t & Hs & Ht)]; [by exists ""|]. simpl.
  destruct (trim_right_by f s) as [|a r] eqn:E.
  - rewrite app_nil in Hs. subst. destruct (f c) eqn:Hc.
    + exists (String c t). simpl. by rewrite Hc.
    + exists t. done.
  - exists t. split; [|done]. rewrite app_cons. by rewrite <-Hs.
Qed.

Lemma trim_right_by_app f p s :
  trim_right_by f s ≠ "" → trim_right_by f (p +:+ s) = p +:+ trim_right_by f s.
Proof.
  intros Hne. induction p as [|c p IH]; [done|]. rewrite !app_cons. simpl. rewrite IH.
  destruct p as [|b p]; [|done]. rewrite app_nil. by destruct (trim_right_by f s).
Qed.

Lemma trim_right_by_app_nil f p s :
  trim_right_by f s = "" → trim_right_by f (p +:+ s) = trim_right_by f p.
Proof.
  intros He. induction p as [|c p IH]; [done|]. rewrite !app_cons. simpl. by rewrite IH.
Qed.

(** Decimal numbers *)

Definition is_decimal (c : ascii) : bool := (48 <=? code c) && (code c <=? 57).

Lemma pretty_N_char_decimal n : is_decimal (pretty_N_char n) = true.
Proof. unfold pretty_N_char. by repeat case_match. Qed.

Lemma pretty_N_go_decimal x s :
  all_bytes is_decimal s = true → all_bytes is_decimal (pretty_N_go x s) = true.
Proof.
  revert s. induction (N.lt_wf_0 x) as [x _ IH]; intros s Hs.
  destruct (decide (x = 0%N)) as [->|Hx]; [by rewrite pretty_N_go_0|].
  rewrite pretty_N_go_step by lia. apply IH; [apply N.div_lt; lia|].
  cbn [all_bytes]. by rewrite pretty_N_char_decimal.
Qed.

(** The text of an integer is digits, after a dash when it is negative. *)
Lemma pretty_Z_decimal (z : Z) :
  all_bytes (λ c, is_decimal c || Ascii.eqb dash c) (pretty z) = true.
Proof.
  assert (∀ p : positive, all_bytes (λ c, is_decimal c || Ascii.eqb dash c) (pretty p) = true) as Hp.
  { intros p. eapply all_bytes_impl; [|apply (pretty_N_go_decimal (Npos p) "")]; [|done].
    intros c Hc. by rewrite Hc. }
  destruct z as [|p|p]; [done|apply Hp|].
  unfold pretty, pretty_Z. rewrite all_bytes_app, Hp. done.
Qed.

Lemma lacks_impl (f : ascii → bool) c s :
  f c = false → all_bytes f s = true → lacks c s = true.
Proof.
  intros Hf. apply all_bytes_impl. intros a Ha. destruct (Ascii.eqb_spec c a); simpl; congruence.
Qed.

(** A field that lacks the separator that follows it is read back. *)
Lemma app_sep_inj c s s' t t' :
  lacks c s = true → lacks c s' = true → s +:+ String c t = s' +:+ String c t' → s = s' ∧ t = t'.
Proof.
  intros Hs Hs' H. split.
  - by rewrite <-(before_byte_app c s t), H, before_byte_app.
  - assert (Some t = Some t') as [= ->]; [|done].
    by rewrite <-(after_byte_app c s t), H, after_byte_app.
Qed.
