(* ===== verification/GoHeap.v ===== *)
(** * Memory and deep copies

    Go values that share memory.  Elsewhere in this library slices, maps and
    pointers are values; here they are references into a memory [heap], so that
    what a copy shares with its original can be said.  [rep h v t L]: in the
    memory [h] the value [v] has the contents [t], read through the locations
    [L].  A [copier] is the body of a [DeepCopyInto]; its pieces are the
    statements deepcopy-gen writes.  [deep T c]: on the values of the type [T],
    [c] makes a copy with the same contents in memory of its own. *)

From S2P Require Import Prelude GoStrings.

(** ** Memory *)

Abbreviation loc := positive.

(** Values: what a variable, a field or an element holds.  A slice is a window
    of [len] elements from [off] into an array.  [VArray] and [VTable] are the
    contents of the array of a slice and of a map of strings. *)
Inductive val :=
  | VStr (s : string)
  | VInt (z : Z)
  | VNil
  | VPtr (l : loc)
  | VSlice (l : loc) (off len : nat)
  | VMap (l : loc)
  | VStruct (fields : list (string * val))
  | VArray (elements : list val)
  | VTable (entries : gmap string string).

Abbreviation heap := (gmap loc val).

(** Contents: what is seen when all references are followed. *)
Inductive tree :=
  | TStr (s : string)
  | TInt (z : Z)
  | TNil
  | TPtr (t : tree)
  | TSlice (ts : list tree)
  | TMap (m : gmap string string)
  | TStruct (fields : list (string * tree)).

Definition window (off len : nat) (vs : list val) : list val := take len (drop off vs).

(** The contents of a value, and the locations they are read through. *)
Inductive rep (h : heap) : val → tree → list loc → Prop :=
  | rep_str s : rep h (VStr s) (TStr s) []
  | rep_int z : rep h (VInt z) (TInt z) []
  | rep_nil : rep h VNil TNil []
  | rep_ptr l v t L : h !! l = Some v → rep h v t L → rep h (VPtr l) (TPtr t) (l :: L)
  | rep_slice l off len vs ts L :
      h !! l = Some (VArray vs) → (off + len ≤ length vs)%nat →
      reps h (window off len vs) ts L → rep h (VSlice l off len) (TSlice ts) (l :: L)
  | rep_map l m : h !! l = Some (VTable m) → rep h (VMap l) (TMap m) [l]
  | rep_struct fs ts L :
      fs.*1 = ts.*1 → reps h fs.*2 ts.*2 L → rep h (VStruct fs) (TStruct ts) L
with reps (h : heap) : list val → list tree → list loc → Prop :=
  | reps_nil : reps h [] [] []
  | reps_cons v vs t ts L1 L2 :
      rep h v t L1 → reps h vs ts L2 → reps h (v :: vs) (t :: ts) (L1 ++ L2).

Scheme rep_mut := Induction for rep Sort Prop
  with reps_mut := Induction for reps Sort Prop.
Combined Scheme rep_reps_ind from rep_mut, reps_mut.

(** ** Types

    A type is the test of the contents that have it. *)
Definition ty : Type := tree → bool.

Definition Tstring : ty := λ t, match t with TStr _ => true | _ => false end.
Definition Tint (bits : Z) : ty := λ t,
  match t with TInt z => bool_decide (wrap_signed bits z = z) | _ => false end.
Definition Tptr (T : ty) : ty := λ t,
  match t with TNil => true | TPtr u => T u | _ => false end.
Definition Tslice (T : ty) : ty := λ t,
  match t with TNil => true | TSlice us => forallb T us | _ => false end.
Definition Tmap : ty := λ t, match t with TNil | TMap _ => true | _ => false end.

Fixpoint has_fields (fs : list (string * ty)) (ts : list (string * tree)) : bool :=
  match fs, ts with
  | [], [] => true
  | (n, T) :: fs', (m, t) :: ts' => bool_decide (n = m) && T t && has_fields fs' ts'
  | _, _ => false
  end.

Definition Tstruct (fs : list (string * ty)) : ty := λ t,
  match t with TStruct ts => bool_decide (NoDup fs.*1) && has_fields fs ts | _ => false end.

(** ** Programs over memory

    [None] is a panic. *)
Definition mem (A : Type) : Type := heap → option (A * heap).

Definition done {A} (a : A) : mem A := λ h, Some (a, h).
Definition panic {A} : mem A := λ _, None.
Definition andthen {A B} (m : mem A) (k : A → mem B) : mem B := λ h,
  match m h with Some (a, h') => k a h' | None => None end.

Declare Scope heap_scope.
Delimit Scope heap_scope with heap.
Notation "x <~ m ;; k" := (andthen m (λ x, k))
  (at level 100, m at next level, right associativity) : heap_scope.
#[local] Open Scope heap_scope.

Definition load (l : loc) : mem val := λ h,
  match h !! l with Some v => Some (v, h) | None => None end.
Definition store (l : loc) (v : val) : mem unit := λ h, Some (tt, <[l := v]> h).
(** [new] and [make]: memory that was not in use. *)
Definition alloc (v : val) : mem loc := λ h, Some (fresh (dom h), <[fresh (dom h) := v]> h).

(** The contents of memory from [new] and [make] that every copier overwrites
    before it is read. *)
Definition zero : val := VNil.

(** ** The statements of generated copiers *)

(** [in.DeepCopyInto(&out)], as the function from the value of [in] to that of
    [out]. *)
Definition copier : Type := val → mem val.

(** [*out = *in], [out.F = in.F]. *)
Definition assign : copier := done.

(** [if in.F != nil { ... }], after [*out = *in]. *)
Definition if_not_nil (c : copier) : copier := λ v,
  match v with VNil => done VNil | _ => c v end.

(** [*out = new(T); ( *in).DeepCopyInto( *out)]. *)
Definition new_into (c : copier) : copier := λ v,
  match v with
  | VPtr l =>
      l' <~ alloc zero ;;
      x <~ load l ;;
      x' <~ c x ;;
      _ <~ store l' x' ;;
      done (VPtr l')
  | _ => panic
  end.

(** [for i := range *in { ( *in)[i].DeepCopyInto(&( *out)[i]) }], from [i]. *)
Fixpoint copy_each (c : copier) (l' : loc) (i : nat) (xs : list val) : mem unit :=
  match xs with
  | [] => done tt
  | x :: xs' =>
      x' <~ c x ;;
      a <~ load l' ;;
      match a with
      | VArray ys => _ <~ store l' (VArray (<[i := x']> ys)) ;; copy_each c l' (S i) xs'
      | _ => panic
      end
  end.

(** [*out = make([]T, len( *in))] and the loop over the elements. *)
Definition make_each (c : copier) : copier := λ v,
  match v with
  | VSlice l off len =>
      l' <~ alloc (VArray (replicate len zero)) ;;
      a <~ load l ;;
      match a with
      | VArray vs => _ <~ copy_each c l' 0 (window off len vs) ;; done (VSlice l' 0 len)
      | _ => panic
      end
  | _ => panic
  end.

(** [*out = make([]T, len( *in)); copy( *out, *in)]. *)
Definition make_copy : copier := λ v,
  match v with
  | VSlice l off len =>
      l' <~ alloc (VArray (replicate len zero)) ;;
      a <~ load l ;;
      match a with
      | VArray vs => _ <~ store l' (VArray (window off len vs)) ;; done (VSlice l' 0 len)
      | _ => panic
      end
  | _ => panic
  end.

(** [*out = make(map[string]string, len( *in))] and
    [for key, val := range *in { ( *out)[key] = val }]. *)
Definition make_map `{MapRange} : copier := λ v,
  match v with
  | VMap l =>
      l' <~ alloc (VTable ∅) ;;
      a <~ load l ;;
      match a with
      | VTable m =>
          _ <~ store l' (VTable (foldl (λ out e, <[e.1 := e.2]> out) ∅ (map_range m))) ;;
          done (VMap l')
      | _ => panic
      end
  | _ => panic
  end.

(** The fields of a struct. *)
Fixpoint get_field (n : string) (fs : list (string * val)) : option val :=
  match fs with
  | [] => None
  | (m, v) :: fs' => if bool_decide (n = m) then Some v else get_field n fs'
  end.
Fixpoint put_field (n : string) (x : val) (fs : list (string * val)) : list (string * val) :=
  match fs with
  | [] => []
  | (m, v) :: fs' =>
      if bool_decide (n = m) then (m, x) :: fs' else (m, v) :: put_field n x fs'
  end.

(** One statement per listed field: it reads the field of [in] and writes the
    one of [out]. *)
Fixpoint copy_fields (stmts : list (string * copier)) (in_ out : list (string * val))
    : mem (list (string * val)) :=
  match stmts with
  | [] => done out
  | (n, c) :: stmts' =>
      match get_field n in_ with
      | Some v => x <~ c v ;; copy_fields stmts' in_ (put_field n x out)
      | None => panic
      end
  end.

(** The body of a [DeepCopyInto]: [*out = *in] and its statements. *)
Definition struct_copy (stmts : list (string * copier)) : copier := λ in_,
  out <~ assign in_ ;;
  match in_, out with
  | VStruct fs, VStruct gs => gs' <~ copy_fields stmts fs gs ;; done (VStruct gs')
  | _, _ => panic
  end.

(** [func (in *T) DeepCopy() *T]. *)
Definition deep_copy (into : copier) : copier := λ in_,
  match in_ with
  | VNil => done VNil
  | VPtr l =>
      out <~ alloc zero ;;
      x <~ load l ;;
      x' <~ into x ;;
      _ <~ store out x' ;;
      done (VPtr out)
  | _ => panic
  end.

(** [func (in *T) DeepCopyObject() runtime.Object]: an interface holds a type
    and a value, or nothing at all. *)
Definition deep_copy_object (name : string) (copy : copier) (in_ : val)
    : mem (option (string * val)) :=
  c <~ copy in_ ;;
  match c with VNil => done None | _ => done (Some (name, c)) end.

(** [c] copies the values of type [T]: the contents are the same, memory in use
    is not written, and the copy is read through new locations, each once. *)
Definition deep (T : ty) (c : copier) : Prop :=
  ∀ h v t L, rep h v t L → T t = true →
  ∃ v' h' L', c v h = Some (v', h') ∧ rep h' v' t L' ∧ h ⊆ h' ∧
    NoDup L' ∧ ∀ l, l ∈ L' → h !! l = None.

(** The values of [T] hold no references. *)
Definition flat (T : ty) : Prop := ∀ h v t L, rep h v t L → T t = true → L = [].

(** ** Contents are local to their locations *)

Lemma rep_reps_dom h :
  (∀ v t L, rep h v t L → ∀ l, l ∈ L → is_Some (h !! l)) ∧
  (∀ vs ts L, reps h vs ts L → ∀ l, l ∈ L → is_Some (h !! l)).
Proof.
  apply rep_reps_ind; intros; set_unfold; naive_solver.
Qed.

Lemma rep_dom h v t L l : rep h v t L → l ∈ L → is_Some (h !! l).
Proof. intros. by eapply (proj1 (rep_reps_dom h)). Qed.
Lemma reps_dom h vs ts L l : reps h vs ts L → l ∈ L → is_Some (h !! l).
Proof. intros. by eapply (proj2 (rep_reps_dom h)). Qed.

(** Memory that agrees on the locations of a value gives it the same
    contents. *)
Lemma rep_reps_agree h h' :
  (∀ v t L, rep h v t L → (∀ l, l ∈ L → h' !! l = h !! l) → rep h' v t L) ∧
  (∀ vs ts L, reps h vs ts L → (∀ l, l ∈ L → h' !! l = h !! l) → reps h' vs ts L).
Proof.
  apply rep_reps_ind; intros.
  all: try by constructor.
  - apply (rep_ptr _ _ v); [rewrite <-e; set_solver|set_solver].
  - apply (rep_slice _ _ _ _ vs); [rewrite <-e; set_solver|done|set_solver].
  - apply rep_map. rewrite <-e. set_solver.
  - apply rep_struct; [done|set_solver].
  - apply reps_cons; set_solver.
Qed.

Lemma rep_agree h h' v t L :
  rep h v t L → (∀ l, l ∈ L → h' !! l = h !! l) → rep h' v t L.
Proof. apply (proj1 (rep_reps_agree h h')). Qed.

Lemma rep_mono h h' v t L : rep h v t L → h ⊆ h' → rep h' v t L.
Proof.
  intros Hr Hh. eapply rep_agree; [done|]. intros l Hl.
  destruct (rep_dom h v t L l Hr Hl) as [x Hx]. rewrite Hx. by eapply lookup_weaken.
Qed.
Lemma reps_mono h h' vs ts L : reps h vs ts L → h ⊆ h' → reps h' vs ts L.
Proof.
  intros Hr Hh. eapply (proj2 (rep_reps_agree h h')); [done|]. intros l Hl.
  destruct (reps_dom h vs ts L l Hr Hl) as [x Hx]. rewrite Hx. by eapply lookup_weaken.
Qed.

(** A value has one contents. *)
Lemma rep_reps_det h :
  (∀ v t L, rep h v t L → ∀ t' L', rep h v t' L' → t = t' ∧ L = L') ∧
  (∀ vs ts L, reps h vs ts L → ∀ ts' L', reps h vs ts' L' → ts = ts' ∧ L = L').
Proof.
  apply rep_reps_ind; intros;
    match goal with
    | H : rep _ _ ?t _ |- _ = ?t ∧ _ => inversion H; subst
    | H : reps _ _ ?t _ |- _ = ?t ∧ _ => inversion H; subst
    end; simplify_eq; try naive_solver.
  destruct (H _ _ H3) as [Ht ->]. split; [|done]. f_equal.
  rewrite <-(zip_fst_snd ts), <-(zip_fst_snd ts0). congruence.
Qed.

Lemma rep_det h v t L t' L' : rep h v t L → rep h v t' L' → t = t' ∧ L = L'.
Proof. intros. by eapply (proj1 (rep_reps_det h)). Qed.

(** ** Allocation *)

Lemma fresh_none (h : heap) : h !! fresh (dom h) = None.
Proof. apply not_elem_of_dom, is_fresh. Qed.

Lemma alloc_sub (h : heap) v : h ⊆ <[fresh (dom h) := v]> h.
Proof. apply insert_subseteq, fresh_none. Qed.

(** The cell a copy fills in stays apart from all that was there before. *)
Lemma store_sub (h h' : heap) l v : h ⊆ h' → h !! l = None → h ⊆ <[l := v]> h'.
Proof. intros. by apply insert_subseteq_r. Qed.

Lemma rep_store h v t L l x : rep h v t L → l ∉ L → rep (<[l := x]> h) v t L.
Proof.
  intros. eapply rep_agree; [done|]. intros l' Hl'. apply lookup_insert_ne. set_solver.
Qed.
Lemma reps_store h vs ts L l x : reps h vs ts L → l ∉ L → reps (<[l := x]> h) vs ts L.
Proof.
  intros. eapply (proj2 (rep_reps_agree h _)); [done|]. intros l' Hl'.
  apply lookup_insert_ne. set_solver.
Qed.

Lemma sub_none (h h' : heap) l : h ⊆ h' → h' !! l = None → h !! l = None.
Proof. intros. by eapply lookup_weaken_None. Qed.

(** ** What the statements copy *)

Lemma fold_insert_range `{MapRange} (m : gmap string string) :
  foldl (λ out e, <[e.1 := e.2]> out) ∅ (map_range m) = m.
Proof.
  assert (∀ l acc, NoDup l.*1 →
    foldl (λ (out : gmap string string) (e : string * string), <[e.1 := e.2]> out) acc l =
      list_to_map l ∪ acc) as Hfold.
  { induction l as [|[k x] l IH]; intros acc Hnd; [symmetry; apply map_empty_union|].
    apply NoDup_cons in Hnd as [Hk Hnd]. csimpl. rewrite IH by done.
    rewrite <-insert_union_l. symmetry. apply insert_union_r.
    by apply not_elem_of_list_to_map_1. }
  rewrite Hfold, (right_id_L ∅ (∪)).
  - rewrite (list_to_map_proper (map_range m) (map_to_list m)); [apply list_to_map_to_list| |];
      [rewrite map_range_perm; apply NoDup_fst_map_to_list|apply map_range_perm].
  - rewrite map_range_perm. apply NoDup_fst_map_to_list.
Qed.


Lemma deep_assign T : flat T → deep T assign.
Proof.
  intros HT h v t L Hr Ht. exists v, h, []. rewrite (HT h v t L Hr Ht) in Hr.
  split_all; [done|done|done|constructor|set_solver].
Qed.

Lemma flat_string : flat Tstring.
Proof. by destruct 1. Qed.
Lemma flat_int bits : flat (Tint bits).
Proof. by destruct 1. Qed.

Lemma flat_struct fs : Forall (λ f, flat f.2) fs → flat (Tstruct fs).
Proof.
  intros Hfs h v t L Hr Ht. destruct Hr; try done. simpl in Ht. bool_prop.
  rename H into Hn, H0 into Hrs, H1 into Hnd, H2 into Hf. clear Hn Hnd.
  revert Hrs Hf. generalize (fs0.*2) as vs. intros vs. revert fs vs L Hfs.
  induction ts as [|[m t] ts IH]; intros fs vs L Hfs Hrs Hf; inversion Hrs; subst; [done|].
  destruct fs as [|[n T] fs]; [done|]. simpl in Hf. bool_prop.
  apply Forall_cons in Hfs as [HT Hfs].
  rewrite (HT h v t L1), (IH fs vs0 L2); eauto.
Qed.

(** A new cell, filled by a copier. *)
Lemma fill_cell T c h l v t L :
  deep T c → h !! l = Some v → rep h v t L → T t = true →
  ∃ v' h' L', c v (<[fresh (dom h) := zero]> h) = Some (v', h') ∧
    rep (<[fresh (dom h) := v']> h') (VPtr (fresh (dom h))) (TPtr t) (fresh (dom h) :: L') ∧
    h ⊆ <[fresh (dom h) := v']> h' ∧ NoDup (fresh (dom h) :: L') ∧
    ∀ x, x ∈ fresh (dom h) :: L' → h !! x = None.
Proof.
  intros Hc Hl Hr Ht. pose proof (fresh_none h) as Hf. set (l' := fresh (dom h)) in *.
  pose proof (alloc_sub h zero) as Hs. fold l' in Hs.
  destruct (Hc (<[l' := zero]> h) v t L) as (v' & h' & L' & E & Hr' & Hs' & Hnd & Hfr);
    [by eapply rep_mono|done|].
  assert (l' ∉ L') as Hl'.
  { intros Hin. apply Hfr in Hin. by rewrite lookup_insert_eq in Hin. }
  exists v', h', L'. split_all; [done| | |by constructor|].
  - apply (rep_ptr _ _ v'); [apply lookup_insert_eq|by apply rep_store].
  - apply store_sub; [by etrans|done].
  - intros x [->|Hx]%elem_of_cons; [done|]. eapply sub_none; [done|by apply Hfr].
Qed.

(** [nil] is copied as [nil]. *)
Lemma deep_nil T c :
  (∀ h v t L, v ≠ VNil → rep h v t L → T t = true →
   ∃ v' h' L', c v h = Some (v', h') ∧ rep h' v' t L' ∧ h ⊆ h' ∧
     NoDup L' ∧ ∀ l, l ∈ L' → h !! l = None) →
  deep T (if_not_nil c).
Proof.
  intros Hc h v t L Hr Ht.
  destruct v; try (by apply (Hc h _ t L)). inversion Hr; subst.
  exists VNil, h, []. split_all; [done|constructor|done|constructor|set_solver].
Qed.

Lemma deep_guarded T c : deep T c → deep T (if_not_nil c).
Proof. intros Hc. apply deep_nil. intros h v t L _. apply Hc. Qed.

Lemma deep_ptr T c : deep T c → deep (Tptr T) (if_not_nil (new_into c)).
Proof.
  intros Hc. apply deep_nil. intros h v t L Hv Hr Ht. destruct Hr; try done.
  destruct (fill_cell T c h l v t L) as (v' & h' & L' & E & Hr' & Hs & Hnd & Hfr); [done..|].
  exists (VPtr (fresh (dom h))), (<[fresh (dom h) := v']> h'), (fresh (dom h) :: L').
  split_all; [|done..]. unfold new_into, andthen, alloc, load, store, done.
  rewrite (lookup_weaken h _ l v); [|done|apply alloc_sub]. by rewrite E.
Qed.

Lemma deep_map `{MapRange} : deep Tmap (if_not_nil make_map).
Proof.
  apply deep_nil. intros h v t L Hv Hr Ht. destruct Hr; try done.
  set (l' := fresh (dom h)). pose proof (fresh_none h) as Hf. fold l' in Hf.
  exists (VMap l'), (<[l' := VTable m]> (<[l' := VTable ∅]> h)), [l']. split_all.
  - unfold make_map, andthen, alloc, load, store, done. fold l'.
    rewrite lookup_insert_ne by naive_solver. rewrite H0. do 5 f_equal.
    by rewrite fold_insert_range.
  - apply rep_map, lookup_insert_eq.
  - rewrite insert_insert_eq. by apply insert_subseteq.
  - apply NoDup_singleton.
  - by intros x ->%list_elem_of_singleton.
Qed.

Lemma window_all n vs : length vs = n → window 0 n vs = vs.
Proof. intros <-. unfold window. by rewrite drop_0, firstn_all. Qed.

Lemma reps_length h vs ts L : reps h vs ts L → length vs = length ts.
Proof. induction 1; simpl; congruence. Qed.

Lemma flat_reps T h vs ts L : flat T → reps h vs ts L → forallb T ts = true → L = [].
Proof.
  intros HT Hr. induction Hr as [|v vs t ts L1 L2 H1 _ IH]; intros Ht; [done|].
  simpl in Ht. bool_prop. by rewrite (HT h v t L1), IH.
Qed.

Lemma window_length off n vs : (off + n ≤ length vs)%nat → length (window off n vs) = n.
Proof. intros. unfold window. rewrite length_take, length_drop. lia. Qed.

Lemma deep_slice_copy T : flat T → deep (Tslice T) (if_not_nil make_copy).
Proof.
  intros HT. apply deep_nil. intros h v t L Hv Hr Ht. destruct Hr; try done.
  set (l' := fresh (dom h)). pose proof (fresh_none h) as Hf. fold l' in Hf.
  simpl in Ht. assert (L = []) as -> by (by eapply flat_reps).
  exists (VSlice l' 0 len), (<[l' := VArray (window off len vs)]>
    (<[l' := VArray (replicate len zero)]> h)), [l']. split_all.
  - unfold make_copy, andthen, alloc, load, store, done. fold l'.
    rewrite lookup_insert_ne by naive_solver. by rewrite H.
  - pose proof (window_length off len vs H0) as Hlen.
    apply (rep_slice _ _ _ _ (window off len vs)); [apply lookup_insert_eq|lia|].
    rewrite window_all by done. apply reps_store; [|set_solver]. eapply reps_mono; [done|].
    by apply insert_subseteq.
  - rewrite insert_insert_eq. by apply insert_subseteq.
  - apply NoDup_singleton.
  - by intros x ->%list_elem_of_singleton.
Qed.

(** The loop over the elements: the array [l'] of the copy is filled from [i]
    on; all other memory in use stays as it is. *)
Lemma copy_each_spec T c (l' : loc) h0 xs ts L :
  deep T c → reps h0 xs ts L → forallb T ts = true →
  ∀ i ys h, h0 ⊆ h → h0 !! l' = None → h !! l' = Some (VArray ys) →
    length ys = (i + length xs)%nat →
  ∃ ys' h' L', copy_each c l' i xs h = Some (tt, h') ∧
    h' !! l' = Some (VArray (take i ys ++ ys')) ∧ reps h' ys' ts L' ∧
    delete l' h ⊆ h' ∧ NoDup L' ∧ ∀ l, l ∈ L' → h !! l = None.
Proof.
  intros Hc Hr. induction Hr as [|x xs t ts L1 L2 Hx Hxs IH]; intros Ht i ys h H0 Hl0 Hl Hlen.
  { exists [], h, []. split_all; [done|..|constructor|set_solver].
    - simpl in Hlen. by rewrite app_nil_r, firstn_all2 by lia.
    - constructor.
    - apply delete_subseteq. }
  simpl in Ht, Hlen. bool_prop.
  destruct (Hc h x t L1) as (x' & h1 & L1' & E & Hr1 & Hs1 & Hnd1 & Hf1);
    [by eapply rep_mono|done|].
  assert (h1 !! l' = Some (VArray ys)) as Hl1 by (by eapply lookup_weaken).
  assert (l' ∉ L1') as Hn1 by (intros Hin; apply Hf1 in Hin; congruence).
  set (h2 := <[l' := VArray (<[i := x']> ys)]> h1).
  destruct (IH ltac:(done) (S i) (<[i := x']> ys) h2)
    as (ys' & h' & L2' & E' & Hl' & Hr2 & Hs2 & Hnd2 & Hf2).
  { apply store_sub; [by etrans|done]. }
  { done. }
  { apply lookup_insert_eq. }
  { rewrite length_insert. lia. }
  assert (∀ l y, l ≠ l' → h1 !! l = Some y → h' !! l = Some y) as Hkeep.
  { intros l y Hne Hy. eapply lookup_weaken; [|done].
    unfold h2. rewrite lookup_delete_ne, lookup_insert_ne by done. done. }
  assert (∀ l, l ∈ L2' → l ≠ l' ∧ h1 !! l = None) as Hf2'.
  { intros l Hin. apply Hf2 in Hin. unfold h2 in Hin.
    apply lookup_insert_None in Hin as [? ?]. done. }
  exists (x' :: ys'), h', (L1' ++ L2'). split_all.
  - simpl. unfold andthen, load, store. rewrite E, Hl1. done.
  - rewrite Hl'. do 2 f_equal.
    rewrite (take_S_r _ _ x') by (apply list_lookup_insert_eq; lia).
    rewrite take_insert_ge by lia. by rewrite <-app_assoc.
  - constructor; [|done]. eapply rep_agree; [done|]. intros l Hin.
    destruct (rep_dom _ _ _ _ l Hr1 Hin) as [y Hy]. rewrite Hy. apply Hkeep; [set_solver|done].
  - apply map_subseteq_spec. intros l y Hy. apply lookup_delete_Some in Hy as [Hne Hy].
    apply Hkeep; [done|by eapply lookup_weaken].
  - apply NoDup_app. split_all; [done| |done]. intros l Hin Hin2.
    destruct (rep_dom _ _ _ _ l Hr1 Hin) as [y Hy]. apply Hf2' in Hin2 as [_ ?]. congruence.
  - intros l [Hin|Hin]%elem_of_app; [by apply Hf1|].
    eapply sub_none; [done|by apply Hf2'].
Qed.

Lemma deep_slice T c : deep T c → deep (Tslice T) (if_not_nil (make_each c)).
Proof.
  intros Hc. apply deep_nil. intros h v t L Hv Hr Ht. destruct Hr; try done. simpl in Ht.
  set (l' := fresh (dom h)). pose proof (fresh_none h) as Hf. fold l' in Hf.
  pose proof (window_length off len vs H0) as Hlen.
  destruct (copy_each_spec T c l' h (window off len vs) ts L Hc H1 Ht 0 (replicate len zero)
    (<[l' := VArray (replicate len zero)]> h))
    as (ys & h' & L' & E & Hl' & Hr' & Hs & Hnd & Hfr).
  { apply alloc_sub. }
  { done. }
  { apply lookup_insert_eq. }
  { rewrite length_replicate. lia. }
  assert (∀ x, x ∈ L' → x ≠ l' ∧ h !! x = None) as Hfr'.
  { intros x Hx. apply Hfr, lookup_insert_None in Hx as [? ?]. done. }
  assert (length ys = len) as Hys.
  { rewrite (reps_length _ _ _ _ Hr'), <-(reps_length _ _ _ _ H1). done. }
  exists (VSlice l' 0 len), h', (l' :: L'). split_all.
  - unfold make_each, andthen, alloc, load, done. fold l'.
    rewrite lookup_insert_ne by naive_solver. rewrite H, E. done.
  - apply (rep_slice _ _ _ _ ys); [done|lia|]. by rewrite window_all.
  - apply map_subseteq_spec. intros x y Hx. eapply lookup_weaken; [|done].
    rewrite lookup_delete_ne, lookup_insert_ne by congruence. done.
  - constructor; [|done]. intros Hin. by apply Hfr' in Hin as [? _].
  - intros x [->|Hx]%elem_of_cons; [done|]. by apply Hfr'.
Qed.

(** ** Structs *)

(** Every field of the struct has a statement that copies it, in the order of
    the fields, or holds no references. *)
Inductive covers : list (string * ty) → list (string * copier) → Prop :=
  | covers_nil : covers [] []
  | covers_stmt n T c fs stmts :
      deep T c → covers fs stmts → covers ((n, T) :: fs) ((n, c) :: stmts)
  | covers_flat n T fs stmts : flat T → covers fs stmts → covers ((n, T) :: fs) stmts.

Lemma get_field_app n v pre fs : n ∉ pre.*1 → get_field n (pre ++ (n, v) :: fs) = Some v.
Proof.
  induction pre as [|[m u] pre IH]; intros Hn; csimpl.
  - by rewrite bool_decide_eq_true_2.
  - csimpl in Hn. apply not_elem_of_cons in Hn as [? ?].
    rewrite bool_decide_eq_false_2 by done. by apply IH.
Qed.

Lemma put_field_app n v x pre fs :
  n ∉ pre.*1 → put_field n x (pre ++ (n, v) :: fs) = pre ++ (n, x) :: fs.
Proof.
  induction pre as [|[m u] pre IH]; intros Hn; csimpl.
  - by rewrite bool_decide_eq_true_2.
  - csimpl in Hn. apply not_elem_of_cons in Hn as [? ?].
    rewrite bool_decide_eq_false_2 by done. by rewrite IH.
Qed.

(** The statements leave the fields [pre] of [in] and [post] of [out] behind. *)
Lemma copy_fields_spec fs stmts :
  covers fs stmts →
  ∀ h vs ts L pre post,
    reps h vs.*2 ts.*2 L → vs.*1 = ts.*1 → has_fields fs ts = true →
    pre.*1 = post.*1 → NoDup (pre.*1 ++ fs.*1) →
  ∃ vs' h' L', copy_fields stmts (pre ++ vs) (post ++ vs) h = Some (post ++ vs', h') ∧
    vs'.*1 = ts.*1 ∧ reps h' vs'.*2 ts.*2 L' ∧ h ⊆ h' ∧
    NoDup L' ∧ ∀ l, l ∈ L' → h !! l = None.
Proof.
  induction 1 as [|n T c fs stmts Hc _ IH|n T fs stmts HT _ IH];
    intros h vs ts L pre post Hr Hn Hf Hpre Hnd.
  { destruct ts; [|done]. destruct vs; [|done]. exists [], h, [].
    split_all; [done|done|constructor|done|constructor|set_solver]. }
  all: destruct ts as [|[m t] ts]; [done|]; destruct vs as [|[m' v] vs]; [done|];
    csimpl in *; inversion Hr; subst; simplify_eq; bool_prop; subst m;
    assert (n ∉ pre.*1) as Hpn by (apply NoDup_app in Hnd as (_ & Hd & _);
      intros Hin; apply (Hd n Hin); constructor).
  - destruct (Hc h v t L1) as (v' & h1 & L1' & E & Hr1 & Hs1 & Hnd1 & Hf1); [done..|].
    destruct (IH h1 vs ts L2 (pre ++ [(n, v)]) (post ++ [(n, v')]))
      as (vs' & h2 & L2' & E2 & Hn2 & Hr2 & Hs2 & Hnd2 & Hf2).
    { by eapply reps_mono. }
    { done. }
    { done. }
    { rewrite !fmap_app, Hpre. done. }
    { rewrite fmap_app, <-app_assoc. done. }
    exists ((n, v') :: vs'), h2, (L1' ++ L2'). csimpl. split_all.
    + rewrite get_field_app by done. unfold andthen. rewrite E.
      rewrite put_field_app by (by rewrite <-Hpre).
      rewrite <-!app_assoc in E2. exact E2.
    + congruence.
    + constructor; [|done]. by eapply rep_mono.
    + by etrans.
    + apply NoDup_app. split_all; [done| |done]. intros l Hin Hin2.
      destruct (rep_dom _ _ _ _ l Hr1 Hin) as [y Hy]. apply Hf2 in Hin2. congruence.
    + intros l [Hin|Hin]%elem_of_app; [by apply Hf1|]. eapply sub_none; [done|by apply Hf2].
  - destruct (IH h vs ts L2 (pre ++ [(n, v)]) (post ++ [(n, v)]))
      as (vs' & h2 & L2' & E2 & Hn2 & Hr2 & Hs2 & Hnd2 & Hf2).
    { done. }
    { done. }
    { done. }
    { rewrite !fmap_app, Hpre. done. }
    { rewrite fmap_app, <-app_assoc. done. }
    exists ((n, v) :: vs'), h2, L2'. csimpl. split_all; [|congruence| |done|done|done].
    + rewrite <-!app_assoc in E2. exact E2.
    + rewrite <-(app_nil_l L2'). constructor; [|done]. eapply rep_mono; [|done].
      by rewrite <-(HT h v t L1).
Qed.

Lemma deep_struct fs stmts : covers fs stmts → deep (Tstruct fs) (struct_copy stmts).
Proof.
  intros Hc h v t L Hr Ht. destruct Hr; try done. simpl in Ht. bool_prop.
  destruct (copy_fields_spec fs stmts Hc h fs0 ts L [] [])
    as (vs' & h' & L' & E & Hn & Hr' & Hs & Hnd & Hf); [done..|].
  exists (VStruct vs'), h', L'. split_all; [|by constructor|done..].
  unfold struct_copy, assign, andthen, done. simpl in E. by rewrite E.
Qed.

(** ** DeepCopy and DeepCopyObject *)

Lemma deep_copy_eq into v : deep_copy into v = if_not_nil (new_into into) v.
Proof. by destruct v. Qed.

Lemma deep_deep_copy T into : deep T into → deep (Tptr T) (deep_copy into).
Proof. intros Hc h v t L. rewrite deep_copy_eq. by apply deep_ptr. Qed.

(** What a deep copy is for: the copy reads as the original; the original reads
    as before; no write outside the copy is seen through it; and no write to the
    copy is seen through the original. *)
Lemma deep_independent T c h v t L :
  deep T c → rep h v t L → T t = true →
  ∃ v' h' L', c v h = Some (v', h') ∧ rep h' v' t L' ∧ NoDup L' ∧
    (∀ h2, (∀ l, l ∈ L' → h2 !! l = h' !! l) → rep h2 v' t L') ∧
    (∀ h2, (∀ l, l ∉ L' → is_Some (h' !! l) → h2 !! l = h' !! l) → rep h2 v t L).
Proof.
  intros Hc Hr Ht. destruct (Hc h v t L Hr Ht) as (v' & h' & L' & E & Hr' & Hs & Hnd & Hf).
  exists v', h', L'. split_all; [done..| |].
  - intros h2 H2. by eapply rep_agree.
  - intros h2 H2. eapply rep_agree; [done|]. intros l Hl.
    destruct (rep_dom _ _ _ _ l Hr Hl) as [x Hx]. rewrite Hx.
    assert (h' !! l = Some x) as Hx' by (by eapply lookup_weaken).
    rewrite H2; [done| |by eexists]. intros Hin. apply Hf in Hin. congruence.
Qed.

(** ** Automation

    [deep] proves that a generated copier is deep. *)
Create HintDb deep discriminated.
#[export] Hint Constants Opaque : deep.
#[export] Hint Resolve deep_assign flat_string flat_int deep_guarded deep_ptr deep_map
  deep_slice_copy deep_slice deep_struct deep_deep_copy : deep.

Ltac flat_tac := first
  [ solve [eauto 3 with deep nocore]
  | apply flat_struct;
    repeat (apply Forall_cons; split; [cbn [snd]; flat_tac|]); apply Forall_nil; exact I ].
Ltac covers_tac := first
  [ apply covers_nil
  | apply covers_stmt; [deep_tac|covers_tac]
  | apply covers_flat; [flat_tac|covers_tac] ]
with deep_tac := first
  [ solve [eauto 3 with deep nocore]
  | apply deep_assign; flat_tac
  | apply deep_slice_copy; flat_tac
  | apply deep_slice; deep_tac
  | apply deep_ptr; deep_tac
  | apply deep_deep_copy; deep_tac
  | apply deep_struct; covers_tac ].
