(* ===== verification/GoUtf8.v ===== *)
(** * UTF-8: runes and their encodings

    Facts on the decoding of strings that the JSON encoder and decoder and their
    round trips are about: every rune is read back from its encoding, whatever
    follows it, and a string is the concatenation of the encodings of its runes
    and of the bytes that belong to none. *)

From S2P Require Import Prelude GoStrings.

#[local] Ltac Zify.zify_post_hook ::= Z.to_euclidean_division_equations.

(** The code points UTF-8 encodes. *)
Definition scalar (r : Z) : Prop := 0 ≤ r < 55296 ∨ 57344 ≤ r ≤ 1114111.

(** [utf8.DecodeRuneInString(a + s1)]: the rune ([None] for an invalid byte)
    and what follows it. *)
Definition DecodeRune (a : ascii) (s1 : string) : option Z * string :=
  let x := code a in
  if x <? 128 then (Some x, s1)
  else match s1 with
       | String b s2 =>
           if (194 <=? x) && (x <=? 223) && cont b
           then (Some ((x - 192) * 64 + cont_bits b), s2)
           else match s2 with
                | String c s3 =>
                    if (224 <=? x) && (x <=? 239) && accept x b && cont c
                    then (Some ((x - 224) * 4096 + cont_bits b * 64 + cont_bits c), s3)
                    else match s3 with
                         | String d s4 =>
                             if (240 <=? x) && (x <=? 244) && accept x b && cont c && cont d
                             then (Some ((x - 240) * 262144 + cont_bits b * 4096 +
                                         cont_bits c * 64 + cont_bits d), s4)
                             else (None, s1)
                         | EmptyString => (None, s1)
                         end
                | EmptyString => (None, s1)
                end
       | EmptyString => (None, s1)
       end.

(** A string with every invalid byte replaced by U+FFFD. *)
Definition to_valid (s : string) : string := MapRunes (λ r, r) s.

(** [utf8.ValidString(s)]. *)
Definition valid_utf8 (s : string) : bool :=
  forallb (λ r, match r with Some _ => true | None => false end) (decode s).

Example to_valid_ex :
  (to_valid (String (byte 195) "A"), valid_utf8 (String (byte 195) "A"), valid_utf8 (encode_rune 8364)) =
  (encode_rune RuneError +:+ "A", false, true).
Proof. vm_compute. reflexivity. Qed.

(** ** One rune *)

(** Turn the range tests of the decoder into inequalities. *)
Ltac ranges :=
  repeat match goal with
  | H : accept ?x _ = true |- _ =>
      unfold accept in H;
      repeat match type of H with context [if ?b then _ else _] => destruct b eqn:? end
  | H : cont _ = true |- _ => unfold cont in H
  | H : in_range _ _ _ = true |- _ => unfold in_range in H
  | H : (_ && _) = true |- _ => apply andb_true_iff in H as [? ?]
  | H : (_ <=? _) = true |- _ => apply Z.leb_le in H
  | H : (_ <=? _) = false |- _ => apply Z.leb_gt in H
  | H : (_ <? _) = true |- _ => apply Z.ltb_lt in H
  | H : (_ <? _) = false |- _ => apply Z.ltb_ge in H
  | H : (_ =? _) = true |- _ => apply Z.eqb_eq in H
  | H : (_ =? _) = false |- _ => apply Z.eqb_neq in H
  end; unfold cont_bits in *.

Lemma decode_cons a s : decode (String a s) = (DecodeRune a s).1 :: decode (DecodeRune a s).2.
Proof.
  cbn [decode]. unfold DecodeRune. cbv zeta.
  repeat match goal with |- context [match ?x with _ => _ end] => destruct x; try reflexivity end.
Qed.

Lemma byte_is c z : code c = z → byte z = c.
Proof. intros <-. apply byte_code. Qed.

(** The branches of the encoder. *)
Lemma encode1 r : 0 ≤ r < 128 → encode_rune r = str1 (byte r).
Proof. intros H. unfold encode_rune. by rewrite (proj2 (Z.leb_le 0 r)), (proj2 (Z.ltb_lt r 128)) by lia. Qed.

Lemma encode2 r : 128 ≤ r < 2048 →
  encode_rune r = String (byte (192 + r / 64)) (str1 (byte (128 + r mod 64))).
Proof.
  intros H. unfold encode_rune.
  by rewrite (proj2 (Z.ltb_ge r 128)), andb_false_r, (proj2 (Z.leb_le 128 r)), (proj2 (Z.ltb_lt r 2048)) by lia.
Qed.

Lemma encode3 r : 2048 ≤ r < 55296 ∨ 57344 ≤ r < 65536 →
  encode_rune r = String (byte (224 + r / 4096)) (String (byte (128 + r / 64 mod 64)) (str1 (byte (128 + r mod 64)))).
Proof.
  intros H. unfold encode_rune.
  rewrite (proj2 (Z.ltb_ge r 128)), andb_false_r, (proj2 (Z.ltb_ge r 2048)), andb_false_r by lia.
  destruct H as [H|H].
  - by rewrite (proj2 (Z.leb_le 2048 r)), (proj2 (Z.ltb_lt r 55296)) by lia.
  - by rewrite (proj2 (Z.leb_le 57344 r)), (proj2 (Z.ltb_lt r 65536)), orb_true_r by lia.
Qed.

Lemma encode4 r : 65536 ≤ r ≤ 1114111 →
  encode_rune r = String (byte (240 + r / 262144)) (String (byte (128 + r / 4096 mod 64))
    (String (byte (128 + r / 64 mod 64)) (str1 (byte (128 + r mod 64))))).
Proof.
  intros H. unfold encode_rune.
  rewrite (proj2 (Z.ltb_ge r 128)), andb_false_r, (proj2 (Z.ltb_ge r 2048)), andb_false_r by lia.
  rewrite (proj2 (Z.ltb_ge r 55296)), andb_false_r, (proj2 (Z.ltb_ge r 65536)), andb_false_r by lia.
  by rewrite (proj2 (Z.leb_le 65536 r)), (proj2 (Z.leb_le r 1114111)) by lia.
Qed.

Lemma DecodeRune_some a s r t : DecodeRune a s = (Some r, t) → scalar r ∧ String a s = encode_rune r +:+ t.
Proof.
  unfold DecodeRune. cbv zeta. pose proof (code_range a) as Ha. destruct (code a <? 128) eqn:E1.
  { intros [= <- <-]. ranges. split; [unfold scalar; lia|]. rewrite encode1 by lia. unfold str1. by rewrite byte_code. }
  destruct s as [|b s2]; [done|]. pose proof (code_range b).
  destruct ((194 <=? code a) && (code a <=? 223) && cont b) eqn:E2.
  { intros [= <- <-]. ranges. split; [left; lia|]. rewrite encode2 by lia. unfold str1. rewrite !app_cons, app_nil.
    rewrite (byte_is a) by lia. by rewrite (byte_is b) by lia. }
  destruct s2 as [|c s3]; [done|]. pose proof (code_range c).
  destruct ((224 <=? code a) && (code a <=? 239) && accept (code a) b && cont c) eqn:E3.
  { intros [= <- <-]. ranges; (split; [unfold scalar; lia|]); rewrite encode3 by lia; unfold str1; rewrite !app_cons, app_nil;
    rewrite (byte_is a), (byte_is b), (byte_is c) by lia; done. }
  destruct s3 as [|d s4]; [done|]. pose proof (code_range d).
  destruct ((240 <=? code a) && (code a <=? 244) && accept (code a) b && cont c && cont d) eqn:E4; [|done].
  intros [= <- <-]. ranges; (split; [unfold scalar; lia|]); rewrite encode4 by lia; unfold str1; rewrite !app_cons, app_nil;
    rewrite (byte_is a), (byte_is b), (byte_is c), (byte_is d) by lia; done.
Qed.

Lemma DecodeRune_none a s t : DecodeRune a s = (None, t) → t = s ∧ 128 ≤ code a.
Proof.
  unfold DecodeRune. cbv zeta. destruct (Z.ltb_spec (code a) 128); [done|].
  repeat match goal with |- context [match ?x with _ => _ end] => destruct x end; intros [=]; by subst.
Qed.

(** The second byte of an encoding passes [accept]. *)
Lemma in_range_iff lo hi c : in_range lo hi c = true ↔ lo ≤ code c ≤ hi.
Proof. unfold in_range. rewrite andb_true_iff, !Z.leb_le. lia. Qed.

Lemma cont_byte z : 0 ≤ z < 64 → cont (byte (128 + z)) = true ∧ cont_bits (byte (128 + z)) = z.
Proof.
  intros H. unfold cont, cont_bits. rewrite in_range_iff, code_byte by lia. lia.
Qed.

Lemma DecodeRune_encode r t : scalar r →
  ∃ a s, encode_rune r +:+ t = String a s ∧ DecodeRune a s = (Some r, t).
Proof.
  intros Hr. assert (0 ≤ r < 128 ∨ 128 ≤ r < 2048 ∨ (2048 ≤ r < 55296 ∨ 57344 ≤ r < 65536) ∨ 65536 ≤ r ≤ 1114111)
    as [H|[H|[H|H]]] by (unfold scalar in Hr; lia).
  - rewrite encode1 by done. unfold str1. rewrite !app_cons, app_nil. do 2 eexists. split; [done|]. unfold DecodeRune. rewrite code_byte by lia.
    by rewrite (proj2 (Z.ltb_lt r 128)) by lia.
  - rewrite encode2 by done. unfold str1. rewrite !app_cons, app_nil. do 2 eexists. split; [done|]. unfold DecodeRune. cbv zeta. rewrite code_byte by lia.
    destruct (cont_byte (r mod 64)) as [E1 E2]; [apply Z.mod_pos_bound; lia|]. rewrite E1, E2.
    rewrite (proj2 (Z.ltb_ge _ 128)), (proj2 (Z.leb_le 194 _)), (proj2 (Z.leb_le _ 223)) by lia. cbn [andb].
    do 2 f_equal. lia.
  - rewrite encode3 by done. unfold str1. rewrite !app_cons, app_nil. do 2 eexists. split; [done|]. unfold DecodeRune. cbv zeta. rewrite code_byte by lia.
    destruct (cont_byte (r mod 64)) as [E1 E2]; [apply Z.mod_pos_bound; lia|].
    destruct (cont_byte (r / 64 mod 64)) as [E3 E4]; [apply Z.mod_pos_bound; lia|]. rewrite E1, E2, E4.
    rewrite (proj2 (Z.ltb_ge _ 128)), (proj2 (Z.leb_gt _ 223)), andb_false_r by lia. cbn [andb].
    rewrite (proj2 (Z.leb_le 224 _)), (proj2 (Z.leb_le _ 239)) by lia. cbn [andb].
    assert (accept (224 + r / 4096) (byte (128 + r / 64 mod 64)) = true) as ->.
    { unfold accept. rewrite E3. repeat case_match; ranges; try done; rewrite in_range_iff, code_byte; lia. }
    cbn [andb]. do 2 f_equal. lia.
  - rewrite encode4 by done. unfold str1. rewrite !app_cons, app_nil. do 2 eexists. split; [done|]. unfold DecodeRune. cbv zeta. rewrite code_byte by lia.
    destruct (cont_byte (r mod 64)) as [E1 E2]; [apply Z.mod_pos_bound; lia|].
    destruct (cont_byte (r / 64 mod 64)) as [E3 E4]; [apply Z.mod_pos_bound; lia|].
    destruct (cont_byte (r / 4096 mod 64)) as [E5 E6]; [apply Z.mod_pos_bound; lia|]. rewrite E1, E2, E3, E4, E6.
    rewrite (proj2 (Z.ltb_ge _ 128)), (proj2 (Z.leb_gt _ 223)), andb_false_r by lia. cbn [andb].
    rewrite (proj2 (Z.leb_gt _ 239)), andb_false_r by lia. cbn [andb].
    rewrite (proj2 (Z.leb_le 240 _)), (proj2 (Z.leb_le _ 244)) by lia. cbn [andb].
    assert (accept (240 + r / 262144) (byte (128 + r / 4096 mod 64)) = true) as ->.
    { unfold accept. rewrite E5. repeat case_match; ranges; try done; rewrite in_range_iff, code_byte; lia. }
    cbn [andb]. do 2 f_equal. lia.
Qed.

Lemma decode_encode r t : scalar r → decode (encode_rune r +:+ t) = Some r :: decode t.
Proof. intros Hr. destruct (DecodeRune_encode r t Hr) as (a & s & -> & E). by rewrite decode_cons, E. Qed.

(** Induction on the runes of a string. *)
Lemma rune_ind (P : string → Prop) :
  P "" → (∀ r t, scalar r → P t → P (encode_rune r +:+ t)) →
  (∀ a s, DecodeRune a s = (None, s) → P s → P (String a s)) → ∀ s, P s.
Proof.
  intros H0 H1 H2 s. induction (well_founded_ltof _ String.length s) as [s _ IH]. unfold ltof in IH.
  destruct s as [|a s]; [done|]. destruct (DecodeRune a s) as [[r|] t] eqn:E.
  - destruct (DecodeRune_some _ _ _ _ E) as [Hr Heq]. rewrite Heq. apply H1; [done|]. apply IH. rewrite Heq.
    destruct (DecodeRune_encode r "" Hr) as (b & u & Hb & _). rewrite app_empty_r in Hb. rewrite Hb.
    rewrite length_app_s. cbn. lia.
  - destruct (DecodeRune_none _ _ _ E) as [-> _]. apply H2; [done|]. apply IH. cbn. lia.
Qed.

(** ** Valid strings *)

Lemma to_valid_encode r t : scalar r → to_valid (encode_rune r +:+ t) = encode_rune r +:+ to_valid t.
Proof. intros Hr. unfold to_valid, MapRunes, runes. by rewrite decode_encode. Qed.

Lemma valid_utf8_encode r t : scalar r → valid_utf8 (encode_rune r +:+ t) = valid_utf8 t.
Proof. intros Hr. unfold valid_utf8. by rewrite decode_encode. Qed.

Lemma to_valid_id s : valid_utf8 s = true → to_valid s = s.
Proof.
  induction s as [|r t Hr IH|a s E IH] using rune_ind; [done| |].
  - rewrite valid_utf8_encode, to_valid_encode by done. intros H. by rewrite IH.
  - unfold valid_utf8. rewrite decode_cons, E. done.
Qed.

Lemma valid_app s t : valid_utf8 s = true → valid_utf8 (s +:+ t) = valid_utf8 t.
Proof.
  revert t. induction s as [|r s' Hr IH|a s E IH] using rune_ind; intros t; [done| |].
  - rewrite app_assoc_s, !valid_utf8_encode by done. apply IH.
  - unfold valid_utf8 at 1. rewrite decode_cons, E. done.
Qed.

Lemma scalar_RuneError : scalar RuneError.
Proof. unfold scalar, RuneError. lia. Qed.

Lemma valid_to_valid s : valid_utf8 (to_valid s) = true.
Proof.
  induction s as [|r t Hr IH|a s E IH] using rune_ind; [done| |].
  - by rewrite to_valid_encode, valid_utf8_encode.
  - unfold to_valid, MapRunes, runes. rewrite decode_cons, E. cbn [fst snd fmap list_fmap from_option foldr].
    rewrite valid_utf8_encode by apply scalar_RuneError. exact IH.
Qed.

(** ASCII text is valid. *)
Lemma valid_ascii s : all_bytes (λ c, code c <? 128) s = true → valid_utf8 s = true.
Proof.
  induction s as [|a s IH]; [done|]. cbn [all_bytes]. rewrite andb_true_iff. intros [Ha Hs].
  unfold valid_utf8. rewrite decode_cons. unfold DecodeRune. rewrite Ha. cbn. by apply IH.
Qed.
