(* ===== verification/GoTime.v ===== *)
(** * Go's [time] package

    An instant is a [Z]: the nanoseconds since January 1 of year 1, 00:00:00
    UTC, which is Go's zero [time.Time]; a duration is an [int64] number of
    nanoseconds.  The RFC 3339 layout is parsed with the grammar of
    [time.Parse] (one- or two-digit hours, an optional fraction after the
    seconds, [Z] or a numeric offset) and printed as [t.UTC().Format] does. *)

From S2P Require Import Prelude GoStrings.

Definition Nanosecond : Z := 1.
Definition Second : Z := 1000000000.
Definition Millisecond : Z := 1000000.
Definition Minute : Z := 60 * Second.

Definition zero_time : Z := 0.
Definition IsZero (t : Z) : bool := t =? zero_time.

(** [t.Sub(u)] saturates at the limits of [time.Duration]. *)
Definition Sub (t u : Z) : Z :=
  if t - u <? min_int64 then min_int64
  else if max_int64 <? t - u then max_int64
  else t - u.

(** [time.Duration(n) * time.Second], on [int64]. *)
Definition seconds (n : Z) : Z := int64 (int64 n * Second).

(** [int(d.Seconds())]: the duration in whole seconds, rounded towards zero.
    [Seconds] is a [float64]; the quotient is exact for every whole number of
    seconds (all the program configures) and below 2^22 seconds. *)
Definition whole_seconds (d : Z) : Z := Z.quot d Second.

(** ** The proleptic Gregorian calendar *)

(** Days are counted from January 1 of year 1; eras of 400 years start on
    March 1. *)
Definition civil_from_days (d : Z) : Z * Z * Z :=
  let z := d + 306 in
  let era := z / 146097 in
  let doe := z mod 146097 in
  let yoe := (doe - doe / 1460 + doe / 36524 - doe / 146096) / 365 in
  let doy := doe - (365 * yoe + yoe / 4 - yoe / 100) in
  let mp := (5 * doy + 2) / 153 in
  let day := doy - (153 * mp + 2) / 5 + 1 in
  let m := if mp <? 10 then mp + 3 else mp - 9 in
  (yoe + era * 400 + (if m <=? 2 then 1 else 0), m, day).

Definition days_from_civil (y m d : Z) : Z :=
  let y' := if m <=? 2 then y - 1 else y in
  let era := y' / 400 in
  let yoe := y' mod 400 in
  let mp := (m + 9) mod 12 in
  let doy := (153 * mp + 2) / 5 + d - 1 in
  era * 146097 + (yoe * 365 + yoe / 4 - yoe / 100 + doy) - 306.

Definition is_leap (y : Z) : bool :=
  (y mod 4 =? 0) && (negb (y mod 100 =? 0) || (y mod 400 =? 0)).

Definition days_in (m y : Z) : Z :=
  if m =? 2 then (if is_leap y then 29 else 28)
  else if (m =? 4) || (m =? 6) || (m =? 9) || (m =? 11) then 30 else 31.

(** ** Formatting *)

Definition digit (z : Z) : ascii := byte (48 + z).
Definition two_digits (z : Z) : string := String (digit (z / 10)) (str1 (digit (z mod 10))).
Definition four_digits (z : Z) : string := two_digits (z / 100) +:+ two_digits (z mod 100).

Definition format_year (y : Z) : string :=
  if (0 <=? y) && (y <? 10000) then four_digits y
  else if (-10000 <? y) && (y <? 0) then "-" +:+ four_digits (- y)
  else pretty y.

(** [t.UTC().Format(time.RFC3339)]. *)
Definition format_rfc3339 (t : Z) : string :=
  let secs := t / Second in
  let '(y, m, d) := civil_from_days (secs / 86400) in
  let s := secs mod 86400 in
  format_year y +:+ "-" +:+ two_digits m +:+ "-" +:+ two_digits d +:+ "T" +:+
  two_digits (s / 3600) +:+ ":" +:+ two_digits (s / 60 mod 60) +:+ ":" +:+
  two_digits (s mod 60) +:+ "Z".

(** ** Parsing *)

Definition is_digit (c : ascii) : bool := (48 <=? code c) && (code c <=? 57).
Definition digit_val (c : ascii) : Z := code c - 48.

(** [getnum(s, fixed)]: one or two digits, exactly two when [fixed]. *)
Definition getnum (fixed : bool) (s : string) : option (Z * string) :=
  match s with
  | String a s1 =>
      if is_digit a then
        match s1 with
        | String b s2 =>
            if is_digit b then Some (digit_val a * 10 + digit_val b, s2)
            else if fixed then None else Some (digit_val a, s1)
        | EmptyString => if fixed then None else Some (digit_val a, s1)
        end
      else None
  | EmptyString => None
  end.

Definition get_year (s : string) : option (Z * string) :=
  match s with
  | String a (String b (String c (String d r))) =>
      if is_digit a && is_digit b && is_digit c && is_digit d then
        Some (digit_val a * 1000 + digit_val b * 100 + digit_val c * 10 + digit_val d, r)
      else None
  | _ => None
  end.

Definition skip_byte (c : ascii) (s : string) : option string :=
  match s with
  | String a r => if Ascii.eqb a c then Some r else None
  | EmptyString => None
  end.

Fixpoint span_digits (s : string) : list Z * string :=
  match s with
  | String a r =>
      if is_digit a then let '(ds, r') := span_digits r in (digit_val a :: ds, r')
      else ([], s)
  | EmptyString => ([], s)
  end.

(** The first nine digits of a fraction, as nanoseconds. *)
Definition nanos (ds : list Z) : Z :=
  foldl (λ acc d, acc * 10 + d) 0 (take 9 (ds ++ replicate 9 0)).

(** An optional fraction: a period or comma followed by digits. *)
Definition get_fraction (s : string) : Z * string :=
  match s with
  | String p r =>
      if (code p =? 46) || (code p =? 44) then
        match span_digits r with
        | ([], _) => (0, s)
        | (ds, r') => (nanos ds, r')
        end
      else (0, s)
  | EmptyString => (0, s)
  end.

(** The layout element [Z07:00]: the offset from UTC in seconds. *)
Definition get_zone (s : string) : option (Z * string) :=
  match s with
  | String a r =>
      if code a =? 90 then Some (0, r)
      else match r with
           | String h1 (String h2 (String c (String m1 (String m2 rest)))) =>
               if (code c =? 58) && is_digit h1 && is_digit h2 && is_digit m1 && is_digit m2 then
                 let hr := digit_val h1 * 10 + digit_val h2 in
                 let mm := digit_val m1 * 10 + digit_val m2 in
                 if (24 <? hr) || (60 <? mm) then None
                 else if code a =? 43 then Some ((hr * 60 + mm) * 60, rest)
                 else if code a =? 45 then Some (- ((hr * 60 + mm) * 60), rest)
                 else None
               else None
           | _ => None
           end
  | EmptyString => None
  end.

Definition guard_range (lo hi z : Z) : option unit :=
  if (lo <=? z) && (z <=? hi) then Some tt else None.

(** [time.Parse(time.RFC3339, s)]; [None] stands for the parse error. *)
Definition parse_rfc3339 (s : string) : option Z :=
  '(year, s) ← get_year s; s ← skip_byte "-" s;
  '(month, s) ← getnum true s; guard_range 1 12 month ≫= λ _,
  s ← skip_byte "-" s; '(day, s) ← getnum true s; s ← skip_byte "T" s;
  '(hour, s) ← getnum false s; guard_range 0 23 hour ≫= λ _,
  s ← skip_byte ":" s; '(min, s) ← getnum true s; guard_range 0 59 min ≫= λ _,
  s ← skip_byte ":" s; '(sec, s) ← getnum true s; guard_range 0 59 sec ≫= λ _,
  let '(nsec, s) := get_fraction s in
  '(off, s) ← get_zone s;
  guard_range 1 (days_in month year) day ≫= λ _,
  match s with
  | EmptyString =>
      Some ((days_from_civil year month day * 86400 +
             hour * 3600 + min * 60 + sec - off) * Second + nsec)
  | String _ _ => None
  end.

(** ** Examples *)

Example format_ex : format_rfc3339 (63839768931 * Second + 5) = "2024-01-02T05:08:51Z".
Proof. vm_compute. reflexivity. Qed.
Example parse_ex : parse_rfc3339 "2024-01-02T05:08:51Z" = Some (63839768931 * Second).
Proof. vm_compute. reflexivity. Qed.
Example parse_offset_ex :
  parse_rfc3339 "2024-01-02T6:08:51,25+01:00" = Some (63839768931 * Second + 250000000).
Proof. vm_compute. reflexivity. Qed.
Example parse_bad_ex : parse_rfc3339 "2023-02-29T00:00:00Z" = None.
Proof. vm_compute. reflexivity. Qed.
Example zero_time_ex : format_rfc3339 zero_time = "0001-01-01T00:00:00Z".
Proof. vm_compute. reflexivity. Qed.

(** ** The timestamps of systemctl

    The layout [Mon 2006-01-02 15:04:05 MST]: an abbreviated day of the week,
    which is not compared with the date, the date, the time and the
    abbreviation of a time zone. *)

(** [lookupName] of the local time zone: the offset in seconds of an
    abbreviation at a time given in Unix seconds, when the zone uses it. *)
Class LocalZone := { local_offset : string → Z → option Z }.

(** A machine whose local time zone is UTC. *)
Definition utc_zone : LocalZone := {| local_offset _ _ := None |}.

Definition lower_letter (c : ascii) : Z := if in_range 65 90 c then code c + 32 else code c.

(** A name of [lookup], compared without regard to case. *)
Fixpoint skip_name (name s : string) : option string :=
  match name, s with
  | EmptyString, _ => Some s
  | String a name', String b s' =>
      if lower_letter a =? lower_letter b then skip_name name' s' else None
  | _, _ => None
  end.

Definition short_day_names : list string := ["Sun"; "Mon"; "Tue"; "Wed"; "Thu"; "Fri"; "Sat"].

Definition skip_weekday (s : string) : option string :=
  head (omap (λ name, skip_name name s) short_day_names).

(** A space of the layout: any number of spaces, none only at the end. *)
Definition skip_spaces (s : string) : option string :=
  match s with
  | EmptyString => Some EmptyString
  | String c _ => if code c =? 32 then Some (trim_left_by (λ c, code c =? 32) s) else None
  end.

(** [parseSignedOffset]: the length of a sign and an hour of at most 23, 0
    when there is none. *)
Definition signed_offset_length (s : string) : nat :=
  match s with
  | String c r =>
      if (code c =? 43) || (code c =? 45) then
        let '(ds, rest) := span_digits r in
        let x := foldl (λ acc d, acc * 10 + d) 0 ds in
        if (match ds with [] => true | _ => false end) || (23 <? x) then 0%nat
        else (String.length s - String.length rest)%nat
      else 0%nat
  | EmptyString => 0%nat
  end.

Fixpoint count_upper (limit : nat) (s : string) : nat :=
  match limit, s with
  | S n, String c r => if in_range 65 90 c then S (count_upper n r) else 0%nat
  | _, _ => 0%nat
  end.

(** [parseTimeZone]: the length of the abbreviation. *)
Definition zone_length (s : string) : option nat :=
  if (String.length s <? 3)%nat then None
  else if HasPrefix s "ChST" || HasPrefix s "MeST" then Some 4%nat
  else if HasPrefix s "GMT" then Some (3 + signed_offset_length (drop_bytes 3 s))%nat
  else if HasPrefix s "+" || HasPrefix s "-" then
    let n := signed_offset_length s in if (n =? 0)%nat then None else Some n
  else
    match count_upper 6 s with
    | 3%nat => Some 3%nat
    | 4%nat => if HasPrefix (drop_bytes 3 s) "T" || HasPrefix s "WITA" then Some 4%nat else None
    | 5%nat => if HasPrefix (drop_bytes 4 s) "T" then Some 5%nat else None
    | _ => None
    end.

(** The seconds from January 1 of year 1 to the Unix epoch. *)
Definition unix_epoch : Z := 62135596800.

(** [time.Parse("Mon 2006-01-02 15:04:05 MST", s)], as an instant. *)
Definition parse_systemctl `{LocalZone} (s : string) : option Z :=
  s ← skip_weekday s; s ← skip_spaces s;
  '(year, s) ← get_year s; s ← skip_byte "-" s;
  '(month, s) ← getnum true s; guard_range 1 12 month ≫= λ _,
  s ← skip_byte "-" s; '(day, s) ← getnum true s; s ← skip_spaces s;
  '(hour, s) ← getnum false s; guard_range 0 23 hour ≫= λ _,
  s ← skip_byte ":" s; '(min, s) ← getnum true s; guard_range 0 59 min ≫= λ _,
  s ← skip_byte ":" s; '(sec, s) ← getnum true s; guard_range 0 59 sec ≫= λ _,
  let '(nsec, s) := get_fraction s in
  s ← skip_spaces s;
  n ← (if HasPrefix s "UTC" then Some 3%nat else zone_length s);
  let zone := take_bytes n s in
  guard_range 1 (days_in month year) day ≫= λ _,
  match drop_bytes n s with
  | EmptyString =>
      let t := days_from_civil year month day * 86400 + hour * 3600 + min * 60 + sec in
      let off := if String.eqb zone "UTC" then 0 else default 0 (local_offset zone (t - unix_epoch)) in
      Some ((t - off) * Second + nsec)
  | String _ _ => None
  end.

Example parse_systemctl_ex :
  (@parse_systemctl utc_zone "Tue 2024-01-02 05:08:51 UTC",
   @parse_systemctl utc_zone "tue 2024-01-02  5:08:51 CEST",
   @parse_systemctl utc_zone "2024-01-02 05:08:51 UTC") =
  (Some (63839768931 * Second), Some (63839768931 * Second), None).
Proof. vm_compute. reflexivity. Qed.

(** ** Lemmas *)

Lemma Sub_exact t u : min_int64 ≤ t - u ≤ max_int64 → Sub t u = t - u.
Proof.
  intros H. unfold Sub.
  destruct (t - u <? min_int64) eqn:H1; bool_prop; [lia|].
  destruct (max_int64 <? t - u) eqn:H2; bool_prop; lia.
Qed.

(** Comparing a saturated difference with a representable duration loses
    nothing. *)
Lemma Sub_le t u d : min_int64 ≤ d < max_int64 → Sub t u ≤ d ↔ t - u ≤ d.
Proof.
  intros H. unfold Sub.
  destruct (t - u <? min_int64) eqn:H1; bool_prop; [lia|].
  destruct (max_int64 <? t - u) eqn:H2; bool_prop; lia.
Qed.

Lemma seconds_exact n : Z.abs n ≤ 9223372036 → seconds n = n * Second.
Proof.
  intros H. unfold seconds. rewrite (int64_id n) by (unfold min_int64, max_int64; lia).
  apply int64_id. unfold min_int64, max_int64, Second. lia.
Qed.

Lemma whole_seconds_seconds n : Z.abs n ≤ 9223372036 → whole_seconds (seconds n) = n.
Proof.
  intros H. rewrite seconds_exact by done. unfold whole_seconds.
  apply Z.quot_mul. unfold Second. lia.
Qed.
