(* ===== verification/GoTimeFacts.v ===== *)
(** * Facts about Go's RFC 3339 timestamps

    The calendar functions are inverse to each other, and a timestamp printed
    with [time.RFC3339] in UTC is read back as the same instant cut to whole
    seconds, between the years 1 and 9999. *)

From S2P Require Import Prelude GoStrings GoTime.

(** ** The calendar *)

Lemma yoe_bounds doe : 0 ≤ doe < 146097 →
  let yoe := (doe - doe / 1460 + doe / 36524 - doe / 146096) / 365 in
  0 ≤ yoe < 400 ∧ 0 ≤ doe - (365 * yoe + yoe / 4 - yoe / 100) ≤ 365.
Proof. intros H yoe. subst yoe. Z.to_euclidean_division_equations; lia. Qed.

(** Only a March-based year that ends in a leap year has a day 365. *)
Lemma yoe_last doe : 0 ≤ doe < 146097 →
  let yoe := (doe - doe / 1460 + doe / 36524 - doe / 146096) / 365 in
  doe - (365 * yoe + yoe / 4 - yoe / 100) = 365 →
  (yoe + 1) mod 4 = 0 ∧ ((yoe + 1) mod 100 ≠ 0 ∨ (yoe + 1) mod 400 = 0).
Proof. intros H yoe. subst yoe. Z.to_euclidean_division_equations; lia. Qed.

Definition month_day_ok (doy : Z) : bool :=
  let mp := (5 * doy + 2) / 153 in
  let day := doy - (153 * mp + 2) / 5 + 1 in
  let m := if mp <? 10 then mp + 3 else mp - 9 in
  (1 <=? m) && (m <=? 12) && (1 <=? day) && ((m + 9) mod 12 =? mp) &&
  ((day <=? days_in m 1) || ((m =? 2) && (day =? 29) && (doy =? 365))) &&
  Bool.eqb (m <=? 2) (306 <=? doy).

Lemma month_day doy : 0 ≤ doy ≤ 365 → month_day_ok doy = true.
Proof.
  intros H. assert (forallb month_day_ok (seqZ 0 366) = true) as Hall by (vm_compute; reflexivity).
  rewrite forallb_forall in Hall. apply Hall, list_elem_of_In, elem_of_seqZ. lia.
Qed.

Lemma days_in_leap m y d :
  d ≤ days_in m 1 ∨ m = 2 ∧ d = 29 ∧ is_leap y = true → d ≤ days_in m y.
Proof.
  intros [H|(-> & -> & Hl)]; unfold days_in in *.
  - destruct (m =? 2) eqn:E; [|done]. change (is_leap 1) with false in H. cbv iota in H.
    destruct (is_leap y); lia.
  - by rewrite Hl.
Qed.

(** The date of a day is a valid one, and it is the date of that day. *)
Lemma civil_round_trip d :
  let '(y, m, day) := civil_from_days d in
  days_from_civil y m day = d ∧ 1 ≤ m ≤ 12 ∧ 1 ≤ day ≤ days_in m y.
Proof.
  unfold civil_from_days. cbv zeta.
  set (doe := (d + 306) mod 146097). set (era := (d + 306) / 146097).
  assert (0 ≤ doe < 146097) as Hdoe by (apply Z.mod_pos_bound; lia).
  pose proof (yoe_bounds doe Hdoe) as Hy. pose proof (yoe_last doe Hdoe) as Hl. cbv zeta in Hy, Hl.
  set (yoe := (doe - doe / 1460 + doe / 36524 - doe / 146096) / 365) in *.
  destruct Hy as [Hy Hdoy]. set (doy := doe - (365 * yoe + yoe / 4 - yoe / 100)) in *.
  pose proof (month_day doy Hdoy) as Hm. unfold month_day_ok in Hm. cbv zeta in Hm.
  set (mp := (5 * doy + 2) / 153) in *. set (day := doy - (153 * mp + 2) / 5 + 1) in *.
  set (m := if mp <? 10 then mp + 3 else mp - 9) in *. bool_prop.
  assert (((m + 9) mod 12) = mp) as Hmp by lia.
  split_all; [|lia|lia|lia|].
  - unfold days_from_civil. cbv zeta. rewrite Hmp.
    replace (if m <=? 2 then yoe + era * 400 + (if m <=? 2 then 1 else 0) - 1
             else yoe + era * 400 + (if m <=? 2 then 1 else 0)) with (yoe + era * 400)
      by (destruct (m <=? 2); lia).
    rewrite Z.div_add, Z.mod_add, Z.div_small, Z.mod_small by lia.
    pose proof (Z.div_mod (d + 306) 146097 ltac:(lia)). lia.
  - apply days_in_leap.
    match goal with H : _ || _ = true |- _ => apply orb_true_iff in H as [?|?] end; bool_prop; [by left|right].
    assert (m = 2) as Hm2 by lia. assert (doy = 365) as Hd by lia.
    split_all; [done|lia|]. rewrite Hm2. change (2 <=? 2) with true. cbv iota.
    destruct (Hl Hd) as [Hl4 Hl100]. unfold is_leap.
    replace (yoe + era * 400 + 1) with (yoe + 1 + era * 100 * 4) by lia.
    rewrite Z.mod_add by lia. rewrite Hl4. cbn [Z.eqb andb].
    replace (yoe + 1 + era * 100 * 4) with (yoe + 1 + era * 4 * 100) by lia.
    rewrite Z.mod_add by lia.
    replace (yoe + 1 + era * 4 * 100) with (yoe + 1 + era * 400) by lia.
    rewrite Z.mod_add by lia. lia.
Qed.

(** The days of the years 1 to 9999. *)
Definition last_day : Z := 3652058.

Lemma civil_year d : 0 ≤ d ≤ last_day → 1 ≤ (civil_from_days d).1.1 ≤ 9999.
Proof.
  intros Hd. unfold civil_from_days, last_day in *. cbv zeta. cbn [fst].
  set (doe := (d + 306) mod 146097). set (era := (d + 306) / 146097).
  assert (0 ≤ doe < 146097) as Hdoe by (apply Z.mod_pos_bound; lia).
  assert (d + 306 = 146097 * era + doe) as He by (apply Z.div_mod; lia).
  pose proof (yoe_bounds doe Hdoe) as Hy. cbv zeta in Hy.
  set (yoe := (doe - doe / 1460 + doe / 36524 - doe / 146096) / 365) in *.
  destruct Hy as [Hy Hdoy]. set (doy := doe - (365 * yoe + yoe / 4 - yoe / 100)) in *.
  pose proof (month_day doy Hdoy) as Hm. unfold month_day_ok in Hm. cbv zeta in Hm.
  set (m := if _ <? 10 then _ else _) in *. bool_prop.
  match goal with H : Bool.eqb _ _ = true |- _ => apply Bool.eqb_prop in H as -> end.
  destruct (306 <=? doy) eqn:E; bool_prop; unfold doy in *; Z.to_euclidean_division_equations; lia.
Qed.

(** ** The text *)

Lemma is_digit_digit z : 0 ≤ z < 10 → is_digit (digit z) = true ∧ digit_val (digit z) = z.
Proof.
  intros Hz. unfold is_digit, digit_val, digit. rewrite code_byte by lia.
  split; [apply andb_true_iff; split; apply Z.leb_le|]; lia.
Qed.

Lemma getnum_two_digits fixed z s : 0 ≤ z < 100 → getnum fixed (two_digits z +:+ s) = Some (z, s).
Proof.
  intros Hz. assert (0 ≤ z / 10 < 10) as H1 by (Z.to_euclidean_division_equations; lia).
  assert (0 ≤ z mod 10 < 10) as H2 by (apply Z.mod_pos_bound; lia).
  destruct (is_digit_digit _ H1) as [E1 V1]. destruct (is_digit_digit _ H2) as [E2 V2].
  unfold two_digits, str1. rewrite !app_cons, app_nil. cbn [getnum]. rewrite E1, E2, V1, V2.
  do 2 f_equal. pose proof (Z.div_mod z 10). lia.
Qed.

Lemma get_year_four_digits y s : 0 ≤ y < 10000 → get_year (four_digits y +:+ s) = Some (y, s).
Proof.
  intros Hy. unfold four_digits, two_digits, str1. rewrite !app_cons, !app_nil, !app_cons, app_nil. cbn [get_year].
  assert (0 ≤ y / 100 < 100) as Hq by (Z.to_euclidean_division_equations; lia).
  assert (0 ≤ y mod 100 < 100) as Hr by (apply Z.mod_pos_bound; lia).
  destruct (is_digit_digit (y / 100 / 10)) as [E1 V1]; [Z.to_euclidean_division_equations; lia|].
  destruct (is_digit_digit (y / 100 mod 10)) as [E2 V2]; [apply Z.mod_pos_bound; lia|].
  destruct (is_digit_digit (y mod 100 / 10)) as [E3 V3]; [Z.to_euclidean_division_equations; lia|].
  destruct (is_digit_digit (y mod 100 mod 10)) as [E4 V4]; [apply Z.mod_pos_bound; lia|].
  rewrite E1, E2, E3, E4, V1, V2, V3, V4. cbn [andb].
  do 2 f_equal. Z.to_euclidean_division_equations; lia.
Qed.

Lemma skip_byte_app c s : skip_byte c (str1 c +:+ s) = Some s.
Proof. unfold str1. rewrite app_cons, app_nil. cbn [skip_byte]. by rewrite Ascii.eqb_refl. Qed.

Lemma guard_range_ok lo hi z : lo ≤ z ≤ hi → guard_range lo hi z = Some tt.
Proof.
  intros H. unfold guard_range.
  replace ((lo <=? z) && (z <=? hi)) with true; [done|].
  symmetry. apply andb_true_iff. split; apply Z.leb_le; lia.
Qed.

(** One element of the layout, in a goal that parses what was printed. *)
Ltac parse_step :=
  cbn [mbind option_bind];
  first [rewrite skip_byte_app | rewrite getnum_two_digits by lia | rewrite guard_range_ok by lia].

(** The instants of the years 1 to 9999. *)
Definition printable_time (t : Z) : Prop := 0 ≤ t < (last_day + 1) * 86400 * Second.

(** A printed timestamp is read back, cut to whole seconds. *)
Lemma parse_format t : printable_time t → parse_rfc3339 (format_rfc3339 t) = Some (t / Second * Second).
Proof.
  intros Ht. unfold printable_time in Ht. unfold format_rfc3339. cbv zeta.
  set (secs := t / Second).
  assert (0 ≤ secs < (last_day + 1) * 86400) as Hs.
  { unfold secs, Second, last_day in *. Z.to_euclidean_division_equations; lia. }
  assert (0 ≤ secs / 86400 ≤ last_day) as Hd.
  { unfold last_day in *. Z.to_euclidean_division_equations; lia. }
  pose proof (civil_round_trip (secs / 86400)) as Hc. pose proof (civil_year _ Hd) as Hy.
  destruct (civil_from_days (secs / 86400)) as [[y m] d]. cbn [fst] in Hy.
  destruct Hc as (Hc & Hm & Hday).
  set (s := secs mod 86400). assert (0 ≤ s < 86400) as Hsr by (apply Z.mod_pos_bound; lia).
  assert (0 ≤ s / 3600 ≤ 23 ∧ 0 ≤ s / 60 mod 60 ≤ 59 ∧ 0 ≤ s mod 60 ≤ 59) as (Hh & Hmi & Hse).
  { Z.to_euclidean_division_equations; lia. }
  assert (days_in m y ≤ 31) as Hdi by (unfold days_in; repeat case_match; lia).
  unfold format_year. replace ((0 <=? y) && (y <? 10000)) with true
    by (symmetry; apply andb_true_iff; split; [apply Z.leb_le|apply Z.ltb_lt]; lia).
  unfold parse_rfc3339.
  change "-" with (str1 "-"%char). change "T" with (str1 "T"%char).
  change ":" with (str1 ":"%char). change "Z" with (str1 "Z"%char).
  rewrite get_year_four_digits by lia. repeat parse_step.
  change (get_fraction (str1 "Z"%char)) with (0, str1 "Z"%char). cbv iota beta.
  change (get_zone (str1 "Z"%char)) with (Some (0, "")). cbn [mbind option_bind].
  repeat parse_step. cbn [mbind option_bind]. rewrite Hc.
  assert (s / 3600 * 3600 + s / 60 mod 60 * 60 + s mod 60 = s) as Hcut.
  { clear. Z.to_euclidean_division_equations; lia. }
  pose proof (Z.div_mod secs 86400 ltac:(lia)) as Hsecs. fold s in Hsecs.
  replace (secs / 86400 * 86400 + s / 3600 * 3600 + s / 60 mod 60 * 60 + s mod 60 - 0) with secs
    by lia.
  by rewrite Z.add_0_r.
Qed.

(** What parses starts with a digit. *)
Lemma parse_visible s t : parse_rfc3339 s = Some t → TrimSpace s ≠ "".
Proof.
  destruct s as [|c s]; [done|]. unfold parse_rfc3339.
  destruct (is_digit c) eqn:E.
  - intros _. apply TrimSpace_nonempty. unfold is_digit in E. unfold visible, in_range. bool_prop.
    apply andb_true_iff. split; apply Z.leb_le; lia.
  - destruct s as [|c1 [|c2 [|c3 s]]]; cbn [get_year]; try done. by rewrite E.
Qed.
