(* ===== verification/GoCrypto.v ===== *)
(** * Go's [crypto/sha256], [crypto/sha1], [crypto/hmac] and [encoding/hex]

    The hash functions of FIPS 180-4 and the HMAC of FIPS 198-1 on byte
    strings, executable, with the lengths of what they produce.  Words are
    32-bit values in [Z]. *)

From S2P Require Import Prelude GoStrings.

Definition w32 (z : Z) : Z := Z.land z 4294967295.
Definition add32 (a b : Z) : Z := w32 (a + b).
Definition rotr (n x : Z) : Z := Z.lor (Z.shiftr x n) (w32 (Z.shiftl x (32 - n))).
Definition rotl (n x : Z) : Z := rotr (32 - n) x.
Definition not32 (x : Z) : Z := Z.lxor x 4294967295.

(** ** Bytes and words *)

Fixpoint bytes_of (s : string) : list Z :=
  match s with
  | EmptyString => []
  | String c s' => code c :: bytes_of s'
  end.

Fixpoint string_of_bytes (l : list Z) : string :=
  match l with
  | [] => EmptyString
  | b :: l' => String (byte b) (string_of_bytes l')
  end.

Definition be32 (x : Z) : list Z :=
  [Z.shiftr x 24 mod 256; Z.shiftr x 16 mod 256; Z.shiftr x 8 mod 256; x mod 256].

Definition be64 (x : Z) : list Z := be32 (Z.shiftr x 32) ++ be32 (w32 x).

Fixpoint words_of (l : list Z) : list Z :=
  match l with
  | a :: b :: c :: d :: l' =>
      (a * 16777216 + b * 65536 + c * 256 + d) :: words_of l'
  | _ => []
  end.

(** The padded message: a 1 bit, zeros and the length in bits. *)
Definition pad (l : list Z) : list Z :=
  let n := length l in
  l ++ 128 :: replicate ((119 - n mod 64) mod 64)%nat 0 ++ be64 (8 * Z.of_nat n).

Fixpoint blocks (fuel : nat) (ws : list Z) : list (list Z) :=
  match fuel, ws with
  | S fuel', _ :: _ => take 16 ws :: blocks fuel' (drop 16 ws)
  | _, _ => []
  end.

(** The blocks of sixteen words of a padded message. *)
Definition message_blocks (s : string) : list (list Z) :=
  let ws := words_of (pad (bytes_of s)) in blocks (length ws) ws.

(** ** SHA-256 *)

Definition K256 : list Z := [
  1116352408; 1899447441; 3049323471; 3921009573; 961987163; 1508970993; 2453635748; 2870763221;
  3624381080; 310598401; 607225278; 1426881987; 1925078388; 2162078206; 2614888103; 3248222580;
  3835390401; 4022224774; 264347078; 604807628; 770255983; 1249150122; 1555081692; 1996064986;
  2554220882; 2821834349; 2952996808; 3210313671; 3336571891; 3584528711; 113926993; 338241895;
  666307205; 773529912; 1294757372; 1396182291; 1695183700; 1986661051; 2177026350; 2456956037;
  2730485921; 2820302411; 3259730800; 3345764771; 3516065817; 3600352804; 4094571909; 275423344;
  430227734; 506948616; 659060556; 883997877; 958139571; 1322822218; 1537002063; 1747873779;
  1955562222; 2024104815; 2227730452; 2361852424; 2428436474; 2756734187; 3204031479; 3329325298].

Definition nth0 (i : nat) (l : list Z) : Z := nth i l 0.

(** The message schedule, newest word first. *)
Fixpoint schedule256 (n : nat) (w : list Z) : list Z :=
  match n with
  | O => w
  | S n' =>
      let x2 := nth0 1 w in let x15 := nth0 14 w in
      let s0 := Z.lxor (rotr 7 x15) (Z.lxor (rotr 18 x15) (Z.shiftr x15 3)) in
      let s1 := Z.lxor (rotr 17 x2) (Z.lxor (rotr 19 x2) (Z.shiftr x2 10)) in
      schedule256 n' (add32 (add32 (nth0 15 w) s0) (add32 (nth0 6 w) s1) :: w)
  end.

Inductive state256 := State256 (a b c d e f g h : Z).

Definition round256 (st : state256) (kw : Z) : state256 :=
  let '(State256 a b c d e f g h) := st in
  let s1 := Z.lxor (rotr 6 e) (Z.lxor (rotr 11 e) (rotr 25 e)) in
  let ch := Z.lxor (Z.land e f) (Z.land (not32 e) g) in
  let t1 := add32 (add32 h s1) (add32 ch kw) in
  let s0 := Z.lxor (rotr 2 a) (Z.lxor (rotr 13 a) (rotr 22 a)) in
  let maj := Z.lxor (Z.land a b) (Z.lxor (Z.land a c) (Z.land b c)) in
  State256 (add32 t1 (add32 s0 maj)) a b c (add32 d t1) e f g.

Definition block256 (st : state256) (block : list Z) : state256 :=
  let w := rev (schedule256 48 (rev block)) in
  let '(State256 a b c d e f g h) := st in
  let '(State256 a' b' c' d' e' f' g' h') :=
    foldl round256 st (zip_with add32 K256 w) in
  State256 (add32 a a') (add32 b b') (add32 c c') (add32 d d')
           (add32 e e') (add32 f f') (add32 g g') (add32 h h').

Definition init256 : state256 :=
  State256 1779033703 3144134277 1013904242 2773480762
           1359893119 2600822924 528734635 1541459225.

(** [sha256.Sum256(s)]. *)
Definition sha256 (s : string) : string :=
  let '(State256 a b c d e f g h) := foldl block256 init256 (message_blocks s) in
  string_of_bytes (be32 a ++ be32 b ++ be32 c ++ be32 d ++ be32 e ++ be32 f ++ be32 g ++ be32 h).

(** ** SHA-1 *)

Fixpoint schedule1 (n : nat) (w : list Z) : list Z :=
  match n with
  | O => w
  | S n' =>
      let x := Z.lxor (Z.lxor (nth0 2 w) (nth0 7 w)) (Z.lxor (nth0 13 w) (nth0 15 w)) in
      schedule1 n' (rotl 1 x :: w)
  end.

Inductive state1 := State1 (a b c d e : Z).

Definition round1 (st : state1) (iw : nat * Z) : state1 :=
  let '(State1 a b c d e) := st in
  let '(i, w) := iw in
  let '(f, k) :=
    if (i <? 20)%nat then (Z.lxor (Z.land b c) (Z.land (not32 b) d), 1518500249)
    else if (i <? 40)%nat then (Z.lxor b (Z.lxor c d), 1859775393)
    else if (i <? 60)%nat then
      (Z.lxor (Z.land b c) (Z.lxor (Z.land b d) (Z.land c d)), 2400959708)
    else (Z.lxor b (Z.lxor c d), 3395469782) in
  State1 (add32 (add32 (rotl 5 a) f) (add32 (add32 e k) w)) a (rotl 30 b) c d.

Definition block1 (st : state1) (block : list Z) : state1 :=
  let w := rev (schedule1 64 (rev block)) in
  let '(State1 a b c d e) := st in
  let '(State1 a' b' c' d' e') := foldl round1 st (zip (seq 0 80) w) in
  State1 (add32 a a') (add32 b b') (add32 c c') (add32 d d') (add32 e e').

(** [sha1.Sum(s)]. *)
Definition sha1 (s : string) : string :=
  let '(State1 a b c d e) :=
    foldl block1 (State1 1732584193 4023233417 2562383102 271733878 3285377520)
      (message_blocks s) in
  string_of_bytes (be32 a ++ be32 b ++ be32 c ++ be32 d ++ be32 e).

(** ** HMAC-SHA256 and hexadecimal *)

Fixpoint xor_bytes (x : Z) (s : string) : string :=
  match s with
  | EmptyString => EmptyString
  | String c s' => String (byte (Z.lxor x (code c))) (xor_bytes x s')
  end.

Fixpoint zeros (n : nat) : string :=
  match n with O => EmptyString | S n' => String (byte 0) (zeros n') end.

(** The key, hashed when longer than a block, padded to 64 bytes. *)
Definition hmac_key (key : string) : string :=
  let k := if (64 <? String.length key)%nat then sha256 key else key in
  k +:+ zeros (64 - String.length k).

Definition hmac_sha256 (key msg : string) : string :=
  let k := hmac_key key in
  sha256 (xor_bytes 92 k +:+ sha256 (xor_bytes 54 k +:+ msg)).

Definition hex_digit (z : Z) : ascii := if z <? 10 then byte (48 + z) else byte (87 + z).

(** [hex.EncodeToString]. *)
Fixpoint hex (s : string) : string :=
  match s with
  | EmptyString => EmptyString
  | String c s' =>
      String (hex_digit (code c / 16)) (String (hex_digit (code c mod 16)) (hex s'))
  end.

(** ** Test vectors of the standards *)

Example sha256_abc :
  hex (sha256 "abc") = "ba7816bf8f01cfea414140de5dae2223b00361a396177a9cb410ff61f20015ad".
Proof. vm_compute. reflexivity. Qed.
Example sha256_two_blocks :
  hex (sha256 "abcdbcdecdefdefgefghfghighijhijkijkljklmklmnlmnomnopnopq") =
  "248d6a61d20638b8e5c026930c3e6039a33ce45964ff2167f6ecedd419db06c1".
Proof. vm_compute. reflexivity. Qed.
Example sha1_abc : hex (sha1 "abc") = "a9993e364706816aba3e25717850c26c9cd0d89d".
Proof. vm_compute. reflexivity. Qed.
Example hmac_jefe :
  hex (hmac_sha256 "Jefe" "what do ya want for nothing?") =
  "5bdcc146bf60754e6a042426089575c75a003f089d2739839dec58b964ec3843".
Proof. vm_compute. reflexivity. Qed.

(** ** Lengths and alphabet *)

Lemma length_string_of_bytes l : String.length (string_of_bytes l) = length l.
Proof. induction l as [|b l IH]; simpl; [done|]. by rewrite IH. Qed.

Lemma length_sha256 s : String.length (sha256 s) = 32%nat.
Proof. unfold sha256. case_match. by rewrite length_string_of_bytes. Qed.

Lemma length_sha1 s : String.length (sha1 s) = 20%nat.
Proof. unfold sha1. case_match. by rewrite length_string_of_bytes. Qed.

Lemma length_hex s : String.length (hex s) = (2 * String.length s)%nat.
Proof. induction s as [|c s IH]; simpl; [done|]. rewrite IH. lia. Qed.

(** Lower-case hexadecimal digits. *)
Definition is_hex (c : ascii) : bool :=
  ((48 <=? code c) && (code c <=? 57)) || ((97 <=? code c) && (code c <=? 102)).

Lemma is_hex_digit z : 0 ≤ z < 16 → is_hex (hex_digit z) = true.
Proof.
  intros H. unfold is_hex, hex_digit. destruct (z <? 10) eqn:E; bool_prop.
  - rewrite code_byte by lia. apply orb_true_iff. left. apply andb_true_iff. lia.
  - rewrite code_byte by lia. apply orb_true_iff. right. apply andb_true_iff. lia.
Qed.

Lemma hex_alphabet s : all_bytes is_hex (hex s) = true.
Proof.
  induction s as [|c s IH]; simpl; [done|]. pose proof (code_range c).
  rewrite !is_hex_digit, IH; [done| |].
  - apply Z.mod_pos_bound. lia.
  - split; [apply Z.div_pos; lia|]. apply Z.div_lt_upper_bound; lia.
Qed.

(** No collision of SHA-256 on a pair of texts. *)
Definition sha256_separates (a b : string) : Prop := sha256 a = sha256 b → a = b.

Lemma hex_inj s t : hex s = hex t → s = t.
Proof.
  revert t. induction s as [|c s IH]; intros [|d t] E; simpl in E; try done.
  injection E as E1 E2 E. f_equal; [|by apply IH].
  pose proof (code_range c). pose proof (code_range d).
  assert (∀ x, 0 ≤ x < 16 → ∀ y, 0 ≤ y < 16 → hex_digit x = hex_digit y → x = y) as Hinj.
  { intros x Hx y Hy. unfold hex_digit.
    destruct (Z.ltb_spec x 10), (Z.ltb_spec y 10); intros Exy; apply (f_equal code) in Exy;
      rewrite !code_byte in Exy by lia; lia. }
  apply code_inj. rewrite (Z.div_mod (code c) 16), (Z.div_mod (code d) 16) by lia.
  f_equal; [f_equal|]; apply Hinj; try (done || apply Z.mod_pos_bound; lia);
    split; try (apply Z.div_pos; lia); apply Z.div_lt_upper_bound; lia.
Qed.

#[export] Hint Resolve hex_alphabet : go_str.
