(* ===== verification/GoJson.v ===== *)
(** * Go's [encoding/json]

    The encoder as far as the program uses it: [json.Marshal] prints the fields of
    a struct in order, omits the empty ones tagged [omitempty] and escapes strings
    for HTML.  The decoder: a text is scanned into a value, and a struct is filled
    from an object field by field. *)

From S2P Require Import Prelude GoStrings GoUtf8 GoTime GoCrypto.

(** ** Encoding *)

Inductive json :=
  | JString (s : string)
  | JNumber (z : Z)
  | JDecimal (literal : string)
  | JBool (b : bool)
  | JNull
  | JArray (l : list json)
  | JObject (fields : list (string * json)).

Definition hex4 (z : Z) : string :=
  String (hex_digit (z / 4096)) (String (hex_digit (z / 256 mod 16))
    (String (hex_digit (z / 16 mod 16)) (str1 (hex_digit (z mod 16))))).

Definition escape (c : ascii) : string := String backslash (str1 c).

(** The escape of one rune, [None] an invalid byte. *)
Definition json_rune (r : option Z) : string :=
  match r with
  | None => String backslash "ufffd"
  | Some z =>
      if z =? 34 then escape dquote
      else if z =? 92 then escape backslash
      else if z =? 8 then escape "b"
      else if z =? 12 then escape "f"
      else if z =? 10 then escape "n"
      else if z =? 13 then escape "r"
      else if z =? 9 then escape "t"
      else if (z <? 32) || (z =? 60) || (z =? 62) || (z =? 38) || (z =? 8232) || (z =? 8233)
      then String backslash (String "u" (hex4 z))
      else encode_rune z
  end.

Definition json_string (s : string) : string :=
  str1 dquote +:+ foldr (λ r acc, json_rune r +:+ acc) EmptyString (decode s) +:+ str1 dquote.

Fixpoint print_json (j : json) : string :=
  match j with
  | JString s => json_string s
  | JNumber z => pretty z
  | JDecimal literal => literal
  | JBool b => if b then "true" else "false"
  | JNull => "null"
  | JArray l => "[" +:+ Join "," (print_json <$> l) +:+ "]"
  | JObject fs => "{" +:+ Join "," ((λ f, json_string f.1 +:+ ":" +:+ print_json f.2) <$> fs) +:+ "}"
  end.

(** [json.MarshalIndent(v, "", "  ")] of a value below [depth] others. *)
Definition indent (depth : nat) : string := foldr String.append EmptyString (replicate depth "  ").

Fixpoint print_json_indent (depth : nat) (j : json) : string :=
  match j with
  | JArray [] => "[]"
  | JArray l =>
      "[" +:+ nl +:+ Join ("," +:+ nl)
        ((λ x, indent (Datatypes.S depth) +:+ print_json_indent (Datatypes.S depth) x) <$> l) +:+
      nl +:+ indent depth +:+ "]"
  | JObject [] => "{}"
  | JObject fs =>
      "{" +:+ nl +:+ Join ("," +:+ nl)
        ((λ f, indent (Datatypes.S depth) +:+ json_string f.1 +:+ ": " +:+
               print_json_indent (Datatypes.S depth) f.2) <$> fs) +:+
      nl +:+ indent depth +:+ "}"
  | _ => print_json j
  end.

(** Fields tagged [omitempty]. *)
Definition omit_string (name s : string) : list (string * json) :=
  if String.eqb s "" then [] else [(name, JString s)].
Definition omit_number (name : string) (z : Z) : list (string * json) :=
  if z =? 0 then [] else [(name, JNumber z)].
Definition omit_list {A} (name : string) (f : A → json) (l : list A) : list (string * json) :=
  match l with [] => [] | _ => [(name, JArray (f <$> l))] end.

(** A slice without [omitempty]; the nil slice is [null]. *)
Definition json_slice (l : list string) : json :=
  match l with [] => JNull | _ => JArray (JString <$> l) end.

(** ** Scanning a text *)

Definition json_space (c : ascii) : bool :=
  (code c =? 32) || (code c =? 9) || (code c =? 10) || (code c =? 13).

Fixpoint skip_space (s : string) : string :=
  match s with
  | String c r => if json_space c then skip_space r else s
  | EmptyString => s
  end.

(** *** Strings *)

Definition unhex (c : ascii) : option Z :=
  if is_digit c then Some (digit_val c)
  else if in_range 97 102 c then Some (code c - 87)
  else if in_range 65 70 c then Some (code c - 55)
  else None.

(** Four hexadecimal digits. *)
Definition getu4 (s : string) : option (Z * string) :=
  match s with
  | String a (String b (String c (String d r))) =>
      x ← unhex a; y ← unhex b; z ← unhex c; w ← unhex d;
      Some (x * 4096 + y * 256 + z * 16 + w, r)
  | _ => None
  end.

(** The rune of a [\u] escape: the two halves of a surrogate pair make one, a
    half on its own is U+FFFD. *)
Definition unescape_rune (rr : Z) (s : string) : Z * string :=
  if (55296 <=? rr) && (rr <? 57344) then
    match s with
    | String e (String u r) =>
        if Ascii.eqb e backslash && Ascii.eqb u "u" then
          match getu4 r with
          | Some (rr1, r1) =>
              if (rr <? 56320) && (56320 <=? rr1) && (rr1 <? 57344)
              then ((rr - 55296) * 1024 + (rr1 - 56320) + 65536, r1)
              else (RuneError, s)
          | None => (RuneError, s)
          end
        else (RuneError, s)
    | _ => (RuneError, s)
    end
  else (rr, s).

Definition simple_escape (e : ascii) : option ascii :=
  if Ascii.eqb e dquote || Ascii.eqb e backslash || Ascii.eqb e slash then Some e
  else if Ascii.eqb e "b" then Some (byte 8)
  else if Ascii.eqb e "f" then Some (byte 12)
  else if Ascii.eqb e "n" then Some newline
  else if Ascii.eqb e "r" then Some carriage_return
  else if Ascii.eqb e "t" then Some tab
  else None.

Definition prepend (s : string) (x : string * string) : string * string := (s +:+ x.1, x.2).

(** The rest of a string literal after its opening quote: its value, and the
    text after it.  Every step consumes a byte. *)
Fixpoint scan_chars (n : nat) (s : string) : option (string * string) :=
  match n, s with
  | Datatypes.S n', String c r =>
      if Ascii.eqb c dquote then Some ("", r)
      else if Ascii.eqb c backslash then
        match r with
        | String e r1 =>
            if Ascii.eqb e "u" then
              x ← getu4 r1;
              let '(rune, r2) := unescape_rune x.1 x.2 in prepend (encode_rune rune) <$> scan_chars n' r2
            else b ← simple_escape e; prepend (str1 b) <$> scan_chars n' r1
        | EmptyString => None
        end
      else if code c <? 32 then None
      else let '(rune, t) := DecodeRune c r in
           prepend (encode_rune (default RuneError rune)) <$> scan_chars n' t
  | _, _ => None
  end.

(** *** Numbers *)

Fixpoint span_number (s : string) : string * string :=
  match s with
  | String c r => if is_digit c then let '(d, t) := span_number r in (String c d, t) else ("", s)
  | EmptyString => ("", s)
  end.

(** Decimal digits after [acc]. *)
Fixpoint dec_val (acc : Z) (s : string) : Z :=
  match s with
  | String c r => dec_val (acc * 10 + digit_val c) r
  | EmptyString => acc
  end.

(** Digits of which there is one at least, behind a prefix. *)
Definition scan_digits1 (pre s : string) : option (string * string) :=
  let '(d, t) := span_number s in if String.eqb d "" then None else Some (pre +:+ d, t).

Definition scan_fraction (s : string) : option (string * string) :=
  match s with
  | String c r => if Ascii.eqb c "." then scan_digits1 (str1 c) r else Some ("", s)
  | EmptyString => Some ("", s)
  end.

Definition scan_exponent (s : string) : option (string * string) :=
  match s with
  | String c r =>
      if Ascii.eqb c "e" || Ascii.eqb c "E" then
        match r with
        | String g r1 =>
            if Ascii.eqb g "+" || Ascii.eqb g dash then scan_digits1 (String c (str1 g)) r1
            else scan_digits1 (str1 c) r
        | EmptyString => None
        end
      else Some ("", s)
  | EmptyString => Some ("", s)
  end.

(** The digits before a fraction: no leading zero. *)
Definition scan_integer (s : string) : option (string * string) :=
  match s with
  | String c r =>
      if Ascii.eqb c "0" then Some (str1 c, r)
      else if is_digit c then Some (span_number s) else None
  | EmptyString => None
  end.

Definition scan_number (s : string) : option (json * string) :=
  let '(neg, s1) :=
    match s with
    | String c r => if Ascii.eqb c dash then (true, r) else (false, s)
    | EmptyString => (false, s)
    end in
  int ← scan_integer s1;
  frac ← scan_fraction int.2;
  exp ← scan_exponent frac.2;
  Some (if String.eqb frac.1 "" && String.eqb exp.1 ""
        then JNumber (if (neg : bool) then - dec_val 0 int.1 else dec_val 0 int.1)
        else JDecimal ((if neg then str1 dash else "") +:+ int.1 +:+ frac.1 +:+ exp.1), exp.2).

(** *** Values *)

Definition maxNestingDepth : Z := 10000.

Definition literal (word : string) (j : json) (s : string) : option (json * string) :=
  if HasPrefix s word then Some (j, drop_bytes (String.length word) s) else None.

Definition scan_string (s : string) : option (string * string) :=
  match s with
  | String c r => if Ascii.eqb c dquote then scan_chars (Datatypes.S (String.length r)) r else None
  | EmptyString => None
  end.

Definition open_brace : ascii := "{"%char.
Definition close_brace : ascii := "}"%char.
Definition open_array : ascii := "["%char.
Definition close_array : ascii := "]"%char.

(** A value below [depth] others, with the text after it; the elements of an
    array and the members of an object after their opening bracket.  [n] bounds
    the nesting of the calls; see [scan_fuel]. *)
Fixpoint scan_value (n : nat) (depth : Z) (s : string) : option (json * string) :=
  match n with
  | O => None
  | Datatypes.S n' =>
      match skip_space s with
      | EmptyString => None
      | String c r as s1 =>
          if Ascii.eqb c open_brace then
            if maxNestingDepth <? depth + 1 then None
            else match skip_space r with
                 | String e r1 as s2 =>
                     if Ascii.eqb e close_brace then Some (JObject [], r1)
                     else prod_map JObject id <$> scan_members n' (depth + 1) s2
                 | EmptyString => None
                 end
          else if Ascii.eqb c open_array then
            if maxNestingDepth <? depth + 1 then None
            else match skip_space r with
                 | String e r1 as s2 =>
                     if Ascii.eqb e close_array then Some (JArray [], r1)
                     else prod_map JArray id <$> scan_elements n' (depth + 1) s2
                 | EmptyString => None
                 end
          else if Ascii.eqb c dquote then prod_map JString id <$> scan_string s1
          else if Ascii.eqb c "t" then literal "true" (JBool true) s1
          else if Ascii.eqb c "f" then literal "false" (JBool false) s1
          else if Ascii.eqb c "n" then literal "null" JNull s1
          else scan_number s1
      end
  end
with scan_elements (n : nat) (depth : Z) (s : string) : option (list json * string) :=
  match n with
  | O => None
  | Datatypes.S n' =>
      v ← scan_value n' depth s;
      match skip_space v.2 with
      | String c r =>
          if Ascii.eqb c close_array then Some ([v.1], r)
          else if Ascii.eqb c "," then prod_map (cons v.1) id <$> scan_elements n' depth r
          else None
      | EmptyString => None
      end
  end
with scan_members (n : nat) (depth : Z) (s : string) : option (list (string * json) * string) :=
  match n with
  | O => None
  | Datatypes.S n' =>
      k ← scan_string (skip_space s);
      match skip_space k.2 with
      | String c r =>
          if Ascii.eqb c ":" then
            v ← scan_value n' depth r;
            match skip_space v.2 with
            | String c r =>
                if Ascii.eqb c close_brace then Some ([(k.1, v.1)], r)
                else if Ascii.eqb c "," then prod_map (cons (k.1, v.1)) id <$> scan_members n' depth r
                else None
            | EmptyString => None
            end
          else None
      | EmptyString => None
      end
  end.

Definition scan_fuel (s : string) : nat := 2 * String.length s + 2.

(** [json.NewDecoder(r).Decode(&v)] reads the first value of a text. *)
Definition DecodeFirst (s : string) : option json := fst <$> scan_value (scan_fuel s) 0 s.

(** [json.Unmarshal(data, &v)] demands that nothing follows. *)
Definition Unmarshal (s : string) : option json :=
  v ← scan_value (scan_fuel s) 0 s;
  if String.eqb (skip_space v.2) "" then Some v.1 else None.

(** ** Filling structs *)

(** How a key is compared with the name of a field: without regard to case,
    with the two characters that fold to ASCII letters. *)
Definition fold_rune (r : Z) : Z :=
  if (97 <=? r) && (r <=? 122) then r - 32
  else if r =? 8490 then 75 else if r =? 383 then 83 else r.
Definition same_name (name key : string) : bool :=
  bool_decide (fold_rune <$> runes key = fold_rune <$> runes name).

(** A decoder updates a value; [None] is an error. *)
Definition Decoder (A : Type) : Type := json → A → option A.

(** The values of a field, in the order in which the object lists them. *)
Definition field_values (name : string) (fs : list (string * json)) : list json :=
  snd <$> List.filter (λ f, same_name name f.1) fs.

Fixpoint decode_all {A} (d : Decoder A) (l : list json) (a : A) : option A :=
  match l with
  | [] => Some a
  | j :: l => a ← d j a; decode_all d l a
  end.

Definition get {A} (d : Decoder A) (a : A) (name : string) (fs : list (string * json)) : option A :=
  decode_all d (field_values name fs) a.

(** [null] leaves a string, a number, a bool or a struct as it is. *)
Definition dec_string : Decoder string := λ j a,
  match j with JString s => Some s | JNull => Some a | _ => None end.
Definition dec_bool : Decoder bool := λ j a,
  match j with JBool b => Some b | JNull => Some a | _ => None end.
(** An integer of [w] bits. *)
Definition dec_int (w : Z) : Decoder Z := λ j a,
  match j with
  | JNumber z => if (- 2 ^ (w - 1) <=? z) && (z <? 2 ^ (w - 1)) then Some z else None
  | JNull => Some a
  | _ => None
  end.
Definition dec_struct {A} (fill : list (string * json) → A → option A) : Decoder A := λ j a,
  match j with JObject fs => fill fs a | JNull => Some a | _ => None end.

(** A pointer: [null] makes it nil. *)
Definition dec_pointer {A} (zero : A) (d : Decoder A) : Decoder (option A) := λ j a,
  match j with JNull => Some None | _ => Some <$> d j (default zero a) end.

(** A slice, the nil one as the empty list; the elements are decoded into zero
    values (into the old elements, where a text repeats the key of a slice). *)
Definition dec_slice {A} (zero : A) (d : Decoder A) : Decoder (list A) := λ j _,
  match j with
  | JNull => Some []
  | JArray l => mapM (λ j, d j zero) l
  | _ => None
  end.

(** A map: entries are added to it. *)
Fixpoint dec_entries {A} (zero : A) (d : Decoder A) (fs : list (string * json)) (m : gmap string A)
    : option (gmap string A) :=
  match fs with
  | [] => Some m
  | (k, j) :: fs => a ← d j zero; dec_entries zero d fs (<[k := a]> m)
  end.
Definition dec_map {A} (zero : A) (d : Decoder A) : Decoder (gmap string A) := λ j m,
  match j with
  | JNull => Some ∅
  | JObject fs => dec_entries zero d fs m
  | _ => None
  end.

Example scan_ex :
  Unmarshal (ReplaceAll "'" (str1 dquote) " {'a' : [1, -20,3.5e+1 ,true],'\u00e9\n':{} , 'b':null}") =
  Some (JObject [("a", JArray [JNumber 1; JNumber (-20); JDecimal "3.5e+1"; JBool true]);
                 (encode_rune 233 +:+ nl, JObject []); ("b", JNull)]) ∧
  Unmarshal "[1,]" = None ∧ Unmarshal "01" = None ∧ Unmarshal "{} x" = None ∧ DecodeFirst "{} x" = Some (JObject []) ∧
  Unmarshal (ReplaceAll "'" (str1 dquote) "'\ud83d\ude00\ud83d'") = Some (JString (encode_rune 128512 +:+ encode_rune RuneError)).
Proof. vm_compute. split_all; reflexivity. Qed.
