(* ===== verification/GoJsonFacts.v ===== *)
(** * Reading back what [json.Marshal] prints

    [Text] is the grammar of JSON texts with arbitrary spaces around values; both
    printers produce such texts, and the scanner returns the value of every one of
    them.  Strings come back with their invalid bytes replaced. *)

From S2P Require Import Prelude GoStrings GoUtf8 GoTime GoCrypto GoJson.

#[local] Ltac Zify.zify_post_hook ::= Z.to_euclidean_division_equations.

(** ** Strings *)

Lemma unhex_hex_digit z : 0 ≤ z < 16 → unhex (hex_digit z) = Some z.
Proof.
  intros H. unfold unhex, hex_digit. destruct (Z.ltb_spec z 10) as [Hz|Hz].
  - unfold is_digit, digit_val. rewrite code_byte by lia.
    rewrite (proj2 (Z.leb_le 48 _)), (proj2 (Z.leb_le _ 57)) by lia. cbn [andb]. f_equal. lia.
  - unfold is_digit, digit_val. rewrite code_byte by lia. rewrite (proj2 (Z.leb_gt _ 57)), andb_false_r by lia.
    replace (in_range 97 102 (byte (87 + z))) with true by (symmetry; apply in_range_iff; rewrite code_byte; lia).
    f_equal. lia.
Qed.

Lemma getu4_hex4 z t : 0 ≤ z < 65536 → getu4 (hex4 z +:+ t) = Some (z, t).
Proof.
  intros H. unfold hex4, str1. rewrite !app_cons, app_nil. unfold getu4.
  rewrite !unhex_hex_digit by lia. cbn [mbind option_bind]. do 2 f_equal. lia.
Qed.

(** The rune a string decodes to. *)
#[local] Abbreviation rune_of := (default RuneError).

(** One printed rune is read back. *)
Lemma scan_escape n e b t : simple_escape e = Some b → e ≠ "u"%char →
  scan_chars (Datatypes.S n) (escape e +:+ t) = prepend (str1 b) <$> scan_chars n t.
Proof.
  intros He Hu. unfold escape, str1. rewrite !app_cons, app_nil. cbn [scan_chars].
  replace (Ascii.eqb backslash dquote) with false by reflexivity. rewrite Ascii.eqb_refl.
  apply Ascii.eqb_neq in Hu as ->. by rewrite He.
Qed.

Lemma scan_unicode n z t : 0 ≤ z < 55296 ∨ 57344 ≤ z < 65536 →
  scan_chars (Datatypes.S n) (String backslash (String "u" (hex4 z)) +:+ t) =
  prepend (encode_rune z) <$> scan_chars n t.
Proof.
  intros Hz. rewrite !app_cons. cbn [scan_chars].
  replace (Ascii.eqb backslash dquote) with false by reflexivity. rewrite !Ascii.eqb_refl.
  rewrite getu4_hex4 by lia. cbn [mbind option_bind fst snd]. unfold unescape_rune.
  destruct ((55296 <=? z) && (z <? 57344)) eqn:E; [|done]. bool_prop.
  apply Z.leb_le in H. apply Z.ltb_lt in H0. lia.
Qed.

Lemma scan_plain n z t : scalar z → 32 ≤ z → z ≠ 34 → z ≠ 92 →
  scan_chars (Datatypes.S n) (encode_rune z +:+ t) = prepend (encode_rune z) <$> scan_chars n t.
Proof.
  intros Hz H32 H34 H92. destruct (DecodeRune_encode z t Hz) as (a & s & Heq & Hd). rewrite Heq.
  cbn [scan_chars].
  assert (code a = z ∨ 128 ≤ code a) as Ha.
  { unfold DecodeRune in Hd. cbv zeta in Hd. destruct (Z.ltb_spec (code a) 128); [left; congruence|by right]. }
  assert (Ascii.eqb a dquote = false) as ->.
  { apply Ascii.eqb_neq. intros ->. change (code dquote) with 34 in Ha. lia. }
  assert (Ascii.eqb a backslash = false) as ->.
  { apply Ascii.eqb_neq. intros ->. change (code backslash) with 92 in Ha. lia. }
  rewrite (proj2 (Z.ltb_ge _ _)) by lia. by rewrite Hd.
Qed.

Lemma scan_rune n r t : (∀ z, r = Some z → scalar z) →
  scan_chars (Datatypes.S n) (json_rune r +:+ t) = prepend (encode_rune (rune_of r)) <$> scan_chars n t.
Proof.
  intros Hr. destruct r as [z|]; [|by apply (scan_unicode n RuneError); unfold RuneError; lia].
  specialize (Hr z eq_refl). cbn [json_rune from_option]. unfold default, id. cbn [from_option].
  destruct (Z.eqb_spec z 34) as [->|H1]; [by apply scan_escape|].
  destruct (Z.eqb_spec z 92) as [->|H2]; [by apply scan_escape|].
  destruct (Z.eqb_spec z 8) as [->|H3]; [by apply scan_escape|].
  destruct (Z.eqb_spec z 12) as [->|H4]; [by apply scan_escape|].
  destruct (Z.eqb_spec z 10) as [->|H5]; [by apply scan_escape|].
  destruct (Z.eqb_spec z 13) as [->|H6]; [by apply scan_escape|].
  destruct (Z.eqb_spec z 9) as [->|H7]; [by apply scan_escape|].
  destruct (_ || _) eqn:E.
  - apply scan_unicode. unfold scalar in Hr.
    rewrite !orb_true_iff, !Z.eqb_eq, Z.ltb_lt in E. lia.
  - apply scan_plain; [done| |done|done]. rewrite !orb_false_iff, Z.ltb_ge in E. lia.
Qed.

(** The scalars among the runes of a string. *)
Lemma decode_scalar s : Forall (λ r, ∀ z, r = Some z → scalar z) (decode s).
Proof.
  induction s as [|r t Hr IH|a s E IH] using rune_ind; [by constructor| |].
  - rewrite decode_encode by done. constructor; [|done]. by intros z [= <-].
  - rewrite decode_cons, E. by constructor.
Qed.

Lemma json_rune_nonempty r : (1 ≤ String.length (json_rune r))%nat.
Proof.
  assert (∀ z, (1 ≤ String.length (encode_rune z))%nat) as He.
  { intros z. unfold encode_rune. repeat case_match; cbn; lia. }
  unfold json_rune, escape. repeat case_match; cbn; try lia. apply He.
Qed.

Lemma scan_runes l t n : Forall (λ r, ∀ z, r = Some z → scalar z) l → (length l < n)%nat →
  scan_chars n (foldr (λ r acc, json_rune r +:+ acc) "" l +:+ String dquote t) =
  Some (foldr (λ r acc, encode_rune (rune_of r) +:+ acc) "" l, t).
Proof.
  intros Hl. revert n. induction Hl as [|r l Hr Hl IH]; intros n Hn; (destruct n as [|n]; [cbn in Hn; lia|]).
  - cbn [foldr]. rewrite app_nil. cbn [scan_chars]. by rewrite Ascii.eqb_refl.
  - cbn [foldr length] in *. rewrite app_assoc_s, scan_rune by done. rewrite IH by lia. done.
Qed.

Lemma length_runes_text l : (length l ≤ String.length (foldr (λ r acc, json_rune r +:+ acc) "" l))%nat.
Proof.
  induction l as [|r l IH]; cbn [foldr length]; [cbn; lia|]. rewrite length_app_s.
  pose proof (json_rune_nonempty r). lia.
Qed.

Lemma to_valid_runes s : to_valid s = foldr (λ r acc, encode_rune (rune_of r) +:+ acc) "" (decode s).
Proof. unfold to_valid, MapRunes, runes. induction (decode s) as [|r l IH]; [done|]. cbn. by rewrite IH. Qed.

Lemma scan_json_string s t : scan_string (json_string s +:+ t) = Some (to_valid s, t).
Proof.
  unfold json_string. change (str1 dquote +:+ ?x) with (String dquote x).
  rewrite app_cons, app_assoc_s. change (str1 dquote +:+ t) with (String dquote t).
  unfold scan_string. rewrite Ascii.eqb_refl, scan_runes; [by rewrite to_valid_runes|apply decode_scalar|].
  rewrite length_app_s. cbn [String.length]. pose proof (length_runes_text (decode s)). lia.
Qed.

(** ** Numbers *)

(** What may follow a number. *)
Definition number_ends (s : string) : bool :=
  match s with
  | EmptyString => true
  | String c _ => negb (is_digit c || Ascii.eqb c "." || Ascii.eqb c "e" || Ascii.eqb c "E")
  end.

Lemma span_number_app d t : all_bytes is_digit d = true → number_ends t = true → span_number (d +:+ t) = (d, t).
Proof.
  intros Hd Ht. induction d as [|c d IH].
  - rewrite app_nil. destruct t as [|c t]; [done|]. cbn in *. rewrite !negb_orb, !andb_true_iff in Ht.
    destruct Ht as [[[Hc _] _] _]. apply negb_true_iff in Hc. by rewrite Hc.
  - cbn [all_bytes] in Hd. apply andb_true_iff in Hd as [Hc Hd]. rewrite app_cons. cbn [span_number].
    rewrite Hc. by rewrite IH.
Qed.

(** The digits of a positive number. *)
Lemma digit_char x : is_digit (pretty_N_char (x `mod` 10)) = true ∧
  digit_val (pretty_N_char (x `mod` 10)) = Z.of_N (x `mod` 10).
Proof.
  assert (x `mod` 10 < 10)%N as Hx by (apply N.mod_lt; lia).
  remember (x `mod` 10)%N as y eqn:E. clear E.
  assert (y = 0 ∨ y = 1 ∨ y = 2 ∨ y = 3 ∨ y = 4 ∨ y = 5 ∨ y = 6 ∨ y = 7 ∨ y = 8 ∨ y = 9)%N as Hy by lia.
  repeat destruct Hy as [->|Hy]; try done. by subst.
Qed.

Lemma dec_val_pretty x s : dec_val 0 (pretty_N_go x s) = dec_val (Z.of_N x) s.
Proof.
  revert s. induction (N.lt_wf_0 x) as [x _ IH]; intros s. destruct (decide (x = 0%N)) as [->|Hx].
  - by rewrite pretty_N_go_0.
  - rewrite pretty_N_go_step by lia. rewrite IH by (apply N.div_lt; lia). cbn [dec_val].
    destruct (digit_char x) as [_ ->]. f_equal. rewrite N2Z.inj_div, N2Z.inj_mod. lia.
Qed.

Lemma pretty_head x s : (0 < x)%N → ∃ c t, pretty_N_go x s = String c t ∧ is_digit c = true ∧ c ≠ "0"%char.
Proof.
  revert s. induction (N.lt_wf_0 x) as [x _ IH]; intros s Hx. rewrite pretty_N_go_step by lia.
  destruct (decide (x / 10 = 0)%N) as [E|E].
  - rewrite E, pretty_N_go_0. exists (pretty_N_char (x `mod` 10)), s. destruct (digit_char x) as [H1 H2].
    split_all; try done. intros Hc. rewrite Hc in H2. change (digit_val "0") with 0 in H2.
    assert (x `mod` 10 = 0)%N by lia. pose proof (N.div_mod x 10). lia.
  - apply IH; [apply N.div_lt; lia|lia].
Qed.

Lemma pretty_digits x : all_bytes is_digit (pretty_N_go x "") = true.
Proof. by apply (pretty_N_go_decimal x ""). Qed.

Lemma scan_integer_pretty (p : positive) t : number_ends t = true →
  scan_integer (pretty p +:+ t) = Some (pretty p, t).
Proof.
  intros Ht. unfold pretty, pretty_positive, pretty, pretty_N. rewrite decide_False by done.
  pose proof (pretty_digits (N.pos p)) as Hd.
  destruct (pretty_head (N.pos p) "" eq_refl) as (c & u & E & Hc & Hz). rewrite E in *.
  rewrite app_cons. unfold scan_integer. apply Ascii.eqb_neq in Hz as ->. rewrite Hc.
  rewrite <-app_cons. by rewrite span_number_app.
Qed.

Lemma dec_val_positive (p : positive) : dec_val 0 (pretty p) = Z.pos p.
Proof. unfold pretty, pretty_positive, pretty, pretty_N. rewrite decide_False by done. apply dec_val_pretty. Qed.

Lemma number_ends_fraction t : number_ends t = true → scan_fraction t = Some ("", t) ∧ scan_exponent t = Some ("", t).
Proof.
  destruct t as [|c t]; [done|]. cbn. rewrite negb_true_iff, !orb_false_iff. intros [[[_ ->] ->] ->]. done.
Qed.

Lemma scan_number_pretty z t : number_ends t = true → scan_number (pretty z +:+ t) = Some (JNumber z, t).
Proof.
  intros Ht. destruct (number_ends_fraction t Ht) as [Hf He]. destruct z as [|p|p].
  - change (pretty 0 +:+ t) with (String "0" t). unfold scan_number.
    replace (Ascii.eqb "0" dash) with false by reflexivity. unfold scan_integer. rewrite Ascii.eqb_refl.
    cbn [mbind option_bind fst snd]. rewrite Hf. cbn [mbind option_bind fst snd]. by rewrite He.
  - change (pretty (Z.pos p)) with (pretty p). unfold scan_number.
    pose proof (scan_integer_pretty p t Ht) as Hi. pose proof (dec_val_positive p) as Hv.
    destruct (pretty p) as [|c u] eqn:E; [rewrite app_nil in Hi|].
    { exfalso. change (pretty p) with (pretty (Z.pos p)) in E. by destruct (pretty_head (N.pos p) "" eq_refl) as (?&?&E'&_);
      unfold pretty, pretty_Z, pretty, pretty_positive, pretty, pretty_N in E; rewrite decide_False in E by done; rewrite E in E'. }
    rewrite app_cons in *.
    assert (Ascii.eqb c dash = false) as ->.
    { apply Ascii.eqb_neq. intros ->. done. }
    cbn [fst snd]. rewrite Hi. cbn [mbind option_bind fst snd]. rewrite Hf. cbn [mbind option_bind fst snd].
    rewrite He. cbn [mbind option_bind fst snd String.eqb andb]. by rewrite Hv.
  - change (pretty (Z.neg p)) with ("-" +:+ pretty p). unfold scan_number. rewrite app_assoc_s.
    change ("-" +:+ ?x) with (String dash x). cbv iota. rewrite Ascii.eqb_refl.
    rewrite scan_integer_pretty by done. cbn [mbind option_bind fst snd]. rewrite Hf. cbn [mbind option_bind fst snd].
    rewrite He. cbn [mbind option_bind fst snd String.eqb andb]. by rewrite dec_val_positive.
Qed.

(** ** Values *)

Definition spaces (s : string) : Prop := all_bytes json_space s = true.

(** [Text d j s]: [s] is a text of [j], nested at most [d] deep.  Elements and
    members come with the bracket that closes them. *)
Inductive Text : nat → json → string → Prop :=
  | TString d s : Text d (JString (to_valid s)) (json_string s)
  | TNumber d z : Text d (JNumber z) (pretty z)
  | TBool d (b : bool) : Text d (JBool b) (if b then "true" else "false")
  | TNull d : Text d JNull "null"
  | TArrayNil d : Text (Datatypes.S d) (JArray []) "[]"
  | TObjectNil d : Text (Datatypes.S d) (JObject []) "{}"
  | TArray d l s : Elements d l s → Text (Datatypes.S d) (JArray l) ("[" +:+ s)
  | TObject d fs s : Members d fs s → Text (Datatypes.S d) (JObject fs) ("{" +:+ s)
with Elements : nat → list json → string → Prop :=
  | ELast d j s a b : Text d j s → spaces a → spaces b → Elements d [j] (a +:+ s +:+ b +:+ "]")
  | ECons d j l s t a : Text d j s → Elements d l t → spaces a → Elements d (j :: l) (a +:+ s +:+ "," +:+ t)
with Members : nat → list (string * json) → string → Prop :=
  | MLast d k j s a b c : Text d j s → spaces a → spaces b → spaces c →
      Members d [(to_valid k, j)] (a +:+ json_string k +:+ ":" +:+ b +:+ s +:+ c +:+ "}")
  | MCons d k j fs s t a b : Text d j s → Members d fs t → spaces a → spaces b →
      Members d ((to_valid k, j) :: fs) (a +:+ json_string k +:+ ":" +:+ b +:+ s +:+ "," +:+ t).

Scheme Text_mut := Minimality for Text Sort Prop
  with Elements_mut := Minimality for Elements Sort Prop
  with Members_mut := Minimality for Members Sort Prop.
Combined Scheme Text_ind' from Text_mut, Elements_mut, Members_mut.

Lemma skip_spaces a s : spaces a → skip_space (a +:+ s) = skip_space s.
Proof.
  unfold spaces. induction a as [|c a IH]; [done|]. cbn [all_bytes]. rewrite andb_true_iff. intros [Hc Ha].
  rewrite app_cons. cbn [skip_space]. rewrite Hc. by apply IH.
Qed.

(** A text starts with neither a space nor a closing bracket. *)
Definition starts (s : string) : bool :=
  match s with
  | String c _ => negb (json_space c || Ascii.eqb c close_array || Ascii.eqb c close_brace)
  | EmptyString => false
  end.

Lemma skip_starts s : starts s = true → skip_space s = s.
Proof. destruct s as [|c s]; [done|]. cbn. rewrite negb_true_iff, !orb_false_iff. by intros [[-> _] _]. Qed.

Lemma starts_app s t : starts s = true → starts (s +:+ t) = true.
Proof. by destruct s. Qed.

Lemma digit_cases c : is_digit c = true →
  c = "0"%char ∨ c = "1"%char ∨ c = "2"%char ∨ c = "3"%char ∨ c = "4"%char ∨
  c = "5"%char ∨ c = "6"%char ∨ c = "7"%char ∨ c = "8"%char ∨ c = "9"%char.
Proof.
  unfold is_digit. rewrite andb_true_iff, !Z.leb_le. intros H.
  assert (∀ z, code c = z → c = byte z) as Hb by (intros z <-; by rewrite byte_code).
  assert (code c = 48 ∨ code c = 49 ∨ code c = 50 ∨ code c = 51 ∨ code c = 52 ∨ code c = 53 ∨ code c = 54 ∨
    code c = 55 ∨ code c = 56 ∨ code c = 57) as Hc by lia.
  repeat destruct Hc as [Hc|Hc]; rewrite (Hb _ Hc); vm_compute; tauto.
Qed.

(** The first character of a number is a minus or a digit. *)
Lemma number_head (z : Z) : ∃ c t, pretty z = String c t ∧ (c = dash ∨ is_digit c = true).
Proof.
  destruct z as [|p|p].
  - exists "0"%char, "". split; [done|by right].
  - change (pretty (Z.pos p)) with (pretty_N_go (N.pos p) "").
    destruct (pretty_head (N.pos p) "" eq_refl) as (c & t & -> & Hc & _). exists c, t. auto.
  - exists dash, (pretty p). split; [done|by left].
Qed.

Lemma text_starts d j s : Text d j s → starts s = true.
Proof.
  destruct 1; try done.
  - destruct (number_head z) as (c & t & -> & [->|Hc]); [done|]. cbn.
    destruct (digit_cases c Hc) as [->|[->|[->|[->|[->|[->|[->|[->|[->| ->]]]]]]]]]; done.
  - by destruct b.
Qed.

(** The scanner on a number. *)
Lemma scan_value_number n depth z t : number_ends t = true →
  scan_value (Datatypes.S n) depth (pretty z +:+ t) = Some (JNumber z, t).
Proof.
  intros Ht. rewrite <-(scan_number_pretty z t Ht). destruct (number_head z) as (c & u & -> & Hc).
  rewrite app_cons.
  destruct Hc as [->|Hc]; [done|].
  destruct (digit_cases c Hc) as [->|[->|[->|[->|[->|[->|[->|[->|[->| ->]]]]]]]]]; done.
Qed.

Lemma literal_app word j t : literal word j (word +:+ t) = Some (j, t).
Proof. unfold literal. by rewrite HasPrefix_app, drop_bytes_app. Qed.

(** The fuel a text needs. *)
Definition need (s : string) : nat := 2 * String.length s.

Lemma scan_array n depth s : depth + 1 ≤ maxNestingDepth → starts (skip_space s) = true →
  scan_value (Datatypes.S n) depth ("[" +:+ s) = prod_map JArray id <$> scan_elements n (depth + 1) (skip_space s).
Proof.
  intros Hd Hs. change ("[" +:+ s) with (String "[" s). cbn [scan_value skip_space].
  replace (json_space "[") with false by reflexivity.
  replace (Ascii.eqb "[" open_brace) with false by reflexivity. rewrite Ascii.eqb_refl.
  rewrite (proj2 (Z.ltb_ge _ _)) by lia. destruct (skip_space s) as [|e r] eqn:E; [done|].
  cbn in Hs. rewrite negb_true_iff, !orb_false_iff in Hs. by destruct Hs as [[_ Ha] Hb]; rewrite ?Ha, ?Hb.
Qed.

Lemma scan_object n depth s : depth + 1 ≤ maxNestingDepth → starts (skip_space s) = true →
  scan_value (Datatypes.S n) depth ("{" +:+ s) = prod_map JObject id <$> scan_members n (depth + 1) (skip_space s).
Proof.
  intros Hd Hs. change ("{" +:+ s) with (String "{" s). cbn [scan_value skip_space].
  replace (json_space "{") with false by reflexivity. rewrite Ascii.eqb_refl.
  rewrite (proj2 (Z.ltb_ge _ _)) by lia. destruct (skip_space s) as [|e r] eqn:E; [done|].
  cbn in Hs. rewrite negb_true_iff, !orb_false_iff in Hs. by destruct Hs as [[_ Ha] Hb]; rewrite ?Ha, ?Hb.
Qed.

Lemma ends_spaces b t : spaces b → number_ends t = true → number_ends (b +:+ t) = true.
Proof.
  unfold spaces. destruct b as [|c b]; [done|]. cbn [all_bytes]. rewrite andb_true_iff. intros [Hc _] _.
  rewrite app_cons. cbn [number_ends]. unfold json_space in Hc. rewrite !orb_true_iff, !Z.eqb_eq in Hc.
  apply negb_true_iff. rewrite !orb_false_iff.
  assert (∀ x, code c ≠ code x → Ascii.eqb c x = false) as Hx.
  { intros x Hne. apply Ascii.eqb_neq. intros ->. done. }
  split_all; [|apply Hx; change (code ".") with 46; lia|apply Hx; change (code "e") with 101; lia
              |apply Hx; change (code "E") with 69; lia].
  unfold is_digit. apply andb_false_iff. rewrite !Z.leb_gt. lia.
Qed.

Lemma skip_value n depth s : scan_value n depth (skip_space s) = scan_value n depth s.
Proof.
  destruct n as [|n]; [done|]. cbn [scan_value].
  assert (skip_space (skip_space s) = skip_space s) as ->; [|done].
  induction s as [|c s IH]; [done|]. cbn [skip_space]. destruct (json_space c) eqn:E; [done|].
  cbn [skip_space]. by rewrite E.
Qed.

Lemma skip_elements n depth s : scan_elements n depth (skip_space s) = scan_elements n depth s.
Proof. destruct n as [|n]; [done|]. cbn [scan_elements]. by rewrite skip_value. Qed.

Lemma skip_skip s : skip_space (skip_space s) = skip_space s.
Proof.
  induction s as [|c s IH]; [done|]. cbn [skip_space]. destruct (json_space c) eqn:E; [done|].
  cbn [skip_space]. by rewrite E.
Qed.

Lemma skip_members n depth s : scan_members n depth (skip_space s) = scan_members n depth s.
Proof. destruct n as [|n]; [done|]. cbn [scan_members]. by rewrite skip_skip. Qed.

Lemma elements_start d l s t : Elements d l s → starts (skip_space (s +:+ t)) = true.
Proof.
  destruct 1 as [d j s a b Hs Ha|d j l s u a Hs _ Ha]; rewrite app_assoc_s, skip_spaces, app_assoc_s by done;
    rewrite skip_starts; by apply starts_app, (text_starts d j).
Qed.

Lemma members_start d l s t : Members d l s → starts (skip_space (s +:+ t)) = true.
Proof. destruct 1; by rewrite app_assoc_s, skip_spaces by done. Qed.

Lemma need_app s t : need (s +:+ t) = (need s + need t)%nat.
Proof. unfold need. rewrite length_app_s. lia. Qed.

(** After a value in an array or an object. *)
Lemma scan_after_spaces c b t : json_space c = false → spaces b → skip_space (b +:+ String c t) = String c t.
Proof. intros Hc Hb. rewrite skip_spaces by done. cbn. by rewrite Hc. Qed.

Lemma scan_spaced n depth a s : spaces a → scan_value n depth (a +:+ s) = scan_value n depth s.
Proof. intros Ha. by rewrite <-skip_value, skip_spaces, skip_value. Qed.

(** The steps of the scanner on arrays and objects. *)
Lemma scan_array_nil n depth t : depth + 1 ≤ maxNestingDepth →
  scan_value (Datatypes.S n) depth ("[]" +:+ t) = Some (JArray [], t).
Proof.
  intros Hd. change ("[]" +:+ t) with (String "[" (String "]" t)).
  cbn [scan_value skip_space]. change (json_space _) with false. cbv iota. rewrite Ascii.eqb_refl.
  change (Ascii.eqb "[" open_brace) with false. cbv iota. by rewrite (proj2 (Z.ltb_ge _ _)) by lia.
Qed.

Lemma scan_object_nil n depth t : depth + 1 ≤ maxNestingDepth →
  scan_value (Datatypes.S n) depth ("{}" +:+ t) = Some (JObject [], t).
Proof.
  intros Hd. change ("{}" +:+ t) with (String "{" (String "}" t)).
  cbn [scan_value skip_space]. change (json_space _) with false. cbv iota. rewrite Ascii.eqb_refl.
  by rewrite (proj2 (Z.ltb_ge _ _)) by lia.
Qed.

Lemma scan_elements_last n depth s j b t :
  spaces b → scan_value n depth s = Some (j, b +:+ "]" +:+ t) →
  scan_elements (Datatypes.S n) depth s = Some ([j], t).
Proof.
  intros Hb Hs. cbn [scan_elements]. rewrite Hs. cbn [mbind option_bind fst snd].
  change ("]" +:+ t) with (String close_array t). rewrite scan_after_spaces by done. by rewrite Ascii.eqb_refl.
Qed.

Lemma scan_elements_next n depth s j t :
  scan_value n depth s = Some (j, "," +:+ t) →
  scan_elements (Datatypes.S n) depth s = prod_map (cons j) id <$> scan_elements n depth t.
Proof. intros Hs. cbn [scan_elements]. by rewrite Hs. Qed.

(** The scanner after the key of a member. *)
Lemma scan_member_key n depth a k s :
  spaces a →
  scan_members (Datatypes.S n) depth (a +:+ json_string k +:+ ":" +:+ s) =
    (v ← scan_value n depth s;
     match skip_space v.2 with
     | String c r =>
         if Ascii.eqb c close_brace then Some ([(to_valid k, v.1)], r)
         else if Ascii.eqb c "," then prod_map (cons (to_valid k, v.1)) id <$> scan_members n depth r
         else None
     | EmptyString => None
     end).
Proof.
  intros Ha. cbn [scan_members]. rewrite skip_spaces by done. rewrite skip_starts by done.
  rewrite scan_json_string. done.
Qed.

Lemma scan_members_last n depth a k s j c t :
  spaces a → spaces c → scan_value n depth s = Some (j, c +:+ "}" +:+ t) →
  scan_members (Datatypes.S n) depth (a +:+ json_string k +:+ ":" +:+ s) = Some ([(to_valid k, j)], t).
Proof.
  intros Ha Hc Hs. rewrite scan_member_key by done. rewrite Hs. cbn [mbind option_bind fst snd].
  change ("}" +:+ t) with (String close_brace t). rewrite scan_after_spaces by done. by rewrite Ascii.eqb_refl.
Qed.

Lemma scan_members_next n depth a k s j t :
  spaces a → scan_value n depth s = Some (j, "," +:+ t) →
  scan_members (Datatypes.S n) depth (a +:+ json_string k +:+ ":" +:+ s) =
    prod_map (cons (to_valid k, j)) id <$> scan_members n depth t.
Proof. intros Ha Hs. rewrite scan_member_key by done. by rewrite Hs. Qed.

(** Use one unit of the fuel [n], of which [H] says that it suffices. *)
Ltac fuel n H :=
  rewrite ?need_app in H;
  repeat match type of H with context [need (String ?c EmptyString)] =>
    change (need (String c EmptyString)) with 2%nat in H
  end;
  destruct n as [|n]; [lia|]; rewrite ?app_assoc_s.

Theorem scan_text :
  (∀ d j s, Text d j s → ∀ n depth t, depth + Z.of_nat d ≤ maxNestingDepth → number_ends t = true →
     (need s + 1 ≤ n)%nat → scan_value n depth (s +:+ t) = Some (j, t)) ∧
  (∀ d l s, Elements d l s → ∀ n depth t, depth + Z.of_nat d ≤ maxNestingDepth →
     (need s + 2 ≤ n)%nat → scan_elements n depth (s +:+ t) = Some (l, t)) ∧
  (∀ d fs s, Members d fs s → ∀ n depth t, depth + Z.of_nat d ≤ maxNestingDepth →
     (need s + 1 ≤ n)%nat → scan_members n depth (s +:+ t) = Some (fs, t)).
Proof.
  apply Text_ind'; intros d.
  - intros s n depth t _ _ Hn. fuel n Hn.
    assert (∀ u, scan_value (Datatypes.S n) depth (String dquote u) =
      prod_map JString id <$> scan_string (String dquote u)) as Hq by done.
    pose proof (scan_json_string s t) as Hs. unfold json_string in *.
    change (str1 dquote +:+ ?x) with (String dquote x) in *. rewrite app_cons in *. by rewrite Hq, Hs.
  - intros z n depth t _ Ht Hn. fuel n Hn. by apply scan_value_number.
  - intros b n depth t _ _ Hn. fuel n Hn.
    destruct b; [by rewrite <-(literal_app "true" (JBool true))|by rewrite <-(literal_app "false" (JBool false))].
  - intros n depth t _ _ Hn. fuel n Hn. by rewrite <-(literal_app "null" JNull).
  - intros n depth t Hd _ Hn. fuel n Hn. apply scan_array_nil. lia.
  - intros n depth t Hd _ Hn. fuel n Hn. apply scan_object_nil. lia.
  - intros l s Hl IH n depth t Hd _ Hn. fuel n Hn. rewrite scan_array; [|lia|by eapply elements_start].
    rewrite skip_elements, IH by lia. done.
  - intros fs s Hl IH n depth t Hd _ Hn. fuel n Hn. rewrite scan_object; [|lia|by eapply members_start].
    rewrite skip_members, IH by lia. done.
  - intros j s a b Hs IH Ha Hb n depth t Hd Hn. fuel n Hn. apply (scan_elements_last _ _ _ _ b); [done|].
    rewrite scan_spaced by done. apply IH; [done|by apply ends_spaces|lia].
  - intros j l s u a Hs IH Hl IHl Ha n depth t Hd Hn. fuel n Hn.
    rewrite (scan_elements_next _ _ _ j (u +:+ t)); [by rewrite IHl by lia|].
    rewrite scan_spaced by done. apply IH; [done..|lia].
  - intros k j s a b c Hs IH Ha Hb Hc n depth t Hd Hn. fuel n Hn.
    apply (scan_members_last _ _ _ _ _ _ c); [done..|].
    rewrite scan_spaced by done. apply IH; [done|by apply ends_spaces|lia].
  - intros k j fs s u a b Hs IH Hl IHl Ha Hb n depth t Hd Hn. fuel n Hn.
    rewrite (scan_members_next _ _ _ _ _ j (u +:+ t)); [by rewrite IHl by lia|done|].
    rewrite scan_spaced by done. apply IH; [done..|lia].
Qed.

(** ** The printers *)

(** What is read back: strings and keys with their invalid bytes replaced. *)
Fixpoint clean (j : json) : json :=
  match j with
  | JString s => JString (to_valid s)
  | JArray l => JArray (clean <$> l)
  | JObject fs => JObject ((λ f, (to_valid f.1, clean f.2)) <$> fs)
  | _ => j
  end.

(** Values nested at most [d] deep, with integers as their only numbers. *)
Fixpoint plain (d : nat) (j : json) : bool :=
  match j with
  | JDecimal _ => false
  | JArray l => match d with O => false | Datatypes.S d' => forallb (plain d') l end
  | JObject fs => match d with O => false | Datatypes.S d' => forallb (λ f, plain d' f.2) fs end
  | _ => true
  end.

Lemma json_rect' (P : json → Prop) :
  (∀ s, P (JString s)) → (∀ z, P (JNumber z)) → (∀ s, P (JDecimal s)) → (∀ b, P (JBool b)) → P JNull →
  (∀ l, Forall P l → P (JArray l)) → (∀ fs, Forall (λ f, P f.2) fs → P (JObject fs)) → ∀ j, P j.
Proof.
  intros H1 H2 H3 H4 H5 H6 H7. fix IH 1. intros [s|z|s|b| |l|fs];
    [apply H1|apply H2|apply H3|apply H4|apply H5|apply H6|apply H7].
  - induction l as [|j l IHl]; constructor; [apply IH|exact IHl].
  - induction fs as [|[k j] fs IHl]; constructor; [apply IH|exact IHl].
Qed.

Lemma Join_fmap {A} sep (g : A → string) x y l :
  Join sep (g <$> x :: y :: l) = g x +:+ sep +:+ Join sep (g <$> y :: l).
Proof. by rewrite fmap_cons, Join_cons. Qed.

Section layout.
Context (sep ind post : string) (Hsep : spaces sep) (Hind : spaces ind) (Hpost : spaces post).

Lemma spaces_app a b : spaces a → spaces b → spaces (a +:+ b).
Proof. unfold spaces. rewrite all_bytes_app. by intros -> ->. Qed.

Lemma print_elements d (f : json → string) x l : Forall (λ j, Text d (clean j) (f j)) (x :: l) →
  Elements d (clean <$> x :: l)
    (sep +:+ Join ("," +:+ sep) ((λ j, ind +:+ f j) <$> x :: l) +:+ post +:+ "]").
Proof.
  revert x. induction l as [|y l IH]; intros x Hl; inversion_clear Hl as [|? ? Hx Hr].
  - change (Join ("," +:+ sep) ((λ j, ind +:+ f j) <$> [x])) with (ind +:+ f x).
    rewrite app_assoc_s, <-app_assoc_s. apply ELast; [done|by apply spaces_app|done].
  - rewrite Join_fmap, !app_assoc_s, <-(app_assoc_s sep ind).
    apply ECons; [done|by apply IH|by apply spaces_app].
Qed.

Lemma print_members gap d (f : json → string) x l : spaces gap →
  Forall (λ kv : string * json, Text d (clean kv.2) (f kv.2)) (x :: l) →
  Members d ((λ kv, (to_valid kv.1, clean kv.2)) <$> x :: l)
    (sep +:+ Join ("," +:+ sep) ((λ kv, ind +:+ json_string kv.1 +:+ (":" +:+ gap) +:+ f kv.2) <$> x :: l) +:+
     post +:+ "}").
Proof.
  intros Hgap. revert x. induction l as [|y l IH]; intros x Hl; inversion_clear Hl as [|? ? Hx Hr].
  - match goal with |- Members _ _ (_ +:+ Join _ (?g <$> _) +:+ _) => change (Join ("," +:+ sep) (g <$> [x])) with (g x) end.
    cbv beta. rewrite !app_assoc_s, <-(app_assoc_s sep ind). apply MLast; [done|by apply spaces_app|done|done].
  - rewrite Join_fmap, !app_assoc_s, <-(app_assoc_s sep ind).
    apply MCons; [done|by apply IH|by apply spaces_app|done].
Qed.
End layout.

Lemma forallb_Forall {A} (f : A → bool) (P : A → Prop) l : Forall (λ x, f x = true → P x) l →
  forallb f l = true → Forall P l.
Proof. induction 1 as [|x l Hx Hl IH]; [by constructor|]. cbn. rewrite andb_true_iff. intros [? ?]. constructor; auto. Qed.

Lemma print_json_text d j : plain d j = true → Text d (clean j) (print_json j).
Proof.
  revert d. induction j as [s|z|s|b| |l IH|fs IH] using json_rect'; intros d Hd; cbn [clean print_json print_json_indent]; try by constructor.
  - by destruct d.
  - destruct d as [|d]; [done|]. destruct l as [|x l]; [constructor|]. constructor.
    apply (print_elements "" "" ""); try done. eapply forallb_Forall; [|exact Hd].
    eapply Forall_impl; [exact IH|]. cbn. auto.
  - destruct d as [|d]; [done|]. destruct fs as [|x l]; [constructor|]. constructor.
    apply (print_members "" "" "" eq_refl eq_refl eq_refl "" d print_json x l eq_refl). eapply forallb_Forall; [|exact Hd].
    eapply Forall_impl; [exact IH|]. cbn. auto.
Qed.

Lemma spaces_indent n : spaces (indent n).
Proof. induction n as [|n IH]; [done|]. change (indent (Datatypes.S n)) with ("  " +:+ indent n). by apply spaces_app. Qed.

Lemma print_json_indent_text d n j : plain d j = true → Text d (clean j) (print_json_indent n j).
Proof.
  revert d n. induction j as [s|z|s|b| |l IH|fs IH] using json_rect'; intros d n Hd; cbn [clean]; try by constructor.
  - by destruct d.
  - destruct d as [|d]; [done|]. destruct l as [|x l]; [constructor|]. cbn [print_json_indent]. constructor.
    rewrite <-(app_assoc_s nl (indent n)).
    apply print_elements; [done|apply spaces_indent|apply (spaces_app nl); [done|apply spaces_indent]|].
    eapply forallb_Forall; [|exact Hd]. eapply Forall_impl; [exact IH|]. cbn. auto.
  - destruct d as [|d]; [done|]. destruct fs as [|x l]; [constructor|]. cbn [print_json_indent]. constructor.
    rewrite <-(app_assoc_s nl (indent n)).
    refine (print_members nl (indent (Datatypes.S n)) (nl +:+ indent n) eq_refl (spaces_indent _) _ " " d
      (print_json_indent (Datatypes.S n)) x l eq_refl _); [apply spaces_app; [done|apply spaces_indent]|].
    eapply forallb_Forall; [|exact Hd]. eapply Forall_impl; [exact IH|]. cbn. auto.
Qed.

(** ** Round trips *)

Lemma text_decodes d j s t : Text d j s → Z.of_nat d ≤ maxNestingDepth → number_ends t = true →
  scan_value (scan_fuel (s +:+ t)) 0 (s +:+ t) = Some (j, t).
Proof.
  intros Ht Hd Hn. apply (proj1 scan_text d j s Ht); [lia|done|].
  unfold scan_fuel, need. rewrite length_app_s. lia.
Qed.

Lemma Unmarshal_text d j s : Text d j s → Z.of_nat d ≤ maxNestingDepth → Unmarshal s = Some j.
Proof.
  intros Ht Hd. unfold Unmarshal. rewrite <-(app_empty_r s), (text_decodes d j s "") by done. done.
Qed.

Lemma DecodeFirst_text d j s t : Text d j s → Z.of_nat d ≤ maxNestingDepth → number_ends t = true →
  DecodeFirst (s +:+ t) = Some j.
Proof. intros Ht Hd Hn. unfold DecodeFirst. by rewrite (text_decodes d j s t). Qed.

Lemma Unmarshal_print d j : plain d j = true → Z.of_nat d ≤ maxNestingDepth →
  Unmarshal (print_json j) = Some (clean j).
Proof. intros Hp. by apply Unmarshal_text, print_json_text. Qed.

Lemma Unmarshal_print_indent d n j : plain d j = true → Z.of_nat d ≤ maxNestingDepth →
  Unmarshal (print_json_indent n j) = Some (clean j).
Proof. intros Hp. by apply Unmarshal_text, print_json_indent_text. Qed.

Lemma DecodeFirst_print d j t : plain d j = true → Z.of_nat d ≤ maxNestingDepth → number_ends t = true →
  DecodeFirst (print_json j +:+ t) = Some (clean j).
Proof. intros Hp. by apply DecodeFirst_text, print_json_text. Qed.

(** ** The fuel is enough for every text *)

#[local] Abbreviation len := String.length.

Lemma length_skip_space s : (len (skip_space s) ≤ len s)%nat.
Proof. induction s as [|c s IH]; [done|]. cbn. destruct (json_space c); cbn; lia. Qed.

Lemma length_getu4 s x t : getu4 s = Some (x, t) → (len t < len s)%nat.
Proof.
  destruct s as [|a [|b [|c [|d r]]]]; try done. cbn [getu4].
  destruct (unhex a), (unhex b), (unhex c), (unhex d); try done. intros [= _ <-]. cbn. lia.
Qed.

Lemma length_unescape rr s x t : unescape_rune rr s = (x, t) → (len t ≤ len s)%nat.
Proof.
  unfold unescape_rune. destruct (_ && _); [|by intros [= _ <-]].
  destruct s as [|e [|u r]]; try by intros [= _ <-].
  destruct (_ && _); [|by intros [= _ <-]]. destruct (getu4 r) as [[y r1]|] eqn:E; [|by intros [= _ <-]].
  destruct (_ && _); [|by intros [= _ <-]]. intros [= _ <-]. apply length_getu4 in E. cbn. lia.
Qed.

Lemma length_DecodeRune a s r t : DecodeRune a s = (r, t) → (len t ≤ len s)%nat.
Proof.
  unfold DecodeRune. cbv zeta.
  repeat match goal with |- context [match ?x with _ => _ end] => destruct x end; intros [= _ <-]; cbn; lia.
Qed.

(** What a call of the scanner consumes and how much fuel it needs. *)
Lemma scan_chars_stable n m s : (len s < n)%nat → (len s < m)%nat →
  scan_chars n s = scan_chars m s ∧ ∀ x t, scan_chars n s = Some (x, t) → (len t < len s)%nat.
Proof.
  assert (∀ p (o : option (string * string)) x t k, prepend p <$> o = Some (x, t) →
    (∀ x t, o = Some (x, t) → (len t < k)%nat) → (len t < k)%nat) as Hpre.
  { intros p [[y u]|] x t k [= _ <-] Ho. by eapply Ho. }
  revert m s. induction n as [|n IH]; intros m s Hn Hm; [lia|]. destruct m as [|m]; [lia|].
  destruct s as [|c r]; [done|]. cbn [len] in *. cbn [scan_chars].
  destruct (Ascii.eqb c dquote); [split; [done|]; intros x t [= _ <-]; lia|].
  destruct (Ascii.eqb c backslash).
  - destruct r as [|e r1]; [done|]. cbn [len] in *. destruct (Ascii.eqb e "u").
    + destruct (getu4 r1) as [[y r2]|] eqn:Eu; [|done]. apply length_getu4 in Eu. cbn [mbind option_bind fst snd].
      destruct (unescape_rune y r2) as [z r3] eqn:Er. apply length_unescape in Er.
      destruct (IH m r3) as [-> Hl]; [lia..|]. split; [done|]. intros x t H. eapply Hpre in H; [exact H|].
      intros x' t' H'. assert (len t' < len r3)%nat by (eapply Hl; destruct (IH m r3) as [-> _]; [lia..|exact H']). lia.
    + destruct (simple_escape e); [|done]. cbn [mbind option_bind].
      destruct (IH m r1) as [He Hl]; [lia..|]. rewrite <-He. split; [done|]. intros x t H. eapply Hpre in H; [exact H|].
      intros x' t' H'. specialize (Hl _ _ H'). lia.
  - destruct (code c <? 32); [done|]. destruct (DecodeRune c r) as [z t1] eqn:Ed. apply length_DecodeRune in Ed.
    destruct (IH m t1) as [He Hl]; [lia..|]. rewrite <-He. split; [done|]. intros x t H. eapply Hpre in H; [exact H|].
    intros x' t' H'. specialize (Hl _ _ H'). lia.
Qed.

Lemma length_scan_string s x t : scan_string s = Some (x, t) → (len t < len s)%nat.
Proof.
  destruct s as [|c r]; [done|]. unfold scan_string. destruct (Ascii.eqb c dquote); [|done]. intros H.
  apply (scan_chars_stable _ (Datatypes.S (len r))) in H; cbn; lia.
Qed.

Lemma length_span_number s d t : span_number s = (d, t) → (len t + len d = len s)%nat.
Proof.
  revert d t. induction s as [|c s IH]; intros d t; cbn; [by intros [= <- <-]|].
  destruct (is_digit c); [|by intros [= <- <-]]. destruct (span_number s) as [d' t'] eqn:E.
  intros [= <- <-]. specialize (IH _ _ eq_refl). cbn. lia.
Qed.

Lemma length_digits1 p s d t : scan_digits1 p s = Some (d, t) → (len t ≤ len s)%nat.
Proof.
  unfold scan_digits1. destruct (span_number s) as [d' t'] eqn:E. apply length_span_number in E.
  destruct (String.eqb d' ""); [done|]. intros [= _ <-]. lia.
Qed.

Lemma length_scan_number s j t : scan_number s = Some (j, t) → (len t < len s)%nat.
Proof.
  assert (∀ s x t, scan_integer s = Some (x, t) → (len t < len s)%nat) as Hi.
  { intros [|c r] x u; [done|]. unfold scan_integer. destruct (Ascii.eqb c "0"); [intros [= _ <-]; cbn; lia|].
    destruct (is_digit c) eqn:Ec; [|done]. cbn [span_number]. rewrite Ec. destruct (span_number r) as [d v] eqn:E.
    apply length_span_number in E. intros [= _ <-]. cbn. lia. }
  assert (∀ s x t, scan_fraction s = Some (x, t) → (len t ≤ len s)%nat) as Hf.
  { intros [|c r] x u; cbn [scan_fraction]; [by intros [= _ <-]|].
    destruct (Ascii.eqb c "."); [|by intros [= _ <-]]. intros H%length_digits1. cbn. lia. }
  assert (∀ s x t, scan_exponent s = Some (x, t) → (len t ≤ len s)%nat) as He.
  { intros [|c r] x u; cbn [scan_exponent]; [by intros [= _ <-]|].
    destruct (_ || _); [|by intros [= _ <-]]. destruct r as [|g r1]; [done|].
    destruct (_ || _); intros H%length_digits1; cbn in *; lia. }
  unfold scan_number.
  assert (∀ s1 neg, (len s1 ≤ len s)%nat →
    (int ← scan_integer s1; frac ← scan_fraction int.2; exp ← scan_exponent frac.2;
     Some (if String.eqb frac.1 "" && String.eqb exp.1 ""
           then JNumber (if (neg : bool) then - dec_val 0 int.1 else dec_val 0 int.1)
           else JDecimal ((if neg then str1 dash else "") +:+ int.1 +:+ frac.1 +:+ exp.1), exp.2)) = Some (j, t) →
    (len t < len s)%nat) as Hall.
  { intros s1 neg Hs. destruct (scan_integer s1) as [[i r1]|] eqn:E1; [|done]. apply Hi in E1. cbn [mbind option_bind fst snd].
    destruct (scan_fraction r1) as [[f r2]|] eqn:E2; [|done]. apply Hf in E2. cbn [mbind option_bind fst snd].
    destruct (scan_exponent r2) as [[x r3]|] eqn:E3; [|done]. apply He in E3. intros [= _ <-]. cbn. lia. }
  destruct s as [|c r]; [done|].
  destruct (Ascii.eqb c dash); [apply (Hall r true); cbn; lia|by apply (Hall (String c r) false)].
Qed.

Lemma length_literal w j s x t : literal w j s = Some (x, t) → w ≠ "" → (len t < len s)%nat.
Proof.
  unfold literal. destruct (HasPrefix s w) eqn:E; [|done]. apply HasPrefix_spec in E as [u ->].
  rewrite drop_bytes_app, length_app_s. intros [= _ <-]. destruct w; [done|]. cbn. lia.
Qed.

Lemma skip_space_cons s c r : skip_space s = String c r → (len r < len s)%nat.
Proof. intros E. pose proof (length_skip_space s). rewrite E in H. cbn in H. lia. Qed.

(** Results and their remaining texts. *)
Definition shrinks {A} (s : string) (o : option (A * string)) : Prop :=
  ∀ x t, o = Some (x, t) → (len t < len s)%nat.

Lemma shrinks_map {A B} (f : A → B) s s' o : shrinks s' o → (len s' ≤ len s)%nat →
  shrinks s (prod_map f id <$> o).
Proof. intros Ho Hs x t. destruct o as [[y u]|]; [|done]. intros [= _ <-]. specialize (Ho _ _ eq_refl). lia. Qed.

Lemma shrinks_none {A} s : shrinks s (@None (A * string)).
Proof. done. Qed.

Lemma scan_shrinks n depth s :
  shrinks s (scan_value n depth s) ∧ shrinks s (scan_elements n depth s) ∧ shrinks s (scan_members n depth s).
Proof.
  revert depth s. induction n as [|n IH]; intros depth s; [done|].
  split_all; cbn [scan_value scan_elements scan_members].
  - destruct (skip_space s) as [|c r] eqn:E; [done|]. pose proof (skip_space_cons _ _ _ E) as Hr.
    destruct (Ascii.eqb c open_brace).
    { destruct (_ <? _); [done|]. destruct (skip_space r) as [|e r1] eqn:E1; [done|].
      pose proof (skip_space_cons _ _ _ E1). destruct (Ascii.eqb e close_brace).
      - intros x t [= _ <-]. lia.
      - eapply shrinks_map; [apply IH|]. cbn. lia. }
    destruct (Ascii.eqb c open_array).
    { destruct (_ <? _); [done|]. destruct (skip_space r) as [|e r1] eqn:E1; [done|].
      pose proof (skip_space_cons _ _ _ E1). destruct (Ascii.eqb e close_array).
      - intros x t [= _ <-]. lia.
      - eapply shrinks_map; [apply IH|]. cbn. lia. }
    destruct (Ascii.eqb c dquote).
    { eapply shrinks_map; [intros x t; apply length_scan_string|]. cbn. lia. }
    destruct (Ascii.eqb c "t"); [intros x t H; apply length_literal in H; [cbn in H; lia|done]|].
    destruct (Ascii.eqb c "f"); [intros x t H; apply length_literal in H; [cbn in H; lia|done]|].
    destruct (Ascii.eqb c "n"); [intros x t H; apply length_literal in H; [cbn in H; lia|done]|].
    intros x t H%length_scan_number. cbn in H. lia.
  - destruct (scan_value n depth s) as [[j e]|] eqn:E; [|done]. apply (IH depth s) in E. cbn [mbind option_bind fst snd].
    destruct (skip_space e) as [|c r] eqn:E1; [done|]. pose proof (skip_space_cons _ _ _ E1).
    destruct (Ascii.eqb c close_array); [intros x t [= _ <-]; lia|].
    destruct (Ascii.eqb c ","); [|done]. eapply shrinks_map; [apply IH|]. lia.
  - destruct (scan_string (skip_space s)) as [[k e]|] eqn:E; [|done]. apply length_scan_string in E.
    pose proof (length_skip_space s). cbn [mbind option_bind fst snd].
    destruct (skip_space e) as [|c r] eqn:E1; [done|]. pose proof (skip_space_cons _ _ _ E1).
    destruct (Ascii.eqb c ":"); [|done]. destruct (scan_value n depth r) as [[j e2]|] eqn:E2; [|done].
    apply (IH depth r) in E2. cbn [mbind option_bind fst snd].
    destruct (skip_space e2) as [|c2 r2] eqn:E3; [done|]. pose proof (skip_space_cons _ _ _ E3).
    destruct (Ascii.eqb c2 close_brace); [intros x t [= _ <-]; lia|].
    destruct (Ascii.eqb c2 ","); [|done]. eapply shrinks_map; [apply IH|]. lia.
Qed.

(** More fuel than a text needs changes nothing, so a scan that fails found
    an error in the text. *)
Lemma scan_stable n m depth s :
  (need s + 1 ≤ n → need s + 1 ≤ m → scan_value n depth s = scan_value m depth s)%nat ∧
  (need s + 2 ≤ n → need s + 2 ≤ m → scan_elements n depth s = scan_elements m depth s)%nat ∧
  (need s + 1 ≤ n → need s + 1 ≤ m → scan_members n depth s = scan_members m depth s)%nat.
Proof.
  unfold need. revert m depth s. induction n as [|n IH]; intros m depth s; [split_all; lia|].
  destruct m as [|m]; [split_all; lia|].
  split_all; intros Hn Hm; cbn [scan_value scan_elements scan_members].
  - destruct (skip_space s) as [|c r] eqn:E; [done|]. pose proof (skip_space_cons _ _ _ E) as Hr.
    destruct (Ascii.eqb c open_brace).
    { destruct (_ <? _); [done|]. destruct (skip_space r) as [|e r1] eqn:E1; [done|].
      pose proof (skip_space_cons _ _ _ E1). destruct (Ascii.eqb e close_brace); [done|].
      rewrite (proj2 (proj2 (IH m (depth + 1) (String e r1)))) by (cbn; lia). done. }
    destruct (Ascii.eqb c open_array); [|done].
    destruct (_ <? _); [done|]. destruct (skip_space r) as [|e r1] eqn:E1; [done|].
    pose proof (skip_space_cons _ _ _ E1). destruct (Ascii.eqb e close_array); [done|].
    rewrite (proj1 (proj2 (IH m (depth + 1) (String e r1)))) by (cbn; lia). done.
  - rewrite (proj1 (IH m depth s)) by (cbn; lia).
    destruct (scan_value m depth s) as [[j e]|] eqn:E; [|done]. apply scan_shrinks in E. cbn [mbind option_bind fst snd].
    destruct (skip_space e) as [|c r] eqn:E1; [done|]. pose proof (skip_space_cons _ _ _ E1).
    rewrite (proj1 (proj2 (IH m depth r))) by (cbn; lia). done.
  - destruct (scan_string (skip_space s)) as [[k e]|] eqn:E; [|done]. apply length_scan_string in E.
    pose proof (length_skip_space s). cbn [mbind option_bind fst snd].
    destruct (skip_space e) as [|c r] eqn:E1; [done|]. pose proof (skip_space_cons _ _ _ E1).
    rewrite (proj1 (IH m depth r)) by (cbn; lia).
    destruct (Ascii.eqb c ":"); [|done]. destruct (scan_value m depth r) as [[j e2]|] eqn:E2; [|done].
    apply scan_shrinks in E2. cbn [mbind option_bind fst snd].
    destruct (skip_space e2) as [|c2 r2] eqn:E3; [done|]. pose proof (skip_space_cons _ _ _ E3).
    rewrite (proj2 (proj2 (IH m depth r2))) by (cbn; lia). done.
Qed.

(** [scan_fuel] is as good as any larger bound. *)
Lemma scan_fuel_enough n s : (scan_fuel s ≤ n)%nat → scan_value n 0 s = scan_value (scan_fuel s) 0 s.
Proof. intros Hn. apply scan_stable; unfold need, scan_fuel in *; lia. Qed.
