(* ===== verification/GoJsonCodec.v ===== *)
(** * JSON codecs of struct types

    A struct type is encoded field by field and decoded by looking for the values
    of each field.  [Codec] is what a type promises to the types that contain it:
    decoding the encoding of a value gives the value back, provided its strings
    are valid UTF-8 and its integers fit their width. *)

From S2P Require Import Prelude GoStrings GoUtf8 GoTime GoCrypto GoJson GoJsonFacts.

Class Codec (A : Type) := {
  enc : A → json;
  dec : Decoder A;
  zero : A;
  encodable : A → bool;
  levels : nat
}.

Class CodecLaws (A : Type) `{Codec A} := {
  enc_plain a d : (levels ≤ d)%nat → plain d (enc a) = true;
  dec_enc a : encodable a = true → dec (clean (enc a)) zero = Some a
}.
Arguments levels A {_} : assert.

(** [json.Marshal] and [json.Unmarshal] on such a type. *)
Definition marshal {A} `{Codec A} (a : A) : string := print_json (enc a).
Definition unmarshal {A} `{Codec A} (s : string) : option A := j ← Unmarshal s; dec j zero.
(** [json.NewDecoder(r).Decode(&v)]. *)
Definition decode_first {A} `{Codec A} (s : string) : option A := j ← DecodeFirst s; dec j zero.

Definition shallow (A : Type) `{Codec A} : Prop := Z.of_nat (levels A) ≤ maxNestingDepth.

Section laws.
Context {A : Type} `{CodecLaws A}.

Lemma unmarshal_marshal a : shallow A → encodable a = true → unmarshal (marshal a) = Some a.
Proof.
  intros Hs Ha. unfold unmarshal, marshal. rewrite (Unmarshal_print (levels A)) by first [by apply enc_plain|done].
  by apply dec_enc.
Qed.

Lemma unmarshal_marshal_indent a n : shallow A → encodable a = true →
  unmarshal (print_json_indent n (enc a)) = Some a.
Proof.
  intros Hs Ha. unfold unmarshal. rewrite (Unmarshal_print_indent (levels A)) by first [by apply enc_plain|done].
  by apply dec_enc.
Qed.

Lemma decode_first_marshal a t : shallow A → encodable a = true → number_ends t = true →
  decode_first (marshal a +:+ t) = Some a.
Proof.
  intros Hs Ha Ht. unfold decode_first, marshal.
  rewrite (DecodeFirst_print (levels A)) by first [by apply enc_plain|done]. by apply dec_enc.
Qed.

Lemma marshal_inj a b : shallow A → encodable a = true → encodable b = true → marshal a = marshal b → a = b.
Proof.
  intros Hs Ha Hb E. assert (Some a = Some b) as [= ->]; [|done].
  by rewrite <-(unmarshal_marshal a), <-(unmarshal_marshal b), E.
Qed.
End laws.

(** ** Strings, integers, booleans *)

#[export] Instance string_codec : Codec string :=
  {| enc := JString; dec := dec_string; zero := ""; encodable := valid_utf8; levels := 0 |}.
#[export] Instance string_codec_laws : CodecLaws string.
Proof. split; [by intros s [|d] _|]. intros s Hs. cbn in *. by rewrite to_valid_id. Qed.

Definition fits (w z : Z) : bool := (- 2 ^ (w - 1) <=? z) && (z <? 2 ^ (w - 1)).

(** ** Fields *)

(** The fields of an encoded struct, as they are read. *)
Definition cleaned (fs : list (string * json)) : list (string * json) :=
  (λ f, (to_valid f.1, clean f.2)) <$> fs.

Lemma clean_object fs : clean (JObject fs) = JObject (cleaned fs).
Proof. done. Qed.

Section fields.
Context (name k : string).

Lemma values_nil : field_values name (cleaned []) = [].
Proof. done. Qed.

Lemma values_app fs fs' :
  field_values name (cleaned (fs ++ fs')) = field_values name (cleaned fs) ++ field_values name (cleaned fs').
Proof. unfold field_values, cleaned. by rewrite fmap_app, List.filter_app, fmap_app. Qed.

Lemma values_cons j fs : field_values name (cleaned ((k, j) :: fs)) =
  (if same_name name (to_valid k) then [clean j] else []) ++ field_values name (cleaned fs).
Proof.
  unfold field_values, cleaned. rewrite fmap_cons. cbn [List.filter fst snd].
  by destruct (same_name name (to_valid k)).
Qed.

Lemma values_omit_string v : field_values name (cleaned (omit_string k v)) =
  if same_name name (to_valid k) then (if String.eqb v "" then [] else [JString (to_valid v)]) else [].
Proof.
  unfold omit_string. destruct (String.eqb v ""); [by destruct (same_name _ _)|].
  rewrite values_cons, values_nil, app_nil_r. done.
Qed.

Lemma values_omit_number v : field_values name (cleaned (omit_number k v)) =
  if same_name name (to_valid k) then (if v =? 0 then [] else [JNumber v]) else [].
Proof.
  unfold omit_number. destruct (v =? 0); [by destruct (same_name _ _)|].
  rewrite values_cons, values_nil, app_nil_r. done.
Qed.

Lemma values_omit_list {A} (f : A → json) l : field_values name (cleaned (omit_list k f l)) =
  if same_name name (to_valid k) then match l with [] => [] | _ => [JArray ((λ x, clean (f x)) <$> l)] end else [].
Proof.
  unfold omit_list. destruct l as [|x l]; [by destruct (same_name _ _)|].
  rewrite values_cons, values_nil, app_nil_r. cbn [clean]. by rewrite <-list_fmap_compose.
Qed.

(** Pointers tagged [omitempty]. *)
Definition omit_pointer {A} (f : A → json) (o : option A) : list (string * json) :=
  match o with None => [] | Some x => [(k, f x)] end.

Lemma values_omit_pointer {A} (f : A → json) o : field_values name (cleaned (omit_pointer f o)) =
  if same_name name (to_valid k) then match o with None => [] | Some x => [clean (f x)] end else [].
Proof.
  destruct o as [x|]; [|by destruct (same_name _ _)]. unfold omit_pointer.
  by rewrite values_cons, values_nil, app_nil_r.
Qed.
End fields.

(** What a field decodes to. *)
Lemma decode_string v : valid_utf8 v = true → decode_all dec_string [JString (to_valid v)] "" = Some v.
Proof. intros Hv. cbn. by rewrite to_valid_id. Qed.

Lemma decode_omit_string v : valid_utf8 v = true →
  decode_all dec_string (if String.eqb v "" then [] else [JString (to_valid v)]) "" = Some v.
Proof. intros Hv. destruct (String.eqb_spec v "") as [->|]; [done|]. by apply decode_string. Qed.

Lemma decode_int w v : fits w v = true → decode_all (dec_int w) [JNumber v] 0 = Some v.
Proof. intros Hv. cbn. unfold fits in Hv. by rewrite Hv. Qed.

Lemma decode_omit_int w v : fits w v = true → decode_all (dec_int w) (if v =? 0 then [] else [JNumber v]) 0 = Some v.
Proof. intros Hv. destruct (Z.eqb_spec v 0) as [->|]; [done|]. by apply decode_int. Qed.

Lemma decode_bool v : decode_all dec_bool [JBool v] false = Some v.
Proof. done. Qed.

Lemma decode_struct {A} `{CodecLaws A} a : encodable a = true → decode_all dec [clean (enc a)] zero = Some a.
Proof. intros Ha. cbn [decode_all]. by rewrite (dec_enc a Ha). Qed.

Lemma mapM_clean {A} `{CodecLaws A} l : forallb encodable l = true →
  mapM (λ j, dec j zero) ((λ x, clean (enc x)) <$> l) = Some l.
Proof.
  induction l as [|a l IH]; [done|]. cbn [forallb]. rewrite andb_true_iff. intros [Ha Hl].
  cbn. rewrite (dec_enc a Ha). cbn. by rewrite IH.
Qed.

Lemma decode_omit_list {A} `{CodecLaws A} l : forallb encodable l = true →
  decode_all (dec_slice zero dec) match l with [] => [] | _ => [JArray ((λ x : A, clean (enc x)) <$> l)] end [] = Some l.
Proof. intros Hl. destruct l as [|a l]; [done|]. cbn [decode_all dec_slice]. by rewrite mapM_clean. Qed.

Lemma decode_slice l : forallb valid_utf8 l = true →
  decode_all (dec_slice "" dec_string) [clean (json_slice l)] [] = Some l.
Proof.
  intros Hl. destruct l as [|a l]; [done|]. unfold json_slice. cbn [clean]. rewrite <-list_fmap_compose.
  exact (decode_omit_list (a :: l) Hl).
Qed.

Lemma decode_omit_strings l : forallb valid_utf8 l = true →
  decode_all (dec_slice "" dec_string) match l with [] => [] | _ => [JArray ((λ x, clean (JString x)) <$> l)] end [] =
  Some l.
Proof. exact (decode_omit_list l). Qed.

Lemma clean_string s : clean (JString s) = JString (to_valid s).
Proof. done. Qed.

(** A pointer to a struct. *)
Lemma decode_omit_pointer {A} `{CodecLaws A} o : from_option encodable true o = true →
  (∀ a, clean (enc a) ≠ JNull) →
  decode_all (dec_pointer zero dec) match o with None => [] | Some a => [clean (enc a)] end None = Some o.
Proof.
  intros Ho Hn. destruct o as [a|]; [|done]. cbn [decode_all]. unfold dec_pointer. specialize (Hn a).
  pose proof (dec_enc a Ho) as E. cbn [default]. unfold default. cbn [from_option].
  destruct (clean (enc a)); try done; unfold id in *; cbn in *; by rewrite E.
Qed.

(** Read the fields of an encoded struct. *)
Ltac names :=
  repeat match goal with
  | |- context [same_name ?a (to_valid ?b)] =>
      let r := eval vm_compute in (same_name a (to_valid b)) in change (same_name a (to_valid b)) with r
  end; cbv iota.
Ltac field_values :=
  unfold get;
  rewrite ?values_app, ?values_cons, ?values_omit_string, ?values_omit_number, ?values_omit_list,
    ?values_omit_pointer, ?values_nil; names; rewrite ?app_nil_r, ?app_nil_l, ?clean_string.

(** Decode the fields [fs], which [leaf] does for one of them. *)
Ltac decode_fields fs leaf :=
  repeat match goal with
  | |- get ?d ?z ?n fs ≫= _ = _ =>
      eassert (get d z n fs = Some _) as ->; [unfold fs; field_values; leaf|cbn [mbind option_bind]]
  end.

(** ** Depths *)

Definition plain_fields (d : nat) (fs : list (string * json)) : bool := forallb (λ f, plain d f.2) fs.

Lemma plain_object d fs : plain (Datatypes.S d) (JObject fs) = plain_fields d fs.
Proof. done. Qed.
Lemma plain_fields_app d fs fs' : plain_fields d (fs ++ fs') = plain_fields d fs && plain_fields d fs'.
Proof. apply forallb_app. Qed.
Lemma plain_fields_cons d k j fs : plain_fields d ((k, j) :: fs) = plain d j && plain_fields d fs.
Proof. done. Qed.
Lemma plain_omit_string d k v : plain_fields d (omit_string k v) = true.
Proof. unfold omit_string. by destruct (String.eqb v ""), d. Qed.
Lemma plain_omit_number d k v : plain_fields d (omit_number k v) = true.
Proof. unfold omit_number. by destruct (v =? 0), d. Qed.
Lemma plain_string d v : plain d (JString v) = true.
Proof. by destruct d. Qed.
Lemma plain_number d v : plain d (JNumber v) = true.
Proof. by destruct d. Qed.
Lemma plain_bool d v : plain d (JBool v) = true.
Proof. by destruct d. Qed.

Lemma plain_array {A} d (f : A → json) l : (∀ a, plain d (f a) = true) →
  plain (Datatypes.S d) (JArray (f <$> l)) = true.
Proof. intros Hf. cbn [plain]. induction l as [|a l IH]; [done|]. cbn. by rewrite Hf. Qed.

Lemma plain_omit_list {A} d k (f : A → json) l : (∀ a, plain d (f a) = true) →
  plain_fields (Datatypes.S d) (omit_list k f l) = true.
Proof.
  intros Hf. destruct l as [|a l]; [done|]. unfold omit_list. rewrite plain_fields_cons, plain_array by done. done.
Qed.

Lemma plain_omit_pointer {A} d k (f : A → json) o : (∀ a, plain d (f a) = true) →
  plain_fields d (omit_pointer k f o) = true.
Proof. intros Hf. destruct o as [a|]; [|done]. cbn. by rewrite Hf. Qed.

Lemma plain_slice d l : plain (Datatypes.S d) (json_slice l) = true.
Proof. destruct l; [done|]. by apply (plain_array d JString), plain_string. Qed.

Create HintDb plain.
#[export] Hint Rewrite plain_object plain_fields_app plain_fields_cons plain_omit_string plain_omit_number plain_string
  plain_number plain_bool : plain.

(** The depth of an encoded struct; what is left are its nested values. *)
Ltac depths := autorewrite with plain; cbn [andb]; rewrite ?andb_true_iff; split_all; try reflexivity.
