(* ===== verification/Api.v ===== *)
(** * The API types (api/azure.com/v1alpha1)

    The custom resources the controller, the gateway and the agent exchange,
    field by field.  A Go string type with constants is a [string] with
    constants (any other string is a possible value, the empty one is the zero
    value); a pointer is an [option]; a nil slice or map is the empty one.  Of
    the Kubernetes metadata types only the fields the program reads or writes
    are kept. *)

From S2P Require Import Prelude GoStrings.

(** ** Condition types (conditions_types.go) *)

Definition ConditionAgentConnected : string := "AgentConnected".
Definition ConditionSpecObserved : string := "SpecObserved".
Definition ConditionSpecWarning : string := "SpecWarning".
Definition ConditionArtifactDownloaded : string := "ArtifactDownloaded".
Definition ConditionArtifactVerified : string := "ArtifactVerified".
Definition ConditionProcessStarted : string := "ProcessStarted".
Definition ConditionHealthy : string := "Healthy".
Definition ConditionAvailable : string := "Available".
Definition ConditionProgressing : string := "Progressing".

(** ** metav1 *)

Definition ConditionTrue : string := "True".
Definition ConditionFalse : string := "False".

(** [metav1.Condition]. *)
Record Condition := mkCondition {
  c_Type : string;
  c_Status : string;
  c_ObservedGeneration : Z;
  c_LastTransitionTime : Z;
  c_Reason : string;
  c_Message : string
}.

(** [types.NamespacedName]: namespace, name. *)
Definition NamespacedName : Type := string * string.

(** [metav1.OwnerReference]. *)
Record OwnerReference := mkOwnerReference {
  or_Kind : string;
  or_Name : string;
  or_UID : string;
  or_Controller : bool
}.

(** [metav1.ObjectMeta]. *)
Record ObjectMeta := mkObjectMeta {
  om_Name : string;
  om_Namespace : string;
  om_UID : string;
  om_ResourceVersion : string;
  om_Generation : Z;
  om_Labels : gmap string string;
  om_Annotations : gmap string string;
  om_OwnerReferences : list OwnerReference
}.

(** ** DeviceProcess (deviceprocess_types.go) *)

Definition DeviceRefKindServer : string := "Server".
Definition DeviceRefKindNetworkSwitch : string := "NetworkSwitch".
Definition DeviceRefKindSOC : string := "SOC".
Definition DeviceRefKindBMC : string := "BMC".

Record DeviceRef := mkDeviceRef {
  dr_Kind : string;
  dr_Name : string;
  dr_Namespace : string
}.

Definition ArtifactTypeOCI : string := "oci".
Definition ArtifactTypeHTTP : string := "http".
Definition ArtifactTypeFile : string := "file".

Record DeviceProcessArtifact := mkArtifact {
  art_Type : string;
  art_URL : string;
  art_ChecksumSHA256 : string
}.

Record DeviceProcessEnvVar := mkEnvVar {
  ev_Name : string;
  ev_Value : string
}.

Definition DeviceProcessBackendSystemd : string := "systemd".
Definition DeviceProcessBackendInitd : string := "initd".
Definition DeviceProcessBackendContainer : string := "container".

Record DeviceProcessExecution := mkExecution {
  ex_Backend : string;
  ex_Command : list string;
  ex_Args : list string;
  ex_Env : list DeviceProcessEnvVar;
  ex_WorkingDir : string;
  ex_User : string
}.

Definition DeviceProcessRestartPolicyAlways : string := "Always".
Definition DeviceProcessRestartPolicyOnFailure : string := "OnFailure".
Definition DeviceProcessRestartPolicyNever : string := "Never".

Record DeviceProcessHealthCheck := mkHealthCheck {
  hc_Exec_Command : list string;
  hc_PeriodSeconds : Z;
  hc_TimeoutSeconds : Z;
  hc_SuccessThreshold : Z;
  hc_FailureThreshold : Z
}.

Record DeviceProcessSpec := mkSpec {
  sp_DeviceRef : DeviceRef;
  sp_Artifact : DeviceProcessArtifact;
  sp_Execution : DeviceProcessExecution;
  sp_RestartPolicy : string;
  sp_HealthCheck : option DeviceProcessHealthCheck
}.

Definition DeviceProcessPhasePending : string := "Pending".
Definition DeviceProcessPhaseRunning : string := "Running".
Definition DeviceProcessPhaseSucceeded : string := "Succeeded".
Definition DeviceProcessPhaseFailed : string := "Failed".
Definition DeviceProcessPhaseUnknown : string := "Unknown".

Record DeviceProcessStatus := mkStatus {
  st_Phase : string;
  st_Conditions : list Condition;
  st_ObservedSpecHash : string;
  st_RuntimeSemantics : string;
  st_ArtifactVersion : string;
  st_ArtifactDigest : string;
  st_ArtifactDownloadAttempts : Z;
  st_LastArtifactAttemptTime : string;
  st_ArtifactLastError : string;
  st_PID : Z;
  st_StartTime : option Z;
  st_LastTransitionTime : option Z;
  st_RestartCount : Z;
  st_LastTerminationReason : string
}.

Record DeviceProcess := mkDeviceProcess {
  dp_Meta : ObjectMeta;
  dp_Spec : DeviceProcessSpec;
  dp_Status : DeviceProcessStatus
}.

(** The zero value of the status. *)
Definition empty_status : DeviceProcessStatus :=
  mkStatus "" [] "" "" "" "" 0 "" "" 0 None None 0 "".

(** ** DeviceProcessDeployment (deviceprocessdeployment_types.go) *)

(** [metav1.LabelSelectorOperator]. *)
Inductive SelectorOperator :=
  | OpIn | OpNotIn | OpExists | OpDoesNotExist | OpOther (op : string).

(** [metav1.LabelSelectorRequirement]. *)
Record SelectorRequirement := mkRequirement {
  rq_Key : string;
  rq_Operator : SelectorOperator;
  rq_Values : list string
}.

(** [metav1.LabelSelector]. *)
Record LabelSelector := mkSelector {
  sel_MatchLabels : gmap string string;
  sel_MatchExpressions : list SelectorRequirement
}.

Record DeviceProcessTemplateSpec := mkTemplateSpec {
  ts_Artifact : DeviceProcessArtifact;
  ts_Execution : DeviceProcessExecution;
  ts_RestartPolicy : string;
  ts_HealthCheck : option DeviceProcessHealthCheck
}.

Record DeviceProcessTemplate := mkTemplate {
  tm_Labels : gmap string string;
  tm_Annotations : gmap string string;
  tm_Spec : DeviceProcessTemplateSpec
}.

(** [UpdateStrategy] is read by no code of the program and is left out. *)
Record DeviceProcessDeploymentSpec := mkDeploymentSpec {
  ds_Selector : LabelSelector;
  ds_Template : DeviceProcessTemplate
}.

Record DeviceProcessDeploymentStatus := mkDeploymentStatus {
  dst_ObservedGeneration : Z;
  dst_DesiredNumberScheduled : Z;
  dst_CurrentNumberScheduled : Z;
  dst_UpdatedNumberScheduled : Z;
  dst_NumberReady : Z;
  dst_NumberAvailable : Z;
  dst_NumberUnavailable : Z;
  dst_Conditions : list Condition
}.

Record DeviceProcessDeployment := mkDeployment {
  dep_Meta : ObjectMeta;
  dep_Spec : DeviceProcessDeploymentSpec;
  dep_Status : DeviceProcessDeploymentStatus
}.

(** ** Decidable equality *)

#[export] Instance Condition_eq_dec : EqDecision Condition.
Proof. solve_decision. Defined.
#[export] Instance OwnerReference_eq_dec : EqDecision OwnerReference.
Proof. solve_decision. Defined.
#[export] Instance ObjectMeta_eq_dec : EqDecision ObjectMeta.
Proof. solve_decision. Defined.
#[export] Instance DeviceRef_eq_dec : EqDecision DeviceRef.
Proof. solve_decision. Defined.
#[export] Instance Artifact_eq_dec : EqDecision DeviceProcessArtifact.
Proof. solve_decision. Defined.
#[export] Instance EnvVar_eq_dec : EqDecision DeviceProcessEnvVar.
Proof. solve_decision. Defined.
#[export] Instance Execution_eq_dec : EqDecision DeviceProcessExecution.
Proof. solve_decision. Defined.
#[export] Instance HealthCheck_eq_dec : EqDecision DeviceProcessHealthCheck.
Proof. solve_decision. Defined.
#[export] Instance Spec_eq_dec : EqDecision DeviceProcessSpec.
Proof. solve_decision. Defined.
#[export] Instance Status_eq_dec : EqDecision DeviceProcessStatus.
Proof. solve_decision. Defined.
#[export] Instance DeviceProcess_eq_dec : EqDecision DeviceProcess.
Proof. solve_decision. Defined.
#[export] Instance SelectorOperator_eq_dec : EqDecision SelectorOperator.
Proof. solve_decision. Defined.
#[export] Instance SelectorRequirement_eq_dec : EqDecision SelectorRequirement.
Proof. solve_decision. Defined.
#[export] Instance LabelSelector_eq_dec : EqDecision LabelSelector.
Proof. solve_decision. Defined.
#[export] Instance TemplateSpec_eq_dec : EqDecision DeviceProcessTemplateSpec.
Proof. solve_decision. Defined.
#[export] Instance Template_eq_dec : EqDecision DeviceProcessTemplate.
Proof. solve_decision. Defined.
#[export] Instance DeploymentSpec_eq_dec : EqDecision DeviceProcessDeploymentSpec.
Proof. solve_decision. Defined.
#[export] Instance DeploymentStatus_eq_dec : EqDecision DeviceProcessDeploymentStatus.
Proof. solve_decision. Defined.
#[export] Instance Deployment_eq_dec : EqDecision DeviceProcessDeployment.
Proof. solve_decision. Defined.

(** ** Field updates

    [status.F = v] in the code is [set_F v status] here. *)

Definition set_Phase (v : string) (s : DeviceProcessStatus) : DeviceProcessStatus :=
  mkStatus v (st_Conditions s) (st_ObservedSpecHash s) (st_RuntimeSemantics s)
    (st_ArtifactVersion s) (st_ArtifactDigest s) (st_ArtifactDownloadAttempts s)
    (st_LastArtifactAttemptTime s) (st_ArtifactLastError s) (st_PID s) (st_StartTime s)
    (st_LastTransitionTime s) (st_RestartCount s) (st_LastTerminationReason s).

Definition set_Conditions (v : list Condition) (s : DeviceProcessStatus) : DeviceProcessStatus :=
  mkStatus (st_Phase s) v (st_ObservedSpecHash s) (st_RuntimeSemantics s)
    (st_ArtifactVersion s) (st_ArtifactDigest s) (st_ArtifactDownloadAttempts s)
    (st_LastArtifactAttemptTime s) (st_ArtifactLastError s) (st_PID s) (st_StartTime s)
    (st_LastTransitionTime s) (st_RestartCount s) (st_LastTerminationReason s).

Definition set_ObservedSpecHash (v : string) (s : DeviceProcessStatus) : DeviceProcessStatus :=
  mkStatus (st_Phase s) (st_Conditions s) v (st_RuntimeSemantics s)
    (st_ArtifactVersion s) (st_ArtifactDigest s) (st_ArtifactDownloadAttempts s)
    (st_LastArtifactAttemptTime s) (st_ArtifactLastError s) (st_PID s) (st_StartTime s)
    (st_LastTransitionTime s) (st_RestartCount s) (st_LastTerminationReason s).

Definition set_RuntimeSemantics (v : string) (s : DeviceProcessStatus) : DeviceProcessStatus :=
  mkStatus (st_Phase s) (st_Conditions s) (st_ObservedSpecHash s) v
    (st_ArtifactVersion s) (st_ArtifactDigest s) (st_ArtifactDownloadAttempts s)
    (st_LastArtifactAttemptTime s) (st_ArtifactLastError s) (st_PID s) (st_StartTime s)
    (st_LastTransitionTime s) (st_RestartCount s) (st_LastTerminationReason s).

(** The four artifact telemetry fields, which the gateway writes together. *)
Definition set_Artifact (digest : string) (attempts : Z) (last_time last_error : string)
    (s : DeviceProcessStatus) : DeviceProcessStatus :=
  mkStatus (st_Phase s) (st_Conditions s) (st_ObservedSpecHash s) (st_RuntimeSemantics s)
    (st_ArtifactVersion s) digest attempts last_time last_error (st_PID s) (st_StartTime s)
    (st_LastTransitionTime s) (st_RestartCount s) (st_LastTerminationReason s).

Definition set_PID (v : Z) (s : DeviceProcessStatus) : DeviceProcessStatus :=
  mkStatus (st_Phase s) (st_Conditions s) (st_ObservedSpecHash s) (st_RuntimeSemantics s)
    (st_ArtifactVersion s) (st_ArtifactDigest s) (st_ArtifactDownloadAttempts s)
    (st_LastArtifactAttemptTime s) (st_ArtifactLastError s) v (st_StartTime s)
    (st_LastTransitionTime s) (st_RestartCount s) (st_LastTerminationReason s).

Definition set_StartTime (v : option Z) (s : DeviceProcessStatus) : DeviceProcessStatus :=
  mkStatus (st_Phase s) (st_Conditions s) (st_ObservedSpecHash s) (st_RuntimeSemantics s)
    (st_ArtifactVersion s) (st_ArtifactDigest s) (st_ArtifactDownloadAttempts s)
    (st_LastArtifactAttemptTime s) (st_ArtifactLastError s) (st_PID s) v
    (st_LastTransitionTime s) (st_RestartCount s) (st_LastTerminationReason s).

Definition set_dp_Status (v : DeviceProcessStatus) (p : DeviceProcess) : DeviceProcess :=
  mkDeviceProcess (dp_Meta p) (dp_Spec p) v.

Definition dp_Name (p : DeviceProcess) : string := om_Name (dp_Meta p).
Definition dp_Namespace (p : DeviceProcess) : string := om_Namespace (dp_Meta p).
Definition dp_Key (p : DeviceProcess) : NamespacedName := (dp_Namespace p, dp_Name p).
Definition dp_DeviceName (p : DeviceProcess) : string := dr_Name (sp_DeviceRef (dp_Spec p)).
