(* ===== verification/Conditions.v ===== *)
(** * Status conditions (pkg/conditions/conditions.go)

    A condition list is kept as a map from condition types to conditions with a
    stable order: [SetCondition] replaces the first entry of the type in place
    or appends, and moves the transition time only when the status changes. *)

From S2P Require Import Prelude GoStrings Api.

(** ** The operations *)

Fixpoint FindCondition (conditions : list Condition) (ty : string) : option Condition :=
  match conditions with
  | [] => None
  | c :: cs => if String.eqb (c_Type c) ty then Some c else FindCondition cs ty
  end.

Definition set_LastTransitionTime (t : Z) (c : Condition) : Condition :=
  mkCondition (c_Type c) (c_Status c) (c_ObservedGeneration c) t (c_Reason c) (c_Message c).

(** [SetCondition] at time [now]: the loop over the existing conditions. *)
Fixpoint SetCondition (now : Z) (conditions : list Condition) (c : Condition) : list Condition :=
  match conditions with
  | [] => [set_LastTransitionTime now c]
  | e :: es =>
      if negb (String.eqb (c_Type e) (c_Type c)) then e :: SetCondition now es c
      else if String.eqb (c_Status e) (c_Status c)
           then set_LastTransitionTime (c_LastTransitionTime e) c :: es
           else set_LastTransitionTime now c :: es
  end.

Definition MarkTrue (now : Z) (conditions : list Condition) (ty reason message : string) :=
  SetCondition now conditions (mkCondition ty ConditionTrue 0 0 reason message).

Definition MarkFalse (now : Z) (conditions : list Condition) (ty reason message : string) :=
  SetCondition now conditions (mkCondition ty ConditionFalse 0 0 reason message).

(** ** Well-formedness: one condition per type *)

Definition types (cs : list Condition) : list string := c_Type <$> cs.
Definition wf_conditions (cs : list Condition) : Prop := NoDup (types cs).

(** ** Lemmas *)

Lemma FindCondition_type cs ty c : FindCondition cs ty = Some c → c_Type c = ty.
Proof.
  induction cs as [|e es IH]; simpl; [done|].
  destruct (String.eqb_spec (c_Type e) ty); [by intros [= <-]|done].
Qed.

Lemma FindCondition_none cs ty : FindCondition cs ty = None ↔ ty ∉ types cs.
Proof.
  unfold types. induction cs as [|e es IH]; simpl.
  - split; [intros _; apply not_elem_of_nil|done].
  - rewrite not_elem_of_cons. destruct (String.eqb_spec (c_Type e) ty); naive_solver.
Qed.

Lemma FindCondition_Some_in cs ty c : FindCondition cs ty = Some c → c ∈ cs.
Proof.
  induction cs as [|e es IH]; simpl; [done|]. rewrite elem_of_cons.
  destruct (String.eqb_spec (c_Type e) ty); naive_solver.
Qed.

(** Setting a condition makes it the one found under its type. *)
Lemma SetCondition_found now cs c :
  FindCondition (SetCondition now cs c) (c_Type c) =
    Some (set_LastTransitionTime
      (match FindCondition cs (c_Type c) with
       | Some e => if String.eqb (c_Status e) (c_Status c) then c_LastTransitionTime e else now
       | None => now
       end) c).
Proof.
  induction cs as [|e es IH]; simpl; [by rewrite String.eqb_refl|].
  destruct (String.eqb (c_Type e) (c_Type c)) eqn:E; simpl; [|by rewrite E].
  destruct (String.eqb (c_Status e) (c_Status c)); simpl; by rewrite String.eqb_refl.
Qed.

(** The conditions of the other types are untouched. *)
Lemma SetCondition_other now cs c ty :
  ty ≠ c_Type c → FindCondition (SetCondition now cs c) ty = FindCondition cs ty.
Proof.
  intros Hty. induction cs as [|e es IH]; simpl.
  - by destruct (String.eqb_spec (c_Type c) ty).
  - destruct (String.eqb_spec (c_Type e) (c_Type c)) as [E|E]; simpl.
    + rewrite E. destruct (String.eqb_spec (c_Type c) ty); [congruence|].
      case_match; simpl; by destruct (String.eqb_spec (c_Type c) ty).
    + by destruct (String.eqb_spec (c_Type e) ty).
Qed.

(** The order of the types is stable; a new type goes last. *)
Lemma SetCondition_types now cs c :
  types (SetCondition now cs c) =
    types cs ++ (if decide (c_Type c ∈ types cs) then [] else [c_Type c]).
Proof.
  unfold types. induction cs as [|e es IH]; rewrite ?fmap_nil, ?fmap_cons; cbn [SetCondition].
  - case_decide as Hin; [by apply elem_of_nil in Hin|done].
  - destruct (String.eqb_spec (c_Type e) (c_Type c)) as [E|E]; cbn [negb].
    + rewrite decide_True by (rewrite E; constructor). rewrite app_nil_r, E.
      by destruct (String.eqb (c_Status e) (c_Status c)).
    + rewrite fmap_cons, IH. simpl. f_equal. f_equal.
      repeat case_decide; try done; exfalso; set_solver.
Qed.

Lemma SetCondition_wf now cs c : wf_conditions cs → wf_conditions (SetCondition now cs c).
Proof.
  unfold wf_conditions. intros H. rewrite SetCondition_types.
  destruct (decide _) as [_|Hn]; [by rewrite app_nil_r|].
  apply NoDup_app. split_all; [done|set_solver|apply NoDup_singleton].
Qed.

(** Two conditions that differ at most in their transition time and observed
    generation, which is what the gateway compares. *)
Definition same_condition (a b : Condition) : bool :=
  String.eqb (c_Type a) (c_Type b) && String.eqb (c_Status a) (c_Status b) &&
  String.eqb (c_Reason a) (c_Reason b) && String.eqb (c_Message a) (c_Message b).

Definition same_conditions : list Condition → list Condition → Prop :=
  Forall2 (λ a b, same_condition a b = true).

Lemma same_condition_spec a b :
  same_condition a b = true ↔
  c_Type a = c_Type b ∧ c_Status a = c_Status b ∧
  c_Reason a = c_Reason b ∧ c_Message a = c_Message b.
Proof. unfold same_condition. rewrite !andb_true_iff, !String.eqb_eq. tauto. Qed.

Lemma same_condition_transition t c e :
  same_condition e c = true → same_condition (set_LastTransitionTime t c) e = true.
Proof. rewrite !same_condition_spec. simpl. intuition congruence. Qed.

#[export] Instance same_conditions_equiv : Equivalence same_conditions.
Proof.
  unfold same_conditions. split.
  - intros cs. induction cs; constructor; [|done]. by apply same_condition_spec.
  - intros a b. induction 1; constructor; [|done]. rewrite same_condition_spec in *. naive_solver.
  - intros a b c H. revert c. induction H as [|x y l k Hxy H IH]; intros c Hc; [done|].
    inversion Hc as [|? z ? m Hyz Hm]; subst. constructor; [|by apply IH].
    rewrite same_condition_spec in *. destruct Hxy as (->&->&->&->), Hyz as (->&->&->&->). done.
Qed.

(** [SetCondition] respects that equivalence, whatever the clock says. *)
#[export] Instance SetCondition_proper now :
  Proper (same_conditions ==> eq ==> same_conditions) (SetCondition now).
Proof.
  intros cs ds H c ? <-. induction H as [|x y l k Hxy H IH]; simpl; [done|].
  pose proof (proj1 (same_condition_spec x y) Hxy) as (HT&HS&_).
  rewrite <-HT, <-HS. destruct (negb _); [by constructor|].
  destruct (String.eqb (c_Status x) _); (constructor; [by apply same_condition_spec|done]).
Qed.

Lemma same_conditions_now now now' cs c :
  same_conditions (SetCondition now cs c) (SetCondition now' cs c).
Proof.
  induction cs as [|e es IH]; simpl.
  - repeat constructor. by apply same_condition_spec.
  - destruct (negb _); [constructor; [by apply same_condition_spec|done]|].
    destruct (String.eqb (c_Status e) _); (constructor; [by apply same_condition_spec|reflexivity]).
Qed.

(** The condition [c] already holds in [cs]: same status, reason, message. *)
Definition holds (c : Condition) (cs : list Condition) : Prop :=
  ∃ e, FindCondition cs (c_Type c) = Some e ∧ same_condition e c = true.

(** Setting a condition that already holds changes nothing the gateway or a
    user can see. *)
Lemma SetCondition_holds now cs c :
  holds c cs → same_conditions (SetCondition now cs c) cs.
Proof.
  intros (e & Hf & Hs). induction cs as [|d ds IH]; simpl in *; [done|].
  destruct (String.eqb (c_Type d) (c_Type c)) eqn:E; simpl.
  - simplify_eq. pose proof (proj1 (same_condition_spec _ _) Hs) as (_&HS&_).
    rewrite HS, String.eqb_refl. constructor; [by apply same_condition_transition|reflexivity].
  - constructor; [by apply same_condition_spec|exact (IH Hf)].
Qed.

Lemma SetCondition_establishes now cs c : holds c (SetCondition now cs c).
Proof.
  eexists. rewrite SetCondition_found. split; [done|]. by apply same_condition_spec.
Qed.

Lemma holds_preserved now cs c d :
  c_Type c ≠ c_Type d → holds c cs → holds c (SetCondition now cs d).
Proof. intros Hne (e & Hf & Hs). exists e. by rewrite SetCondition_other. Qed.

Lemma FindCondition_same cs ds ty :
  same_conditions cs ds →
  match FindCondition cs ty, FindCondition ds ty with
  | Some a, Some b => same_condition a b = true
  | None, None => True
  | _, _ => False
  end.
Proof.
  induction 1 as [|x y l k Hxy H IH]; simpl; [done|].
  pose proof (proj1 (same_condition_spec x y) Hxy) as (HT&_). rewrite <-HT.
  by destruct (String.eqb (c_Type x) ty).
Qed.

Lemma holds_same c cs ds : same_conditions cs ds → holds c cs → holds c ds.
Proof.
  intros Hs (e & Hf & He). pose proof (FindCondition_same cs ds (c_Type c) Hs) as Hm.
  rewrite Hf in Hm. destruct (FindCondition ds (c_Type c)) as [d|] eqn:Hd; [|done].
  exists d. split; [done|]. rewrite same_condition_spec in *. naive_solver congruence.
Qed.

Create HintDb conditions.
#[export] Hint Resolve SetCondition_wf SetCondition_establishes holds_preserved : conditions.



(** ** Batches of updates

    A sequence of condition updates, each with the clock site it reads. *)

Definition apply_updates (now : nat → Z) (us : list (nat * Condition)) (cs : list Condition)
    : list Condition :=
  foldl (λ cs u, SetCondition (now u.1) cs u.2) cs us.

Definition update_types (us : list (nat * Condition)) : list string := (λ u, c_Type u.2) <$> us.

Section updates.
Context (now : nat → Z).

Lemma apply_updates_app us vs cs :
  apply_updates now (us ++ vs) cs = apply_updates now vs (apply_updates now us cs).
Proof. apply foldl_app. Qed.

Lemma apply_updates_wf us cs : wf_conditions cs → wf_conditions (apply_updates now us cs).
Proof. revert cs. induction us; simpl; auto with conditions. Qed.

Lemma apply_updates_other us cs ty :
  ty ∉ update_types us → FindCondition (apply_updates now us cs) ty = FindCondition cs ty.
Proof.
  revert cs. induction us as [|u us IH]; intros cs; [done|].
  unfold update_types. rewrite fmap_cons, not_elem_of_cons. intros [Hne Hn].
  simpl. rewrite IH by done. by apply SetCondition_other.
Qed.

Lemma apply_updates_holds_preserved us cs c :
  c_Type c ∉ update_types us → holds c cs → holds c (apply_updates now us cs).
Proof. intros Hn (e & He & Hs). exists e. by rewrite apply_updates_other. Qed.

(** When the types are distinct every update is in force at the end. *)
Lemma apply_updates_establishes us cs :
  NoDup (update_types us) → Forall (λ u, holds u.2 (apply_updates now us cs)) us.
Proof.
  revert cs. induction us as [|u us IH]; intros cs; [done|].
  unfold update_types. rewrite fmap_cons, NoDup_cons. intros [Hn Hd].
  constructor; [|by apply IH]. simpl.
  apply apply_updates_holds_preserved; auto with conditions.
Qed.

(** Updates that already hold leave the list as it is, transition times
    apart. *)
Lemma apply_updates_holds us cs :
  Forall (λ u, holds u.2 cs) us → same_conditions (apply_updates now us cs) cs.
Proof.
  intros H. assert (∀ ds, same_conditions ds cs → same_conditions (apply_updates now us ds) cs)
    as Hgen; [|by apply Hgen].
  induction H as [|u us Hu H IH]; intros ds Hds; simpl; [done|].
  apply IH. rewrite Hds. by apply SetCondition_holds.
Qed.
End updates.

(** ** Properties *)

(** [SetCondition] keeps the list a map with stable order: the condition
    is found under its type with the given status, reason and message; its
    transition time is the old one when the status did not change and the
    current time otherwise; every other type keeps its condition; types keep
    their order, a new one goes last, and none is duplicated. *)
Theorem SetCondition_correct now cs c :
  (∃ e, FindCondition (SetCondition now cs c) (c_Type c) = Some e ∧
        c_Status e = c_Status c ∧ c_Reason e = c_Reason c ∧ c_Message e = c_Message c ∧
        c_LastTransitionTime e =
          match FindCondition cs (c_Type c) with
          | Some old => if String.eqb (c_Status old) (c_Status c) then c_LastTransitionTime old else now
          | None => now
          end) ∧
  (∀ ty, ty ≠ c_Type c → FindCondition (SetCondition now cs c) ty = FindCondition cs ty) ∧
  types (SetCondition now cs c) =
    types cs ++ (if decide (c_Type c ∈ types cs) then [] else [c_Type c]) ∧
  (wf_conditions cs → wf_conditions (SetCondition now cs c)).
Proof.
  split; [|split; [|split]].
  - eexists. rewrite SetCondition_found. split_all; [reflexivity|done..].
  - intros ty. apply SetCondition_other.
  - apply SetCondition_types.
  - apply SetCondition_wf.
Qed.
