(* ===== verification/DeepCopy.v ===== *)
(** * Deep copies of the API types (zz_generated.deepcopy.go)

    The layouts of the API types in memory, field by field, with their generated
    [DeepCopyInto], [DeepCopy] and [DeepCopyObject].  Elsewhere in this library
    [proc.DeepCopy()] is the value itself, and an update of the copy leaves the
    original alone: [deep_copy_independent] is why.  The metadata types of
    apimachinery are the class [LibraryTypes]; [LibraryTypesLaws] states that
    their own deep copies are deep. *)

From S2P Require Import Prelude GoStrings GoHeap.

(** ** apimachinery *)

Class LibraryTypes := {
  TypeMeta_t : ty;
  ObjectMeta_t : ty;
  ListMeta_t : ty;
  LabelSelector_t : ty;
  Condition_t : ty;
  Time_t : ty;
  IntOrString_t : ty;
  ObjectMeta_DeepCopyInto : copier;
  ListMeta_DeepCopyInto : copier;
  LabelSelector_DeepCopyInto : copier;
  Condition_DeepCopyInto : copier;
  Time_DeepCopy : copier
}.

Class LibraryTypesLaws `{LibraryTypes} := {
  flat_TypeMeta : flat TypeMeta_t;
  flat_IntOrString : flat IntOrString_t;
  deep_ObjectMeta : deep ObjectMeta_t ObjectMeta_DeepCopyInto;
  deep_ListMeta : deep ListMeta_t ListMeta_DeepCopyInto;
  deep_LabelSelector : deep LabelSelector_t LabelSelector_DeepCopyInto;
  deep_Condition : deep Condition_t Condition_DeepCopyInto;
  deep_Time : deep (Tptr Time_t) Time_DeepCopy
}.

#[export] Hint Resolve flat_TypeMeta flat_IntOrString deep_ObjectMeta deep_ListMeta
  deep_LabelSelector deep_Condition deep_Time : deep.

Section deepcopy.
Context `{LibraryTypes} `{MapRange}.

(** ** Layouts (deviceprocess_types.go) *)

Definition DeviceRef_t : ty :=
  Tstruct [("Kind", Tstring); ("Name", Tstring); ("Namespace", Tstring)].

Definition DeviceProcessArtifact_t : ty :=
  Tstruct [("Type", Tstring); ("URL", Tstring); ("ChecksumSHA256", Tstring)].

Definition DeviceProcessEnvVar_t : ty := Tstruct [("Name", Tstring); ("Value", Tstring)].

Definition DeviceProcessExecution_t : ty :=
  Tstruct [("Backend", Tstring); ("Command", Tslice Tstring); ("Args", Tslice Tstring);
    ("Env", Tslice DeviceProcessEnvVar_t); ("WorkingDir", Tstring); ("User", Tstring)].

Definition DeviceProcessExecAction_t : ty := Tstruct [("Command", Tslice Tstring)].

Definition DeviceProcessHealthCheck_t : ty :=
  Tstruct [("Exec", DeviceProcessExecAction_t); ("PeriodSeconds", Tint 32);
    ("TimeoutSeconds", Tint 32); ("SuccessThreshold", Tint 32); ("FailureThreshold", Tint 32)].

Definition DeviceProcessSpec_t : ty :=
  Tstruct [("DeviceRef", DeviceRef_t); ("Artifact", DeviceProcessArtifact_t);
    ("Execution", DeviceProcessExecution_t); ("RestartPolicy", Tstring);
    ("HealthCheck", Tptr DeviceProcessHealthCheck_t)].

Definition DeviceProcessStatus_t : ty :=
  Tstruct [("Phase", Tstring); ("Conditions", Tslice Condition_t);
    ("ObservedSpecHash", Tstring); ("RuntimeSemantics", Tstring); ("ArtifactVersion", Tstring);
    ("ArtifactDigest", Tstring); ("ArtifactDownloadAttempts", Tint 32);
    ("LastArtifactAttemptTime", Tstring); ("ArtifactLastError", Tstring); ("PID", Tint 64);
    ("StartTime", Tptr Time_t); ("LastTransitionTime", Tptr Time_t);
    ("RestartCount", Tint 32); ("LastTerminationReason", Tstring)].

Definition DeviceProcess_t : ty :=
  Tstruct [("TypeMeta", TypeMeta_t); ("ObjectMeta", ObjectMeta_t);
    ("Spec", DeviceProcessSpec_t); ("Status", DeviceProcessStatus_t)].

Definition DeviceProcessList_t : ty :=
  Tstruct [("TypeMeta", TypeMeta_t); ("ListMeta", ListMeta_t);
    ("Items", Tslice DeviceProcess_t)].

(** ** Layouts (deviceprocessdeployment_types.go) *)

Definition DeviceProcessRollingUpdate_t : ty :=
  Tstruct [("MaxUnavailable", Tptr IntOrString_t)].

Definition DeviceProcessDeploymentStrategy_t : ty :=
  Tstruct [("Type", Tstring); ("RollingUpdate", Tptr DeviceProcessRollingUpdate_t)].

Definition DeviceProcessTemplateMetadata_t : ty :=
  Tstruct [("Labels", Tmap); ("Annotations", Tmap)].

Definition DeviceProcessTemplateSpec_t : ty :=
  Tstruct [("Artifact", DeviceProcessArtifact_t); ("Execution", DeviceProcessExecution_t);
    ("RestartPolicy", Tstring); ("HealthCheck", Tptr DeviceProcessHealthCheck_t)].

Definition DeviceProcessTemplate_t : ty :=
  Tstruct [("Metadata", DeviceProcessTemplateMetadata_t); ("Spec", DeviceProcessTemplateSpec_t)].

Definition DeviceProcessDeploymentSpec_t : ty :=
  Tstruct [("Selector", LabelSelector_t); ("UpdateStrategy", DeviceProcessDeploymentStrategy_t);
    ("Template", DeviceProcessTemplate_t)].

Definition DeviceProcessDeploymentStatus_t : ty :=
  Tstruct [("ObservedGeneration", Tint 64); ("DesiredNumberScheduled", Tint 32);
    ("CurrentNumberScheduled", Tint 32); ("UpdatedNumberScheduled", Tint 32);
    ("NumberReady", Tint 32); ("NumberAvailable", Tint 32); ("NumberUnavailable", Tint 32);
    ("Conditions", Tslice Condition_t)].

Definition DeviceProcessDeployment_t : ty :=
  Tstruct [("TypeMeta", TypeMeta_t); ("ObjectMeta", ObjectMeta_t);
    ("Spec", DeviceProcessDeploymentSpec_t); ("Status", DeviceProcessDeploymentStatus_t)].

Definition DeviceProcessDeploymentList_t : ty :=
  Tstruct [("TypeMeta", TypeMeta_t); ("ListMeta", ListMeta_t);
    ("Items", Tslice DeviceProcessDeployment_t)].

(** ** DeepCopyInto *)

Definition DeviceRef_DeepCopyInto : copier := assign.

Definition DeviceProcessArtifact_DeepCopyInto : copier := assign.

Definition DeviceProcessEnvVar_DeepCopyInto : copier := assign.

Definition DeviceProcessExecAction_DeepCopyInto : copier :=
  struct_copy [("Command", if_not_nil make_copy)].

Definition DeviceProcessExecution_DeepCopyInto : copier :=
  struct_copy [("Command", if_not_nil make_copy); ("Args", if_not_nil make_copy);
    ("Env", if_not_nil make_copy)].

Definition DeviceProcessHealthCheck_DeepCopyInto : copier :=
  struct_copy [("Exec", DeviceProcessExecAction_DeepCopyInto)].

Definition DeviceProcessSpec_DeepCopyInto : copier :=
  struct_copy [("DeviceRef", assign); ("Artifact", assign);
    ("Execution", DeviceProcessExecution_DeepCopyInto);
    ("HealthCheck", if_not_nil (new_into DeviceProcessHealthCheck_DeepCopyInto))].

Definition DeviceProcessStatus_DeepCopyInto : copier :=
  struct_copy [("Conditions", if_not_nil (make_each Condition_DeepCopyInto));
    ("StartTime", if_not_nil Time_DeepCopy); ("LastTransitionTime", if_not_nil Time_DeepCopy)].

Definition DeviceProcess_DeepCopyInto : copier :=
  struct_copy [("TypeMeta", assign); ("ObjectMeta", ObjectMeta_DeepCopyInto);
    ("Spec", DeviceProcessSpec_DeepCopyInto); ("Status", DeviceProcessStatus_DeepCopyInto)].

Definition DeviceProcessList_DeepCopyInto : copier :=
  struct_copy [("TypeMeta", assign); ("ListMeta", ListMeta_DeepCopyInto);
    ("Items", if_not_nil (make_each DeviceProcess_DeepCopyInto))].

Definition DeviceProcessRollingUpdate_DeepCopyInto : copier :=
  struct_copy [("MaxUnavailable", if_not_nil (new_into assign))].

Definition DeviceProcessDeploymentStrategy_DeepCopyInto : copier :=
  struct_copy
    [("RollingUpdate", if_not_nil (new_into DeviceProcessRollingUpdate_DeepCopyInto))].

Definition DeviceProcessTemplateMetadata_DeepCopyInto : copier :=
  struct_copy [("Labels", if_not_nil make_map); ("Annotations", if_not_nil make_map)].

Definition DeviceProcessTemplateSpec_DeepCopyInto : copier :=
  struct_copy [("Artifact", assign); ("Execution", DeviceProcessExecution_DeepCopyInto);
    ("HealthCheck", if_not_nil (new_into DeviceProcessHealthCheck_DeepCopyInto))].

Definition DeviceProcessTemplate_DeepCopyInto : copier :=
  struct_copy [("Metadata", DeviceProcessTemplateMetadata_DeepCopyInto);
    ("Spec", DeviceProcessTemplateSpec_DeepCopyInto)].

Definition DeviceProcessDeploymentSpec_DeepCopyInto : copier :=
  struct_copy [("Selector", LabelSelector_DeepCopyInto);
    ("UpdateStrategy", DeviceProcessDeploymentStrategy_DeepCopyInto);
    ("Template", DeviceProcessTemplate_DeepCopyInto)].

Definition DeviceProcessDeploymentStatus_DeepCopyInto : copier :=
  struct_copy [("Conditions", if_not_nil (make_each Condition_DeepCopyInto))].

Definition DeviceProcessDeployment_DeepCopyInto : copier :=
  struct_copy [("TypeMeta", assign); ("ObjectMeta", ObjectMeta_DeepCopyInto);
    ("Spec", DeviceProcessDeploymentSpec_DeepCopyInto);
    ("Status", DeviceProcessDeploymentStatus_DeepCopyInto)].

Definition DeviceProcessDeploymentList_DeepCopyInto : copier :=
  struct_copy [("TypeMeta", assign); ("ListMeta", ListMeta_DeepCopyInto);
    ("Items", if_not_nil (make_each DeviceProcessDeployment_DeepCopyInto))].

(** ** DeepCopy *)

Definition DeviceProcess_DeepCopy : copier := deep_copy DeviceProcess_DeepCopyInto.
Definition DeviceProcessArtifact_DeepCopy : copier :=
  deep_copy DeviceProcessArtifact_DeepCopyInto.
Definition DeviceProcessDeployment_DeepCopy : copier :=
  deep_copy DeviceProcessDeployment_DeepCopyInto.
Definition DeviceProcessDeploymentList_DeepCopy : copier :=
  deep_copy DeviceProcessDeploymentList_DeepCopyInto.
Definition DeviceProcessDeploymentSpec_DeepCopy : copier :=
  deep_copy DeviceProcessDeploymentSpec_DeepCopyInto.
Definition DeviceProcessDeploymentStatus_DeepCopy : copier :=
  deep_copy DeviceProcessDeploymentStatus_DeepCopyInto.
Definition DeviceProcessDeploymentStrategy_DeepCopy : copier :=
  deep_copy DeviceProcessDeploymentStrategy_DeepCopyInto.
Definition DeviceProcessEnvVar_DeepCopy : copier := deep_copy DeviceProcessEnvVar_DeepCopyInto.
Definition DeviceProcessExecAction_DeepCopy : copier :=
  deep_copy DeviceProcessExecAction_DeepCopyInto.
Definition DeviceProcessExecution_DeepCopy : copier :=
  deep_copy DeviceProcessExecution_DeepCopyInto.
Definition DeviceProcessHealthCheck_DeepCopy : copier :=
  deep_copy DeviceProcessHealthCheck_DeepCopyInto.
Definition DeviceProcessList_DeepCopy : copier := deep_copy DeviceProcessList_DeepCopyInto.
Definition DeviceProcessRollingUpdate_DeepCopy : copier :=
  deep_copy DeviceProcessRollingUpdate_DeepCopyInto.
Definition DeviceProcessSpec_DeepCopy : copier := deep_copy DeviceProcessSpec_DeepCopyInto.
Definition DeviceProcessStatus_DeepCopy : copier := deep_copy DeviceProcessStatus_DeepCopyInto.
Definition DeviceProcessTemplate_DeepCopy : copier :=
  deep_copy DeviceProcessTemplate_DeepCopyInto.
Definition DeviceProcessTemplateMetadata_DeepCopy : copier :=
  deep_copy DeviceProcessTemplateMetadata_DeepCopyInto.
Definition DeviceProcessTemplateSpec_DeepCopy : copier :=
  deep_copy DeviceProcessTemplateSpec_DeepCopyInto.
Definition DeviceRef_DeepCopy : copier := deep_copy DeviceRef_DeepCopyInto.

(** ** DeepCopyObject, of the types with TypeMeta

    The name stands for the dynamic type of the interface. *)

Definition DeviceProcess_DeepCopyObject : val → mem (option (string * val)) :=
  deep_copy_object "DeviceProcess" DeviceProcess_DeepCopy.
Definition DeviceProcessList_DeepCopyObject : val → mem (option (string * val)) :=
  deep_copy_object "DeviceProcessList" DeviceProcessList_DeepCopy.
Definition DeviceProcessDeployment_DeepCopyObject : val → mem (option (string * val)) :=
  deep_copy_object "DeviceProcessDeployment" DeviceProcessDeployment_DeepCopy.
Definition DeviceProcessDeploymentList_DeepCopyObject : val → mem (option (string * val)) :=
  deep_copy_object "DeviceProcessDeploymentList" DeviceProcessDeploymentList_DeepCopy.

(** The types with a [DeepCopy]. *)
Definition api_types : list (string * (ty * copier)) :=
  [("DeviceProcess", (DeviceProcess_t, DeviceProcess_DeepCopy));
   ("DeviceProcessArtifact", (DeviceProcessArtifact_t, DeviceProcessArtifact_DeepCopy));
   ("DeviceProcessDeployment", (DeviceProcessDeployment_t, DeviceProcessDeployment_DeepCopy));
   ("DeviceProcessDeploymentList",
      (DeviceProcessDeploymentList_t, DeviceProcessDeploymentList_DeepCopy));
   ("DeviceProcessDeploymentSpec",
      (DeviceProcessDeploymentSpec_t, DeviceProcessDeploymentSpec_DeepCopy));
   ("DeviceProcessDeploymentStatus",
      (DeviceProcessDeploymentStatus_t, DeviceProcessDeploymentStatus_DeepCopy));
   ("DeviceProcessDeploymentStrategy",
      (DeviceProcessDeploymentStrategy_t, DeviceProcessDeploymentStrategy_DeepCopy));
   ("DeviceProcessEnvVar", (DeviceProcessEnvVar_t, DeviceProcessEnvVar_DeepCopy));
   ("DeviceProcessExecAction", (DeviceProcessExecAction_t, DeviceProcessExecAction_DeepCopy));
   ("DeviceProcessExecution", (DeviceProcessExecution_t, DeviceProcessExecution_DeepCopy));
   ("DeviceProcessHealthCheck", (DeviceProcessHealthCheck_t, DeviceProcessHealthCheck_DeepCopy));
   ("DeviceProcessList", (DeviceProcessList_t, DeviceProcessList_DeepCopy));
   ("DeviceProcessRollingUpdate",
      (DeviceProcessRollingUpdate_t, DeviceProcessRollingUpdate_DeepCopy));
   ("DeviceProcessSpec", (DeviceProcessSpec_t, DeviceProcessSpec_DeepCopy));
   ("DeviceProcessStatus", (DeviceProcessStatus_t, DeviceProcessStatus_DeepCopy));
   ("DeviceProcessTemplate", (DeviceProcessTemplate_t, DeviceProcessTemplate_DeepCopy));
   ("DeviceProcessTemplateMetadata",
      (DeviceProcessTemplateMetadata_t, DeviceProcessTemplateMetadata_DeepCopy));
   ("DeviceProcessTemplateSpec", (DeviceProcessTemplateSpec_t, DeviceProcessTemplateSpec_DeepCopy));
   ("DeviceRef", (DeviceRef_t, DeviceRef_DeepCopy))].

(** [schemeBuilder.Register] *)
Definition root_types : list (string * (ty * (val → mem (option (string * val))))) :=
  [("DeviceProcess", (DeviceProcess_t, DeviceProcess_DeepCopyObject));
   ("DeviceProcessList", (DeviceProcessList_t, DeviceProcessList_DeepCopyObject));
   ("DeviceProcessDeployment", (DeviceProcessDeployment_t, DeviceProcessDeployment_DeepCopyObject));
   ("DeviceProcessDeploymentList",
      (DeviceProcessDeploymentList_t, DeviceProcessDeploymentList_DeepCopyObject))].

End deepcopy.

(** ** Every generated copier is deep *)


Section laws.
Context `{LibraryTypesLaws} `{MapRange}.

Lemma deep_DeviceRef : deep DeviceRef_t DeviceRef_DeepCopyInto.
Proof. deep_tac. Qed.
Lemma deep_DeviceProcessArtifact :
  deep DeviceProcessArtifact_t DeviceProcessArtifact_DeepCopyInto.
Proof. deep_tac. Qed.
Lemma deep_DeviceProcessEnvVar : deep DeviceProcessEnvVar_t DeviceProcessEnvVar_DeepCopyInto.
Proof. deep_tac. Qed.
Lemma deep_DeviceProcessExecAction :
  deep DeviceProcessExecAction_t DeviceProcessExecAction_DeepCopyInto.
Proof. deep_tac. Qed.
Lemma deep_DeviceProcessExecution :
  deep DeviceProcessExecution_t DeviceProcessExecution_DeepCopyInto.
Proof. deep_tac. Qed.
#[local] Hint Resolve deep_DeviceProcessExecAction deep_DeviceProcessExecution : deep.
Lemma deep_DeviceProcessHealthCheck :
  deep DeviceProcessHealthCheck_t DeviceProcessHealthCheck_DeepCopyInto.
Proof. deep_tac. Qed.
#[local] Hint Resolve deep_DeviceProcessHealthCheck : deep.
Lemma deep_DeviceProcessSpec : deep DeviceProcessSpec_t DeviceProcessSpec_DeepCopyInto.
Proof. deep_tac. Qed.
Lemma deep_DeviceProcessStatus : deep DeviceProcessStatus_t DeviceProcessStatus_DeepCopyInto.
Proof. deep_tac. Qed.
Lemma deep_DeviceProcessRollingUpdate :
  deep DeviceProcessRollingUpdate_t DeviceProcessRollingUpdate_DeepCopyInto.
Proof. deep_tac. Qed.
Lemma deep_DeviceProcessTemplateMetadata :
  deep DeviceProcessTemplateMetadata_t DeviceProcessTemplateMetadata_DeepCopyInto.
Proof. deep_tac. Qed.
Lemma deep_DeviceProcessTemplateSpec :
  deep DeviceProcessTemplateSpec_t DeviceProcessTemplateSpec_DeepCopyInto.
Proof. deep_tac. Qed.
Lemma deep_DeviceProcessDeploymentStatus :
  deep DeviceProcessDeploymentStatus_t DeviceProcessDeploymentStatus_DeepCopyInto.
Proof. deep_tac. Qed.
#[local] Hint Resolve deep_DeviceProcessSpec deep_DeviceProcessStatus
  deep_DeviceProcessRollingUpdate deep_DeviceProcessTemplateMetadata
  deep_DeviceProcessTemplateSpec deep_DeviceProcessDeploymentStatus : deep.
Lemma deep_DeviceProcess : deep DeviceProcess_t DeviceProcess_DeepCopyInto.
Proof. deep_tac. Qed.
Lemma deep_DeviceProcessTemplate :
  deep DeviceProcessTemplate_t DeviceProcessTemplate_DeepCopyInto.
Proof. deep_tac. Qed.
Lemma deep_DeviceProcessDeploymentStrategy :
  deep DeviceProcessDeploymentStrategy_t DeviceProcessDeploymentStrategy_DeepCopyInto.
Proof. deep_tac. Qed.
#[local] Hint Resolve deep_DeviceProcess deep_DeviceProcessTemplate
  deep_DeviceProcessDeploymentStrategy : deep.
Lemma deep_DeviceProcessDeploymentSpec :
  deep DeviceProcessDeploymentSpec_t DeviceProcessDeploymentSpec_DeepCopyInto.
Proof. deep_tac. Qed.
#[local] Hint Resolve deep_DeviceProcessDeploymentSpec : deep.
Lemma deep_DeviceProcessDeployment :
  deep DeviceProcessDeployment_t DeviceProcessDeployment_DeepCopyInto.
Proof. deep_tac. Qed.
#[local] Hint Resolve deep_DeviceProcessDeployment : deep.
Lemma deep_DeviceProcessList : deep DeviceProcessList_t DeviceProcessList_DeepCopyInto.
Proof. deep_tac. Qed.
Lemma deep_DeviceProcessDeploymentList :
  deep DeviceProcessDeploymentList_t DeviceProcessDeploymentList_DeepCopyInto.
Proof. deep_tac. Qed.
#[local] Hint Resolve deep_DeviceRef deep_DeviceProcessArtifact deep_DeviceProcessEnvVar
  deep_DeviceProcessList deep_DeviceProcessDeploymentList : deep.

Lemma deep_api_types : Forall (λ e, deep (Tptr e.2.1) e.2.2) api_types.
Proof.
  repeat (apply Forall_cons; split;
    [cbn [fst snd]; apply deep_deep_copy; eauto 2 with deep nocore|]).
  by apply Forall_nil.
Qed.

Lemma deep_root_types :
  Forall (λ e, ∃ into, e.2.2 = deep_copy_object e.1 (deep_copy into) ∧ deep e.2.1 into)
    root_types.
Proof.
  repeat (apply Forall_cons; split;
    [eexists; split; [reflexivity|cbn [fst snd]; eauto 2 with deep nocore]|]).
  by apply Forall_nil.
Qed.

Lemma deep_object T into name h v t L :
  deep T into → rep h v t L → Tptr T t = true →
  (v = VNil ∧ deep_copy_object name (deep_copy into) v h = Some (None, h)) ∨
  (v ≠ VNil ∧ ∃ v' h' L',
     deep_copy_object name (deep_copy into) v h = Some (Some (name, v'), h') ∧ v' ≠ VNil ∧
     rep h' v' t L' ∧ ∀ l, l ∈ L' → h !! l = None).
Proof.
  intros Hc Hr Ht. assert (v = VNil ∨ v ≠ VNil) as [->|Hv] by (destruct v; auto).
  { by left. }
  right. split; [done|].
  destruct (deep_deep_copy T into Hc h v t L Hr Ht) as (v' & h' & L' & E & Hr' & _ & _ & Hf).
  assert (v' ≠ VNil) as Hv'.
  { intros ->. inversion Hr'; subst. by inversion Hr. }
  exists v', h', L'. split_all; [|done..]. unfold deep_copy_object, andthen. rewrite E.
  by destruct v'.
Qed.

End laws.

(** ** Samples *)

Definition plain_types : LibraryTypes := {|
  TypeMeta_t := Tstruct [("Kind", Tstring); ("APIVersion", Tstring)];
  ObjectMeta_t := Tstruct [("Name", Tstring); ("Labels", Tmap)];
  ListMeta_t := Tstruct [("ResourceVersion", Tstring)];
  LabelSelector_t := Tstruct [("MatchLabels", Tmap)];
  Condition_t := Tstruct [("Type", Tstring); ("Status", Tstring)];
  Time_t := Tstruct [("wall", Tint 64)];
  IntOrString_t := Tstruct [("Type", Tint 64); ("IntVal", Tint 32); ("StrVal", Tstring)];
  ObjectMeta_DeepCopyInto := struct_copy [("Labels", if_not_nil (@make_map plain_range))];
  ListMeta_DeepCopyInto := assign;
  LabelSelector_DeepCopyInto := struct_copy [("MatchLabels", if_not_nil (@make_map plain_range))];
  Condition_DeepCopyInto := assign;
  Time_DeepCopy := deep_copy assign
|}.

#[local] Existing Instance plain_types.
#[local] Existing Instance plain_range.

Lemma plain_types_laws : LibraryTypesLaws.
Proof.
  constructor; cbn [TypeMeta_t IntOrString_t ObjectMeta_t ListMeta_t LabelSelector_t Condition_t
    Time_t ObjectMeta_DeepCopyInto ListMeta_DeepCopyInto LabelSelector_DeepCopyInto
    Condition_DeepCopyInto Time_DeepCopy plain_types]; first [flat_tac|deep_tac].
Qed.

(** The status of a deployment with one condition, in an array with room for
    two, and a pointer to it. *)
Definition sample_status (conditions : val) : val :=
  VStruct [("ObservedGeneration", VInt 1); ("DesiredNumberScheduled", VInt 2);
    ("CurrentNumberScheduled", VInt 2); ("UpdatedNumberScheduled", VInt 2);
    ("NumberReady", VInt 0); ("NumberAvailable", VInt 0); ("NumberUnavailable", VInt 2);
    ("Conditions", conditions)].
Definition sample_condition (status : string) : val :=
  VStruct [("Type", VStr "Available"); ("Status", VStr status)].
Definition sample_heap : heap :=
  {[ 1%positive := VArray [sample_condition "False"; zero];
     2%positive := sample_status (VSlice 1 0 1) ]}.
Definition sample_tree (status : string) : tree :=
  TStruct [("ObservedGeneration", TInt 1); ("DesiredNumberScheduled", TInt 2);
    ("CurrentNumberScheduled", TInt 2); ("UpdatedNumberScheduled", TInt 2);
    ("NumberReady", TInt 0); ("NumberAvailable", TInt 0); ("NumberUnavailable", TInt 2);
    ("Conditions", TSlice [TStruct [("Type", TStr "Available"); ("Status", TStr status)]])].

Lemma reps_flat h v t vs ts L :
  rep h v t [] → reps h vs ts L → reps h (v :: vs) (t :: ts) L.
Proof. apply (reps_cons h v vs t ts []). Qed.

Lemma sample_rep h status :
  h !! 1%positive = Some (VArray [sample_condition status; zero]) →
  rep h (sample_status (VSlice 1 0 1)) (sample_tree status) [1%positive].
Proof.
  intros Hh. apply rep_struct; [reflexivity|]. cbn.
  do 7 (apply reps_flat; [constructor|]).
  apply (reps_cons h _ _ _ _ [1%positive] []); [|constructor].
  eapply rep_slice; [exact Hh|simpl; lia|]. cbn.
  apply reps_flat; [|constructor]. apply rep_struct; [reflexivity|]. cbn.
  do 2 (apply reps_flat; [constructor|]). constructor.
Qed.

(** [status := deployment.Status] in updateStatus of the controller is not a
    deep copy: updating a condition in place through [status] changes what
    [deployment.Status] reads. *)
Theorem assigned_status_is_shared :
  assign (sample_status (VSlice 1 0 1)) sample_heap =
    Some (sample_status (VSlice 1 0 1), sample_heap) ∧
  rep sample_heap (sample_status (VSlice 1 0 1)) (sample_tree "False") [1%positive] ∧
  rep (<[1%positive := VArray [sample_condition "True"; zero]]> sample_heap)
    (sample_status (VSlice 1 0 1)) (sample_tree "True") [1%positive].
Proof. split_all; [done|by apply sample_rep|by apply sample_rep]. Qed.

(** ** Deep copies are independent *)

(** C5: for every API type, [DeepCopy] of a pointer to an object terminates
    without a panic and returns an object with the same contents; the memory the
    copy is read through is new and nothing in it is reached twice, so no later
    write to memory outside the copy is seen through the copy, and no later write
    to the memory of the copy is seen through the original.  (The metadata types
    of apimachinery are assumed to have such deep copies.) *)
Theorem deep_copy_independent `{LibraryTypesLaws} `{MapRange} name T DeepCopy h v t L
    (Hapi : (name, (T, DeepCopy)) ∈ api_types)
    (Hrep : rep h v t L) (Htype : Tptr T t = true) :
  ∃ v' h' L', DeepCopy v h = Some (v', h') ∧ rep h' v' t L' ∧ NoDup L' ∧
    (∀ h2, (∀ l, l ∈ L' → h2 !! l = h' !! l) → rep h2 v' t L') ∧
    (∀ h2, (∀ l, l ∉ L' → is_Some (h' !! l) → h2 !! l = h' !! l) → rep h2 v t L).
Proof.
  apply (deep_independent (Tptr T)); [|done..].
  by apply (proj1 (Forall_forall _ _) deep_api_types _ Hapi).
Qed.

(** A deployment status in memory and its copy. *)
Lemma deep_copy_independent_witness :
  ∃ v' h' L', DeviceProcessDeploymentStatus_DeepCopy (VPtr 2) sample_heap = Some (v', h') ∧
    rep h' v' (TPtr (sample_tree "False")) L' ∧ NoDup L' ∧
    (∀ h2, (∀ l, l ∈ L' → h2 !! l = h' !! l) → rep h2 v' (TPtr (sample_tree "False")) L') ∧
    (∀ h2, (∀ l, l ∉ L' → is_Some (h' !! l) → h2 !! l = h' !! l) →
       rep h2 (VPtr 2) (TPtr (sample_tree "False")) [2%positive; 1%positive]).
Proof.
  apply (@deep_copy_independent _ plain_types_laws _ "DeviceProcessDeploymentStatus"
    DeviceProcessDeploymentStatus_t).
  - unfold api_types. do 5 apply list_elem_of_further. apply list_elem_of_here.
  - eapply rep_ptr; [reflexivity|]. by apply sample_rep.
  - vm_compute. reflexivity.
Defined.

(** [DeepCopyObject] of the registered types returns the nil interface for a
    nil pointer, and otherwise an interface that holds a non-nil deep copy of the
    same type: never an interface that is not nil and holds a nil pointer. *)
Theorem deep_copy_object_never_typed_nil `{LibraryTypesLaws} `{MapRange} name T copy h v t L
    (Hroot : (name, (T, copy)) ∈ root_types)
    (Hrep : rep h v t L) (Htype : Tptr T t = true) :
  (v = VNil ∧ copy v h = Some (None, h)) ∨
  (v ≠ VNil ∧ ∃ v' h' L', copy v h = Some (Some (name, v'), h') ∧ v' ≠ VNil ∧
     rep h' v' t L' ∧ ∀ l, l ∈ L' → h !! l = None).
Proof.
  apply (proj1 (Forall_forall _ _) deep_root_types) in Hroot as (into & E & Hinto).
  cbn [fst snd] in E, Hinto. subst copy. by apply (deep_object T into name h v t L).
Qed.

(** A pointer to a list without items. *)
Lemma deep_copy_object_never_typed_nil_witness :
  let v := VStruct [("TypeMeta", VStruct [("Kind", VStr "DeviceProcessList");
                      ("APIVersion", VStr "azure.com/v1alpha1")]);
                    ("ListMeta", VStruct [("ResourceVersion", VStr "7")]); ("Items", VNil)] in
  let t := TStruct [("TypeMeta", TStruct [("Kind", TStr "DeviceProcessList");
                      ("APIVersion", TStr "azure.com/v1alpha1")]);
                    ("ListMeta", TStruct [("ResourceVersion", TStr "7")]); ("Items", TNil)] in
  let h : heap := {[ 1%positive := v ]} in
  (VPtr 1 = VNil ∧ DeviceProcessList_DeepCopyObject (VPtr 1) h = Some (None, h)) ∨
  (VPtr 1 ≠ VNil ∧ ∃ v' h' L',
     DeviceProcessList_DeepCopyObject (VPtr 1) h = Some (Some ("DeviceProcessList", v'), h') ∧
     v' ≠ VNil ∧ rep h' v' (TPtr t) L' ∧ ∀ l, l ∈ L' → h !! l = None).
Proof.
  intros v t h.
  apply (@deep_copy_object_never_typed_nil _ plain_types_laws _ "DeviceProcessList"
    DeviceProcessList_t _ h (VPtr 1) (TPtr t) [1%positive]).
  - unfold root_types. apply list_elem_of_further, list_elem_of_here.
  - apply (rep_ptr _ _ v); [reflexivity|].
    repeat first [apply rep_struct; [reflexivity|]; cbn | apply reps_flat | constructor].
  - vm_compute. reflexivity.
Defined.
