(* ===== verification/SpecHash.v ===== *)
(** * Spec hashes (gateway/server.go hashSpec)

    A spec is hashed through its JSON encoding.  [json.Marshal] prints the
    struct fields in their order, omits the empty ones tagged [omitempty] and
    escapes strings for HTML; the result is hashed with SHA-256. *)

From S2P Require Import Prelude GoStrings GoCrypto GoJson Api.

(** ** The encoding of the spec types *)

Definition json_DeviceRef (r : DeviceRef) : json :=
  JObject ([("kind", JString (dr_Kind r)); ("name", JString (dr_Name r))] ++
           omit_string "namespace" (dr_Namespace r)).

Definition json_Artifact (a : DeviceProcessArtifact) : json :=
  JObject ([("type", JString (art_Type a)); ("url", JString (art_URL a))] ++
           omit_string "checksumSHA256" (art_ChecksumSHA256 a)).

Definition json_EnvVar (v : DeviceProcessEnvVar) : json :=
  JObject ([("name", JString (ev_Name v))] ++ omit_string "value" (ev_Value v)).

Definition json_Execution (e : DeviceProcessExecution) : json :=
  JObject ([("backend", JString (ex_Backend e)); ("command", json_slice (ex_Command e))] ++
           omit_list "args" JString (ex_Args e) ++
           omit_list "env" json_EnvVar (ex_Env e) ++
           omit_string "workingDir" (ex_WorkingDir e) ++
           omit_string "user" (ex_User e)).

Definition json_HealthCheck (h : DeviceProcessHealthCheck) : json :=
  JObject ([("exec", JObject [("command", json_slice (hc_Exec_Command h))])] ++
           omit_number "periodSeconds" (hc_PeriodSeconds h) ++
           omit_number "timeoutSeconds" (hc_TimeoutSeconds h) ++
           omit_number "successThreshold" (hc_SuccessThreshold h) ++
           omit_number "failureThreshold" (hc_FailureThreshold h)).

Definition json_Spec (s : DeviceProcessSpec) : json :=
  JObject ([("deviceRef", json_DeviceRef (sp_DeviceRef s));
            ("artifact", json_Artifact (sp_Artifact s));
            ("execution", json_Execution (sp_Execution s))] ++
           omit_string "restartPolicy" (sp_RestartPolicy s) ++
           match sp_HealthCheck s with
           | None => []
           | Some h => [("healthCheck", json_HealthCheck h)]
           end).

(** [json.Marshal(spec)]. *)
Definition marshal_spec (s : DeviceProcessSpec) : string := print_json (json_Spec s).

Definition hashSpec (spec : DeviceProcessSpec) : string :=
  "sha256:" +:+ hex (sha256 (marshal_spec spec)).

Example marshal_ex :
  ReplaceAll dquote "'" (marshal_spec (mkSpec (mkDeviceRef "Server" "d<1>" "")
    (mkArtifact "file" "/bin/true" "") (mkExecution "systemd" ["/bin/true"; "-x"] [] [mkEnvVar "A" ""] "" "")
    "Never" (Some (mkHealthCheck ["c"] 30 0 0 3)))) =
  "{'deviceRef':{'kind':'Server','name':'d\u003c1\u003e'},'artifact':{'type':'file','url':'/bin/true'},'execution':{'backend':'systemd','command':['/bin/true','-x'],'env':[{'name':'A'}]},'restartPolicy':'Never','healthCheck':{'exec':{'command':['c']},'periodSeconds':30,'failureThreshold':3}}".
Proof. vm_compute. reflexivity. Qed.

(** A spec hash is the prefix and 64 hexadecimal digits; it is never empty. *)
Lemma length_hashSpec spec : String.length (hashSpec spec) = 71%nat.
Proof. unfold hashSpec. by rewrite length_app_s, length_hex, length_sha256. Qed.

Lemma hashSpec_nonempty spec : hashSpec spec ≠ "".
Proof. intros H. by apply (f_equal String.length) in H. Qed.

(** It contains neither of the separators of the desired-state digest. *)
Lemma hashSpec_alphabet spec :
  all_bytes (λ c, is_hex c || Ascii.eqb c "s" || Ascii.eqb c "h" || Ascii.eqb c ":") (hashSpec spec) = true.
Proof.
  unfold hashSpec. rewrite all_bytes_app. apply andb_true_iff. split; [done|].
  eapply all_bytes_impl; [|apply hex_alphabet]. intros c Hc. simpl. by rewrite Hc.
Qed.
