(* ===== verification/GoStrconv.v ===== *)
(** * Go's [strconv] package: [ParseInt] and [Quote] *)

From S2P Require Import Prelude GoStrings GoTime GoCrypto GoJson.

Definition max_uint64 : Z := 2 ^ 64 - 1.

(** [strconv.ParseUint(s, 10, 64)] after [acc]: [None] is a syntax error; a
    number that is out of range ends the scan with the largest one. *)
Fixpoint parse_uint_from (acc : Z) (s : string) : option Z :=
  match s with
  | EmptyString => Some acc
  | String c r =>
      if is_digit c then
        let n := acc * 10 + digit_val c in
        if max_uint64 <? n then Some max_uint64 else parse_uint_from n r
      else None
  end.

Definition parse_uint (s : string) : option Z :=
  if String.eqb s "" then None else parse_uint_from 0 s.

(** The number [strconv.ParseInt(s, 10, 64)] returns, whatever its error: 0
    for a syntax error and the nearest limit for a number out of range. *)
Definition parse_int (s : string) : Z :=
  let '(neg, digits) :=
    match s with
    | String c r => if code c =? 45 then (true, r) else if code c =? 43 then (false, r) else (false, s)
    | EmptyString => (false, s)
    end in
  match parse_uint digits with
  | None => 0
  | Some un => if neg then Z.max (- un) min_int64 else Z.min un max_int64
  end.

Example parse_int_ex :
  (parse_int "4321", parse_int "-7", parse_int "+5", parse_int "", parse_int "12x",
   parse_int "99999999999999999999") = (4321, -7, 5, 0, 0, max_int64).
Proof. vm_compute. reflexivity. Qed.

(** ** [strconv.ParseInt(s, 0, 64)]

    The base is read from the prefix, and underscores may separate digits. *)

Inductive NumError := SyntaxError | RangeError.

Definition lower (c : ascii) : Z := Z.lor (code c) 32.

Definition base_digit (c : ascii) : option Z :=
  if is_digit c then Some (digit_val c)
  else if (97 <=? lower c) && (lower c <=? 122) then Some (lower c - 97 + 10)
  else None.

(** The digits after [acc]; the answer also tells whether there were
    underscores. *)
Fixpoint base_digits (base acc : Z) (under : bool) (s : string) : result NumError (Z * bool) :=
  match s with
  | EmptyString => Ok (acc, under)
  | String c r =>
      if code c =? 95 then base_digits base acc true r
      else match base_digit c with
           | None => Err SyntaxError
           | Some d =>
               if base <=? d then Err SyntaxError
               else if max_uint64 <? acc * base + d then Err RangeError
               else base_digits base (acc * base + d) under r
           end
  end.

(** The base and the digits behind its prefix. *)
Definition base_prefix (s : string) : Z * string :=
  match s with
  | String z (String b (String c r)) =>
      if negb (code z =? 48) then (10, s)
      else if lower b =? 98 then (2, String c r)
      else if lower b =? 111 then (8, String c r)
      else if lower b =? 120 then (16, String c r)
      else (8, String b (String c r))
  | String z r => if code z =? 48 then (8, r) else (10, s)
  | EmptyString => (10, s)
  end.

(** [underscoreOK]: an underscore stands between digits, or between the base
    prefix and a digit.  What was seen last is a digit (or the prefix), an
    underscore, or something else. *)
Inductive Saw := SawDigit | SawUnderscore | SawOther.

Fixpoint underscores_ok (hexa : bool) (saw : Saw) (s : string) : bool :=
  match s with
  | EmptyString => match saw with SawUnderscore => false | _ => true end
  | String c r =>
      if is_digit c || (hexa && ((97 <=? lower c) && (lower c <=? 102)))
      then underscores_ok hexa SawDigit r
      else if code c =? 95
      then match saw with SawDigit => underscores_ok hexa SawUnderscore r | _ => false end
      else match saw with SawUnderscore => false | _ => underscores_ok hexa SawOther r end
  end.

Definition underscoreOK (s : string) : bool :=
  match s with
  | String z (String b r) =>
      if (code z =? 48) && ((lower b =? 98) || (lower b =? 111) || (lower b =? 120))
      then underscores_ok (lower b =? 120) SawDigit r
      else underscores_ok false SawOther s
  | _ => underscores_ok false SawOther s
  end.

Definition parse_uint0 (s : string) : result NumError Z :=
  if String.eqb s "" then Err SyntaxError
  else
    let '(base, digits) := base_prefix s in
    match base_digits base 0 false digits with
    | Err e => Err e
    | Ok (n, under) => if under && negb (underscoreOK s) then Err SyntaxError else Ok n
    end.

Definition ParseInt0 (s : string) : result NumError Z :=
  let '(neg, digits) :=
    match s with
    | String c r => if code c =? 45 then (true, r) else if code c =? 43 then (false, r) else (false, s)
    | EmptyString => (false, s)
    end in
  match parse_uint0 digits with
  | Err e => Err e
  | Ok un =>
      if negb neg && (max_int64 <? un) then Err RangeError
      else if neg && (2 ^ 63 <? un) then Err RangeError
      else Ok (if neg then - un else un)
  end.

Example ParseInt0_ex :
  (ParseInt0 "15", ParseInt0 "-0x1F", ParseInt0 "1_000", ParseInt0 "010", ParseInt0 "0") =
    (Ok 15, Ok (-31), Ok 1000, Ok 8, Ok 0) ∧
  (ParseInt0 "08", ParseInt0 "1__0", ParseInt0 "_1", ParseInt0 "15s", ParseInt0 "9223372036854775808") =
    (Err SyntaxError, Err SyntaxError, Err SyntaxError, Err SyntaxError, Err RangeError).
Proof. vm_compute. split; reflexivity. Qed.

(** The escape of one rune in [strconv.Quote]; [b] is the byte itself when the
    rune is not valid UTF-8. *)
Definition hex2 (z : Z) : string := String (hex_digit (z / 16)) (str1 (hex_digit (z mod 16))).

Definition quote_rune `{Unicode} (r : Z) : string :=
  if r =? 34 then escape dquote
  else if r =? 92 then escape backslash
  else if is_print r then encode_rune r
  else if r =? 7 then escape "a"%char
  else if r =? 8 then escape "b"%char
  else if r =? 12 then escape "f"%char
  else if r =? 10 then escape "n"%char
  else if r =? 13 then escape "r"%char
  else if r =? 9 then escape "t"%char
  else if r =? 11 then escape "v"%char
  else if (r <? 32) || (r =? 127) then String backslash (String "x" (hex2 r))
  else if r <? 65536 then String backslash (String "u" (hex4 r))
  else String backslash (String "U" (hex4 (r / 65536) +:+ hex4 (r mod 65536))).

(** One rune after the other; every step consumes a byte, so the length of the
    string is enough fuel. *)
Fixpoint quote_runes `{Unicode} (fuel : nat) (s : string) : string :=
  match fuel, s with
  | S n, String c rest =>
      match decode s with
      | Some r :: _ => quote_rune r +:+ quote_runes n (drop_bytes (String.length (encode_rune r)) s)
      | _ => String backslash (String "x" (hex2 (code c))) +:+ quote_runes n rest
      end
  | _, _ => ""
  end.

(** [strconv.Quote(s)], the verb [%q]. *)
Definition Quote `{Unicode} (s : string) : string :=
  str1 dquote +:+ quote_runes (String.length s) s +:+ str1 dquote.

Example quote_ex :
  @Quote ascii_unicode (String "a" (String dquote (String newline (str1 (byte 255))))) =
  String dquote ("a\" +:+ str1 dquote +:+ "\n\xff" +:+ str1 dquote).
Proof. vm_compute. reflexivity. Qed.
