(* ===== verification/GoFlag.v ===== *)
(** * Go's [flag] package: parsing a command line

    [flag.Parse] on the flags a program registers: strings, integers, and flags
    of the libraries it links, of which only whether they are boolean and which
    values they accept matters. *)

From S2P Require Import Prelude GoStrings GoTime GoJson GoJsonFacts GoStrconv.

Inductive FlagKind :=
  | FString
  | FInt
  | FOther (is_bool : bool) (accepts : string → bool).

Inductive FlagValue :=
  | VString (s : string)
  | VInt (z : Z).

#[export] Instance FlagValue_eq_dec : EqDecision FlagValue.
Proof. solve_decision. Defined.

Inductive FlagError :=
  | ErrHelp
  | BadSyntax (arg : string)
  | NotDefined (name : string)
  | NeedsArgument (name : string)
  | InvalidValue (value name : string).

Abbreviation Values := (gmap string FlagValue).

(** What an argument is to [parseOne]. *)
Inductive Token :=
  | Positional
  | Terminator
  | Malformed
  | NamedFlag (name : string) (value : option string).

(** The name and value of [name=value]; the first byte is not an equals sign. *)
Definition split_flag (s : string) : Token :=
  match s with
  | EmptyString => Malformed
  | String c r =>
      if Ascii.eqb c dash || Ascii.eqb c "="%char then Malformed
      else NamedFlag (String c (before_byte "="%char r)) (after_byte "="%char r)
  end.

Definition token (s : string) : Token :=
  match s with
  | String c (String d r) =>
      if negb (Ascii.eqb c dash) then Positional
      else if negb (Ascii.eqb d dash) then split_flag (String d r)
      else if String.eqb r "" then Terminator
      else split_flag r
  | _ => Positional
  end.

(** [flag.Value.Set]; [None] is an error. *)
Definition set_flag (kind : FlagKind) (name v : string) (vals : Values) : option Values :=
  match kind with
  | FString => Some (<[name := VString v]> vals)
  | FInt => match ParseInt0 v with Ok z => Some (<[name := VInt z]> vals) | Err _ => None end
  | FOther _ accepts => if accepts v then Some vals else None
  end.

Definition is_bool_flag (kind : FlagKind) : bool :=
  match kind with FOther b _ => b | _ => false end.

Section parse.
Context (formal : gmap string FlagKind).

(** [FlagSet.Parse]: the values and the arguments that are left. *)
Fixpoint parse_flags (args : list string) (vals : Values) : result FlagError (Values * list string) :=
  match args with
  | [] => Ok (vals, [])
  | s :: rest =>
      match token s with
      | Positional => Ok (vals, args)
      | Terminator => Ok (vals, rest)
      | Malformed => Err (BadSyntax s)
      | NamedFlag name value =>
          match formal !! name with
          | None => Err (if String.eqb name "help" || String.eqb name "h" then ErrHelp else NotDefined name)
          | Some kind =>
              match value with
              | Some v =>
                  match set_flag kind name v vals with
                  | Some vals' => parse_flags rest vals'
                  | None => Err (InvalidValue v name)
                  end
              | None =>
                  if is_bool_flag kind then
                    match set_flag kind name "true" vals with
                    | Some vals' => parse_flags rest vals'
                    | None => Err (InvalidValue "true" name)
                    end
                  else
                    match rest with
                    | [] => Err (NeedsArgument name)
                    | v :: rest' =>
                        match set_flag kind name v vals with
                        | Some vals' => parse_flags rest' vals'
                        | None => Err (InvalidValue v name)
                        end
                    end
              end
          end
      end
  end.
End parse.

(** The status [flag.ExitOnError] ends the program with. *)
Definition flag_exit (e : FlagError) : Z := match e with ErrHelp => 0 | _ => 2 end.

Definition string_flag (vals : Values) (name : string) : string :=
  match vals !! name with Some (VString s) => s | _ => "" end.

Definition int_flag (vals : Values) (name : string) : Z :=
  match vals !! name with Some (VInt z) => z | _ => 0 end.

(** ** Facts *)

(** Decimal digits that stay in range. *)
Lemma dec_val_mono acc s : 0 ≤ acc → all_bytes is_digit s = true → acc ≤ dec_val acc s.
Proof.
  revert acc. induction s as [|c s IH]; intros acc Ha Hs; [done|]. cbn [all_bytes] in Hs.
  apply andb_true_iff in Hs as [Hc Hs]. cbn [dec_val].
  unfold is_digit in Hc. bool_prop. unfold digit_val. specialize (IH (acc * 10 + (code c - 48)) ltac:(lia) Hs). lia.
Qed.

Lemma base_digits_dec acc s :
  0 ≤ acc → all_bytes is_digit s = true → dec_val acc s ≤ max_uint64 →
  base_digits 10 acc false s = Ok (dec_val acc s, false).
Proof.
  revert acc. induction s as [|c s IH]; intros acc Ha Hs Hm; [done|]. cbn [all_bytes] in Hs.
  apply andb_true_iff in Hs as [Hc Hs]. cbn [dec_val base_digits] in *. unfold base_digit. rewrite Hc.
  unfold is_digit in Hc. bool_prop. unfold digit_val in *.
  pose proof (dec_val_mono (acc * 10 + (code c - 48)) s ltac:(lia) Hs).
  destruct (Z.eqb_spec (code c) 95); [lia|]. destruct (Z.leb_spec 10 (code c - 48)); [lia|].
  destruct (Z.ltb_spec max_uint64 (acc * 10 + (code c - 48))); [lia|]. apply IH; [lia|done|done].
Qed.

Lemma parse_uint0_pretty (p : positive) : Z.pos p ≤ max_uint64 → parse_uint0 (pretty p) = Ok (Z.pos p).
Proof.
  intros Hp. pose proof (dec_val_positive p) as Hv.
  assert (pretty p = pretty_N_go (N.pos p) "") as E
    by (unfold pretty, pretty_positive, pretty, pretty_N; by rewrite decide_False).
  pose proof (pretty_digits (N.pos p)) as Hd. destruct (pretty_head (N.pos p) "" eq_refl) as (c & t & Et & Hc & Hz).
  rewrite <-E in Et, Hd. rewrite Et in *.
  assert (base_prefix (String c t) = (10, String c t)) as Hb.
  { assert ((code c =? 48) = false) as Hn.
    { apply Z.eqb_neq. intros Hc0. apply Hz. apply (code_inj c "0"). exact Hc0. }
    unfold base_prefix. rewrite Hn. by destruct t as [|? [|? ?]]. }
  unfold parse_uint0. cbn [String.eqb]. rewrite Hb, base_digits_dec by (done || lia). by rewrite Hv.
Qed.

(** A printed number is read back. *)
Lemma ParseInt0_pretty (z : Z) : min_int64 ≤ z ≤ max_int64 → ParseInt0 (pretty z) = Ok z.
Proof.
  intros Hz. unfold ParseInt0. destruct z as [|p|p]; [done| |].
  - change (pretty (Z.pos p)) with (pretty p).
    assert (∃ c t, pretty p = String c t ∧ is_digit c = true) as (c & t & E & Hc).
    { assert (pretty p = pretty_N_go (N.pos p) "") as ->
        by (unfold pretty, pretty_positive, pretty, pretty_N; by rewrite decide_False).
      destruct (pretty_head (N.pos p) "" eq_refl) as (c & t & E & Hc & _). eauto. }
    unfold is_digit in Hc. bool_prop. rewrite E. cbv beta iota.
    destruct (Z.eqb_spec (code c) 45); [lia|]. destruct (Z.eqb_spec (code c) 43); [lia|].
    cbv beta iota. rewrite <-E, parse_uint0_pretty by (unfold max_uint64, max_int64 in *; lia).
    cbn [negb andb]. by destruct (Z.ltb_spec max_int64 (Z.pos p)); [lia|].
  - change (pretty (Z.neg p)) with (String dash (pretty p)).
    cbv beta iota. change (code dash =? 45) with true. cbv beta iota.
    rewrite parse_uint0_pretty by (unfold max_uint64, min_int64 in *; lia). cbn [negb andb].
    destruct (Z.ltb_spec (2 ^ 63) (Z.pos p)) as [Hlt|]; [unfold min_int64 in Hz; lia|done].
Qed.

(** An argument that sets a flag. *)
Definition flag_arg (nv : string * string) : string := "--" +:+ nv.1 +:+ "=" +:+ nv.2.

(** A name the parser can read back. *)
Definition flag_name (n : string) : Prop :=
  n ≠ "" ∧ HasPrefix n "-" = false ∧ lacks "="%char n = true.

Lemma token_flag_arg n v : flag_name n → token (flag_arg (n, v)) = NamedFlag n (Some v).
Proof.
  intros (Hn & Hd & He). unfold flag_arg. cbn [fst snd].
  destruct n as [|c r]; [done|]. change ("--" +:+ String c r +:+ "=" +:+ v) with
    (String dash (String dash (String c (r +:+ String "=" v)))).
  unfold token. cbn [negb]. rewrite !Ascii.eqb_refl. cbn [negb String.eqb].
  unfold split_flag. unfold lacks in He. cbn [all_bytes] in He. apply andb_true_iff in He as [Hc Hr].
  assert (Ascii.eqb c dash = false) as ->.
  { rewrite Ascii.eqb_sym. clear -Hd. by destruct r; simpl in Hd; rewrite andb_true_r in Hd. }
  apply negb_true_iff in Hc. rewrite Ascii.eqb_sym, Hc. cbn [orb].
  by rewrite before_byte_app, after_byte_app.
Qed.

(** Setting flags one by one. *)
Definition set_all (formal : gmap string FlagKind) (l : list (string * string)) (vals : Values) : option Values :=
  foldl (λ o nv, vals ← o; kind ← formal !! nv.1; set_flag kind nv.1 nv.2 vals) (Some vals) l.

Lemma set_all_none (formal : gmap string FlagKind) (l : list (string * string)) :
  foldl (λ o nv, vals ← o; kind ← formal !! nv.1; set_flag kind nv.1 nv.2 vals) None l = None.
Proof. by induction l. Qed.

(** A command line of [--name=value] arguments sets them in order, and what
    follows it is parsed from there. *)
Lemma parse_flag_args formal l rest vals vals' :
  Forall (λ nv, flag_name nv.1) l → set_all formal l vals = Some vals' →
  parse_flags formal ((flag_arg <$> l) ++ rest) vals = parse_flags formal rest vals'.
Proof.
  unfold set_all. intros Hl. revert vals. induction Hl as [|[n v] l Hn Hl IH]; intros vals Hs; [by simplify_eq/=|].
  cbn [fmap list_fmap app parse_flags foldl] in *. rewrite token_flag_arg by done. cbn [fst snd mbind option_bind] in Hs.
  destruct (formal !! n) as [kind|]; cbn [mbind option_bind] in Hs; [|by rewrite set_all_none in Hs].
  destruct (set_flag kind n v vals) as [vals1|]; [by apply IH|by rewrite set_all_none in Hs].
Qed.
