(* ===== verification/GoPath.v ===== *)
(** * Slash-separated paths: Go's [path/filepath] on Unix

    [Clean], [Join], [IsAbs] and [Abs], executable, with the normal form of a
    cleaned path. *)

From S2P Require Import Prelude GoStrings.

(** One component of a path against the components kept so far, last first. *)
Definition clean_step (rooted : bool) (out : list string) (c : string) : list string :=
  if String.eqb c "" || String.eqb c "." then out
  else if String.eqb c ".." then
    match out with
    | top :: rest => if String.eqb top ".." then c :: out else rest
    | [] => if rooted then [] else [c]
    end
  else c :: out.

Definition IsAbs (p : string) : bool := HasPrefix p (str1 slash).

Definition clean_parts (p : string) : list string :=
  rev (foldl (clean_step (IsAbs p)) [] (Split slash p)).

Definition print_path (rooted : bool) (parts : list string) : string :=
  if rooted then String slash (Join (str1 slash) parts)
  else match parts with [] => "." | _ => Join (str1 slash) parts end.

Definition Clean (p : string) : string := print_path (IsAbs p) (clean_parts p).

(** [filepath.Join(a, b)]. *)
Definition JoinPath (a b : string) : string :=
  if negb (String.eqb a "") then Clean (a +:+ str1 slash +:+ b)
  else if negb (String.eqb b "") then Clean b else "".

(** [filepath.Abs] in the working directory [cwd]. *)
Definition Abs (cwd p : string) : string := if IsAbs p then Clean p else JoinPath cwd p.

(** The path up to and including its last slash. *)
Definition up_to_slash (p : string) : string :=
  match rev (Split slash p) with
  | _ :: (_ :: _) as dirs => Join (str1 slash) (rev dirs) +:+ str1 slash
  | _ => ""
  end.

(** [filepath.Dir]. *)
Definition Dir (p : string) : string := Clean (up_to_slash p).

Example dir_ex : (Dir "/etc/x/y.env", Dir "x", Dir "/x", Dir "a/b/") = ("/etc/x", ".", "/", "a/b").
Proof. vm_compute. reflexivity. Qed.

Example clean_ex :
  (Clean "a/./b/../c//", Clean "../../x", Clean "/../x/", Clean "", Clean "/", JoinPath "/r" "bin/x") =
  ("a/c", "../../x", "/x", ".", "/", "/r/bin/x").
Proof. vm_compute. reflexivity. Qed.

(** ** The normal form *)

(** A component that [Clean] keeps in a rooted path. *)
Definition plain_part (c : string) : bool :=
  lacks slash c && negb (String.eqb c "") && negb (String.eqb c ".") && negb (String.eqb c "..").

Lemma clean_step_plain out c :
  Forall (λ x, plain_part x = true) out → lacks slash c = true →
  Forall (λ x, plain_part x = true) (clean_step true out c).
Proof.
  intros Ho Hc. unfold clean_step.
  destruct (String.eqb c "" || String.eqb c ".") eqn:E1; [done|].
  destruct (String.eqb c "..") eqn:E2.
  - destruct Ho as [|top rest Ht Hr]; [done|].
    unfold plain_part in Ht. bool_prop. match goal with H : (top =? "..")%string = false |- _ => rewrite H end.
    done.
  - bool_prop. constructor; [|done]. unfold plain_part. by rewrite Hc, H, H0, E2.
Qed.

Lemma clean_parts_plain p : IsAbs p = true → Forall (λ x, plain_part x = true) (clean_parts p).
Proof.
  intros Ha. unfold clean_parts. rewrite Ha. apply Forall_rev.
  assert (∀ l out, Forall (λ x, plain_part x = true) out → Forall (λ x, lacks slash x = true) l →
    Forall (λ x, plain_part x = true) (foldl (clean_step true) out l)) as Hf.
  { induction l as [|c l IH]; intros out Ho Hl; [done|].
    apply Forall_cons in Hl as [Hc Hl]. simpl. apply IH; [by apply clean_step_plain|done]. }
  apply Hf; [constructor|apply Split_pieces_lack].
Qed.

Lemma foldl_clean_plain rooted l out :
  Forall (λ x, plain_part x = true) l → foldl (clean_step rooted) out l = rev l ++ out.
Proof.
  intros Hl. revert out. induction Hl as [|c l Hc Hl IH]; intros out; [done|]. simpl. rewrite IH.
  unfold plain_part in Hc. bool_prop. unfold clean_step.
  repeat match goal with H : (_ =? _)%string = false |- _ => rewrite H end. simpl.
  by rewrite <-app_assoc.
Qed.

Lemma Clean_abs p : IsAbs p = true → IsAbs (Clean p) = true.
Proof.
  intros Ha. unfold Clean. rewrite Ha. cbn [print_path].
  change (String slash ?t) with (str1 slash +:+ t). apply HasPrefix_app.
Qed.

(** Cleaning an absolute path twice is cleaning it once. *)
Lemma Clean_idempotent p : IsAbs p = true → Clean (Clean p) = Clean p.
Proof.
  intros Ha. unfold Clean at 1. rewrite Clean_abs by done. unfold clean_parts. rewrite Clean_abs by done.
  unfold Clean at 2. rewrite Ha. f_equal.
  assert (Forall (λ x, plain_part x = true) (clean_parts p)) as Hp by (by apply clean_parts_plain).
  unfold Clean. rewrite Ha. cbn [print_path].
  destruct (clean_parts p) as [|c l] eqn:E; [by vm_compute|].
  change (String slash (Join (str1 slash) (c :: l))) with ("" +:+ String slash (Join (str1 slash) (c :: l))).
  rewrite (Split_app slash "" _ eq_refl), Split_Join; [|done|].
  - change (foldl (clean_step true) [] ("" :: c :: l)) with (foldl (clean_step true) [] (c :: l)).
    rewrite foldl_clean_plain by exact Hp. by rewrite app_nil_r, rev_involutive.
  - eapply Forall_impl; [exact Hp|]. intros x Hx. unfold plain_part in Hx. by bool_prop.
Qed.

(** ** Absolute paths by their components *)

Definition abs_path (ps : list string) : string := String slash (Join (str1 slash) ps).

#[local] Abbreviation plain := (λ x, plain_part x = true).

Lemma Join_app sep l1 l2 : l1 ≠ [] → l2 ≠ [] → Join sep (l1 ++ l2) = Join sep l1 +:+ sep +:+ Join sep l2.
Proof.
  induction l1 as [|x l1 IH]; [done|]. intros _ H2. destruct l1 as [|y l1]; [by apply Join_cons|].
  change ((x :: y :: l1) ++ l2) with (x :: ((y :: l1) ++ l2)).
  rewrite !Join_cons by (by destruct l2). by rewrite IH, !app_assoc_s.
Qed.

Lemma plain_part_lacks c : plain_part c = true → lacks slash c = true.
Proof. unfold plain_part. intros H. by bool_prop. Qed.

Lemma plain_lacks ps : Forall plain ps → Forall (λ x, lacks slash x = true) ps.
Proof.
  intros Hp. eapply Forall_impl; [exact Hp|]. exact plain_part_lacks.
Qed.

Lemma abs_path_app ds ps : ds ≠ [] → ps ≠ [] →
  abs_path (ds ++ ps) = abs_path ds +:+ "/" +:+ Join (str1 slash) ps.
Proof. intros Hd Hp. unfold abs_path. by rewrite Join_app. Qed.

Lemma abs_path_IsAbs ps : IsAbs (abs_path ps) = true.
Proof. unfold abs_path. change (String slash ?t) with (str1 slash +:+ t). apply HasPrefix_app. Qed.

Lemma Split_abs_path ps : ps ≠ [] → Forall plain ps → Split slash (abs_path ps) = "" :: ps.
Proof.
  intros Hne Hp. unfold abs_path. change (String slash ?t) with ("" +:+ String slash t).
  rewrite (Split_app slash "" _ eq_refl), Split_Join; [done|done|by apply plain_lacks].
Qed.

Lemma abs_path_inj ps qs : ps ≠ [] → qs ≠ [] → Forall plain ps → Forall plain qs →
  abs_path ps = abs_path qs → ps = qs.
Proof.
  intros ???? E. apply (f_equal (Split slash)) in E. rewrite !Split_abs_path in E by done. by injection E.
Qed.

Lemma Clean_abs_path ps : Forall plain ps → Clean (abs_path ps) = abs_path ps.
Proof.
  intros Hp. unfold Clean, clean_parts. rewrite abs_path_IsAbs. cbn [print_path]. unfold abs_path at 2.
  destruct ps as [|p ps]; [reflexivity|]. rewrite Split_abs_path by done.
  change (foldl (clean_step true) [] ("" :: p :: ps)) with (foldl (clean_step true) [] (p :: ps)).
  by rewrite foldl_clean_plain, app_nil_r, rev_involutive.
Qed.

Lemma JoinPath_abs ds ps : ds ≠ [] → ps ≠ [] → Forall plain ds → Forall plain ps →
  JoinPath (abs_path ds) (Join (str1 slash) ps) = abs_path (ds ++ ps).
Proof.
  intros Hd Hp Hds Hps. unfold JoinPath. change (String.eqb (abs_path ds) "") with false. cbn [negb].
  change (Clean (abs_path ds +:+ "/" +:+ Join (str1 slash) ps) = abs_path (ds ++ ps)).
  rewrite <-abs_path_app by done.
  apply Clean_abs_path. by apply Forall_app.
Qed.

Lemma JoinPath_component dir parts base :
  dir = abs_path parts → parts ≠ [] → Forall plain parts → plain_part base = true →
  JoinPath dir base = dir +:+ "/" +:+ base.
Proof.
  intros -> Hne Hp Hb. change base with (Join (str1 slash) [base]) at 1.
  rewrite JoinPath_abs; [by rewrite abs_path_app|done|done|done|by apply Forall_singleton].
Qed.

Lemma up_to_slash_component d b : lacks slash b = true → up_to_slash (d +:+ "/" +:+ b) = d +:+ "/".
Proof.
  intros Hb. unfold up_to_slash. change ("/" +:+ b) with (String slash b).
  rewrite Split_app_all, (Split_lacks _ _ Hb), rev_app_distr. cbn [rev app].
  destruct (rev (Split slash d)) as [|x l] eqn:E.
  - apply (f_equal (@rev string)) in E. rewrite rev_involutive in E. by apply Split_nonempty in E.
  - rewrite <-E, rev_involutive, Join_Split. done.
Qed.

Lemma Dir_abs_path ds c : Forall plain (ds ++ [c]) → Dir (abs_path (ds ++ [c])) = abs_path ds.
Proof.
  intros Hp. apply Forall_app in Hp as [Hds Hc]. rewrite Forall_singleton in Hc.
  pose proof (plain_part_lacks c Hc) as Hl.
  destruct ds as [|d ds].
  - unfold Dir. change (abs_path ([] ++ [c])) with ("" +:+ "/" +:+ c).
    rewrite up_to_slash_component by done. reflexivity.
  - unfold Dir. rewrite abs_path_app by done. change (Join (str1 slash) [c]) with c.
    rewrite up_to_slash_component by done. unfold Clean, clean_parts.
    assert (IsAbs (abs_path (d :: ds) +:+ "/") = true) as ->.
    { unfold abs_path. change (String slash ?t +:+ "/") with (str1 slash +:+ t +:+ "/"). apply HasPrefix_app. }
    change ("/") with (String slash ""). rewrite Split_app_all, Split_abs_path by done.
    cbn [print_path]. unfold abs_path. f_equal. f_equal.
    rewrite foldl_app.
    change (foldl (clean_step true) [] ("" :: d :: ds)) with (foldl (clean_step true) [] (d :: ds)).
    rewrite (foldl_clean_plain true (d :: ds)) by exact Hds. cbn [foldl Split]. rewrite app_nil_r.
    change (clean_step true (rev (d :: ds)) "") with (rev (d :: ds)). by rewrite rev_involutive.
Qed.

(** [p] is [d] or below it. *)
Definition below (d p : string) : Prop := HasPrefix p (d +:+ "/") = true.
Definition within (d p : string) : Prop := p = d ∨ below d p.

Lemma within_app d p : within d p ↔ ∃ t, p = d +:+ t ∧ (t = "" ∨ HasPrefix t "/" = true).
Proof.
  unfold within, below. rewrite HasPrefix_spec. split.
  - intros [->|[t ->]].
    + exists "". split; [by rewrite app_empty_r|by left].
    + exists ("/" +:+ t). split; [by rewrite app_assoc_s|right; apply HasPrefix_app].
  - intros (t & -> & [->|Ht]); [left; apply app_empty_r|right].
    apply HasPrefix_spec in Ht as [u ->]. exists u. by rewrite app_assoc_s.
Qed.

Lemma below_app d t : below d (d +:+ "/" +:+ t).
Proof. unfold below. rewrite <-app_assoc_s. apply HasPrefix_app. Qed.

Lemma within_trans a b c : within a b → within b c → within a c.
Proof.
  rewrite !within_app. intros (t & -> & Ht) (u & -> & Hu). exists (t +:+ u). rewrite app_assoc_s.
  split; [done|]. destruct Ht as [->|Ht]; [exact Hu|right].
  apply HasPrefix_spec in Ht as [x ->]. rewrite app_assoc_s. apply HasPrefix_app.
Qed.

Lemma below_abs_path ds ps : ds ≠ [] → ps ≠ [] → Forall plain ds → Forall plain ps →
  below (abs_path ds) (abs_path ps) ↔ ∃ rest, rest ≠ [] ∧ ps = ds ++ rest.
Proof.
  intros Hd Hp Hds Hps. unfold below. rewrite HasPrefix_spec. split.
  - intros [t E]. apply (f_equal (Split slash)) in E. rewrite Split_abs_path, app_assoc_s in E by done.
    change ("/" +:+ t) with (String slash t) in E. rewrite Split_app_all, Split_abs_path in E by done.
    injection E as ->. exists (Split slash t). split; [apply Split_nonempty|done].
  - intros (rest & Hr & ->). exists (Join (str1 slash) rest). by rewrite abs_path_app, app_assoc_s.
Qed.

Lemma within_abs_path ds ps : ds ≠ [] → ps ≠ [] → Forall plain ds → Forall plain ps →
  within (abs_path ds) (abs_path ps) ↔ ∃ rest, ps = ds ++ rest.
Proof.
  intros Hd Hp Hds Hps. unfold within. rewrite below_abs_path by done. split.
  - intros [E|(rest & _ & E)]; [|by exists rest]. apply abs_path_inj in E; [|done..].
    exists []. by rewrite app_nil_r.
  - intros [[|r rest] E]; [left; by rewrite E, app_nil_r|right]. by exists (r :: rest).
Qed.

(** ** Relative paths

    A cleaned relative path climbs first and descends then, so one that does
    not start with two dots stays below the directory it is joined to. *)

Lemma clean_step_relative k xs c : Forall plain xs → lacks slash c = true →
  ∃ k' xs', Forall plain xs' ∧ clean_step false (xs ++ replicate k "..") c = xs' ++ replicate k' "..".
Proof.
  intros Hx Hc. unfold clean_step. destruct (String.eqb c "" || String.eqb c ".") eqn:E1; [by exists k, xs|].
  destruct (String.eqb_spec c "..") as [->|E2].
  - destruct Hx as [|x xs Hx Hxs].
    + exists (Datatypes.S k), []. split; [done|]. by destruct k.
    + exists k, xs. split; [done|]. cbn. unfold plain_part in Hx. bool_prop.
      by match goal with H : (x =? "..")%string = false |- _ => rewrite H end.
  - exists k, (c :: xs). split; [|done]. constructor; [|done]. unfold plain_part. bool_prop.
    apply String.eqb_neq in E2. by rewrite Hc, H, H0, E2.
Qed.

Lemma clean_parts_relative p : IsAbs p = false →
  ∃ k ps, Forall plain ps ∧ clean_parts p = replicate k ".." ++ ps.
Proof.
  intros Ha. unfold clean_parts. rewrite Ha.
  assert (∀ l k xs, Forall plain xs → Forall (λ x, lacks slash x = true) l → ∃ k' xs', Forall plain xs' ∧
    foldl (clean_step false) (xs ++ replicate k "..") l = xs' ++ replicate k' "..") as Hf.
  { induction l as [|c l IH]; intros k xs Hx Hl; [by exists k, xs|]. apply Forall_cons in Hl as [Hc Hl].
    destruct (clean_step_relative k xs c Hx Hc) as (k' & xs' & Hx' & E). cbn [foldl]. rewrite E. by apply IH. }
  destruct (Hf (Split slash p) 0%nat [] (Forall_nil_2 _) (Split_pieces_lack _ _)) as (k & xs & Hx & E).
  cbn [replicate app] in E. rewrite E. exists k, (rev xs). split; [by apply Forall_rev|].
  rewrite rev_app_distr. f_equal. rewrite rev_alt. apply reverse_replicate.
Qed.

Lemma Clean_relative p : let name := Clean p in
  IsAbs name = false → HasPrefix name ".." = false → name ≠ "." →
  ∃ ps, ps ≠ [] ∧ Forall plain ps ∧ name = Join (str1 slash) ps.
Proof.
  intros name Ha Hup Hdot. assert (IsAbs p = false) as Hp.
  { destruct (IsAbs p) eqn:E; [|done]. apply Clean_abs in E. unfold name in Ha. congruence. }
  destruct (clean_parts_relative p Hp) as (k & ps & Hps & E).
  unfold name, Clean in Hup, Hdot |- *. rewrite Hp in Hup, Hdot |- *. unfold print_path in Hup, Hdot |- *.
  rewrite E in Hup, Hdot |- *. destruct k as [|k].
  - cbn [replicate app] in Hup, Hdot |- *. destruct ps as [|x ps]; [done|]. by exists (x :: ps).
  - cbn [replicate app] in Hup. destruct (replicate k ".." ++ ps); [done|].
    rewrite Join_cons in Hup by done. by rewrite HasPrefix_app in Hup.
Qed.
