(* ===== verification/Kube.v ===== *)
(** * The Kubernetes API as the gateway uses it

    The controller-runtime client is not part of the repository: it is the
    class [GatewayClient], and [GatewayClientLaws] states what the gateway
    relies on.  Reads may fail or be stale in any way; the laws only say that a
    [Get] returns an object of the key asked for, and what a status patch with
    an optimistic lock does to the stored objects.  [Store] is an instance: a
    map of objects with resource versions and a budget of conflicts. *)

From S2P Require Import Prelude GoStrings Api.

(** [metav1.StatusReason] of the errors the code tells apart. *)
Inductive StatusReason :=
  | NotFound | Conflict | BadRequest | AlreadyExists | NoKindMatch | OtherReason.

#[export] Instance StatusReason_eq_dec : EqDecision StatusReason.
Proof. solve_decision. Defined.

Record ApiError := mkApiError { err_Reason : StatusReason; err_Message : string }.

Definition IsNotFound (e : ApiError) : bool := bool_decide (err_Reason e = NotFound).
Definition IsConflict (e : ApiError) : bool := bool_decide (err_Reason e = Conflict).
Definition IsBadRequest (e : ApiError) : bool := bool_decide (err_Reason e = BadRequest).
Definition IsAlreadyExists (e : ApiError) : bool := bool_decide (err_Reason e = AlreadyExists).

(** ** The operations *)

Class GatewayClient (S : Type) := {
  (** [client.Get(ctx, key, &proc)] *)
  get_process : NamespacedName → S → result ApiError DeviceProcess;
  (** [client.List(ctx, &list, MatchingFields{"spec.deviceRef.name": device})] *)
  list_by_device : string → S → result ApiError (list DeviceProcess);
  (** [client.Status().Patch(ctx, after, MergeFromWithOptimisticLock(before))] *)
  patch_status : DeviceProcess → DeviceProcess → S → result ApiError unit * S
}.

(** What the gateway relies on, over the objects [stored] by the API server. *)
Class GatewayClientLaws (S : Type) `{GatewayClient S} := {
  stored : S → NamespacedName → option DeviceProcess;
  get_process_key : ∀ k s p, get_process k s = Ok p → dp_Key p = k;
  patch_status_ok : ∀ before after s s', patch_status before after s = (Ok tt, s') →
    dp_Key before = dp_Key after →
    ∃ p, stored s' (dp_Key before) = Some p ∧ dp_Status p = dp_Status after ∧
         dp_Spec p = dp_Spec before;
  patch_status_frame : ∀ before after s r s' k, patch_status before after s = (r, s') →
    k ≠ dp_Key before → stored s' k = stored s k;
  patch_status_conflict : ∀ before after s e s', patch_status before after s = (Err e, s') →
    err_Reason e = Conflict → ∀ k, stored s' k = stored s k
}.

(** ** An instance *)

(** The next [st_conflicts] status patches lose a race with another writer. *)
Record Store := mkStore {
  objects : gmap NamespacedName DeviceProcess;
  conflicts : nat
}.

Definition bump (rv : string) : string := rv +:+ "'".

Definition set_ResourceVersion (rv : string) (m : ObjectMeta) : ObjectMeta :=
  mkObjectMeta (om_Name m) (om_Namespace m) (om_UID m) rv (om_Generation m)
    (om_Labels m) (om_Annotations m) (om_OwnerReferences m).

Definition store_get (k : NamespacedName) (s : Store) : result ApiError DeviceProcess :=
  match objects s !! k with
  | Some p => if decide (dp_Key p = k) then Ok p else Err (mkApiError OtherReason "corrupt")
  | None => Err (mkApiError NotFound "not found")
  end.

Definition store_list (device : string) (s : Store) : result ApiError (list DeviceProcess) :=
  Ok (filter (λ p, dp_DeviceName p = device) (map_to_list (objects s)).*2).

Definition store_patch (before after : DeviceProcess) (s : Store)
    : result ApiError unit * Store :=
  match conflicts s with
  | S n => (Err (mkApiError Conflict "conflict"), mkStore (objects s) n)
  | O =>
      match objects s !! dp_Key before with
      | None => (Err (mkApiError NotFound "not found"), s)
      | Some cur =>
          if decide (om_ResourceVersion (dp_Meta cur) = om_ResourceVersion (dp_Meta before) ∧
                     dp_Spec cur = dp_Spec before)
          then (Ok tt, mkStore (<[dp_Key before :=
                  mkDeviceProcess
                    (set_ResourceVersion (bump (om_ResourceVersion (dp_Meta cur))) (dp_Meta cur))
                    (dp_Spec cur) (dp_Status after)]> (objects s)) O)
          else (Err (mkApiError Conflict "conflict"), s)
      end
  end.

#[export] Instance store_client : GatewayClient Store :=
  {| get_process := store_get; list_by_device := store_list; patch_status := store_patch |}.

#[export] Program Instance store_laws : GatewayClientLaws Store :=
  {| stored s k := objects s !! k |}.
Next Obligation. simpl. unfold store_get. intros k s p. repeat case_match; naive_solver. Qed.
Next Obligation.
  simpl. unfold store_patch. intros b a s s' H _.
  repeat case_match; simplify_eq/=. rewrite lookup_insert_eq. naive_solver.
Qed.
Next Obligation.
  simpl. unfold store_patch. intros b a s r s' k H Hk.
  repeat case_match; simplify_eq/=; try done. by rewrite lookup_insert_ne.
Qed.
Next Obligation.
  simpl. unfold store_patch. intros b a s e s' H _ k. repeat case_match; by simplify_eq/=.
Qed.

(** What [Get] answers depends on the objects only. *)
Lemma store_get_objects (s s' : Store) :
  (∀ k, stored s k = stored s' k) → ∀ k, get_process k s = get_process k s'.
Proof.
  intros H k. change (store_get k s = store_get k s').
  assert (objects s !! k = objects s' !! k) as Hk by apply H.
  unfold store_get. by rewrite Hk.
Qed.
