(* ===== verification/KubeServer.v ===== *)
(** * The API server with other clients

    What the gateway relies on when it is not alone: its reads, which come from
    a cache, answer with objects that are or were stored; a resource version
    names one content of an object; and a status patch with an optimistic lock
    takes effect only on the version it was computed from, also when its answer
    is lost.  [evolves] is what other clients of the API server may do.
    [Server] is an instance: objects with a global revision, and their past. *)

From stdpp Require Import relations.
From S2P Require Import Prelude GoStrings Api Kube.

Class ConcurrentClient (S : Type) `{GatewayClientLaws S} := {
  (** The API server's own invariant. *)
  coherent : S → Prop;
  (** The object is or was stored. *)
  served : S → DeviceProcess → Prop;
  evolves : relation S;
  get_served : ∀ s k p, coherent s → get_process k s = Ok p → served s p;
  list_served : ∀ s device ps p, coherent s → list_by_device device s = Ok ps → p ∈ ps → served s p;
  stored_served : ∀ s k p, coherent s → stored s k = Some p → served s p ∧ dp_Key p = k;
  version_identifies : ∀ s p q, coherent s → served s p → served s q → dp_Key p = dp_Key q →
    om_ResourceVersion (dp_Meta p) = om_ResourceVersion (dp_Meta q) → p = q;
  patch_keeps : ∀ before after s r s', patch_status before after s = (r, s') →
    (coherent s → coherent s') ∧ ∀ p, served s p → served s' p;
  patch_locked : ∀ before after s r s', coherent s → patch_status before after s = (r, s') →
    (∀ k, stored s' k = stored s k) ∨
    ∃ cur p, stored s (dp_Key before) = Some cur ∧
      om_ResourceVersion (dp_Meta cur) = om_ResourceVersion (dp_Meta before) ∧
      stored s' (dp_Key before) = Some p ∧ dp_Spec p = dp_Spec cur ∧
      dp_Status p = dp_Status after;
  patch_missing : ∀ before after s e s', coherent s → patch_status before after s = (Err e, s') →
    err_Reason e = NotFound → stored s (dp_Key before) = None;
  (** A list has each object once. *)
  list_unique : ∀ s device ps, coherent s → list_by_device device s = Ok ps → NoDup (dp_Key <$> ps);
  evolves_keeps : ∀ s s', evolves s s' →
    (coherent s → coherent s') ∧ ∀ p, served s p → served s' p
}.

(** ** What the gateway itself does to the API server *)

(** Status patches, any number of them, with any outcome. *)
Definition patched {S} `{GatewayClient S} : relation S :=
  rtc (λ s s', ∃ before after r, patch_status before after s = (r, s')).

#[export] Instance patched_preorder {S} `{GatewayClient S} : PreOrder (patched (S:=S)).
Proof. apply _. Qed.

Lemma patched_once {S} `{GatewayClient S} before after (s : S) :
  patched s (patch_status before after s).2.
Proof. apply rtc_once. exists before, after, (patch_status before after s).1. apply surjective_pairing. Qed.

(** A patch of an object that was read takes effect on that very object. *)
Lemma patch_effect {S} `{ConcurrentClient S} before after s r s' :
  coherent s → served s before → patch_status before after s = (r, s') →
  (∀ k, stored s' k = stored s k) ∨
  stored s (dp_Key before) = Some before ∧
  ∃ p, stored s' (dp_Key before) = Some p ∧ dp_Spec p = dp_Spec before ∧
       dp_Status p = dp_Status after.
Proof.
  intros Hc Hb Hp. destruct (patch_locked before after s r s' Hc Hp) as [|(cur & p & Hs & Hv & Hp' & Hsp & Hst)];
    [by left|right].
  destruct (stored_served _ _ _ Hc Hs) as [Hcs Hk].
  assert (cur = before) as -> by (by eapply version_identifies).
  split; [done|]. by exists p.
Qed.

Section patched.
Context {S : Type} `{ConcurrentClient S}.

Lemma patched_coherent s s' : patched s s' → coherent s → coherent s'.
Proof. induction 1 as [|s s1 s' (b & a & r & Hp) _ IH]; [done|]. intros Hc. by apply IH, (patch_keeps _ _ _ _ _ Hp). Qed.

Lemma patched_served s s' p : patched s s' → served s p → served s' p.
Proof. induction 1 as [|s s1 s' (b & a & r & Hp) _ IH]; [done|]. intros Hs. by apply IH, (patch_keeps _ _ _ _ _ Hp). Qed.

(** Stored processes stay, with their specs. *)
Lemma patched_stored s s' k p :
  patched s s' → coherent s → stored s k = Some p → ∃ q, stored s' k = Some q ∧ dp_Spec q = dp_Spec p.
Proof.
  intros Hs. revert p. induction Hs as [|s s1 s' (b & a & r & Hp) _ IH]; intros p Hc Hk; [by exists p|].
  assert (∃ q, stored s1 k = Some q ∧ dp_Spec q = dp_Spec p) as (q & Hq & <-).
  { destruct (patch_locked _ _ _ _ _ Hc Hp) as [He|(cur & q & Hcur & _ & Hq & Hsp & _)]; [exists p; by rewrite He|].
    destruct (decide (k = dp_Key b)) as [->|Hne]; [exists q; split; [done|congruence]|].
    exists p. by rewrite (patch_status_frame _ _ _ _ _ k Hp Hne). }
  apply IH; [by apply (patch_keeps _ _ _ _ _ Hp)|done].
Qed.
End patched.

(** The reads of the gateway show what is stored: its cache has caught up. *)
Definition caught_up {S} `{GatewayClientLaws S} (s : S) : Prop :=
  (∀ k p, get_process k s = Ok p → stored s k = Some p) ∧
  (∀ k e, get_process k s = Err e → err_Reason e = NotFound → stored s k = None) ∧
  (∀ device ps p, list_by_device device s = Ok ps → p ∈ ps → stored s (dp_Key p) = Some p).

(** And keeps up with the gateway's own patches. *)
Definition keeps_up {S} `{GatewayClientLaws S} (s : S) : Prop := ∀ s', patched s s' → caught_up s'.

Lemma keeps_up_patched {S} `{GatewayClientLaws S} (s s' : S) : patched s s' → keeps_up s → keeps_up s'.
Proof. intros Hs Hk s2 Hs2. apply Hk. by transitivity s'. Qed.

(** ** An instance *)

Record Server := mkServer {
  sv_objects : gmap NamespacedName DeviceProcess;
  sv_past : list DeviceProcess;
  sv_revision : nat
}.

Definition server_store (s : Server) : Store := mkStore (sv_objects s) 0.

(** Store an object under the next revision. *)
Definition server_put (p : DeviceProcess) (s : Server) : Server :=
  let p' := mkDeviceProcess
    (set_ResourceVersion (pretty (sv_revision s)) (dp_Meta p)) (dp_Spec p) (dp_Status p) in
  mkServer (<[dp_Key p := p']> (sv_objects s)) (p' :: sv_past s) (Datatypes.S (sv_revision s)).

Definition server_delete (k : NamespacedName) (s : Server) : Server :=
  mkServer (delete k (sv_objects s)) (sv_past s) (sv_revision s).

Definition server_patch (before after : DeviceProcess) (s : Server) : result ApiError unit * Server :=
  match sv_objects s !! dp_Key before with
  | None => (Err (mkApiError NotFound "not found"), s)
  | Some cur =>
      if decide (om_ResourceVersion (dp_Meta cur) = om_ResourceVersion (dp_Meta before) ∧
                 dp_Spec cur = dp_Spec before ∧ dp_Key cur = dp_Key before)
      then (Ok tt, server_put (set_dp_Status (dp_Status after) cur) s)
      else (Err (mkApiError Conflict "conflict"), s)
  end.

#[export] Instance server_client : GatewayClient Server :=
  {| get_process k s := store_get k (server_store s);
     list_by_device d s := store_list d (server_store s);
     patch_status := server_patch |}.

#[export] Program Instance server_laws : GatewayClientLaws Server :=
  {| stored s k := sv_objects s !! k |}.
Next Obligation. simpl. unfold store_get. intros k s p. repeat case_match; naive_solver. Qed.
Next Obligation.
  intros b a s s' H _. simpl in H. unfold server_patch in H.
  repeat case_match; simplify_eq/=. destruct_and!. simpl.
  match goal with E : dp_Key ?c = dp_Key b |- _ => change (dp_Key (set_dp_Status _ c)) with (dp_Key c); rewrite E end.
  rewrite lookup_insert_eq. eexists. split; [reflexivity|]. done.
Qed.
Next Obligation.
  intros b a s r s' k H Hk. simpl in H. unfold server_patch in H.
  repeat case_match; simplify_eq/=; try done. destruct_and!.
  rewrite lookup_insert_ne; [done|]. change (dp_Key (set_dp_Status ?x ?p)) with (dp_Key p). congruence.
Qed.
Next Obligation.
  intros b a s e s' H _ k. simpl in H. unfold server_patch in H. repeat case_match; by simplify_eq/=.
Qed.

(** Objects are filed under their key and remembered; a revision is used
    once. *)
Definition server_coherent (s : Server) : Prop :=
  (∀ k p, sv_objects s !! k = Some p → p ∈ sv_past s ∧ dp_Key p = k) ∧
  (∀ p, p ∈ sv_past s → ∃ n, om_ResourceVersion (dp_Meta p) = pretty n ∧ (n < sv_revision s)%nat) ∧
  (∀ p q, p ∈ sv_past s → q ∈ sv_past s →
     om_ResourceVersion (dp_Meta p) = om_ResourceVersion (dp_Meta q) → p = q).

Lemma server_empty_coherent : server_coherent (mkServer ∅ [] 0).
Proof.
  unfold server_coherent. split_all.
  - intros k p Hk. cbn in Hk. by rewrite lookup_empty in Hk.
  - intros p Hp. by apply elem_of_nil in Hp.
  - intros p q Hp. by apply elem_of_nil in Hp.
Qed.

Lemma server_put_coherent p s : server_coherent s → server_coherent (server_put p s).
Proof.
  intros (Ho & Hn & Hu). unfold server_coherent, server_put. cbn [sv_objects sv_past sv_revision].
  set (p' := mkDeviceProcess _ _ _).
  assert (∀ q, q ∈ sv_past s → om_ResourceVersion (dp_Meta q) ≠ om_ResourceVersion (dp_Meta p')) as Hfresh.
  { intros q Hq. destruct (Hn q Hq) as (n & -> & Hlt). cbn. intros E%(inj pretty). lia. }
  split_all.
  - intros k q Hk. apply lookup_insert_Some in Hk as [[<- <-]|[_ Hk]].
    + split; [apply elem_of_cons; by left|done].
    + destruct (Ho k q Hk). split; [apply elem_of_cons; by right|done].
  - intros q [->|Hq]%elem_of_cons; [exists (sv_revision s); split; [done|lia]|].
    destruct (Hn q Hq) as (n & Hv & Hlt). exists n. split; [done|lia].
  - intros q1 q2 [->|H1]%elem_of_cons [->|H2]%elem_of_cons Hv; [done| | |by apply Hu].
    + by destruct (Hfresh q2 H2).
    + by destruct (Hfresh q1 H1).
Qed.

Lemma server_delete_coherent k s : server_coherent s → server_coherent (server_delete k s).
Proof.
  intros (Ho & Hn & Hu). split; [|done]. cbn. intros k' p Hk.
  apply lookup_delete_Some in Hk as [_ Hk]. by apply Ho.
Qed.

(** A change by another client. *)
Inductive server_change : relation Server :=
  | change_put p s : server_change s (server_put p s)
  | change_delete k s : server_change s (server_delete k s).

#[export] Program Instance server_concurrent : ConcurrentClient Server :=
  {| coherent := server_coherent;
     served s p := p ∈ sv_past s;
     evolves := server_change |}.
Next Obligation.
  intros s k p (Ho & _) Hg. simpl in Hg. unfold store_get in Hg. repeat case_match; simplify_eq.
  by eapply Ho.
Qed.
Next Obligation.
  intros s d ps p (Ho & _) Hl Hp. simpl in Hl. unfold store_list in Hl. simplify_eq.
  apply list_elem_of_filter in Hp as [_ Hp]. apply list_elem_of_fmap in Hp as ([k q] & -> & Hp).
  apply elem_of_map_to_list in Hp. by eapply Ho.
Qed.
Next Obligation. intros s k p (Ho & _) Hk. by apply Ho. Qed.
Next Obligation. intros s p q (_ & _ & Hu) Hp Hq _ Hv. by apply Hu. Qed.
Next Obligation.
  intros b a s r s' Hp. simpl in Hp. unfold server_patch in Hp.
  repeat case_match; simplify_eq; try done. split; [by apply server_put_coherent|].
  intros p Hp. apply elem_of_cons. by right.
Qed.
Next Obligation.
  intros b a s r s' (Ho & _) Hp. simpl in Hp. unfold server_patch in Hp.
  repeat case_match; simplify_eq; try by left. right. destruct_and!.
  simpl.
  match goal with E : dp_Key ?c = dp_Key b |- _ => change (dp_Key (set_dp_Status _ c)) with (dp_Key c); rewrite E end.
  rewrite lookup_insert_eq. by eexists _, _.
Qed.
Next Obligation.
  intros b a s e s' _ Hp Hn. simpl in *. unfold server_patch in Hp.
  repeat case_match; simplify_eq; simpl in *; congruence || done.
Qed.
Next Obligation.
  intros s d ps (Ho & _) Hl. simpl in *. unfold store_list in Hl. simplify_eq.
  eapply sublist_NoDup; [|apply fmap_sublist, sublist_filter].
  rewrite <-list_fmap_compose, (list_fmap_ext _ fst); [apply NoDup_fst_map_to_list|].
  intros i [k p] Hi. apply list_elem_of_lookup_2, elem_of_map_to_list in Hi. simpl.
  by destruct (Ho k p Hi) as [_ ->].
Qed.
Next Obligation.
  intros s s' []; (split; [auto using server_put_coherent, server_delete_coherent|]).
  - intros q Hq. apply elem_of_cons. by right.
  - done.
Qed.

(** This server is read directly. *)
Lemma server_caught_up (s : Server) : server_coherent s → caught_up s.
Proof.
  intros (Ho & _). unfold caught_up. simpl. unfold store_get, store_list. split_all.
  - intros k p Hg. repeat case_match; naive_solver.
  - intros k e Hg Hn. repeat case_match; naive_solver.
  - intros d ps p [= <-] [_ Hp]%list_elem_of_filter. apply list_elem_of_fmap in Hp as ([k q] & -> & Hp).
    apply elem_of_map_to_list in Hp. simpl in *. by destruct (Ho k q Hp) as [_ ->].
Qed.

Lemma server_keeps_up (s : Server) : server_coherent s → keeps_up s.
Proof. intros Hc s' Hs. apply server_caught_up. exact (patched_coherent (S:=Server) s s' Hs Hc). Qed.
