(* ===== verification/Samples.v ===== *)
(** * Concrete objects the examples and witnesses evaluate on *)

From S2P Require Import Prelude GoStrings Api Kube.

Definition sample_spec (device : string) : DeviceProcessSpec :=
  mkSpec (mkDeviceRef DeviceRefKindNetworkSwitch device "")
    (mkArtifact ArtifactTypeOCI "oci://registry/agent:1" "")
    (mkExecution DeviceProcessBackendSystemd ["bin/agent"] ["-v"] [mkEnvVar "LEVEL" "info"] "" "")
    DeviceProcessRestartPolicyAlways None.

Definition sample_meta (ns name : string) : ObjectMeta :=
  mkObjectMeta name ns ("uid-" +:+ name) "1" 1 ∅ ∅ [].

Definition sample_process (ns name device : string) : DeviceProcess :=
  mkDeviceProcess (sample_meta ns name) (sample_spec device) empty_status.

(** A store with two processes of [tor1] and one of [tor2]. *)
Definition sample_store (conflicts : nat) : Store :=
  mkStore (list_to_map ((λ p, (dp_Key p, p)) <$>
    [sample_process "infra" "a" "tor1"; sample_process "infra" "b" "tor1";
     sample_process "infra" "c" "tor2"])) conflicts.
