(* ===== verification/SpecCodec.v ===== *)
(** * The JSON encoding of process specs, read back

    The decoders of the spec types: what the agent reads from the gateway.  With
    them a spec hash identifies the spec: specs with the same hash are equal,
    unless SHA-256 collides on their encodings. *)

From S2P Require Import Prelude GoStrings GoUtf8 GoTime GoCrypto GoJson GoJsonFacts GoJsonCodec Api SpecHash Samples.

(** ** Decoders *)

Definition fill_DeviceRef (fs : list (string * json)) (a : DeviceRef) : option DeviceRef :=
  kind ← get dec_string (dr_Kind a) "kind" fs;
  name ← get dec_string (dr_Name a) "name" fs;
  namespace ← get dec_string (dr_Namespace a) "namespace" fs;
  Some (mkDeviceRef kind name namespace).

Definition fill_Artifact (fs : list (string * json)) (a : DeviceProcessArtifact) : option DeviceProcessArtifact :=
  type ← get dec_string (art_Type a) "type" fs;
  url ← get dec_string (art_URL a) "url" fs;
  sum ← get dec_string (art_ChecksumSHA256 a) "checksumSHA256" fs;
  Some (mkArtifact type url sum).

Definition fill_EnvVar (fs : list (string * json)) (a : DeviceProcessEnvVar) : option DeviceProcessEnvVar :=
  name ← get dec_string (ev_Name a) "name" fs;
  value ← get dec_string (ev_Value a) "value" fs;
  Some (mkEnvVar name value).

#[export] Instance DeviceRef_codec : Codec DeviceRef :=
  {| enc := json_DeviceRef; dec := dec_struct fill_DeviceRef; zero := mkDeviceRef "" "" ""; levels := 1;
     encodable a := valid_utf8 (dr_Kind a) && valid_utf8 (dr_Name a) && valid_utf8 (dr_Namespace a) |}.
#[export] Instance Artifact_codec : Codec DeviceProcessArtifact :=
  {| enc := json_Artifact; dec := dec_struct fill_Artifact; zero := mkArtifact "" "" ""; levels := 1;
     encodable a := valid_utf8 (art_Type a) && valid_utf8 (art_URL a) && valid_utf8 (art_ChecksumSHA256 a) |}.
#[export] Instance EnvVar_codec : Codec DeviceProcessEnvVar :=
  {| enc := json_EnvVar; dec := dec_struct fill_EnvVar; zero := mkEnvVar "" ""; levels := 1;
     encodable a := valid_utf8 (ev_Name a) && valid_utf8 (ev_Value a) |}.

Definition fill_Execution (fs : list (string * json)) (a : DeviceProcessExecution) : option DeviceProcessExecution :=
  backend ← get dec_string (ex_Backend a) "backend" fs;
  command ← get (dec_slice "" dec_string) (ex_Command a) "command" fs;
  args ← get (dec_slice "" dec_string) (ex_Args a) "args" fs;
  env ← get (dec_slice zero dec) (ex_Env a) "env" fs;
  dir ← get dec_string (ex_WorkingDir a) "workingDir" fs;
  user ← get dec_string (ex_User a) "user" fs;
  Some (mkExecution backend command args env dir user).

Definition fill_Exec (fs : list (string * json)) (a : list string) : option (list string) :=
  get (dec_slice "" dec_string) a "command" fs.

Definition fill_HealthCheck (fs : list (string * json)) (a : DeviceProcessHealthCheck)
    : option DeviceProcessHealthCheck :=
  command ← get (dec_struct fill_Exec) (hc_Exec_Command a) "exec" fs;
  period ← get (dec_int 32) (hc_PeriodSeconds a) "periodSeconds" fs;
  timeout ← get (dec_int 32) (hc_TimeoutSeconds a) "timeoutSeconds" fs;
  success ← get (dec_int 32) (hc_SuccessThreshold a) "successThreshold" fs;
  failure ← get (dec_int 32) (hc_FailureThreshold a) "failureThreshold" fs;
  Some (mkHealthCheck command period timeout success failure).

#[export] Instance Execution_codec : Codec DeviceProcessExecution :=
  {| enc := json_Execution; dec := dec_struct fill_Execution; zero := mkExecution "" [] [] [] "" ""; levels := 3;
     encodable a := valid_utf8 (ex_Backend a) && forallb valid_utf8 (ex_Command a) && forallb valid_utf8 (ex_Args a) &&
       forallb encodable (ex_Env a) && valid_utf8 (ex_WorkingDir a) && valid_utf8 (ex_User a) |}.
#[export] Instance HealthCheck_codec : Codec DeviceProcessHealthCheck :=
  {| enc := json_HealthCheck; dec := dec_struct fill_HealthCheck; zero := mkHealthCheck [] 0 0 0 0; levels := 3;
     encodable a := forallb valid_utf8 (hc_Exec_Command a) && fits 32 (hc_PeriodSeconds a) &&
       fits 32 (hc_TimeoutSeconds a) && fits 32 (hc_SuccessThreshold a) && fits 32 (hc_FailureThreshold a) |}.

Definition fill_Spec (fs : list (string * json)) (a : DeviceProcessSpec) : option DeviceProcessSpec :=
  ref ← get dec (sp_DeviceRef a) "deviceRef" fs;
  artifact ← get dec (sp_Artifact a) "artifact" fs;
  execution ← get dec (sp_Execution a) "execution" fs;
  policy ← get dec_string (sp_RestartPolicy a) "restartPolicy" fs;
  health ← get (dec_pointer zero dec) (sp_HealthCheck a) "healthCheck" fs;
  Some (mkSpec ref artifact execution policy health).

#[export] Instance Spec_codec : Codec DeviceProcessSpec :=
  {| enc := json_Spec; dec := dec_struct fill_Spec; zero := mkSpec zero zero zero "" None; levels := 4;
     encodable a := encodable (sp_DeviceRef a) && encodable (sp_Artifact a) && encodable (sp_Execution a) &&
       valid_utf8 (sp_RestartPolicy a) && from_option encodable true (sp_HealthCheck a) |}.

(** ** Laws *)

(** The validity of the parts. *)
Ltac valid H := rewrite ?andb_true_iff in H; destruct_and? H.

(** Decode one field. *)
Ltac decode_leaf :=
  first [refine (decode_string _ _) | refine (decode_omit_string _ _) | refine (decode_int _ _ _)
        | refine (decode_omit_int _ _ _) | refine (decode_bool _) | refine (decode_slice _ _)
        | refine (decode_omit_strings _ _) | refine (decode_struct _ _) | refine (decode_omit_list _ _)
        | refine (decode_omit_pointer _ _ _)]; done.

(** Decode the fields of a struct, and put them together. *)
Ltac decode_struct_with a fs leaf :=
  rewrite clean_object; cbn [dec_struct]; set (fs := cleaned _); decode_fields fs leaf; by destruct a.

#[export] Instance DeviceRef_codec_laws : CodecLaws DeviceRef.
Proof.
  split; cbn [enc dec zero DeviceRef_codec]; unfold json_DeviceRef.
  - intros a [|d] Hd; [cbn in Hd; lia|]. depths.
  - intros a H. cbn [encodable DeviceRef_codec] in H. valid H. unfold fill_DeviceRef. decode_struct_with a fs decode_leaf.
Qed.

#[export] Instance Artifact_codec_laws : CodecLaws DeviceProcessArtifact.
Proof.
  split; cbn [enc dec zero Artifact_codec]; unfold json_Artifact.
  - intros a [|d] Hd; [cbn in Hd; lia|]. depths.
  - intros a H. cbn [encodable Artifact_codec] in H. valid H. unfold fill_Artifact. decode_struct_with a fs decode_leaf.
Qed.

#[export] Instance EnvVar_codec_laws : CodecLaws DeviceProcessEnvVar.
Proof.
  split; cbn [enc dec zero EnvVar_codec]; unfold json_EnvVar.
  - intros a [|d] Hd; [cbn in Hd; lia|]. depths.
  - intros a H. cbn [encodable EnvVar_codec] in H. valid H. unfold fill_EnvVar. decode_struct_with a fs decode_leaf.
Qed.

#[export] Instance Execution_codec_laws : CodecLaws DeviceProcessExecution.
Proof.
  split; cbn [enc dec zero Execution_codec]; unfold json_Execution.
  - intros a [|[|[|d]]] Hd; try (cbn in Hd; lia). depths.
    + apply plain_slice.
    + apply plain_omit_list. intros. apply plain_string.
    + apply plain_omit_list. intros v. refine (enc_plain v _ _). cbn. lia.
  - intros a H. cbn [encodable Execution_codec] in H. valid H. unfold fill_Execution. decode_struct_with a fs decode_leaf.
Qed.

Lemma decode_Exec l : forallb valid_utf8 l = true →
  decode_all (dec_struct fill_Exec) [clean (JObject [("command", json_slice l)])] [] = Some l.
Proof.
  intros Hl. rewrite clean_object. cbn [decode_all dec_struct]. unfold fill_Exec. field_values.
  by rewrite decode_slice.
Qed.

#[export] Instance HealthCheck_codec_laws : CodecLaws DeviceProcessHealthCheck.
Proof.
  split; cbn [enc dec zero HealthCheck_codec]; unfold json_HealthCheck.
  - intros a [|[|[|d]]] Hd; try (cbn in Hd; lia). depths. apply plain_slice.
  - intros a H. cbn [encodable HealthCheck_codec] in H. valid H. unfold fill_HealthCheck.
    decode_struct_with a fs ltac:(first [decode_leaf|by apply decode_Exec]).
Qed.

#[export] Instance Spec_codec_laws : CodecLaws DeviceProcessSpec.
Proof.
  split; cbn [enc dec zero Spec_codec]; unfold json_Spec.
  - intros a [|[|[|[|d]]]] Hd; try (cbn in Hd; lia). depths.
    + refine (enc_plain (sp_DeviceRef a) _ _). cbn. lia.
    + refine (enc_plain (sp_Artifact a) _ _). cbn. lia.
    + refine (enc_plain (sp_Execution a) _ _). cbn. lia.
    + destruct (sp_HealthCheck a) as [h|]; [|done]. depths. refine (enc_plain h _ _). cbn. lia.
  - intros a H. cbn [encodable Spec_codec] in H. valid H. unfold fill_Spec.
    change (match sp_HealthCheck a with None => [] | Some h => [("healthCheck", json_HealthCheck h)] end)
      with (omit_pointer "healthCheck" json_HealthCheck (sp_HealthCheck a)).
    decode_struct_with a fs decode_leaf.
Qed.

(** ** Spec hashes identify specs *)

Lemma shallow_Spec : shallow DeviceProcessSpec.
Proof. done. Qed.

Lemma marshal_spec_inj s t : encodable s = true → encodable t = true → marshal_spec s = marshal_spec t → s = t.
Proof. intros Hs Ht. apply (marshal_inj s t shallow_Spec Hs Ht). Qed.

Lemma hash_same_spec s t :
  encodable s = true → encodable t = true → sha256_separates (marshal_spec s) (marshal_spec t) →
  hashSpec s = hashSpec t → s = t.
Proof. intros Hs Ht Hsep. unfold hashSpec. intros E%app_inj_l%hex_inj. by apply marshal_spec_inj, Hsep. Qed.

(** C15: a spec hash identifies the spec.  Two specs whose strings are valid UTF-8
    and whose numbers fit 32 bits, as those of Kubernetes objects, have the same
    hash exactly when they are equal in every field, unless SHA-256 collides on
    their encodings: escaping, omitted fields and null slices lose nothing. *)
Theorem spec_hash_identifies s t :
  encodable s = true → encodable t = true → sha256_separates (marshal_spec s) (marshal_spec t) →
  hashSpec s = hashSpec t ↔ s = t.
Proof. intros Hs Ht Hsep. split; [by apply hash_same_spec|by intros ->]. Qed.

Lemma spec_hash_identifies_witness :
  sha256_separates (marshal_spec (sample_spec "tor1")) (marshal_spec (sample_spec "tor2")) ∧
  (hashSpec (sample_spec "tor1") = hashSpec (sample_spec "tor2") ↔ sample_spec "tor1" = sample_spec "tor2").
Proof.
  assert (sha256_separates (marshal_spec (sample_spec "tor1")) (marshal_spec (sample_spec "tor2"))) as Hs.
  { intros E. exfalso.
    assert (String.eqb (sha256 (marshal_spec (sample_spec "tor1"))) (sha256 (marshal_spec (sample_spec "tor2")))
              = false) as Hd by (vm_compute; reflexivity).
    apply String.eqb_neq in Hd. exact (Hd E). }
  split; [exact Hs|]. apply spec_hash_identifies; [reflexivity|reflexivity|exact Hs].
Defined.
