(* ===== verification/GatewayState.v ===== *)
(** * The gateway's bookkeeping of devices (gateway/server.go)

    The gateway remembers, per device, when it was last seen, when it last
    reported and its heartbeat interval.  Every access is a critical section of
    the gateway's lock; each is one function of the state here. *)

From S2P Require Import Prelude GoStrings GoTime.

Definition defaultHeartbeatSeconds : Z := 15.

(** The configuration fields of [Gateway]. *)
Record Config := mkConfig {
  authToken : string;
  authSecret : string;
  defaultInterval : Z;
  staleMultiplier : Z
}.

(** The maps of [Gateway], guarded by [mu]. *)
Record Gateway := mkGateway {
  lastSeen : gmap string Z;
  lastReport : gmap string Z;
  heartbeatHints : gmap string Z
}.

(** [New]: the tokens are trimmed and the maps empty. *)
Definition New (token tokenSecret : string) (interval multiplier : Z) : Config * Gateway :=
  (mkConfig (TrimSpace token) (TrimSpace tokenSecret) interval multiplier, mkGateway ∅ ∅ ∅).

(** A map lookup in Go returns the zero value for a missing key. *)
Definition get_time (m : gmap string Z) (k : string) : Z := default zero_time (m !! k).
Definition get_int (m : gmap string Z) (k : string) : Z := default 0 (m !! k).

(** ** The critical sections *)

Definition recordHeartbeat (now : Z) (device : string) (hint : Z) (g : Gateway) : Gateway :=
  mkGateway (<[device := now]> (lastSeen g)) (lastReport g)
    (if 0 <? hint then <[device := hint]> (heartbeatHints g) else heartbeatHints g).

Definition recordReport (now : Z) (device : string) (g : Gateway) : Gateway :=
  mkGateway (lastSeen g) (<[device := now]> (lastReport g)) (heartbeatHints g).

Section config.
Context (cfg : Config).

Definition normalizeHeartbeat (hb : Z) : Z :=
  if hb <=? 0 then
    let hb := whole_seconds (defaultInterval cfg) in
    if hb <=? 0 then defaultHeartbeatSeconds else hb
  else hb.

Definition lastSeenAndHeartbeat (device : string) (g : Gateway) : Z * Z :=
  (get_time (lastSeen g) device, normalizeHeartbeat (get_int (heartbeatHints g) device)).

Definition effectiveHeartbeat (device : string) (g : Gateway) : Z :=
  normalizeHeartbeat (get_int (heartbeatHints g) device).

(** [time.Duration(hb*g.staleMultiplier) * time.Second]: both products are
    on 64-bit integers. *)
Definition staleAfter (hb : Z) : Z := seconds (int64 (hb * staleMultiplier cfg)).

(** The decision of [recordDesiredHeartbeatIfEligible] at time [now]: the
    heartbeat interval to record, or nothing. *)
Definition desiredEligible (now : Z) (device : string) (g : Gateway) : option Z :=
  let last := get_time (lastReport g) device in
  if IsZero last then None
  else
    let hb := normalizeHeartbeat (get_int (heartbeatHints g) device) in
    if staleAfter hb <? Sub now last then None else Some hb.

(** The interval [computeDesired] answers with, which it also remembers. *)
Definition desiredHeartbeat (device : string) (g : Gateway) : Z * Gateway :=
  let heartbeat :=
    match heartbeatHints g !! device with
    | Some hint => if 0 <? hint then hint else defaultHeartbeatSeconds
    | None => defaultHeartbeatSeconds
    end in
  (heartbeat,
   mkGateway (lastSeen g) (lastReport g) (<[device := heartbeat]> (heartbeatHints g))).

(** Whether [markStaleDevices] disconnects a device last seen at [seen], at
    time [now]. *)
Definition is_stale (now : Z) (device : string) (seen : Z) (g : Gateway) : bool :=
  let hb := normalizeHeartbeat (get_int (heartbeatHints g) device) in
  negb (Sub now seen <=? staleAfter hb).

(** The devices [markStaleDevices] disconnects; the order of a Go map's
    iteration is unspecified. *)
Definition staleDevices (now : Z) (g : Gateway) : list (string * Z) :=
  filter (λ dv, is_stale now dv.1 dv.2 g = true) (map_to_list (lastSeen g)).

End config.

(** ** Lemmas *)

Section lemmas.
Context (cfg : Config).

Lemma normalizeHeartbeat_pos hb : 0 < normalizeHeartbeat cfg hb.
Proof.
  unfold normalizeHeartbeat, defaultHeartbeatSeconds.
  destruct (hb <=? 0) eqn:H1; bool_prop; [|done].
  destruct (whole_seconds (defaultInterval cfg) <=? 0) eqn:H2; bool_prop; lia.
Qed.

Lemma normalizeHeartbeat_id hb : 0 < hb → normalizeHeartbeat cfg hb = hb.
Proof. intros H. unfold normalizeHeartbeat. destruct (Z.leb_spec hb 0); [lia|done]. Qed.

(** With the bounds of a sane configuration the stale window is the product
    it is meant to be. *)
Lemma staleAfter_exact hb :
  0 < hb → 0 ≤ staleMultiplier cfg → hb * staleMultiplier cfg ≤ 9223372036 →
  staleAfter cfg hb = hb * staleMultiplier cfg * Second.
Proof.
  intros Hhb Hm Hb. unfold staleAfter.
  rewrite int64_id by (unfold min_int64, max_int64; nia). apply seconds_exact. nia.
Qed.
End lemmas.
