(* ===== verification/GatewayStatus.v ===== *)
(** * From an observation to a status (gateway/server.go)

    [updateStatusForObservation] turns the status read from the API server and
    the agent's observation into the new status.  The body of its retry loop is
    modelled stage by stage, in the code's order; each condition update reads
    the clock at its own site, [now i]. *)

From S2P Require Import Prelude GoStrings GoTime Api Conditions Kube.

Definition connectedReason : string := "AgentConnected".
Definition connectedMessage : string := "device reported".
Definition runtimeSemanticsDaemonSet : string := "DaemonSet".

(** [Observation]: the agent's view of one DeviceProcess. *)
Record Observation := mkObservation {
  ob_Namespace : string;
  ob_Name : string;
  ob_ObservedSpecHash : string;
  ob_ProcessStarted : option bool;
  ob_Healthy : option bool;
  ob_PID : Z;
  ob_StartTime : string;
  ob_ErrorMessage : option string;
  ob_WarningMessage : option string;
  ob_ArtifactDigest : string;
  ob_ArtifactDownloadAttempts : Z;
  ob_LastArtifactAttemptTime : string;
  ob_ArtifactLastError : string;
  ob_ArtifactDownloaded : option bool;
  ob_ArtifactVerified : option bool;
  ob_ArtifactDownloadReason : string;
  ob_ArtifactDownloadMessage : string;
  ob_ArtifactVerifyReason : string;
  ob_ArtifactVerifyMessage : string
}.

Definition Status : Type := DeviceProcessStatus.

(** [strings.TrimSpace( *p )] of an optional message, empty when absent. *)
Definition trimmed (o : option string) : string :=
  match o with Some s => TrimSpace s | None => "" end.

(** [if s == "" { s = d }] *)
Definition or_default (s d : string) : string := if String.eqb s "" then d else s.

(** ** The connection condition *)

Definition setAgentConnected (now : Z) (connected : bool) (reason message : string) (st : Status)
    : Status * bool :=
  let desired := if connected then ConditionTrue else ConditionFalse in
  let before := FindCondition (st_Conditions st) ConditionAgentConnected in
  let st' := set_Conditions (SetCondition now (st_Conditions st)
               (mkCondition ConditionAgentConnected desired 0 0 reason message)) st in
  let after := FindCondition (st_Conditions st') ConditionAgentConnected in
  match before, after with
  | Some b, Some a =>
      (st', negb (String.eqb (c_Status b) (c_Status a)) ||
            negb (String.eqb (c_Reason b) (c_Reason a)) ||
            negb (String.eqb (c_Message b) (c_Message a)))
  | _, _ => (st', true)
  end.

Definition mark_true (now : Z) (ty reason message : string) (st : Status) : Status :=
  set_Conditions (MarkTrue now (st_Conditions st) ty reason message) st.
Definition mark_false (now : Z) (ty reason message : string) (st : Status) : Status :=
  set_Conditions (MarkFalse now (st_Conditions st) ty reason message) st.

(** ** The stages of the loop body *)

Section observation.
Context (now : nat → Z) (obs : Observation) (reportedAt : option Z).

Definition init_phase (st : Status) : Status :=
  set_RuntimeSemantics runtimeSemanticsDaemonSet
    (if String.eqb (st_Phase st) "" then set_Phase DeviceProcessPhasePending st else st).

Definition spec_observed_message : string :=
  let msg := "hash=" +:+ ob_ObservedSpecHash obs in
  match reportedAt with
  | Some t => msg +:+ " reportedAt=" +:+ format_rfc3339 t
  | None => msg
  end.

Definition spec_changed (st : Status) : bool :=
  negb (String.eqb (ob_ObservedSpecHash obs) "") &&
  negb (String.eqb (st_ObservedSpecHash st) (ob_ObservedSpecHash obs)).

Definition observe_spec (st : Status) : Status :=
  if spec_changed st
  then mark_true (now 1%nat) ConditionSpecObserved "SpecObserved" spec_observed_message
         (set_ObservedSpecHash (ob_ObservedSpecHash obs) st)
  else st.

(** Reason and message of an artifact condition: [done] and [failed] are the
    default reasons, [ok_msg] and [fail_msg] the default messages. *)
Definition artifact_reason (flag : bool) (reason ok fail : string) : string :=
  let r := or_default (TrimSpace reason) ok in
  if flag then r else if String.eqb r ok then fail else r.

Definition artifact_message (flag : bool) (message ok_msg fail_msg : string) : string :=
  let m := TrimSpace message in
  if flag then or_default m ok_msg
  else or_default (or_default m (TrimSpace (ob_ArtifactLastError obs))) fail_msg.

Definition mark_artifact (i : nat) (ty : string) (flag : option bool)
    (reason message ok fail ok_msg fail_msg : string) (st : Status) : Status :=
  match flag with
  | None => st
  | Some b =>
      let r := artifact_reason b reason ok fail in
      let m := artifact_message b message ok_msg fail_msg in
      if b then mark_true (now i) ty r m st else mark_false (now i) ty r m st
  end.

Definition artifact_downloaded : Status → Status :=
  mark_artifact 2 ConditionArtifactDownloaded (ob_ArtifactDownloaded obs)
    (ob_ArtifactDownloadReason obs) (ob_ArtifactDownloadMessage obs)
    "ArtifactDownloaded" "ArtifactDownloadFailed"
    "artifact downloaded" "artifact download failed".

Definition artifact_verified : Status → Status :=
  mark_artifact 3 ConditionArtifactVerified (ob_ArtifactVerified obs)
    (ob_ArtifactVerifyReason obs) (ob_ArtifactVerifyMessage obs)
    "ArtifactVerified" "ArtifactVerifyFailed"
    "artifact verified" "artifact verification failed".

Definition artifact_telemetry : Status → Status :=
  set_Artifact (TrimSpace (ob_ArtifactDigest obs)) (ob_ArtifactDownloadAttempts obs)
    (TrimSpace (ob_LastArtifactAttemptTime obs)) (TrimSpace (ob_ArtifactLastError obs)).

Definition process_started (st : Status) : Status :=
  match ob_ProcessStarted obs with
  | None => st
  | Some true => mark_true (now 4%nat) ConditionProcessStarted "ProcessStarted" "process started" st
  | Some false =>
      if String.eqb (trimmed (ob_ErrorMessage obs)) ""
      then mark_false (now 4%nat) ConditionProcessStarted "ProcessNotStarted" "process not started" st
      else mark_false (now 4%nat) ConditionProcessStarted "ReconcileError"
             (trimmed (ob_ErrorMessage obs)) st
  end.

Definition normalized_phase : string :=
  if negb (String.eqb (trimmed (ob_ErrorMessage obs)) "") then DeviceProcessPhaseFailed
  else match ob_ProcessStarted obs with
       | Some true => DeviceProcessPhaseRunning
       | _ => DeviceProcessPhasePending
       end.

Definition normalize_phase : Status → Status := set_Phase normalized_phase.

(** The spec warning, and whether it changed. *)
Definition spec_warning (st : Status) : Status * bool :=
  let warn := trimmed (ob_WarningMessage obs) in
  let existing := FindCondition (st_Conditions st) ConditionSpecWarning in
  if negb (String.eqb warn "") then
    (mark_true (now 5%nat) ConditionSpecWarning "SpecWarning" warn st,
     match existing with
     | None => true
     | Some e => negb (String.eqb (c_Status e) ConditionTrue) || negb (String.eqb (c_Message e) warn)
     end)
  else
    match existing with
    | None => (st, false)
    | Some e =>
        (mark_false (now 5%nat) ConditionSpecWarning "NoSpecWarning" "no spec warning" st,
         negb (String.eqb (c_Status e) ConditionFalse) ||
         negb (String.eqb (c_Reason e) "NoSpecWarning") ||
         negb (String.eqb (c_Message e) "no spec warning"))
    end.

Definition health (st : Status) : Status :=
  match ob_Healthy obs with
  | None => st
  | Some true =>
      let st := mark_true (now 6%nat) ConditionHealthy "Healthy" "process healthy" st in
      if String.eqb (st_Phase st) DeviceProcessPhasePending || String.eqb (st_Phase st) ""
      then set_Phase DeviceProcessPhaseRunning st else st
  | Some false =>
      mark_false (now 6%nat) ConditionHealthy "Unhealthy" "process reported unhealthy" st
  end.

Definition process_identity (st : Status) : result ApiError Status :=
  let st := set_PID (ob_PID obs) st in
  if String.eqb (TrimSpace (ob_StartTime obs)) "" then Ok (set_StartTime None st)
  else match parse_rfc3339 (ob_StartTime obs) with
       | None => Err (mkApiError BadRequest "invalid startTime")
       | Some t => Ok (set_StartTime (Some t) st)
       end.

(** What the events of the end of the loop body depend on. *)
Record Changes := mkChanges {
  connectedChanged : bool;
  specObservedChanged : bool;
  specWarningChanged : bool
}.

(** The body up to the comparison with the status read. *)
Definition applyObservation (st : Status) : result ApiError (Status * Changes) :=
  let st := init_phase st in
  let '(st, connected) := setAgentConnected (now 0%nat) true connectedReason connectedMessage st in
  let observed := spec_changed st in
  let st := observe_spec st in
  let st := artifact_telemetry (artifact_verified (artifact_downloaded st)) in
  let st := normalize_phase (process_started st) in
  let '(st, warned) := spec_warning st in
  let st := health st in
  match process_identity st with
  | Err e => Err e
  | Ok st => Ok (st, mkChanges connected observed warned)
  end.

End observation.

(** ** The comparison that decides whether to write *)

Fixpoint conditionsEqual (a b : list Condition) : bool :=
  match a, b with
  | [], [] => true
  | x :: a', y :: b' => same_condition x y && conditionsEqual a' b'
  | _, _ => false
  end.

Definition equalTimePtr (a b : option Z) : bool :=
  match a, b with
  | None, None => true
  | Some x, Some y => x =? y
  | _, _ => false
  end.

Definition reflectDeepEqualStatus (a b : Status) : bool :=
  String.eqb (st_Phase a) (st_Phase b) &&
  String.eqb (st_ObservedSpecHash a) (st_ObservedSpecHash b) &&
  String.eqb (st_RuntimeSemantics a) (st_RuntimeSemantics b) &&
  conditionsEqual (st_Conditions a) (st_Conditions b) &&
  String.eqb (st_ArtifactVersion a) (st_ArtifactVersion b) &&
  String.eqb (st_ArtifactDigest a) (st_ArtifactDigest b) &&
  (st_ArtifactDownloadAttempts a =? st_ArtifactDownloadAttempts b) &&
  String.eqb (st_LastArtifactAttemptTime a) (st_LastArtifactAttemptTime b) &&
  String.eqb (st_ArtifactLastError a) (st_ArtifactLastError b) &&
  (st_PID a =? st_PID b) &&
  equalTimePtr (st_StartTime a) (st_StartTime b) &&
  equalTimePtr (st_LastTransitionTime a) (st_LastTransitionTime b) &&
  (st_RestartCount a =? st_RestartCount b) &&
  String.eqb (st_LastTerminationReason a) (st_LastTerminationReason b).

(** ** Specification

    An observation determines a batch of condition updates and the fields of
    the new status. *)

Definition cond_true (ty reason message : string) : Condition :=
  mkCondition ty ConditionTrue 0 0 reason message.
Definition cond_false (ty reason message : string) : Condition :=
  mkCondition ty ConditionFalse 0 0 reason message.

Section specification.
Context (obs : Observation) (reportedAt : option Z).

Definition connected_updates : list (nat * Condition) :=
  [(0%nat, cond_true ConditionAgentConnected connectedReason connectedMessage)].

Definition spec_updates (changed : bool) : list (nat * Condition) :=
  if changed
  then [(1%nat, cond_true ConditionSpecObserved "SpecObserved" (spec_observed_message obs reportedAt))]
  else [].

Definition artifact_updates (i : nat) (ty : string) (flag : option bool)
    (reason message ok fail ok_msg fail_msg : string) : list (nat * Condition) :=
  match flag with
  | None => []
  | Some b =>
      [(i, (if b then cond_true else cond_false) ty (artifact_reason b reason ok fail)
             (artifact_message obs b message ok_msg fail_msg))]
  end.

Definition downloaded_updates : list (nat * Condition) :=
  artifact_updates 2 ConditionArtifactDownloaded (ob_ArtifactDownloaded obs)
    (ob_ArtifactDownloadReason obs) (ob_ArtifactDownloadMessage obs)
    "ArtifactDownloaded" "ArtifactDownloadFailed"
    "artifact downloaded" "artifact download failed".

Definition verified_updates : list (nat * Condition) :=
  artifact_updates 3 ConditionArtifactVerified (ob_ArtifactVerified obs)
    (ob_ArtifactVerifyReason obs) (ob_ArtifactVerifyMessage obs)
    "ArtifactVerified" "ArtifactVerifyFailed"
    "artifact verified" "artifact verification failed".

Definition started_updates : list (nat * Condition) :=
  match ob_ProcessStarted obs with
  | None => []
  | Some true => [(4%nat, cond_true ConditionProcessStarted "ProcessStarted" "process started")]
  | Some false =>
      [(4%nat, if String.eqb (trimmed (ob_ErrorMessage obs)) ""
               then cond_false ConditionProcessStarted "ProcessNotStarted" "process not started"
               else cond_false ConditionProcessStarted "ReconcileError"
                      (trimmed (ob_ErrorMessage obs)))]
  end.

(** A warning is raised when the observation carries one and cleared when an
    earlier one is there. *)
Definition warning_updates (existing : bool) : list (nat * Condition) :=
  let warn := trimmed (ob_WarningMessage obs) in
  if negb (String.eqb warn "") then [(5%nat, cond_true ConditionSpecWarning "SpecWarning" warn)]
  else if existing
       then [(5%nat, cond_false ConditionSpecWarning "NoSpecWarning" "no spec warning")]
       else [].

Definition health_updates : list (nat * Condition) :=
  match ob_Healthy obs with
  | None => []
  | Some true => [(6%nat, cond_true ConditionHealthy "Healthy" "process healthy")]
  | Some false => [(6%nat, cond_false ConditionHealthy "Unhealthy" "process reported unhealthy")]
  end.

Definition observation_updates (changed existing : bool) : list (nat * Condition) :=
  connected_updates ++ spec_updates changed ++ downloaded_updates ++ verified_updates ++
  started_updates ++ warning_updates existing ++ health_updates.

(** The phase: failed on an error, running when started or healthy. *)
Definition observed_phase : string :=
  if negb (String.eqb (trimmed (ob_ErrorMessage obs)) "") then DeviceProcessPhaseFailed
  else match ob_ProcessStarted obs, ob_Healthy obs with
       | Some true, _ | _, Some true => DeviceProcessPhaseRunning
       | _, _ => DeviceProcessPhasePending
       end.

(** [None] when the start time does not parse. *)
Definition observed_start : option (option Z) :=
  if String.eqb (TrimSpace (ob_StartTime obs)) "" then Some None
  else Some <$> parse_rfc3339 (ob_StartTime obs).

Definition has_warning (st : Status) : bool :=
  match FindCondition (st_Conditions st) ConditionSpecWarning with Some _ => true | None => false end.

(** The status an observation leads to. *)
Definition observed_status (now : nat → Z) (start : option Z) (st : Status) : Status :=
  mkStatus observed_phase
    (apply_updates now (observation_updates (spec_changed obs st) (has_warning st)) (st_Conditions st))
    (if spec_changed obs st then ob_ObservedSpecHash obs else st_ObservedSpecHash st)
    runtimeSemanticsDaemonSet (st_ArtifactVersion st)
    (TrimSpace (ob_ArtifactDigest obs)) (ob_ArtifactDownloadAttempts obs)
    (TrimSpace (ob_LastArtifactAttemptTime obs)) (TrimSpace (ob_ArtifactLastError obs))
    (ob_PID obs) start (st_LastTransitionTime st) (st_RestartCount st)
    (st_LastTerminationReason st).
End specification.

(** ** Lemmas *)

Definition upd (now : nat → Z) (us : list (nat * Condition)) (st : Status) : Status :=
  set_Conditions (apply_updates now us (st_Conditions st)) st.

Section stages.
Context (now : nat → Z) (obs : Observation) (reportedAt : option Z).

Lemma upd_nil st : upd now [] st = st.
Proof. by destruct st. Qed.

Lemma setAgentConnected_upd st :
  (setAgentConnected (now 0%nat) true connectedReason connectedMessage st).1 =
    upd now connected_updates st.
Proof. unfold setAgentConnected. by repeat case_match. Qed.

Lemma observe_spec_upd st :
  observe_spec now obs reportedAt st =
    set_ObservedSpecHash
      (if spec_changed obs st then ob_ObservedSpecHash obs else st_ObservedSpecHash st)
      (upd now (spec_updates obs reportedAt (spec_changed obs st)) st).
Proof. unfold observe_spec, spec_updates. by destruct (spec_changed obs st), st. Qed.

Lemma artifact_downloaded_upd st :
  artifact_downloaded now obs st = upd now (downloaded_updates obs) st.
Proof.
  unfold artifact_downloaded, mark_artifact, downloaded_updates, artifact_updates.
  by destruct (ob_ArtifactDownloaded obs) as [[]|], st.
Qed.

Lemma artifact_verified_upd st :
  artifact_verified now obs st = upd now (verified_updates obs) st.
Proof.
  unfold artifact_verified, mark_artifact, verified_updates, artifact_updates.
  by destruct (ob_ArtifactVerified obs) as [[]|], st.
Qed.

Lemma process_started_upd st : process_started now obs st = upd now (started_updates obs) st.
Proof.
  unfold process_started, started_updates.
  destruct (ob_ProcessStarted obs) as [[]|]; [done| |by destruct st].
  by destruct (String.eqb _ _).
Qed.

Lemma spec_warning_upd st :
  (spec_warning now obs st).1 = upd now (warning_updates obs (has_warning st)) st.
Proof.
  unfold spec_warning, warning_updates, has_warning.
  destruct (String.eqb _ _); simpl; [|done].
  destruct (FindCondition _ _); [done|by destruct st].
Qed.

Definition health_phase (phase : string) : string :=
  match ob_Healthy obs with
  | Some true =>
      if String.eqb phase DeviceProcessPhasePending || String.eqb phase ""
      then DeviceProcessPhaseRunning else phase
  | _ => phase
  end.

Lemma health_upd st :
  health now obs st = set_Phase (health_phase (st_Phase st)) (upd now (health_updates obs) st).
Proof.
  unfold health, health_updates, health_phase.
  destruct (ob_Healthy obs) as [[]|]; [|by destruct st|by destruct st].
  destruct st; simpl. by destruct (_ || _).
Qed.

Lemma observed_phase_health : health_phase (normalized_phase obs) = observed_phase obs.
Proof.
  unfold health_phase, normalized_phase, observed_phase.
  destruct (negb _), (ob_ProcessStarted obs) as [[]|], (ob_Healthy obs) as [[]|]; done.
Qed.

(** The types touched before the spec warning do not include it. *)
Lemma has_warning_upd us st :
  ConditionSpecWarning ∉ update_types us → has_warning (upd now us st) = has_warning st.
Proof. intros H. unfold has_warning. simpl. by rewrite apply_updates_other. Qed.
End stages.

(** The condition types an observation touches, in the order of the code. *)
Definition observation_types : list string :=
  [ConditionAgentConnected] ++ [ConditionSpecObserved] ++ [ConditionArtifactDownloaded] ++
  [ConditionArtifactVerified] ++ [ConditionProcessStarted] ++ [ConditionSpecWarning] ++
  [ConditionHealthy].

Ltac sublist_piece :=
  repeat case_match; (reflexivity || apply sublist_nil_l).

Lemma observation_updates_types obs reportedAt changed existing :
  update_types (observation_updates obs reportedAt changed existing) `sublist_of` observation_types.
Proof.
  unfold observation_updates, observation_types, update_types. rewrite !fmap_app.
  repeat apply sublist_app;
    unfold spec_updates, downloaded_updates, verified_updates, artifact_updates,
      started_updates, warning_updates, health_updates; sublist_piece.
Qed.

Lemma observation_updates_nodup obs reportedAt changed existing :
  NoDup (update_types (observation_updates obs reportedAt changed existing)).
Proof.
  eapply sublist_NoDup; [|apply observation_updates_types].
  apply (bool_decide_unpack _). vm_compute. exact I.
Qed.

(** The status just before the spec warning is looked at: phase and all. *)
Definition before_warning (now : nat → Z) (obs : Observation) (reportedAt : option Z)
    (st : Status) : Status :=
  set_Phase (normalized_phase obs)
    (set_Artifact (TrimSpace (ob_ArtifactDigest obs)) (ob_ArtifactDownloadAttempts obs)
       (TrimSpace (ob_LastArtifactAttemptTime obs)) (TrimSpace (ob_ArtifactLastError obs))
       (set_RuntimeSemantics runtimeSemanticsDaemonSet
          (set_ObservedSpecHash
             (if spec_changed obs st then ob_ObservedSpecHash obs else st_ObservedSpecHash st)
             (upd now (connected_updates ++ spec_updates obs reportedAt (spec_changed obs st) ++
                       downloaded_updates obs ++ verified_updates obs ++ started_updates obs) st)))).

Lemma before_warning_types obs reportedAt changed :
  ConditionSpecWarning ∉
    update_types (connected_updates ++ spec_updates obs reportedAt changed ++
                  downloaded_updates obs ++ verified_updates obs ++ started_updates obs).
Proof.
  pose proof (observation_updates_nodup obs reportedAt changed true) as Hd.
  unfold observation_updates in Hd. rewrite !app_assoc in Hd. rewrite !app_assoc.
  rewrite <-(app_assoc _ (warning_updates obs true)) in Hd.
  unfold update_types in *. rewrite fmap_app in Hd. apply NoDup_app in Hd as (_ & Hd & _).
  intros Hin. apply (Hd _ Hin). rewrite fmap_app. apply elem_of_app. left.
  unfold warning_updates. case_match; constructor.
Qed.

Lemma spec_warning_snd now obs st st' :
  FindCondition (st_Conditions st) ConditionSpecWarning =
    FindCondition (st_Conditions st') ConditionSpecWarning →
  (spec_warning now obs st).2 = (spec_warning now obs st').2.
Proof. intros H. unfold spec_warning. rewrite H. by repeat case_match. Qed.

Lemma setAgentConnected_init now st :
  (setAgentConnected now true connectedReason connectedMessage (init_phase st)).2 =
    (setAgentConnected now true connectedReason connectedMessage st).2.
Proof.
  unfold init_phase, setAgentConnected.
  destruct (String.eqb (st_Phase st) ""), st; simpl; by repeat case_match.
Qed.

Lemma applyObservation_before_warning now obs reportedAt st :
  normalize_phase obs (process_started now obs (artifact_telemetry obs
    (artifact_verified now obs (artifact_downloaded now obs
      (observe_spec now obs reportedAt
        (setAgentConnected (now 0%nat) true connectedReason connectedMessage (init_phase st)).1))))) =
  before_warning now obs reportedAt st.
Proof.
  rewrite process_started_upd, artifact_verified_upd, artifact_downloaded_upd,
    observe_spec_upd, setAgentConnected_upd.
  assert (spec_changed obs (upd now connected_updates (init_phase st)) = spec_changed obs st) as ->.
  { unfold init_phase. by destruct (String.eqb (st_Phase st) ""), st. }
  unfold before_warning, upd. rewrite !apply_updates_app.
  unfold init_phase. by destruct (String.eqb (st_Phase st) ""), st.
Qed.

Lemma observed_status_stages now obs reportedAt start st :
  set_StartTime start (set_PID (ob_PID obs)
    (set_Phase (health_phase obs (st_Phase (before_warning now obs reportedAt st)))
       (upd now (health_updates obs)
          (upd now (warning_updates obs (has_warning st)) (before_warning now obs reportedAt st))))) =
  observed_status obs reportedAt now start st.
Proof.
  unfold observed_status, before_warning, observation_updates, upd.
  rewrite <-observed_phase_health, !apply_updates_app. reflexivity.
Qed.

(** The body of the loop, stage by stage, computes the specified status. *)
Lemma applyObservation_eq now obs reportedAt st :
  applyObservation now obs reportedAt st =
    match observed_start obs with
    | None => Err (mkApiError BadRequest "invalid startTime")
    | Some start =>
        Ok (observed_status obs reportedAt now start st,
            mkChanges
              (setAgentConnected (now 0%nat) true connectedReason connectedMessage st).2
              (spec_changed obs st)
              (spec_warning now obs st).2)
    end.
Proof.
  unfold applyObservation.
  rewrite (surjective_pairing (setAgentConnected _ _ _ _ (init_phase st))).
  assert (spec_changed obs (setAgentConnected (now 0%nat) true connectedReason connectedMessage
            (init_phase st)).1 = spec_changed obs st) as ->.
  { rewrite setAgentConnected_upd. unfold init_phase.
    by destruct (String.eqb (st_Phase st) ""), st. }
  rewrite applyObservation_before_warning, setAgentConnected_init.
  rewrite (surjective_pairing (spec_warning now obs (before_warning now obs reportedAt st))).
  assert (FindCondition (st_Conditions (before_warning now obs reportedAt st)) ConditionSpecWarning =
          FindCondition (st_Conditions st) ConditionSpecWarning) as Hw.
  { exact (apply_updates_other now _ _ _ (before_warning_types obs reportedAt _)). }
  rewrite (spec_warning_snd _ _ _ _ Hw), spec_warning_upd, health_upd.
  assert (has_warning (before_warning now obs reportedAt st) = has_warning st) as ->.
  { unfold has_warning. by rewrite Hw. }
  unfold process_identity, observed_start.
  destruct (String.eqb (TrimSpace (ob_StartTime obs)) "").
  { by rewrite <-observed_status_stages. }
  destruct (parse_rfc3339 (ob_StartTime obs)); simpl; [|done].
  by rewrite <-observed_status_stages.
Qed.

Lemma conditionsEqual_spec a b : conditionsEqual a b = true ↔ same_conditions a b.
Proof.
  revert b. induction a as [|x a IH]; intros [|y b]; simpl; split; intros H;
    try done; try (by inversion H); try constructor.
  - by bool_prop.
  - bool_prop. by apply IH.
  - inversion H; subst. apply andb_true_iff. by rewrite IH.
Qed.

Lemma equalTimePtr_refl t : equalTimePtr t t = true.
Proof. destruct t; simpl; [apply Z.eqb_refl|done]. Qed.

(** Applying the same observation to its own result needs no new update. *)
Section idempotence.
Context (obs : Observation) (r r' : option Z) (now : nat → Z) (start : option Z) (st : Status).
Let st' := observed_status obs r now start st.

Lemma spec_changed_settled : spec_changed obs st' = false.
Proof.
  unfold st', spec_changed at 1. simpl.
  destruct (spec_changed obs st) eqn:E; [by rewrite String.eqb_refl, andb_false_r|exact E].
Qed.

Lemma warning_settled :
  warning_updates obs (has_warning st') ⊆ warning_updates obs (has_warning st).
Proof.
  unfold warning_updates. destruct (String.eqb (trimmed (ob_WarningMessage obs)) "") eqn:E; simpl;
    [|done].
  destruct (has_warning st) eqn:Hw; [by case_match; [|apply list_subseteq_nil]|].
  assert (has_warning st' = false) as ->; [|done].
  assert (ConditionSpecWarning ∉ update_types (observation_updates obs r (spec_changed obs st) false)) as Hn.
  { pose proof (before_warning_types obs r (spec_changed obs st)) as Hb.
    unfold observation_updates, update_types in *. rewrite !fmap_app, !not_elem_of_app in *.
    destruct_and! Hb. split_all; try done.
    - unfold warning_updates. rewrite E. apply not_elem_of_nil.
    - unfold health_updates. destruct (ob_Healthy obs) as [[]|]; simpl; set_solver. }
  unfold has_warning in *. unfold st', observed_status. cbn [st_Conditions].
  rewrite apply_updates_other; unfold has_warning; [done|]. by rewrite Hw.
Qed.

Lemma updates_settled :
  observation_updates obs r' false (has_warning st') ⊆
  observation_updates obs r (spec_changed obs st) (has_warning st).
Proof.
  pose proof warning_settled as Hw. unfold observation_updates. intros u.
  rewrite !elem_of_app. cbn [spec_updates]. rewrite elem_of_nil. specialize (Hw u). tauto.
Qed.

Lemma conditions_settled now' :
  same_conditions (apply_updates now' (observation_updates obs r' false (has_warning st'))
                     (st_Conditions st')) (st_Conditions st').
Proof.
  apply apply_updates_holds. apply Forall_forall. intros u Hu. apply updates_settled in Hu.
  pose proof (apply_updates_establishes now _ (st_Conditions st)
    (observation_updates_nodup obs r (spec_changed obs st) (has_warning st))) as He.
  rewrite Forall_forall in He. by apply He.
Qed.

Lemma observed_status_settled now' :
  reflectDeepEqualStatus st' (observed_status obs r' now' start st') = true.
Proof.
  assert (conditionsEqual (st_Conditions st')
            (st_Conditions (observed_status obs r' now' start st')) = true) as Hc.
  { apply conditionsEqual_spec. symmetry. simpl. rewrite spec_changed_settled.
    apply conditions_settled. }
  unfold reflectDeepEqualStatus. rewrite Hc. simpl.
  change (observed_status obs r now start st) with st'. rewrite spec_changed_settled.
  by rewrite !String.eqb_refl, !Z.eqb_refl, !equalTimePtr_refl.
Qed.
End idempotence.

(** ** Properties *)

(** Handling the same observation again writes nothing: the status it
    leads to is equal, in the sense the gateway tests before patching, to the
    one already stored, whatever the clock and the report time. *)
Theorem observation_idempotent now now' obs reportedAt reportedAt' st st1 ch :
  applyObservation now obs reportedAt st = Ok (st1, ch) →
  ∃ st2 ch2, applyObservation now' obs reportedAt' st1 = Ok (st2, ch2) ∧
    reflectDeepEqualStatus st1 st2 = true.
Proof.
  rewrite !applyObservation_eq. destruct (observed_start obs) as [start|]; [|done].
  intros [= <- _]. eexists _, _. split; [done|]. apply observed_status_settled.
Qed.

(** An observation of a process that failed to start, and the status it leads
    to from an empty one. *)
Definition sample_observation : Observation :=
  mkObservation "infra" "a" "sha256:00" (Some false) None 0 "" (Some "artifact download failed") None
    "" 2 "2024-01-01T00:00:00Z" "timeout" (Some false) None "OCIPullFailed" "" "" "".

Lemma observation_idempotent_witness :
  ∃ st1 ch, applyObservation (λ _, 7) sample_observation None empty_status = Ok (st1, ch) ∧
  ∃ st2 ch2, applyObservation (λ _, 9) sample_observation (Some 5) st1 = Ok (st2, ch2) ∧
    reflectDeepEqualStatus st1 st2 = true.
Proof.
  destruct (applyObservation (λ _, 7) sample_observation None empty_status) as [[st1 ch]|e] eqn:E;
    [|vm_compute in E; discriminate E].
  exists st1, ch. split; [reflexivity|].
  exact (observation_idempotent _ _ _ _ _ _ _ _ E).
Defined.

(** C40: an observation only touches the conditions it reports: the list stays
    duplicate-free, every other type keeps its condition, and each reported
    one holds at the end with the status of the report. *)
Theorem observation_conditions now obs reportedAt st st1 ch :
  applyObservation now obs reportedAt st = Ok (st1, ch) →
  (wf_conditions (st_Conditions st) → wf_conditions (st_Conditions st1)) ∧
  (∀ ty, ty ∉ observation_types →
     FindCondition (st_Conditions st1) ty = FindCondition (st_Conditions st) ty) ∧
  Forall (λ u, holds u.2 (st_Conditions st1))
    (observation_updates obs reportedAt (spec_changed obs st) (has_warning st)).
Proof.
  rewrite applyObservation_eq. destruct (observed_start obs) as [start|]; [|done].
  intros [= <- _]. cbn [observed_status st_Conditions].
  split; [apply apply_updates_wf|]. split.
  - intros ty Hty. apply apply_updates_other. intros Hin. apply Hty.
    eapply elem_of_sublist; [|apply observation_updates_types]; done.
  - apply apply_updates_establishes, observation_updates_nodup.
Qed.

Lemma observation_conditions_witness :
  ∃ st1 ch, applyObservation (λ _, 7) sample_observation None empty_status = Ok (st1, ch) ∧
    FindCondition (st_Conditions st1) ConditionAvailable = None ∧
    holds (cond_false ConditionProcessStarted "ReconcileError" "artifact download failed")
      (st_Conditions st1).
Proof.
  destruct (applyObservation (λ _, 7) sample_observation None empty_status) as [[st1 ch]|e] eqn:E;
    [|vm_compute in E; discriminate E].
  exists st1, ch. split; [reflexivity|].
  pose proof (observation_conditions _ _ _ _ _ _ E) as (_ & Hother & Hset). split.
  - rewrite Hother; [reflexivity|]. intros H.
    repeat (apply elem_of_cons in H as [H|H]; [discriminate H|]). by apply elem_of_nil in H.
  - rewrite Forall_forall in Hset.
    apply (Hset (4%nat, cond_false ConditionProcessStarted "ReconcileError" "artifact download failed")).
    apply (list_elem_of_lookup_2 _ 3). vm_compute. reflexivity.
Defined.
