(* ===== verification/GatewayServer.v ===== *)
(** * The gateway's HTTP handlers and staleness loop (gateway/server.go)

    Each handler is a computation over the gateway's maps ([self]), the
    Kubernetes API ([env]) and the clock; its calls that change something
    outside, status patches and events, are in the trace.  A request carries the
    headers the code reads and, for a report, the body as [encoding/json]
    decodes it ([None] when it does not, or is larger than the limit). *)

From S2P Require Import Prelude GoStrings GoTime GoCrypto Api Conditions SpecHash Kube.
From S2P Require Import GatewayState GatewayStatus.

#[local] Open Scope go_scope.

(** ** Messages *)

Record DesiredItem := mkDesiredItem {
  di_UID : string;
  di_Namespace : string;
  di_Name : string;
  di_Generation : Z;
  di_Spec : DeviceProcessSpec;
  di_SpecHash : string
}.

Record DesiredResponse := mkDesiredResponse {
  de_DeviceName : string;
  de_HeartbeatIntervalSeconds : Z;
  de_Items : list DesiredItem
}.

Record ReportRequest := mkReportRequest {
  rr_AgentVersion : string;
  rr_Timestamp : string;
  rr_Heartbeat : bool;
  rr_Observations : list Observation
}.

Record Request := mkRequest {
  rq_Method : string;
  rq_Path : string;
  rq_DeviceToken : string;
  rq_IfNoneMatch : string;
  rq_Report : option ReportRequest
}.

Inductive Payload :=
  | NoBody
  | Text (s : string)
  | DesiredBody (d : DesiredResponse)
  | ReportAck.

Record Response := mkResponse {
  rs_Status : Z;
  rs_ETag : option string;
  rs_Body : Payload
}.

Definition StatusOK : Z := 200.
Definition StatusNotModified : Z := 304.
Definition StatusBadRequest : Z := 400.
Definition StatusUnauthorized : Z := 401.
Definition StatusNotFound : Z := 404.
Definition StatusMethodNotAllowed : Z := 405.
Definition StatusInternalServerError : Z := 500.

Definition http_error (status : Z) (msg : string) : Response := mkResponse status None (Text msg).
Definition http_not_found : Response := http_error StatusNotFound "404 page not found".
Definition method_not_allowed : Response := mkResponse StatusMethodNotAllowed None NoBody.
Definition ack : Response := mkResponse StatusOK None ReportAck.

(** What the gateway does outside: a status patch, or an event on an object. *)
Inductive GatewayCall :=
  | CallPatch (before after : DeviceProcess)
  | CallEvent (object : DeviceProcess) (eventtype reason message : string).

Definition EventTypeNormal : string := "Normal".
Definition EventTypeWarning : string := "Warning".

(** ** Hashing the desired state *)

Definition desired_line (item : DesiredItem) : string :=
  di_Namespace item +:+ "/" +:+ di_Name item +:+ "/" +:+ pretty (di_Generation item) +:+
  "/" +:+ di_SpecHash item +:+ ";".

(** The text that is hashed: one line per item. *)
Definition desired_text (items : list DesiredItem) : string :=
  foldr (λ item acc, desired_line item +:+ acc) EmptyString items.

Definition hashDesired (items : list DesiredItem) : string :=
  str1 dquote +:+ hex (sha256 (desired_text items)) +:+ str1 dquote.

(** The order of the items of a response. *)
Definition item_less (a b : DesiredItem) : bool :=
  if String.eqb (di_Namespace a) (di_Namespace b)
  then String.ltb (di_Name a) (di_Name b)
  else String.ltb (di_Namespace a) (di_Namespace b).

Definition desired_item (proc : DeviceProcess) : DesiredItem :=
  mkDesiredItem (om_UID (dp_Meta proc)) (dp_Namespace proc) (dp_Name proc)
    (om_Generation (dp_Meta proc)) (dp_Spec proc) (hashSpec (dp_Spec proc)).

Definition desired_items `{SortSlice} (processes : list DeviceProcess) : list DesiredItem :=
  sort_slice item_less (desired_item <$> processes).

(** ** Authorization *)

Definition computeDeviceToken (secret device : string) : string := hex (hmac_sha256 secret device).

Definition devices_prefix : string := "v1/devices/".

(** The device named by the path, as [authorize] reads it. *)
Definition token_device (path : string) : string :=
  before_byte slash (TrimPrefix (TrimPrefix path (str1 slash)) devices_prefix).

Definition authorize (cfg : Config) (r : Request) : bool :=
  let header := TrimSpace (rq_DeviceToken r) in
  let device := token_device (rq_Path r) in
  if negb (String.eqb (authSecret cfg) "") && negb (String.eqb device "") &&
     String.eqb header (computeDeviceToken (authSecret cfg) device)
  then true
  else if String.eqb (authToken cfg) "" then true
  else String.eqb header (authToken cfg).

(** The components of the path, as [handleDevice] reads them. *)
Definition path_parts (path : string) : list string := Split slash (Trim slash path).

Section server.
Context {S : Type} `{GatewayClient S} `{SortSlice} (cfg : Config).

Abbreviation GW := (M Gateway S GatewayCall).

Definition record_heartbeat (device : string) (hint : Z) : GW unit :=
  now <- time_now ;; modify (recordHeartbeat now device hint).

Definition record_report (device : string) : GW unit :=
  now <- time_now ;; modify (recordReport now device).

(** ** Reading and patching DeviceProcesses *)

Definition listDeviceProcesses (device : string) : GW (result ApiError (list DeviceProcess)) :=
  r <- ask (list_by_device device) ;;
  ret (match r with
       | Err e => Err e
       | Ok items => Ok (filter (λ p, dp_DeviceName p = device) items)
       end).

Definition patch (before after : DeviceProcess) : GW (result ApiError unit) :=
  call (CallPatch before after) (patch_status before after).

Definition event (p : DeviceProcess) (ty reason msg : string) : GW unit :=
  emit (CallEvent p ty reason msg).

(** The events of a successful patch. *)
Definition observation_events (device : string) (p : DeviceProcess) (obs : Observation)
    (reportedAt : option Z) (ch : Changes) : GW unit :=
  when (connectedChanged ch)
    (event p EventTypeNormal "AgentConnected" ("device " +:+ device +:+ " connected")) ;;;
  when (specObservedChanged ch)
    (let msg := "hash " +:+ ob_ObservedSpecHash obs in
     event p EventTypeNormal "SpecObserved"
       (match reportedAt with
        | Some t => msg +:+ " at " +:+ format_rfc3339 t
        | None => msg
        end)) ;;;
  when (specWarningChanged ch && negb (String.eqb (trimmed (ob_WarningMessage obs)) ""))
    (event p EventTypeWarning "SpecWarning" (trimmed (ob_WarningMessage obs))) ;;;
  when (match ob_ProcessStarted obs with Some b => b | None => false end)
    (event p EventTypeNormal "ProcessStarted" "process started") ;;;
  match ob_Healthy obs with
  | None => ret tt
  | Some b =>
      event p (if b then EventTypeNormal else EventTypeWarning) "Healthy" "process health reported"
  end.

(** One round of the retry loop: [None] means another round ([continue]). *)
Definition observation_round (device : string) (obs : Observation) (reportedAt : option Z)
    : GW (option (result ApiError unit)) :=
  r <- ask (get_process (ob_Namespace obs, ob_Name obs)) ;;
  match r with
  | Err e => ret (Some (Err e))
  | Ok proc =>
      if negb (String.eqb (dp_DeviceName proc) device) then
        ret (Some (Err (mkApiError BadRequest
          ("device " +:+ device +:+ " not authorized for " +:+
           dp_Namespace proc +:+ "/" +:+ dp_Name proc))))
      else
        now <- time_window 7 ;;
        match applyObservation now obs reportedAt (dp_Status proc) with
        | Err e => ret (Some (Err e))
        | Ok (status, changes) =>
            if reflectDeepEqualStatus (dp_Status proc) status then ret (Some (Ok tt))
            else
              let after := set_dp_Status status proc in
              p <- patch proc after ;;
              match p with
              | Err e => if IsConflict e then ret None else ret (Some (Err e))
              | Ok _ =>
                  observation_events device after obs reportedAt changes ;;;
                  ret (Some (Ok tt))
              end
        end
  end.

Fixpoint observation_loop (attempts : nat) (device : string) (obs : Observation)
    (reportedAt : option Z) : GW (result ApiError unit) :=
  match attempts with
  | O => ret (Err (mkApiError Conflict "status patch conflict after retries"))
  | Datatypes.S n =>
      r <- observation_round device obs reportedAt ;;
      match r with
      | Some v => ret v
      | None => observation_loop n device obs reportedAt
      end
  end.

Definition maxAttempts : nat := 3.

Definition updateStatusForObservation : string → Observation → option Z → GW (result ApiError unit) :=
  observation_loop maxAttempts.

(** The loop of [markDeviceConnected] and [markDeviceDisconnected] over the
    processes of a device; [Some e] is its early return. *)
Definition mark_process (connected : bool) (reason message : string)
    (finish : Status → Status) (ev_type ev_reason ev_msg : string) (proc : DeviceProcess)
    : GW (option ApiError) :=
  now <- time_now ;;
  let '(status, changed) := setAgentConnected now connected reason message (dp_Status proc) in
  if negb changed then ret None
  else
    let after := set_dp_Status (finish status) proc in
    p <- patch proc after ;;
    match p with
    | Err e => ret (Some e)
    | Ok _ => event after ev_type ev_reason ev_msg ;;; ret None
    end.

Definition markDeviceConnected (device : string) : GW (option ApiError) :=
  r <- listDeviceProcesses device ;;
  match r with
  | Err e => ret (Some e)
  | Ok procs =>
      e <- for_each procs (mark_process true connectedReason connectedMessage (λ st, st)
             EventTypeNormal "AgentConnected" "device connected") ;;
      match e with
      | Some e => ret (Some e)
      | None => record_report device ;;; ret None
      end
  end.

Definition pending_if_empty (st : Status) : Status :=
  if String.eqb (st_Phase st) "" then set_Phase DeviceProcessPhasePending st else st.

Definition markDeviceDisconnected (device : string) : GW (option ApiError) :=
  r <- listDeviceProcesses device ;;
  match r with
  | Err e => ret (Some e)
  | Ok procs =>
      for_each procs (mark_process false "AgentDisconnected" "device stale (no recent reports)"
        pending_if_empty EventTypeWarning "AgentDisconnected" ("device " +:+ device +:+ " stale"))
  end.

(** The body of the staleness loop: errors are logged and the next device is
    looked at. *)
Definition markStaleDevices : GW unit :=
  now <- time_now ;;
  g <- get_self ;;
  for_each (staleDevices cfg now g) (λ dv, markDeviceDisconnected dv.1 ;;; ret (@None unit)) ;;;
  ret tt.

(** ** Handlers *)

Definition computeDesired (device : string) : GW (result ApiError (DesiredResponse * string)) :=
  r <- listDeviceProcesses device ;;
  match r with
  | Err e => ret (Err e)
  | Ok processes =>
      let items := desired_items processes in
      heartbeat <- locked (desiredHeartbeat device) ;;
      ret (Ok (mkDesiredResponse device heartbeat items, hashDesired items))
  end.

Definition recordDesiredHeartbeatIfEligible (device : string) : GW unit :=
  now <- time_now ;;
  g <- get_self ;;
  match desiredEligible cfg now device g with
  | None => ret tt
  | Some heartbeat => record_heartbeat device heartbeat
  end.

Definition handleDesired (r : Request) (device : string) : GW Response :=
  d <- computeDesired device ;;
  match d with
  | Err _ => ret (http_error StatusInternalServerError "failed to compute desired state")
  | Ok (desired, etag) =>
      recordDesiredHeartbeatIfEligible device ;;;
      let inm := TrimSpace (rq_IfNoneMatch r) in
      if negb (String.eqb inm "") && String.eqb inm etag
      then ret (mkResponse StatusNotModified (Some etag) NoBody)
      else ret (mkResponse StatusOK (Some etag) (DesiredBody desired))
  end.

(** One observation of a report; [Some response] ends the request. *)
Definition report_observation (device : string) (reportedAt : Z) (obs : Observation)
    : GW (option Response) :=
  r <- updateStatusForObservation device obs (Some reportedAt) ;;
  match r with
  | Ok _ => ret None
  | Err e =>
      if IsBadRequest e then ret (Some (http_error StatusBadRequest (err_Message e)))
      else if IsNotFound e then ret None
      else ret (Some (http_error StatusInternalServerError "failed to apply observation"))
  end.

(** From the accepted report on. *)
Definition process_report (device : string) (observations : list Observation) (reportedAt : Z)
    : GW Response :=
  now <- time_now ;;
  g <- get_self ;;
  let '(prevSeen, hb) := lastSeenAndHeartbeat cfg device g in
  let stale := IsZero prevSeen || (staleAfter cfg hb <? Sub now prevSeen) in
  record_heartbeat device hb ;;;
  record_report device ;;;
  e <- (if stale then markDeviceConnected device else ret None) ;;
  match e with
  | Some _ => ret (http_error StatusInternalServerError "failed to mark device connected")
  | None =>
      r <- for_each observations (report_observation device reportedAt) ;;
      ret (default ack r)
  end.

Definition handleReport (r : Request) (device : string) : GW Response :=
  match rq_Report r with
  | None => ret (http_error StatusBadRequest "invalid JSON body")
  | Some req =>
      if String.eqb (rr_Timestamp req) "" then
        now <- time_now ;; process_report device (rr_Observations req) now
      else
        match parse_rfc3339 (rr_Timestamp req) with
        | None => ret (http_error StatusBadRequest "invalid timestamp")
        | Some t => process_report device (rr_Observations req) t
        end
  end.

Definition handleConnect (device : string) : GW Response :=
  g <- get_self ;;
  record_heartbeat device (effectiveHeartbeat cfg device g) ;;;
  record_report device ;;;
  e <- markDeviceConnected device ;;
  match e with
  | Some _ => ret (http_error StatusInternalServerError "failed to mark device connected")
  | None => ret ack
  end.

Definition handleDevice (r : Request) : GW Response :=
  match path_parts (rq_Path r) with
  | _ :: _ :: device :: action :: _ =>
      if negb (authorize cfg r) then ret (http_error StatusUnauthorized "unauthorized")
      else if String.eqb action "desired" then
        if String.eqb (rq_Method r) "GET" then handleDesired r device else ret method_not_allowed
      else if String.eqb action "report" then
        if String.eqb (rq_Method r) "POST" then handleReport r device else ret method_not_allowed
      else if String.eqb action "connect" then
        if String.eqb (rq_Method r) "POST" then handleConnect device else ret method_not_allowed
      else ret http_not_found
  | _ => ret http_not_found
  end.

End server.
