(* ===== verification/GatewayThreads.v ===== *)
(** * The gateway's handlers as threads

    The HTTP server runs each request in a goroutine of its own, next to the
    staleness loop.  Here is the thread of each handler, by its definition in
    [GatewayServer]: its steps are the critical sections of the gateway's lock,
    the calls of the Kubernetes client and the events.  [recordHeartbeat] and
    [recordReport] read the clock inside their critical section. *)

From S2P Require Import Prelude Threads GoStrings GoTime Api Conditions Kube.
From S2P Require Import GatewayState GatewayStatus GatewayServer.

#[local] Open Scope go_scope.

Section handlers.
Context {S : Type} `{GatewayClient S} `{SortSlice} (cfg : Config).

#[export] Instance threaded_record_heartbeat device hint :
  Threaded (record_heartbeat (S:=S) device hint) :=
  threaded_act (ALockedNow (λ now g, (tt, recordHeartbeat now device hint g))) _ eq_refl.

#[export] Instance threaded_record_report device : Threaded (record_report (S:=S) device) :=
  threaded_act (ALockedNow (λ now g, (tt, recordReport now device g))) _ eq_refl.

#[export] Instance threaded_listDeviceProcesses device :
  Threaded (listDeviceProcesses (S:=S) device).
Proof. unfold listDeviceProcesses. apply _. Defined.

#[export] Instance threaded_patch before after : Threaded (patch (S:=S) before after) :=
  threaded_call (CallPatch before after) (patch_status before after).

#[export] Instance threaded_event p ty reason msg : Threaded (event (S:=S) p ty reason msg) :=
  threaded_emit (CallEvent p ty reason msg).

#[export] Instance threaded_observation_events device p obs reportedAt ch :
  Threaded (observation_events (S:=S) device p obs reportedAt ch).
Proof. unfold observation_events. apply _. Defined.

#[export] Instance threaded_observation_round device obs reportedAt :
  Threaded (observation_round (S:=S) device obs reportedAt).
Proof. unfold observation_round. apply _. Defined.

#[export] Instance threaded_observation_loop n device obs reportedAt :
  Threaded (observation_loop (S:=S) n device obs reportedAt).
Proof. induction n as [|n IH]; cbn [observation_loop]; apply _. Defined.

#[export] Instance threaded_updateStatusForObservation device obs reportedAt :
  Threaded (updateStatusForObservation (S:=S) device obs reportedAt) :=
  threaded_observation_loop maxAttempts device obs reportedAt.

#[export] Instance threaded_mark_process c reason message finish ty er em p :
  Threaded (mark_process (S:=S) c reason message finish ty er em p).
Proof. unfold mark_process. apply _. Defined.

#[export] Instance threaded_markDeviceConnected device : Threaded (markDeviceConnected (S:=S) device).
Proof. unfold markDeviceConnected. apply _. Defined.

#[export] Instance threaded_markDeviceDisconnected device :
  Threaded (markDeviceDisconnected (S:=S) device).
Proof. unfold markDeviceDisconnected. apply _. Defined.

#[export] Instance threaded_markStaleDevices : Threaded (markStaleDevices (S:=S) cfg).
Proof. unfold markStaleDevices. apply _. Defined.

#[export] Instance threaded_computeDesired device : Threaded (computeDesired (S:=S) device).
Proof. unfold computeDesired. apply _. Defined.

#[export] Instance threaded_recordDesiredHeartbeatIfEligible device :
  Threaded (recordDesiredHeartbeatIfEligible (S:=S) cfg device).
Proof. unfold recordDesiredHeartbeatIfEligible. apply _. Defined.

#[export] Instance threaded_handleDesired r device : Threaded (handleDesired (S:=S) cfg r device).
Proof. unfold handleDesired. apply _. Defined.

#[export] Instance threaded_report_observation device reportedAt obs :
  Threaded (report_observation (S:=S) device reportedAt obs).
Proof. unfold report_observation. apply _. Defined.

#[export] Instance threaded_process_report device observations reportedAt :
  Threaded (process_report (S:=S) cfg device observations reportedAt).
Proof.
  unfold process_report. apply threaded_bind; [apply _|intros now].
  apply threaded_bind; [apply _|intros g]. destruct (lastSeenAndHeartbeat cfg device g) as [prevSeen hb].
  cbv zeta. apply _.
Defined.

#[export] Instance threaded_handleReport r device : Threaded (handleReport (S:=S) cfg r device).
Proof. unfold handleReport. apply _. Defined.

#[export] Instance threaded_handleConnect device : Threaded (handleConnect (S:=S) cfg device).
Proof. unfold handleConnect. apply _. Defined.

#[export] Instance threaded_handleDevice r : Threaded (handleDevice (S:=S) cfg r).
Proof. unfold handleDevice. apply _. Defined.
End handlers.
