(* ===== verification/Wire.v ===== *)
(** * The messages between the agents and the gateway

    Reports and desired states travel as JSON: their encodings, the decoders of the
    other side, and that every message arrives as it was sent, provided its
    strings are valid UTF-8 and its integers fit their fields. *)

From S2P Require Import Prelude GoStrings GoUtf8 GoTime GoCrypto GoJson GoJsonFacts GoJsonCodec Api SpecHash SpecCodec.
From S2P Require Import GatewayState GatewayStatus GatewayServer.

(** A slice of structs without [omitempty], the nil one as the empty list. *)
Definition json_list {A} `{Codec A} (l : list A) : json :=
  match l with [] => JNull | _ => JArray (enc <$> l) end.

(** ** Reports *)

Definition json_Observation (o : Observation) : json :=
  JObject ([("namespace", JString (ob_Namespace o)); ("name", JString (ob_Name o));
            ("observedSpecHash", JString (ob_ObservedSpecHash o))] ++
           omit_pointer "processStarted" JBool (ob_ProcessStarted o) ++
           omit_pointer "healthy" JBool (ob_Healthy o) ++
           [("pid", JNumber (ob_PID o)); ("startTime", JString (ob_StartTime o))] ++
           omit_pointer "errorMessage" JString (ob_ErrorMessage o) ++
           omit_pointer "warningMessage" JString (ob_WarningMessage o) ++
           omit_string "artifactDigest" (ob_ArtifactDigest o) ++
           omit_number "artifactDownloadAttempts" (ob_ArtifactDownloadAttempts o) ++
           omit_string "lastArtifactAttemptTime" (ob_LastArtifactAttemptTime o) ++
           omit_string "artifactLastError" (ob_ArtifactLastError o) ++
           omit_pointer "artifactDownloaded" JBool (ob_ArtifactDownloaded o) ++
           omit_pointer "artifactVerified" JBool (ob_ArtifactVerified o) ++
           omit_string "artifactDownloadReason" (ob_ArtifactDownloadReason o) ++
           omit_string "artifactDownloadMessage" (ob_ArtifactDownloadMessage o) ++
           omit_string "artifactVerifyReason" (ob_ArtifactVerifyReason o) ++
           omit_string "artifactVerifyMessage" (ob_ArtifactVerifyMessage o)).

Definition fill_Observation (fs : list (string * json)) (a : Observation) : option Observation :=
  namespace ← get dec_string (ob_Namespace a) "namespace" fs;
  name ← get dec_string (ob_Name a) "name" fs;
  hash ← get dec_string (ob_ObservedSpecHash a) "observedSpecHash" fs;
  started ← get (dec_pointer false dec_bool) (ob_ProcessStarted a) "processStarted" fs;
  healthy ← get (dec_pointer false dec_bool) (ob_Healthy a) "healthy" fs;
  pid ← get (dec_int 64) (ob_PID a) "pid" fs;
  start ← get dec_string (ob_StartTime a) "startTime" fs;
  error ← get (dec_pointer "" dec_string) (ob_ErrorMessage a) "errorMessage" fs;
  warning ← get (dec_pointer "" dec_string) (ob_WarningMessage a) "warningMessage" fs;
  digest ← get dec_string (ob_ArtifactDigest a) "artifactDigest" fs;
  attempts ← get (dec_int 32) (ob_ArtifactDownloadAttempts a) "artifactDownloadAttempts" fs;
  last ← get dec_string (ob_LastArtifactAttemptTime a) "lastArtifactAttemptTime" fs;
  lastError ← get dec_string (ob_ArtifactLastError a) "artifactLastError" fs;
  downloaded ← get (dec_pointer false dec_bool) (ob_ArtifactDownloaded a) "artifactDownloaded" fs;
  verified ← get (dec_pointer false dec_bool) (ob_ArtifactVerified a) "artifactVerified" fs;
  reason ← get dec_string (ob_ArtifactDownloadReason a) "artifactDownloadReason" fs;
  message ← get dec_string (ob_ArtifactDownloadMessage a) "artifactDownloadMessage" fs;
  verifyReason ← get dec_string (ob_ArtifactVerifyReason a) "artifactVerifyReason" fs;
  verifyMessage ← get dec_string (ob_ArtifactVerifyMessage a) "artifactVerifyMessage" fs;
  Some (mkObservation namespace name hash started healthy pid start error warning digest attempts last
          lastError downloaded verified reason message verifyReason verifyMessage).

#[export] Instance Observation_codec : Codec Observation :=
  {| enc := json_Observation; dec := dec_struct fill_Observation; levels := 1;
     zero := mkObservation "" "" "" None None 0 "" None None "" 0 "" "" None None "" "" "" "";
     encodable a := valid_utf8 (ob_Namespace a) && valid_utf8 (ob_Name a) && valid_utf8 (ob_ObservedSpecHash a) &&
       fits 64 (ob_PID a) && valid_utf8 (ob_StartTime a) && from_option valid_utf8 true (ob_ErrorMessage a) &&
       from_option valid_utf8 true (ob_WarningMessage a) && valid_utf8 (ob_ArtifactDigest a) &&
       fits 32 (ob_ArtifactDownloadAttempts a) && valid_utf8 (ob_LastArtifactAttemptTime a) &&
       valid_utf8 (ob_ArtifactLastError a) && valid_utf8 (ob_ArtifactDownloadReason a) &&
       valid_utf8 (ob_ArtifactDownloadMessage a) && valid_utf8 (ob_ArtifactVerifyReason a) &&
       valid_utf8 (ob_ArtifactVerifyMessage a) |}.

Definition json_ReportRequest (r : ReportRequest) : json :=
  JObject [("agentVersion", JString (rr_AgentVersion r)); ("timestamp", JString (rr_Timestamp r));
           ("heartbeat", JBool (rr_Heartbeat r)); ("observations", json_list (rr_Observations r))].

Definition fill_ReportRequest (fs : list (string * json)) (a : ReportRequest) : option ReportRequest :=
  version ← get dec_string (rr_AgentVersion a) "agentVersion" fs;
  timestamp ← get dec_string (rr_Timestamp a) "timestamp" fs;
  heartbeat ← get dec_bool (rr_Heartbeat a) "heartbeat" fs;
  observations ← get (dec_slice zero dec) (rr_Observations a) "observations" fs;
  Some (mkReportRequest version timestamp heartbeat observations).

#[export] Instance ReportRequest_codec : Codec ReportRequest :=
  {| enc := json_ReportRequest; dec := dec_struct fill_ReportRequest; zero := mkReportRequest "" "" false [];
     levels := 3;
     encodable a := valid_utf8 (rr_AgentVersion a) && valid_utf8 (rr_Timestamp a) &&
       forallb encodable (rr_Observations a) |}.

(** [http.MaxBytesReader] cuts a body off after 4 MiB; a report that is cut is
    not decoded. *)
Definition maxReportBodyBytes : Z := Z.shiftl 4 20.

Fixpoint take_upto (n : Z) (s : string) : string :=
  match s with
  | String c r => if n <=? 0 then "" else String c (take_upto (n - 1) r)
  | EmptyString => ""
  end.

Definition decode_report (body : string) : option ReportRequest :=
  decode_first (take_upto maxReportBodyBytes body).

(** ** Desired states *)

Definition json_DesiredItem (i : DesiredItem) : json :=
  JObject (omit_string "uid" (di_UID i) ++
           [("namespace", JString (di_Namespace i)); ("name", JString (di_Name i));
            ("generation", JNumber (di_Generation i)); ("spec", json_Spec (di_Spec i));
            ("specHash", JString (di_SpecHash i))]).

Definition fill_DesiredItem (fs : list (string * json)) (a : DesiredItem) : option DesiredItem :=
  uid ← get dec_string (di_UID a) "uid" fs;
  namespace ← get dec_string (di_Namespace a) "namespace" fs;
  name ← get dec_string (di_Name a) "name" fs;
  generation ← get (dec_int 64) (di_Generation a) "generation" fs;
  spec ← get dec (di_Spec a) "spec" fs;
  hash ← get dec_string (di_SpecHash a) "specHash" fs;
  Some (mkDesiredItem uid namespace name generation spec hash).

#[export] Instance DesiredItem_codec : Codec DesiredItem :=
  {| enc := json_DesiredItem; dec := dec_struct fill_DesiredItem; zero := mkDesiredItem "" "" "" 0 zero "";
     levels := 5;
     encodable a := valid_utf8 (di_UID a) && valid_utf8 (di_Namespace a) && valid_utf8 (di_Name a) &&
       fits 64 (di_Generation a) && encodable (di_Spec a) && valid_utf8 (di_SpecHash a) |}.

(** The items are never nil. *)
Definition json_DesiredResponse (d : DesiredResponse) : json :=
  JObject [("deviceName", JString (de_DeviceName d));
           ("heartbeatIntervalSeconds", JNumber (de_HeartbeatIntervalSeconds d));
           ("items", JArray (enc <$> de_Items d))].

Definition fill_DesiredResponse (fs : list (string * json)) (a : DesiredResponse) : option DesiredResponse :=
  device ← get dec_string (de_DeviceName a) "deviceName" fs;
  heartbeat ← get (dec_int 64) (de_HeartbeatIntervalSeconds a) "heartbeatIntervalSeconds" fs;
  items ← get (dec_slice zero dec) (de_Items a) "items" fs;
  Some (mkDesiredResponse device heartbeat items).

#[export] Instance DesiredResponse_codec : Codec DesiredResponse :=
  {| enc := json_DesiredResponse; dec := dec_struct fill_DesiredResponse; zero := mkDesiredResponse "" 0 [];
     levels := 7;
     encodable a := valid_utf8 (de_DeviceName a) && fits 64 (de_HeartbeatIntervalSeconds a) &&
       forallb encodable (de_Items a) |}.

(** [json.NewEncoder(w).Encode(v)] ends the text with a newline. *)
Definition encode_desired (d : DesiredResponse) : string := marshal d +:+ nl.
Definition decode_desired (body : string) : option DesiredResponse := decode_first body.

Example wire_ex :
  let o := mkObservation "ns" "a" "h" (Some true) None 7 "" (Some "<e>") None "" 0 "" "" None None "" "" "" "" in
  decode_report (marshal (mkReportRequest "v" "t" true [o])) = Some (mkReportRequest "v" "t" true [o]) ∧
  decode_report (ReplaceAll "'" (str1 dquote) "{'Heartbeat':true,'x':[],'observations':null} trailing") =
    Some (mkReportRequest "" "" true []) ∧
  decode_report (ReplaceAll "'" (str1 dquote) "{'heartbeat':1}") = None.
Proof. vm_compute. split_all; reflexivity. Qed.

(** ** Laws *)

Lemma decode_list {A} `{CodecLaws A} l : forallb encodable l = true →
  decode_all (dec_slice zero dec) [clean (json_list l)] [] = Some l.
Proof.
  intros Hl. destruct l as [|a l]; [done|]. unfold json_list. cbn [clean]. rewrite <-list_fmap_compose.
  exact (decode_omit_list (a :: l) Hl).
Qed.

Lemma decode_omit_bool o :
  decode_all (dec_pointer false dec_bool) match o with None => [] | Some b => [clean (JBool b)] end None = Some o.
Proof. by destruct o. Qed.

Lemma decode_omit_message o : from_option valid_utf8 true o = true →
  decode_all (dec_pointer "" dec_string) match o with None => [] | Some s => [clean (JString s)] end None = Some o.
Proof. intros Ho. exact (decode_omit_pointer o Ho (λ a, ltac:(done))). Qed.

Lemma decode_items {A} `{CodecLaws A} l : forallb encodable l = true →
  decode_all (dec_slice zero dec) [clean (JArray (enc <$> l))] [] = Some l.
Proof.
  intros Hl. cbn [clean]. rewrite <-list_fmap_compose. cbn [decode_all dec_slice mbind option_bind].
  change (clean ∘ enc) with (λ x : A, clean (enc x)). by rewrite mapM_clean.
Qed.

(** Bodies, with the fields of reports. *)
#[local] Ltac read_leaf :=
  first [decode_leaf | refine (decode_omit_bool _) | refine (decode_omit_message _ _); done
        | refine (decode_list _ _); done | refine (decode_items _ _); done].

#[export] Instance Observation_codec_laws : CodecLaws Observation.
Proof.
  split; cbn [enc dec zero Observation_codec]; unfold json_Observation.
  - intros a [|d] Hd; [cbn in Hd; lia|].
    depths; apply plain_omit_pointer; intros; first [apply plain_bool|apply plain_string].
  - intros a H. cbn [encodable Observation_codec] in H. valid H. unfold fill_Observation.
    decode_struct_with a fs read_leaf.
Qed.

#[export] Instance ReportRequest_codec_laws : CodecLaws ReportRequest.
Proof.
  split; cbn [enc dec zero ReportRequest_codec]; unfold json_ReportRequest.
  - intros a [|[|[|d]]] Hd; try (cbn in Hd; lia). depths. unfold json_list.
    destruct (rr_Observations a) as [|o l]; [done|]. apply plain_array. intros o'. refine (enc_plain o' _ _). cbn. lia.
  - intros a H. cbn [encodable ReportRequest_codec] in H. valid H. unfold fill_ReportRequest.
    decode_struct_with a fs read_leaf.
Qed.

#[export] Instance DesiredItem_codec_laws : CodecLaws DesiredItem.
Proof.
  split; cbn [enc dec zero DesiredItem_codec]; unfold json_DesiredItem.
  - intros a [|[|[|[|[|d]]]]] Hd; try (cbn in Hd; lia). depths. refine (enc_plain (di_Spec a) _ _). cbn. lia.
  - intros a H. cbn [encodable DesiredItem_codec] in H. valid H. unfold fill_DesiredItem.
    decode_struct_with a fs read_leaf.
Qed.

#[export] Instance DesiredResponse_codec_laws : CodecLaws DesiredResponse.
Proof.
  split; cbn [enc dec zero DesiredResponse_codec]; unfold json_DesiredResponse.
  - intros a [|[|[|[|[|[|[|d]]]]]]] Hd; try (cbn in Hd; lia). depths. apply plain_array.
    intros i. refine (enc_plain i _ _). cbn. lia.
  - intros a H. cbn [encodable DesiredResponse_codec] in H. valid H. unfold fill_DesiredResponse.
    decode_struct_with a fs read_leaf.
Qed.

(** ** Messages arrive as they were sent *)

Lemma take_upto_all n s : Z.of_nat (String.length s) ≤ n → take_upto n s = s.
Proof.
  revert n. induction s as [|c s IH]; intros n Hn; [done|]. cbn [String.length take_upto] in *.
  rewrite (proj2 (Z.leb_gt _ _)) by lia. by rewrite IH by lia.
Qed.

Lemma report_arrives r : encodable r = true → Z.of_nat (String.length (marshal r)) ≤ maxReportBodyBytes →
  decode_report (marshal r) = Some r.
Proof.
  intros Hr Hl. unfold decode_report. rewrite take_upto_all by done.
  rewrite <-(app_empty_r (marshal r)). by apply decode_first_marshal.
Qed.

Lemma desired_arrives d : encodable d = true → decode_desired (encode_desired d) = Some d.
Proof. intros Hd. by apply decode_first_marshal. Qed.
