(* ===== verification/GatewayAuth.v ===== *)
(** * Who may speak for a device

    The device a token is checked against and the device a request is handled
    for are read from the path by different code; they agree.  What a
    configuration accepts is then spelled out. *)

From S2P Require Import Prelude GoStrings GoCrypto GatewayState GatewayServer.

(** ** The device in the path *)

(** A path under the pattern the handler is registered with. *)
Definition device_path (rest : string) : string := str1 slash +:+ devices_prefix +:+ rest.

Lemma Split_devices_prefix s : Split slash (devices_prefix +:+ s) = "v1" :: "devices" :: Split slash s.
Proof. reflexivity. Qed.

Lemma path_parts_device rest device action l x y :
  path_parts (device_path rest) = x :: y :: device :: action :: l →
  before_byte slash rest = device.
Proof.
  unfold path_parts, Trim.
  change (trim_left_by (Ascii.eqb slash) (device_path rest)) with (devices_prefix +:+ rest).
  intros H. destruct (trim_right_by_split (Ascii.eqb slash) rest) as (t & Hrest & _).
  destruct (decide (trim_right_by (Ascii.eqb slash) rest = "")) as [He|Hne].
  { rewrite trim_right_by_app_nil in H by done. discriminate H. }
  rewrite trim_right_by_app in H by done.
  rewrite Split_devices_prefix in H. injection H as _ _ H. apply Split_head in H as [Hb [r Hr]].
  rewrite Hrest. by erewrite before_byte_app_some.
Qed.

Lemma token_device_path rest : token_device (device_path rest) = before_byte slash rest.
Proof. unfold token_device, device_path. by rewrite !TrimPrefix_app. Qed.

(** ** Properties *)

(** The token is checked against the device the request is handled for.
    For every path under the registered pattern, when [handleDevice] finds a
    device and an action in it, [authorize] reads that same device. *)
Theorem handled_device_is_authorized_device rest x y device action l :
  path_parts (device_path rest) = x :: y :: device :: action :: l →
  token_device (device_path rest) = device.
Proof. intros H. rewrite token_device_path. by eapply path_parts_device. Qed.

Lemma handled_device_is_authorized_device_witness :
  path_parts (device_path "tor1-01/report/") = ["v1"; "devices"; "tor1-01"; "report"] ∧
  token_device (device_path "tor1-01/report/") = "tor1-01".
Proof.
  split; [reflexivity|].
  apply (handled_device_is_authorized_device "tor1-01/report/" "v1" "devices" "tor1-01" "report" []).
  reflexivity.
Defined.

(** What is authorized.  A request is accepted exactly when it carries the
    HMAC of a named device under the configured secret, or the shared token, or
    when no shared token is configured. *)
Theorem authorize_iff cfg r :
  authorize cfg r = true ↔
    (authSecret cfg ≠ "" ∧ token_device (rq_Path r) ≠ "" ∧
     TrimSpace (rq_DeviceToken r) = computeDeviceToken (authSecret cfg) (token_device (rq_Path r))) ∨
    authToken cfg = "" ∨
    TrimSpace (rq_DeviceToken r) = authToken cfg.
Proof.
  unfold authorize.
  destruct (String.eqb_spec (authSecret cfg) ""), (String.eqb_spec (token_device (rq_Path r)) ""),
    (String.eqb_spec (TrimSpace (rq_DeviceToken r))
       (computeDeviceToken (authSecret cfg) (token_device (rq_Path r)))),
    (String.eqb_spec (authToken cfg) ""),
    (String.eqb_spec (TrimSpace (rq_DeviceToken r)) (authToken cfg)); simpl; naive_solver.
Qed.

(** A gateway configured with the HMAC secret alone accepts every request:
    the per-device token is never required, whatever the secret, the path and
    the header. *)
Theorem hmac_only_gateway_is_open secret interval multiplier r :
  authorize (New "" secret interval multiplier).1 r = true.
Proof. unfold authorize, New. simpl. by destruct (_ && _). Qed.
