(* ===== verification/GatewayDesired.v ===== *)
(** * The desired state and its ETag

    The items of a response are sorted by namespace and name, so the ETag does
    not depend on the order of the API server's list; and the digest is taken
    over a text from which the items can be read back, so two responses with
    the same ETag have the same items unless SHA-256 collides. *)

From S2P Require Import Prelude GoStrings GoCrypto Api SpecHash Kube Samples GatewayState GatewayServer.

(** ** The order of the items *)

Section order.
Implicit Types a b c : DesiredItem.

Lemma ltb_irrefl_s s : String.ltb s s = false.
Proof. by apply ltb_false_le. Qed.

Lemma item_less_false a b :
  item_less b a = false ↔
    di_Namespace a = di_Namespace b ∧ String.le (di_Name a) (di_Name b) ∨
    di_Namespace a ≠ di_Namespace b ∧ String.le (di_Namespace a) (di_Namespace b).
Proof.
  unfold item_less. destruct (String.eqb_spec (di_Namespace b) (di_Namespace a)) as [E|E];
    rewrite ltb_false_le; naive_solver.
Qed.

Lemma item_less_asym a b : item_less a b = true → item_less b a = false.
Proof.
  rewrite item_less_false. unfold item_less.
  destruct (String.eqb_spec (di_Namespace a) (di_Namespace b)); intros H%ltb_true_le; naive_solver.
Qed.

Lemma item_less_trans a b c : item_less b a = false → item_less c b = false → item_less c a = false.
Proof.
  rewrite !item_less_false.
  intros [[E1 H1]|[E1 H1]] [[E2 H2]|[E2 H2]].
  - left. split; [congruence|by etrans].
  - right. by rewrite E1.
  - right. by rewrite <-E2.
  - right. split; [|by etrans]. intros E. apply E1. apply le_antisym_s; [done|by rewrite E].
Qed.

(** Items the order does not separate have the same namespace and name. *)
Lemma item_less_key a b :
  item_less b a = false → item_less a b = false →
  di_Namespace a = di_Namespace b ∧ di_Name a = di_Name b.
Proof.
  rewrite !item_less_false. intros [[E1 H1]|[E1 H1]] [[E2 H2]|[E2 H2]]; try congruence.
  - split; [done|by apply le_antisym_s].
  - by destruct E1; apply le_antisym_s.
Qed.
End order.

Section sorted.
Context `{SortSlice}.

Lemma desired_items_perm processes : desired_items processes ≡ₚ desired_item <$> processes.
Proof. apply sort_slice_perm. Qed.

Lemma desired_items_sorted processes :
  StronglySorted (λ a b, item_less b a = false) (desired_items processes).
Proof. apply sort_slice_sorted; [apply item_less_asym|apply item_less_trans]. Qed.

Lemma desired_items_order_lemma l1 l2 :
  NoDup (dp_Key <$> l1) → l1 ≡ₚ l2 → desired_items l1 = desired_items l2.
Proof.
  intros Hnd Hp. apply (sorted_perm_unique (λ a b, item_less b a = false)).
  - intros x y Hx Hy Hxy Hyx. rewrite desired_items_perm in Hx, Hy.
    apply list_elem_of_fmap in Hx as (p & -> & Hp1), Hy as (q & -> & Hq1).
    destruct (item_less_key _ _ Hxy Hyx) as [Hn Hm]. simpl in *. f_equal.
    apply list_elem_of_lookup in Hp1 as [i Hi], Hq1 as [j Hj].
    assert (i = j) as ->; [|congruence].
    eapply (NoDup_lookup _ i j (dp_Key p) Hnd); rewrite list_lookup_fmap.
    + by rewrite Hi.
    + rewrite Hj. simpl. unfold dp_Key. by rewrite Hn, Hm.
  - apply desired_items_sorted.
  - apply desired_items_sorted.
  - by rewrite !desired_items_perm, Hp.
Qed.
End sorted.

(** ** Reading the hashed text back *)

(** What an item of the digest stands for. *)
Definition item_key (i : DesiredItem) : string * string * Z * string :=
  (di_Namespace i, di_Name i, di_Generation i, di_SpecHash i).

(** An item whose names are those of a Kubernetes object (no slash) and whose
    hash was computed by [hashSpec]. *)
Definition item_ok (i : DesiredItem) : Prop :=
  lacks slash (di_Namespace i) = true ∧ lacks slash (di_Name i) = true ∧
  ∃ spec, di_SpecHash i = hashSpec spec.

Lemma pretty_Z_lacks (c : ascii) (z : Z) :
  is_decimal c || Ascii.eqb dash c = false → lacks c (pretty z) = true.
Proof. intros Hc. by apply (lacks_impl _ _ _ Hc (pretty_Z_decimal z)). Qed.

Lemma hashSpec_lacks (c : ascii) spec :
  (is_hex c || Ascii.eqb c "s" || Ascii.eqb c "h" || Ascii.eqb c ":")%char = false →
  lacks c (hashSpec spec) = true.
Proof. intros Hc. apply (lacks_impl _ _ _ Hc (hashSpec_alphabet spec)). Qed.

(** The line of an item as fields with the separator that follows each. *)
Lemma desired_line_fields i rest :
  desired_line i +:+ rest =
  di_Namespace i +:+ String slash (di_Name i +:+ String slash (pretty (di_Generation i) +:+
    String slash (di_SpecHash i +:+ String ";"%char rest))).
Proof. unfold desired_line. by autorewrite with go_str_norm. Qed.

Lemma desired_line_inj i j r s :
  item_ok i → item_ok j → desired_line i +:+ r = desired_line j +:+ s →
  item_key i = item_key j ∧ r = s.
Proof.
  intros (Hi1 & Hi2 & si & Hi3) (Hj1 & Hj2 & sj & Hj3). rewrite !desired_line_fields. intros E.
  apply app_sep_inj in E as [E1 E]; [|done..].
  apply app_sep_inj in E as [E2 E]; [|done..].
  apply app_sep_inj in E as [E3 E]; [|by apply pretty_Z_lacks..].
  rewrite Hi3, Hj3 in E. apply app_sep_inj in E as [E4 E]; [|by apply hashSpec_lacks..].
  apply (inj pretty) in E3. unfold item_key. rewrite Hi3, Hj3. split; [congruence|done].
Qed.

Lemma desired_line_nonempty i rest : desired_line i +:+ rest ≠ "".
Proof. rewrite desired_line_fields. by destruct (di_Namespace i). Qed.

Lemma desired_text_inj xs ys :
  Forall item_ok xs → Forall item_ok ys → desired_text xs = desired_text ys →
  item_key <$> xs = item_key <$> ys.
Proof.
  intros Hxs. revert ys. induction Hxs as [|i xs Hi Hxs IH]; intros [|j ys] Hys E; simpl in E.
  - done.
  - by destruct (desired_line_nonempty j (desired_text ys)).
  - by destruct (desired_line_nonempty i (desired_text xs)).
  - apply Forall_cons in Hys as [Hj Hys].
    destruct (desired_line_inj _ _ _ _ Hi Hj E) as [Ek Er].
    rewrite !fmap_cons, Ek. f_equal. by apply IH.
Qed.

Lemma app_inj_length (a b t t' : string) :
  String.length a = String.length b → a +:+ t = b +:+ t' → a = b.
Proof.
  revert b. induction a as [|x a IH]; intros [|y b] Hlen E; try done.
  simpl in Hlen. rewrite !app_cons in E. injection E as -> E. f_equal. apply IH; [lia|done].
Qed.

Lemma hashDesired_sha256 xs ys :
  hashDesired xs = hashDesired ys → sha256 (desired_text xs) = sha256 (desired_text ys).
Proof.
  unfold hashDesired. intros E%app_inj_l. apply hex_inj. eapply app_inj_length; [|exact E].
  by rewrite !length_hex, !length_sha256.
Qed.

Lemma desired_text_keys xs ys :
  item_key <$> xs = item_key <$> ys → desired_text xs = desired_text ys.
Proof.
  revert ys. induction xs as [|x xs IH]; intros [|y ys] E; try done.
  rewrite !fmap_cons in E. injection E as E1 E2 E3 E4 E. simpl. f_equal; [|by apply IH].
  unfold desired_line. by rewrite E1, E2, E3, E4.
Qed.

(** ** Properties *)

(** The response and its ETag do not depend on the order in which the API
    server lists the processes, nor on which sorting algorithm [sort.Slice]
    uses: items are sorted by namespace and name, each process once. *)
Theorem desired_order_independent `{SortSlice} l1 l2 :
  NoDup (dp_Key <$> l1) → l1 ≡ₚ l2 →
  desired_items l1 = desired_items l2 ∧
  hashDesired (desired_items l1) = hashDesired (desired_items l2) ∧
  StronglySorted (λ a b, item_less b a = false) (desired_items l1) ∧
  desired_items l1 ≡ₚ desired_item <$> l1.
Proof.
  intros Hnd Hp. rewrite <-(desired_items_order_lemma l1 l2 Hnd Hp).
  split_all; [done..|apply desired_items_sorted|apply desired_items_perm].
Qed.

Lemma desired_order_independent_witness :
  let l := [sample_process "infra" "b" "tor1"; sample_process "infra" "a" "tor1"] in
  NoDup (dp_Key <$> l) ∧ l ≡ₚ rev l ∧
  @desired_items insertion_sort_slice l = @desired_items insertion_sort_slice (rev l).
Proof.
  intros l.
  assert (NoDup (dp_Key <$> l)) as Hn by (unfold l; apply (bool_decide_unpack _); vm_compute; exact I).
  assert (l ≡ₚ rev l) as Hp by apply perm_swap.
  split; [exact Hn|]. split; [exact Hp|].
  exact (proj1 (@desired_order_independent insertion_sort_slice l (rev l) Hn Hp)).
Defined.

(** Two desired states have the same ETag exactly when they have the same
    items: namespace, name, generation and spec hash, in order.  The names are
    those of Kubernetes objects (no slash), and SHA-256 separates the two texts
    that are hashed. *)
Theorem etag_iff_same_items xs ys :
  Forall item_ok xs → Forall item_ok ys →
  sha256_separates (desired_text xs) (desired_text ys) →
  hashDesired xs = hashDesired ys ↔ item_key <$> xs = item_key <$> ys.
Proof.
  intros Hxs Hys Hsep. split.
  - intros E. apply desired_text_inj; [done..|]. by apply Hsep, hashDesired_sha256.
  - intros E. unfold hashDesired. by rewrite (desired_text_keys _ _ E).
Qed.

Definition sample_item (generation : Z) : DesiredItem :=
  mkDesiredItem "uid" "infra" "a" generation (sample_spec "tor1") (hashSpec (sample_spec "tor1")).

Lemma sample_item_ok generation : item_ok (sample_item generation).
Proof. split; [reflexivity|]. split; [reflexivity|]. by eexists. Qed.

Lemma etag_iff_same_items_witness :
  sha256_separates (desired_text [sample_item 1]) (desired_text [sample_item 2]) ∧
  (hashDesired [sample_item 1] = hashDesired [sample_item 2] ↔
   item_key <$> [sample_item 1] = item_key <$> [sample_item 2]).
Proof.
  assert (sha256_separates (desired_text [sample_item 1]) (desired_text [sample_item 2])) as Hs.
  { intros E. exfalso.
    assert (String.eqb (sha256 (desired_text [sample_item 1])) (sha256 (desired_text [sample_item 2]))
              = false) as Hd by (vm_compute; reflexivity).
    apply String.eqb_neq in Hd. exact (Hd E). }
  split; [exact Hs|].
  apply etag_iff_same_items; [apply Forall_singleton, sample_item_ok..|exact Hs].
Defined.
