(* ===== verification/GatewayEffects.v ===== *)
(** * What a request may change

    The effects of the handlers: a rejected request changes nothing; an
    accepted one writes only to processes of the device it speaks for, and only
    their status; a round of the retry loop writes at most once.  A successful
    observation is a refinement of its specification in [GatewayStatus], over
    any client that has the laws of [Kube]. *)

From S2P Require Import Prelude GoStrings GoTime GoCrypto Api Conditions SpecHash Kube Samples.
From S2P Require Import GatewayState GatewayStatus GatewayServer.

(** ** The footprint of a request *)

(** A call made on behalf of a device: a patch of the status of one of its
    processes, or an event about one. *)
Definition call_for (device : string) (c : GatewayCall) : Prop :=
  match c with
  | CallPatch before after =>
      dp_DeviceName before = device ∧ ∃ st, after = set_dp_Status st before
  | CallEvent p _ _ _ => dp_DeviceName p = device
  end.

Definition is_patch (c : GatewayCall) : bool :=
  match c with CallPatch _ _ => true | CallEvent _ _ _ _ => false end.

(** The number of status patches in a trace. *)
Definition patches (l : list GatewayCall) : nat := length (filter (λ c, is_patch c = true) l).

Section footprint.
Context {S : Type} `{GatewayClient S} `{SortSlice} (cfg : Config).

Lemma emits_events P device p obs reportedAt ch :
  (∀ ty reason msg, P (CallEvent p ty reason msg)) →
  emits (G:=Gateway) (S:=S) P (observation_events device p obs reportedAt ch).
Proof.
  intros HP. unfold observation_events, when, event.
  effects; apply emits_emit, HP.
Qed.

Lemma emits_patch device p st :
  dp_DeviceName p = device →
  emits (G:=Gateway) (call_for device) (patch (S:=S) p (set_dp_Status st p)).
Proof. intros Hp. apply emits_call. simpl. eauto. Qed.

Lemma emits_listed (device : string) {A} (m : list DeviceProcess → M Gateway S GatewayCall A) (k : ApiError → A) P :
  (∀ procs, Forall (λ p, dp_DeviceName p = device) procs → emits P (m procs)) →
  emits P (bind (listDeviceProcesses device)
    (λ r, match r with Err e => ret (k e) | Ok procs => m procs end)).
Proof.
  intros Hm w. unfold listDeviceProcesses, bind, ask, ret. simpl.
  destruct (list_by_device device (env w)) as [procs|e]; simpl.
  - apply Hm, Forall_forall. intros p Hp. by apply list_elem_of_filter in Hp as [? _].
  - exists []. by rewrite app_nil_r.
Qed.

Lemma emits_mark_process device c reason message finish ty er em p :
  dp_DeviceName p = device →
  emits (call_for device) (mark_process (S:=S) c reason message finish ty er em p).
Proof.
  intros Hp. unfold mark_process. apply emits_bind; [by effects|intros t].
  destruct (setAgentConnected _ _ _ _ _) as [st changed]. effects.
  by apply emits_patch.
Qed.

Lemma emits_markDeviceConnected device :
  emits (call_for device) (markDeviceConnected (S:=S) device).
Proof.
  apply emits_listed. intros procs Hp. rewrite Forall_forall in Hp.
  unfold record_report. effects; apply emits_mark_process; auto.
Qed.

Lemma emits_markDeviceDisconnected device :
  emits (call_for device) (markDeviceDisconnected (S:=S) device).
Proof.
  apply emits_listed. intros procs Hp. rewrite Forall_forall in Hp.
  effects; apply emits_mark_process; auto.
Qed.

Lemma emits_observation_round device obs reportedAt :
  emits (call_for device) (observation_round (S:=S) device obs reportedAt).
Proof.
  unfold observation_round. effects.
  all: match goal with H : negb (String.eqb (dp_DeviceName _) _) = false |- _ =>
         apply negb_false_iff, String.eqb_eq in H end.
  - by apply emits_patch.
  - by apply emits_events.
Qed.

Lemma emits_observation_loop n device obs reportedAt :
  emits (call_for device) (observation_loop (S:=S) n device obs reportedAt).
Proof. induction n; simpl; effects. apply emits_observation_round. Qed.

Lemma emits_handleReport r device : emits (call_for device) (handleReport (S:=S) cfg r device).
Proof.
  unfold handleReport, process_report, report_observation, updateStatusForObservation,
    record_heartbeat, record_report.
  effects; auto using emits_markDeviceConnected, emits_observation_loop.
Qed.

Lemma emits_handleConnect device : emits (call_for device) (handleConnect (S:=S) cfg device).
Proof.
  unfold handleConnect, record_heartbeat, record_report.
  effects; apply emits_markDeviceConnected.
Qed.

Lemma emits_handleDesired P r device : emits P (handleDesired (S:=S) cfg r device).
Proof.
  unfold handleDesired, computeDesired, listDeviceProcesses,
    recordDesiredHeartbeatIfEligible, record_heartbeat.
  effects.
Qed.
End footprint.

(** ** Rounds of the retry loop *)

Section rounds.
Context {S : Type} `{GatewayClient S}.
Implicit Types w : World Gateway S GatewayCall.

Lemma patches_app l1 l2 : patches (l1 ++ l2) = (patches l1 + patches l2)%nat.
Proof. unfold patches. by rewrite filter_app, length_app. Qed.

Lemma patches_none l : Forall (λ c, is_patch c = false) l → patches l = 0%nat.
Proof.
  intros Hl. unfold patches. induction Hl as [|c l Hc Hl IH]; [done|].
  rewrite filter_cons_False; [done|]. by rewrite Hc.
Qed.

Lemma writes_round device obs reportedAt :
  writes (λ l, (patches l ≤ 1)%nat) (observation_round (S:=S) device obs reportedAt).
Proof.
  assert (∀ {A} (m : M Gateway S GatewayCall A) , emits (λ c, is_patch c = false) m →
          writes (λ l, (patches l ≤ 0)%nat) m) as Hsilent.
  { intros A m. apply writes_impl. intros l Hl. by rewrite (patches_none l Hl). }
  assert (∀ {A} (m : M Gateway S GatewayCall A), (∀ w, trace (m w).2 = trace w) →
          writes (λ l, (patches l ≤ 0)%nat) m) as Hs.
  { intros A m. by apply writes_silent. }
  assert (∀ n {A B} (m : M Gateway S GatewayCall A) (k : A → M Gateway S GatewayCall B) n1 n2,
    (n1 + n2 ≤ n)%nat → writes (λ l, (patches l ≤ n1)%nat) m →
    (∀ a, writes (λ l, (patches l ≤ n2)%nat) (k a)) → writes (λ l, (patches l ≤ n)%nat) (bind m k)) as Hb.
  { intros n A B m k n1 n2 Hn. apply writes_bind. intros l1 l2. rewrite patches_app. lia. }
  unfold observation_round. apply (Hb _ _ _ _ _ 0 1)%nat; [done|by apply Hs|intros r].
  destruct r as [proc|e]; [|by apply writes_silent; [unfold patches; simpl; lia|]].
  destruct (negb _); [by apply writes_silent; [unfold patches; simpl; lia|]|].
  apply (Hb _ _ _ _ _ 0 1)%nat; [done|by apply Hs|intros now].
  destruct (applyObservation _ _ _ _) as [[st ch]|e];
    [|by apply writes_silent; [unfold patches; simpl; lia|]].
  destruct (reflectDeepEqualStatus _ _); [by apply writes_silent; [unfold patches; simpl; lia|]|].
  apply (Hb _ _ _ _ _ 1 0)%nat; [done| |intros r].
  { intros w. eexists. split; [reflexivity|]. unfold patches. simpl. lia. }
  apply Hsilent. destruct r as [u|e]; [|by effects].
  apply emits_bind; [by apply emits_events|by effects].
Qed.

Lemma writes_loop n device obs reportedAt :
  writes (λ l, (patches l ≤ n)%nat) (observation_loop (S:=S) n device obs reportedAt).
Proof.
  induction n as [|n IH]; simpl.
  { by apply writes_silent. }
  apply (writes_bind (λ l, (patches l ≤ 1)%nat) (λ l, (patches l ≤ n)%nat));
    [intros l1 l2; rewrite patches_app; lia|apply writes_round|].
  intros [r|]; [apply writes_silent; [unfold patches; simpl; lia|done]|exact IH].
Qed.

Lemma env_events device p obs reportedAt ch w :
  env (observation_events device p obs reportedAt ch w).2 = env w.
Proof.
  assert (∀ (m m' : M Gateway S GatewayCall unit) w, (∀ w, env (m w).2 = env w) →
          (∀ w, env (m' w).2 = env w) → env (bind m (λ _, m') w).2 = env w) as Hb.
  { intros m m' v Hm Hm'. unfold bind. by rewrite Hm'. }
  unfold observation_events, when.
  repeat (apply Hb; clear w; intros w; [by case_match|]). by case_match.
Qed.

(** What one round does, by its answer. *)
Definition round_outcome (device : string) (obs : Observation) (reportedAt : option Z)
    (s s' : S) (r : option (result ApiError unit)) : Prop :=
  match r with
  | Some (Ok _) =>
      ∃ proc start now, get_process (ob_Namespace obs, ob_Name obs) s = Ok proc ∧
        dp_DeviceName proc = device ∧ observed_start obs = Some start ∧
        let st := observed_status obs reportedAt now start (dp_Status proc) in
        if reflectDeepEqualStatus (dp_Status proc) st then s' = s
        else patch_status proc (set_dp_Status st proc) s = (Ok tt, s')
  | Some (Err e) =>
      s' = s ∨ ∃ proc st, get_process (ob_Namespace obs, ob_Name obs) s = Ok proc ∧
        IsConflict e = false ∧ patch_status proc (set_dp_Status st proc) s = (Err e, s')
  | None =>
      ∃ proc st e, get_process (ob_Namespace obs, ob_Name obs) s = Ok proc ∧
        IsConflict e = true ∧ patch_status proc (set_dp_Status st proc) s = (Err e, s')
  end.

Lemma observation_round_outcome device obs reportedAt w :
  round_outcome device obs reportedAt (env w) (env (observation_round device obs reportedAt w).2)
    (observation_round device obs reportedAt w).1.
Proof.
  unfold observation_round. rewrite run_ask.
  destruct (get_process (ob_Namespace obs, ob_Name obs) (env w)) as [proc|e] eqn:Hget;
    [|by left].
  destruct (String.eqb_spec (dp_DeviceName proc) device) as [Hd|]; cbn [negb]; [|by left].
  rewrite run_time_window, applyObservation_eq.
  destruct (observed_start obs) as [start|] eqn:Hs; [|by left].
  destruct (reflectDeepEqualStatus _ _) eqn:Heq.
  { eexists _, start, _. split_all; try done. cbv zeta. by rewrite Heq. }
  unfold patch. rewrite run_call. cbn [env].
  destruct (patch_status _ _ _) as [[[]|e] s'] eqn:Hp; cbn [fst snd].
  - unfold bind, ret. cbn [fst snd round_outcome]. rewrite env_events. cbn [env].
    eexists _, start, _. split_all; try done. cbv zeta. by rewrite Heq.
  - destruct (IsConflict e) eqn:Hc; [|right]; repeat eexists; eauto.
Qed.
End rounds.

(** ** The refinement of the specified status *)

Section refinement.
Context {S : Type} `{GatewayClientLaws S}.
Implicit Types w : World Gateway S GatewayCall.

(** The objects two states of the API server store are the same but for one
    key. *)
Definition same_but (k : NamespacedName) (s s' : S) : Prop := ∀ k', k' ≠ k → stored s' k' = stored s k'.

#[local] Instance same_but_preorder k : PreOrder (same_but k).
Proof. split; [done|]. intros a b c Hab Hbc k' Hk. by rewrite Hbc, Hab. Qed.

Definition same_objects (s s' : S) : Prop := ∀ k, stored s' k = stored s k.

Lemma round_frame device obs reportedAt s s' r :
  round_outcome device obs reportedAt s s' r → same_but (ob_Namespace obs, ob_Name obs) s s'.
Proof.
  assert (∀ proc after s r s', get_process (ob_Namespace obs, ob_Name obs) s = Ok proc →
    patch_status proc after s = (r, s') → same_but (ob_Namespace obs, ob_Name obs) s s') as Hf.
  { intros proc after s1 r1 s2 Hg Hp k Hk. eapply patch_status_frame; [exact Hp|].
    by rewrite (get_process_key _ _ _ Hg). }
  destruct r as [[[]|e]|]; simpl.
  - intros (proc & start & now & Hg & _ & _ & Hr). case_match; [by subst|eauto].
  - intros [->|(proc & st & Hg & _ & Hp)]; [done|eauto].
  - intros (proc & st & e & Hg & _ & Hp). eauto.
Qed.

Lemma round_retry device obs reportedAt s s' :
  round_outcome device obs reportedAt s s' None → same_objects s s'.
Proof.
  intros (proc & st & e & _ & Hc & Hp) k. eapply patch_status_conflict; [exact Hp|].
  by apply bool_decide_eq_true in Hc.
Qed.

(** The last round, and that the rounds before it lost a race. *)
Lemma loop_outcome n device obs reportedAt w :
  ∃ s, same_objects (env w) s ∧
    match (observation_loop n device obs reportedAt w).1 with
    | Ok u => round_outcome device obs reportedAt s
                (env (observation_loop n device obs reportedAt w).2) (Some (Ok u))
    | Err e => round_outcome device obs reportedAt s
                (env (observation_loop n device obs reportedAt w).2) (Some (Err e))
    end.
Proof.
  revert w. induction n as [|n IH]; intros w; simpl.
  { exists (env w). split; [done|]. by left. }
  pose proof (observation_round_outcome device obs reportedAt w) as Ho. unfold bind.
  destruct (observation_round device obs reportedAt w) as [[r|] w'] eqn:Hr; cbn [fst snd] in *.
  - exists (env w). split; [done|]. by destruct r.
  - destruct (IH w') as (s & Hs & Hl). exists s. split; [|done].
    intros k. rewrite Hs. by apply (round_retry _ _ _ _ _ Ho).
Qed.

(** Only the process an observation names may be written, whatever happens. *)
Lemma loop_frame n device obs reportedAt w :
  same_but (ob_Namespace obs, ob_Name obs) (env w) (env (observation_loop n device obs reportedAt w).2).
Proof.
  destruct (loop_outcome n device obs reportedAt w) as (s & Hs & Hl).
  transitivity s; [intros k _; apply Hs|].
  destruct (observation_loop _ _ _ _ _).1; eapply round_frame; exact Hl.
Qed.
End refinement.

(** ** Properties *)

Definition refused : list Z := [StatusUnauthorized; StatusNotFound; StatusMethodNotAllowed].

Section answers.
Context {S : Type} `{GatewayClient S} `{SortSlice} (cfg : Config).
Let accepted (rs : Response) : Prop := rs_Status rs ∉ refused.

Lemma accepted_status st etag body :
  bool_decide (st ∉ refused) = true → accepted (mkResponse st etag body).
Proof. by intros ?%bool_decide_eq_true. Qed.

Ltac answers_auto :=
  repeat first
    [ apply answers_ret, accepted_status; reflexivity
    | apply answers_bind; intros ?
    | progress cbv zeta
    | case_match ].

Lemma answers_process_report device obs t :
  answers accepted (process_report (S:=S) cfg device obs t).
Proof.
  unfold process_report. do 2 (apply answers_bind; intros ?).
  case_match. cbv zeta. do 3 (apply answers_bind; intros ?). case_match; [by answers_auto|].
  eapply answers_bind_post; [apply (answers_for_each accepted)|].
  - intros o. unfold report_observation. apply answers_bind. intros ?.
    repeat case_match; apply answers_ret; intros v Hv; simplify_eq; by apply accepted_status.
  - intros [v|] Hv; apply answers_ret; [by apply Hv|by apply accepted_status].
Qed.

Lemma answers_handleReport r device : answers accepted (handleReport (S:=S) cfg r device).
Proof.
  unfold handleReport.
  case_match; [|by answers_auto]. case_match; [apply answers_bind; intros ?|case_match];
    first [apply answers_process_report|by answers_auto].
Qed.

Lemma answers_handleDesired r device : answers accepted (handleDesired (S:=S) cfg r device).
Proof. unfold handleDesired. answers_auto. Qed.

Lemma answers_handleConnect device : answers accepted (handleConnect (S:=S) cfg device).
Proof. unfold handleConnect. answers_auto. Qed.
End answers.

(** C6: a refused request has no effect.  A request without the right token is
    answered 401, or 404 when its path names no device and action; and whenever
    the answer is 401, 404 or 405 neither the bookkeeping nor the API server nor
    the events have changed. *)
Theorem refused_request_has_no_effect {S} `{GatewayClient S} `{SortSlice} cfg r
    (w : World Gateway S GatewayCall) :
  (authorize cfg r = false →
     rs_Status (handleDevice cfg r w).1 = StatusUnauthorized ∨
     rs_Status (handleDevice cfg r w).1 = StatusNotFound) ∧
  (rs_Status (handleDevice cfg r w).1 ∈ refused → (handleDevice cfg r w).2 = w).
Proof.
  unfold handleDevice. split.
  - intros Ha. rewrite Ha. cbn [negb]. repeat case_match; simpl; auto.
  - repeat case_match; simpl; intros Hs; try done; exfalso;
      eapply answers_handleDesired + eapply answers_handleReport + eapply answers_handleConnect;
      exact Hs.
Qed.

Definition sample_world {C} (conflicts : nat) : World Gateway Store C :=
  mkWorld (mkGateway ∅ ∅ ∅) (sample_store conflicts) (λ i, Z.of_nat i * Second + 63839664000 * Second) 0 [].

(** C1: a request only touches the device in its path.  Every status patch the
    handler sends is for a process whose deviceRef names that device and changes
    nothing but its status, and every event is about such a process. *)
Theorem request_touches_only_its_device {S} `{GatewayClient S} `{SortSlice} cfg r x y device l :
  path_parts (rq_Path r) = x :: y :: device :: l →
  emits (call_for device) (handleDevice (S:=S) cfg r).
Proof.
  intros Hp. unfold handleDevice. rewrite Hp. destruct l as [|action l]; [by effects|].
  effects; auto using emits_handleDesired, emits_handleReport, emits_handleConnect.
Qed.

Definition sample_report : Request :=
  mkRequest "POST" "/v1/devices/tor1/report" "secret-token" ""
    (Some (mkReportRequest "v1" "2024-01-01T00:00:00Z" true
      [mkObservation "infra" "a" "sha256:00" (Some true) None 42 "2024-01-01T00:00:00Z" None None
         "" 1 "" "" (Some true) None "" "" "" ""])).

Definition sample_config : Config := (New "secret-token" "" (15 * Second) 3).1.

Lemma request_touches_only_its_device_witness :
  path_parts (rq_Path sample_report) = ["v1"; "devices"; "tor1"; "report"] ∧
  @emits Gateway Store GatewayCall Response (call_for "tor1")
    (@handleDevice Store _ insertion_sort_slice sample_config sample_report).
Proof.
  assert (path_parts (rq_Path sample_report) = ["v1"; "devices"; "tor1"; "report"]) as Hp
    by (vm_compute; reflexivity).
  split; [exact Hp|].
  exact (@request_touches_only_its_device Store _ insertion_sort_slice sample_config sample_report
           _ _ _ _ Hp).
Defined.

(** The first report of a device whose connection patch loses a race is
    answered 500; the next one is acknowledged after one more lost race. *)
Example sample_report_retries :
  let '(rs, w) := @handleDevice Store _ insertion_sort_slice sample_config sample_report
                    (sample_world 2) in
  rs_Status rs = 500 ∧ patches (trace w) = 1%nat ∧
  let '(rs, w) := @handleDevice Store _ insertion_sort_slice sample_config sample_report w in
  rs_Status rs = 200 ∧ patches (trace w) = 3%nat.
Proof. vm_compute. auto. Qed.

(** An observation is written at most [maxAttempts] times, whatever the
    API server answers. *)
Theorem observation_writes_bounded {S} `{GatewayClient S} device obs reportedAt :
  writes (λ l, (patches l ≤ maxAttempts)%nat)
    (updateStatusForObservation (S:=S) device obs reportedAt).
Proof. apply writes_loop. Qed.

(** C7: a handled observation is a refinement of the specification.  Over any
    client with the laws of the API server, from world [w]:
    - only the process the observation names can have changed in the store;
    - when the answer is success, some process of that key, read when the
      store was the one of [w], belongs to the device, and the store now holds the
      status the observation specifies for it, unless that status is equal to the
      one read, and then nothing was written. *)
Theorem observation_refines_specification {S} `{GatewayClientLaws S} device obs reportedAt
    (w : World Gateway S GatewayCall) :
  let key := (ob_Namespace obs, ob_Name obs) in
  let '(r, w') := updateStatusForObservation device obs reportedAt w in
  same_but key (env w) (env w') ∧
  (r = Ok tt → ∃ s proc start now,
     same_objects (env w) s ∧ get_process key s = Ok proc ∧ dp_DeviceName proc = device ∧
     observed_start obs = Some start ∧
     let st := observed_status obs reportedAt now start (dp_Status proc) in
     if reflectDeepEqualStatus (dp_Status proc) st then env w' = s
     else ∃ q, stored (env w') key = Some q ∧ dp_Status q = st ∧ dp_Spec q = dp_Spec proc).
Proof.
  cbv zeta. unfold updateStatusForObservation.
  pose proof (loop_frame maxAttempts device obs reportedAt w) as Hf.
  destruct (loop_outcome maxAttempts device obs reportedAt w) as (s & Hs & Hl).
  destruct (observation_loop _ _ _ _ _) as [r w']. cbn [fst snd] in *.
  split; [exact Hf|]. intros ->. destruct Hl as (proc & start & now & Hg & Hd & Ho & Hr).
  exists s, proc, start, now. split_all; [done..|]. cbv zeta in *. case_match; [exact Hr|].
  rewrite <-(get_process_key _ _ _ Hg). by apply (patch_status_ok _ _ _ _ Hr).
Qed.

Lemma observation_refines_specification_witness :
  let obs := mkObservation "infra" "a" "sha256:00" (Some true) None 42 "2024-01-01T00:00:00Z" None None
               "" 1 "" "" (Some true) None "" "" "" "" in
  let '(r, w') := updateStatusForObservation "tor1" obs None (sample_world 2) in
  r = Ok tt ∧ ∃ q, stored (env w') ("infra", "a") = Some q ∧
    st_Phase (dp_Status q) = DeviceProcessPhaseRunning.
Proof.
  intros obs.
  pose proof (observation_refines_specification (S:=Store) "tor1" obs None (sample_world 2)) as H.
  assert ((updateStatusForObservation "tor1" obs None (sample_world (C:=GatewayCall) 2)).1 = Ok tt) as Hok
    by (vm_compute; reflexivity).
  cbv zeta in H. destruct (updateStatusForObservation "tor1" obs None (sample_world 2)) as [r w'].
  simpl in Hok. subst r. split; [reflexivity|]. destruct H as [_ H].
  destruct (H eq_refl) as (s & proc & start & now & Hs & Hg & Hd & Ho & Hr).
  assert (∀ k, stored s k = stored (sample_store 2) k) as Hs' by (intros k; apply Hs).
  destruct (reflectDeepEqualStatus _ _) eqn:Heq.
  - exfalso. rewrite (store_get_objects s (sample_store 2) Hs') in Hg.
    vm_compute in Hg. injection Hg as <-. vm_compute in Heq. discriminate Heq.
  - destruct Hr as (q & Hq & Hst & _). exists q. split; [exact Hq|]. by rewrite Hst.
Defined.
