(* ===== verification/GatewayDevices.v ===== *)
(** * Which devices are alive

    The gateway's maps of devices: requests of one device never touch another's
    entries; the heartbeat intervals stored are the only two the code can
    produce, so the stale window does not overflow; a device is disconnected
    exactly when its last sign of life is older than that window, and a desired
    poll only counts as one after a recent report. A report counts as one even
    when the reconnection it should record could not be written. *)

From S2P Require Import Prelude GoStrings GoTime Api Conditions Kube Samples.
From S2P Require Import GatewayState GatewayStatus GatewayServer GatewayEffects.

(** ** Entries of other devices *)

(** Two states of the maps agree on every device but one. *)
Definition agree_but (device : string) (g g' : Gateway) : Prop :=
  ∀ d, d ≠ device →
    lastSeen g' !! d = lastSeen g !! d ∧ lastReport g' !! d = lastReport g !! d ∧
    heartbeatHints g' !! d = heartbeatHints g !! d.

#[export] Instance agree_but_preorder device : PreOrder (agree_but device).
Proof.
  split; [done|]. intros g1 g2 g3 H1 H2 d Hd.
  destruct (H2 d Hd) as (->&->&->). by apply H1.
Qed.

Section agree.
Context {S : Type} `{GatewayClient S} `{SortSlice} (cfg : Config) (device : string).

Lemma agree_recordHeartbeat now hint g : agree_but device g (recordHeartbeat now device hint g).
Proof. intros d Hd. simpl. case_match; by rewrite !lookup_insert_ne. Qed.

Lemma agree_recordReport now g : agree_but device g (recordReport now device g).
Proof. intros d Hd. simpl. by rewrite !lookup_insert_ne. Qed.

Lemma agree_desiredHeartbeat g : agree_but device g (desiredHeartbeat device g).2.
Proof. intros d Hd. simpl. by rewrite !lookup_insert_ne. Qed.

Lemma agree_record_heartbeat hint :
  self_rel (agree_but device) (record_heartbeat (S:=S) device hint).
Proof. unfold record_heartbeat. effects. apply self_rel_modify, agree_recordHeartbeat. Qed.

Lemma agree_record_report : self_rel (agree_but device) (record_report (S:=S) device).
Proof. unfold record_report. effects. apply self_rel_modify, agree_recordReport. Qed.

Lemma agree_markDeviceConnected : self_rel (agree_but device) (markDeviceConnected (S:=S) device).
Proof.
  unfold markDeviceConnected, listDeviceProcesses, mark_process, patch, event.
  effects; apply agree_record_report.
Qed.

Lemma agree_observation_loop n obs reportedAt :
  self_rel (agree_but device) (observation_loop (S:=S) n device obs reportedAt).
Proof.
  induction n; simpl; effects.
  unfold observation_round, patch, observation_events, when, event. effects.
Qed.

Lemma agree_process_report obs t :
  self_rel (agree_but device) (process_report (S:=S) cfg device obs t).
Proof.
  unfold process_report, report_observation, updateStatusForObservation.
  effects; auto using agree_record_heartbeat, agree_record_report, agree_markDeviceConnected,
    agree_observation_loop.
Qed.

Lemma agree_handlers r :
  self_rel (agree_but device) (handleDesired (S:=S) cfg r device) ∧
  self_rel (agree_but device) (handleReport (S:=S) cfg r device) ∧
  self_rel (agree_but device) (handleConnect (S:=S) cfg device).
Proof.
  split_all.
  - unfold handleDesired, computeDesired, listDeviceProcesses, recordDesiredHeartbeatIfEligible.
    effects; auto using agree_record_heartbeat.
    apply self_rel_locked, agree_desiredHeartbeat.
  - unfold handleReport. effects; apply agree_process_report.
  - unfold handleConnect.
    effects; auto using agree_record_heartbeat, agree_record_report, agree_markDeviceConnected.
Qed.
End agree.

(** ** Invariants that recording a report preserves *)

Section after_report.
Context {S : Type} `{GatewayClient S} (device : string) (I : Gateway → Prop).
Context (HI : ∀ now g, I g → I (recordReport now device g)).

Lemma keeps_record_report : keeps I (record_report (S:=S) device).
Proof using HI. unfold record_report. effects. Qed.

Lemma keeps_markDeviceConnected : keeps I (markDeviceConnected (S:=S) device).
Proof using HI.
  unfold markDeviceConnected, listDeviceProcesses, mark_process, patch, event.
  effects; apply keeps_record_report.
Qed.

Lemma keeps_observation_loop n obs reportedAt :
  keeps I (observation_loop (S:=S) n device obs reportedAt).
Proof.
  induction n; simpl; effects.
  unfold observation_round, patch, observation_events, when, event. effects.
Qed.

(** What [handleReport] does after recording the heartbeat. *)
Lemma keeps_rest_of_report (stale : bool) obs reportedAt :
  keeps I (record_report (S:=S) device ;;;
           e <- (if stale then markDeviceConnected device else ret None) ;;
           match e with
           | Some _ => ret (http_error StatusInternalServerError "failed to mark device connected")
           | None =>
               r <- for_each obs (report_observation device reportedAt) ;;
               ret (default ack r)
           end)%go.
Proof using HI.
  unfold report_observation, updateStatusForObservation.
  effects; auto using keeps_record_report, keeps_markDeviceConnected, keeps_observation_loop.
Qed.
End after_report.

(** ** The intervals stored *)

(** Every interval stored is the built-in default or the configured one, and
    every device with a report has been seen. *)
Definition wf_gateway (cfg : Config) (g : Gateway) : Prop :=
  (∀ d hb, heartbeatHints g !! d = Some hb →
     hb = defaultHeartbeatSeconds ∨ hb = normalizeHeartbeat cfg 0) ∧
  dom (lastReport g) ⊆ dom (lastSeen g).

Section wf.
Context {S : Type} `{GatewayClient S} `{SortSlice} (cfg : Config) (device : string).

Let good (hb : Z) : Prop := hb = defaultHeartbeatSeconds ∨ hb = normalizeHeartbeat cfg 0.

Lemma good_pos hb : good hb → 0 < hb.
Proof. intros [->| ->]; [done|apply normalizeHeartbeat_pos]. Qed.

Lemma wf_normalize g d : wf_gateway cfg g → good (normalizeHeartbeat cfg (get_int (heartbeatHints g) d)).
Proof.
  intros [Hg _]. unfold get_int. destruct (heartbeatHints g !! d) as [hb|] eqn:E; simpl; [|by right].
  rewrite normalizeHeartbeat_id; [by eapply Hg|]. eapply good_pos, Hg, E.
Qed.

Lemma wf_recordHeartbeat now hb g :
  good hb → wf_gateway cfg g → wf_gateway cfg (recordHeartbeat now device hb g).
Proof.
  intros Hhb [Hg Hd]. split; simpl; [|set_solver].
  intros d h. case_match; [|apply Hg]. rewrite lookup_insert_Some.
  intros [[_ <-]|[_ Hh]]; [done|by eapply Hg].
Qed.

Lemma wf_desiredHeartbeat g : wf_gateway cfg g → wf_gateway cfg (desiredHeartbeat device g).2.
Proof.
  intros [Hg Hd]. split; simpl; [|done]. intros d h. rewrite lookup_insert_Some.
  intros [[_ <-]|[_ Hh]]; [|by eapply Hg].
  destruct (heartbeatHints g !! device) eqn:E; [|by left]. case_match; [by eapply Hg|by left].
Qed.

(** A recorded report of a device that has been seen. *)
Definition seen (g : Gateway) : Prop := wf_gateway cfg g ∧ device ∈ dom (lastSeen g).

Lemma seen_recordReport now g : seen g → seen (recordReport now device g).
Proof. intros [[Hg Hd] Hs]. split; [split|]; simpl; set_solver. Qed.

Lemma seen_recordHeartbeat now hb g :
  good hb → wf_gateway cfg g → seen (recordHeartbeat now device hb g).
Proof. intros Hhb Hg. split; [by apply wf_recordHeartbeat|]. simpl. set_solver. Qed.

(** From a well-formed state, recording a heartbeat and going on. *)
Lemma keeps_after_heartbeat {A} hb (m : unit → M Gateway S GatewayCall A) :
  good hb → (∀ u, keeps seen (m u)) → keeps (wf_gateway cfg) (bind (record_heartbeat device hb) m).
Proof.
  intros Hhb Hm w Hw. unfold record_heartbeat. rewrite run_bind, run_time_now, run_modify.
  apply Hm. by apply seen_recordHeartbeat.
Qed.

Lemma keeps_process_report obs t :
  keeps (wf_gateway cfg) (process_report (S:=S) cfg device obs t).
Proof.
  unfold process_report. apply keeps_bind; [by effects|intros now].
  apply keeps_get_self. intros g Hg. cbv zeta.
  apply keeps_after_heartbeat; [by apply wf_normalize|]. intros _.
  apply keeps_rest_of_report, seen_recordReport.
Qed.

Lemma keeps_handleConnect : keeps (wf_gateway cfg) (handleConnect (S:=S) cfg device).
Proof.
  apply keeps_get_self. intros g Hg. apply keeps_after_heartbeat; [by apply wf_normalize|].
  intros _. effects; auto using keeps_record_report, keeps_markDeviceConnected, seen_recordReport.
Qed.

Lemma keeps_recordDesiredHeartbeat :
  keeps (wf_gateway cfg) (recordDesiredHeartbeatIfEligible (S:=S) cfg device).
Proof.
  unfold recordDesiredHeartbeatIfEligible. apply keeps_bind; [by effects|intros now].
  apply keeps_get_self. intros g Hg. unfold desiredEligible. cbv zeta.
  destruct (IsZero _); [by effects|]. destruct (staleAfter _ _ <? _); [by effects|].
  unfold record_heartbeat. effects. apply keeps_modify. intros g' Hg'.
  apply wf_recordHeartbeat; [by apply wf_normalize|done].
Qed.

Lemma keeps_handleDesired r : keeps (wf_gateway cfg) (handleDesired (S:=S) cfg r device).
Proof.
  unfold handleDesired, computeDesired, listDeviceProcesses.
  effects; auto using keeps_recordDesiredHeartbeat.
  apply keeps_locked, wf_desiredHeartbeat.
Qed.
End wf.

(** ** Runs of the gateway *)

Section runs.
Context {S : Type} `{GatewayClient S} `{SortSlice} (cfg : Config).

(** A step: a request, a pass of the staleness loop, or a change made by
    others to what the API server stores. *)
Inductive gateway_step : relation (World Gateway S GatewayCall) :=
  | step_request r w : gateway_step w (handleDevice cfg r w).2
  | step_stale w : gateway_step w (markStaleDevices cfg w).2
  | step_outside s w :
      gateway_step w (mkWorld (self w) s (clock w) (tick w) (trace w)).

Lemma keeps_handleDevice r : keeps (wf_gateway cfg) (handleDevice (S:=S) cfg r).
Proof.
  unfold handleDevice. effects; auto using keeps_handleDesired, keeps_handleConnect.
  unfold handleReport. effects; apply keeps_process_report.
Qed.

Lemma self_markStaleDevices w : self (markStaleDevices (S:=S) cfg w).2 = self w.
Proof.
  assert (self_rel (@eq Gateway) (markStaleDevices (S:=S) cfg)) as Hm.
  { unfold markStaleDevices, markDeviceDisconnected, listDeviceProcesses, mark_process, patch, event.
    effects. }
  symmetry. apply Hm.
Qed.

Lemma reachable_wf_lemma w w' :
  wf_gateway cfg (self w) → rtc gateway_step w w' → wf_gateway cfg (self w').
Proof.
  intros Hw Hr. induction Hr as [|w1 w2 w3 Hs Hr IH]; [done|]. apply IH.
  destruct Hs; [by apply keeps_handleDevice|by rewrite self_markStaleDevices|done].
Qed.
End runs.

(** The stale window of every interval stored is computed without overflow. *)
Definition window_fits (cfg : Config) : Prop :=
  0 ≤ staleMultiplier cfg ∧ defaultHeartbeatSeconds * staleMultiplier cfg ≤ 9223372036 ∧
  normalizeHeartbeat cfg 0 * staleMultiplier cfg ≤ 9223372036.

(** The window of a device, as a number of nanoseconds. *)
Definition window (cfg : Config) (device : string) (g : Gateway) : Z :=
  normalizeHeartbeat cfg (get_int (heartbeatHints g) device) * staleMultiplier cfg * Second.

Lemma staleAfter_window cfg device g :
  window_fits cfg → wf_gateway cfg g →
  staleAfter cfg (normalizeHeartbeat cfg (get_int (heartbeatHints g) device)) = window cfg device g ∧
  0 ≤ window cfg device g < max_int64.
Proof.
  intros (Hm & Hd & Hn) Hg. pose proof (wf_normalize cfg g device Hg) as Hgood.
  assert (normalizeHeartbeat cfg (get_int (heartbeatHints g) device) * staleMultiplier cfg ≤ 9223372036)
    as Hb by (destruct Hgood as [->| ->]; done).
  pose proof (normalizeHeartbeat_pos cfg (get_int (heartbeatHints g) device)).
  unfold window. split; [by apply staleAfter_exact|]. unfold max_int64, Second. nia.
Qed.

Lemma is_stale_window cfg now device seen g :
  window_fits cfg → wf_gateway cfg g →
  is_stale cfg now device seen g = true ↔ now - seen > window cfg device g.
Proof.
  intros Hf Hg. destruct (staleAfter_window cfg device g Hf Hg) as [Hs Hr].
  unfold is_stale. rewrite Hs, negb_true_iff, Z.leb_gt.
  pose proof (Sub_le now seen (window cfg device g)) as Hsub.
  unfold min_int64 in Hsub. specialize (Hsub ltac:(lia)). lia.
Qed.

(** The test of a report for a device that was not seen lately. *)
Definition report_is_stale {S} cfg device (w : World Gateway S GatewayCall) : bool :=
  let '(prevSeen, hb) := lastSeenAndHeartbeat cfg device (self w) in
  IsZero prevSeen || (staleAfter cfg hb <? Sub (clock w (tick w)) prevSeen).

Lemma report_is_stale_spec {S} cfg device (w : World Gateway S GatewayCall) :
  report_is_stale cfg device w = true ↔
  IsZero (get_time (lastSeen (self w)) device) = true ∨
  staleAfter cfg (normalizeHeartbeat cfg (get_int (heartbeatHints (self w)) device)) <
    Sub (clock w (tick w)) (get_time (lastSeen (self w)) device).
Proof. unfold report_is_stale, lastSeenAndHeartbeat. by rewrite orb_true_iff, Z.ltb_lt. Qed.

(** A report up to the records of the maps: the rest runs with the device seen
    and its report noted. *)
Lemma process_report_run {S} `{GatewayClient S} cfg device obs reportedAt
    (w : World Gateway S GatewayCall) :
  process_report cfg device obs reportedAt w =
  (e <- (if report_is_stale cfg device w then markDeviceConnected device else ret None) ;;
   match e with
   | Some _ => ret (http_error StatusInternalServerError "failed to mark device connected")
   | None => r <- for_each obs (report_observation device reportedAt) ;; ret (default ack r)
   end)%go
  (mkWorld
     (recordReport (clock w (2 + tick w)%nat) device
        (recordHeartbeat (clock w (1 + tick w)%nat) device
           (normalizeHeartbeat cfg (get_int (heartbeatHints (self w)) device)) (self w)))
     (env w) (clock w) (3 + tick w)%nat (trace w)).
Proof. reflexivity. Qed.

(** A heartbeat from a device that is not stale is acknowledged and does
    nothing outside. *)
Lemma heartbeat_writes_nothing {S} `{GatewayClient S} cfg device reportedAt seen
    (w : World Gateway S GatewayCall) :
  window_fits cfg → wf_gateway cfg (self w) → lastSeen (self w) !! device = Some seen →
  IsZero seen = false → clock w (tick w) - seen ≤ window cfg device (self w) →
  let w' := (process_report cfg device [] reportedAt w).2 in
  (process_report cfg device [] reportedAt w).1 = ack ∧ env w' = env w ∧ trace w' = trace w.
Proof.
  intros Hf Hg Hs Hz Hnow. rewrite process_report_run. cbv zeta.
  assert (report_is_stale cfg device w = false) as ->; [|done].
  apply not_true_is_false. rewrite report_is_stale_spec. unfold get_time. rewrite Hs. simpl.
  intros [?|Hst]; [congruence|]. destruct (staleAfter_window cfg device (self w) Hf Hg) as [Hw Hr].
  rewrite Hw in Hst. apply Z.lt_nge in Hst. apply Hst. apply Sub_le; [unfold min_int64; lia|lia].
Qed.

(** An API server that is only reachable when its flag is set. *)
Definition outage : ApiError := mkApiError OtherReason "connection refused".

Definition when_up {A} (s : Store * bool) (r : result ApiError A) : result ApiError A :=
  if snd s then r else Err outage.

#[local] Instance outage_client : GatewayClient (Store * bool) :=
  {| get_process k s := when_up s (store_get k s.1);
     list_by_device d s := when_up s (store_list d s.1);
     patch_status p q s :=
       let '(r, s') := store_patch p q s.1 in
       if snd s then (r, (s', true)) else (Err outage, s) |}.

(** ** Properties *)

(** A request for a device leaves the entries of every other device in the
    gateway's maps alone. *)
Theorem other_devices_untouched {S} `{GatewayClient S} `{SortSlice} cfg r x y device l :
  path_parts (rq_Path r) = x :: y :: device :: l →
  self_rel (agree_but device) (handleDevice (S:=S) cfg r).
Proof.
  intros Hp. unfold handleDevice. rewrite Hp. destruct l as [|action l]; [by effects|].
  destruct (agree_handlers (S:=S) cfg device r) as (Hd & Hr & Hc). effects; auto.
Qed.

Lemma other_devices_untouched_witness :
  path_parts (rq_Path sample_report) = ["v1"; "devices"; "tor1"; "report"] ∧
  @self_rel Gateway Store GatewayCall Response (agree_but "tor1")
    (@handleDevice Store _ insertion_sort_slice sample_config sample_report).
Proof.
  assert (path_parts (rq_Path sample_report) = ["v1"; "devices"; "tor1"; "report"]) as Hp
    by (vm_compute; reflexivity).
  split; [exact Hp|].
  exact (@other_devices_untouched Store _ insertion_sort_slice sample_config sample_report _ _ _ _ Hp).
Defined.

(** In every state a gateway reaches from a fresh one, by any sequence of
    requests, passes of the staleness loop and changes made by others, the
    interval of a device is the built-in default or the configured one, a device
    that reported has been seen, and so, for a configuration whose two windows
    fit in 64 bits of nanoseconds, the stale window of every device is the exact
    product. *)
Theorem reachable_windows_exact {S} `{GatewayClient S} `{SortSlice} token secret interval multiplier
    (w w' : World Gateway S GatewayCall) :
  let '(cfg, g) := New token secret interval multiplier in
  self w = g → rtc (gateway_step cfg) w w' → window_fits cfg →
  wf_gateway cfg (self w') ∧
  ∀ device, staleAfter cfg (normalizeHeartbeat cfg (get_int (heartbeatHints (self w')) device)) =
            window cfg device (self w').
Proof.
  simpl. intros Hw Hr Hf.
  assert (wf_gateway (New token secret interval multiplier).1 (self w')) as Hwf.
  { eapply reachable_wf_lemma; [|exact Hr]. rewrite Hw. split; simpl; [|set_solver].
    intros d hb. by rewrite lookup_empty. }
  split; [exact Hwf|]. intros device. by apply staleAfter_window.
Qed.

Lemma reachable_windows_exact_witness :
  let cfg := (New "secret-token" "" (15 * Second) 3).1 in
  let w := sample_world (C:=GatewayCall) 0 in
  let w' := (@handleDevice Store _ insertion_sort_slice cfg sample_report w).2 in
  window_fits cfg ∧ self w' ≠ self w ∧
  staleAfter cfg (normalizeHeartbeat cfg (get_int (heartbeatHints (self w')) "tor1")) = 45 * Second.
Proof.
  intros cfg w w'.
  assert (window_fits cfg) as Hf by (split; [|split]; vm_compute; discriminate).
  split; [exact Hf|]. split.
  - intros E. apply (f_equal (λ g, bool_decide (lastSeen g !! "tor1" = None))) in E.
    vm_compute in E. discriminate E.
  - transitivity (window cfg "tor1" (self w')); [|vm_compute; reflexivity].
    exact (proj2 (@reachable_windows_exact Store _ insertion_sort_slice "secret-token" "" (15 * Second) 3
      w w' eq_refl (rtc_once _ _ (step_request cfg sample_report w)) Hf) "tor1").
Defined.

(** The staleness loop disconnects exactly the devices whose last sign of
    life is more than their window ago. *)
Theorem stale_devices_exact cfg now g device seen :
  window_fits cfg → wf_gateway cfg g →
  (device, seen) ∈ staleDevices cfg now g ↔
    lastSeen g !! device = Some seen ∧ now - seen > window cfg device g.
Proof.
  intros Hf Hg. unfold staleDevices. rewrite list_elem_of_filter, elem_of_map_to_list. simpl.
  rewrite is_stale_window by done. tauto.
Qed.

Lemma stale_devices_exact_witness :
  let g := mkGateway {[ "tor1" := 100 ]} ∅ {[ "tor1" := 15 ]} in
  window_fits sample_config ∧ wf_gateway sample_config g ∧
  ("tor1", 100) ∈ staleDevices sample_config (46 * Second) g.
Proof.
  intros g.
  assert (window_fits sample_config) as Hf by (split; [|split]; vm_compute; discriminate).
  assert (wf_gateway sample_config g) as Hg.
  { split; simpl; [|set_solver]. intros d hb [_ <-]%lookup_singleton_Some. by left. }
  split; [exact Hf|]. split; [exact Hg|].
  apply (stale_devices_exact sample_config (46 * Second) g "tor1" 100 Hf Hg).
  split; [by apply lookup_singleton_eq|]. vm_compute. reflexivity.
Defined.

(** Reporting keeps a device alive.  Whatever happens while a decodable
    report is handled, answers of the API server included, the device counts as
    seen at the time [t] the clock showed during the request, and is not stale
    until its window after [t] has passed. *)
Theorem report_keeps_device_alive {S} `{GatewayClient S} cfg device obs reportedAt
    (w : World Gateway S GatewayCall) :
  window_fits cfg → wf_gateway cfg (self w) →
  let w' := (process_report cfg device obs reportedAt w).2 in
  let t := clock w (Datatypes.S (tick w)) in
  lastSeen (self w') !! device = Some t ∧
  ∀ now, now - t ≤ window cfg device (self w) → is_stale cfg now device t (self w') = false.
Proof.
  intros Hf Hg w' t.
  set (hb := normalizeHeartbeat cfg (get_int (heartbeatHints (self w)) device)).
  assert (Hhb : 0 < hb) by apply normalizeHeartbeat_pos.
  assert (keeps_alive : lastSeen (self w') !! device = Some t ∧ heartbeatHints (self w') !! device = Some hb).
  { unfold w', process_report. rewrite run_time_now, run_get_self. cbn [self env clock tick trace].
    unfold lastSeenAndHeartbeat. unfold record_heartbeat at 1.
    rewrite run_bind, run_time_now, run_modify. cbn [self env clock tick trace].
    apply (keeps_rest_of_report device
      (λ g, lastSeen g !! device = Some t ∧ heartbeatHints g !! device = Some hb)); [done|].
    simpl. fold hb. rewrite (proj2 (Z.ltb_lt 0 hb) Hhb), !lookup_insert_eq. done. }
  destruct keeps_alive as [Hs Hh]. split; [exact Hs|]. intros now Hnow.
  assert (wf_gateway cfg (self w')) as Hg' by (by apply keeps_process_report).
  apply not_true_is_false. rewrite is_stale_window by done.
  assert (window cfg device (self w') = window cfg device (self w)) as ->; [|lia].
  unfold window at 1, get_int. rewrite Hh. simpl. by rewrite normalizeHeartbeat_id.
Qed.

Lemma report_keeps_device_alive_witness :
  let w := sample_world (C:=GatewayCall) 0 in
  let w' := (process_report (S:=Store) sample_config "tor1" [] 7 w).2 in
  let t := clock w 1%nat in
  window_fits sample_config ∧ wf_gateway sample_config (self w) ∧
  is_stale sample_config (t + 45 * Second) "tor1" t (self w') = false.
Proof.
  intros w w' t.
  assert (window_fits sample_config) as Hf by (split; [|split]; vm_compute; discriminate).
  assert (wf_gateway sample_config (self w)) as Hg.
  { split; simpl; [|set_solver]. intros d hb. by rewrite lookup_empty. }
  split; [exact Hf|]. split; [exact Hg|].
  apply (proj2 (report_keeps_device_alive (S:=Store) sample_config "tor1" [] 7 w Hf Hg)).
  vm_compute. discriminate.
Defined.

(** A reconnection that cannot be recorded is not tried again. When the list of
    the device's processes fails, the report of a stale device is answered 500,
    yet the device already counts as seen. A heartbeat that follows within the
    window, with the API server answering again, is acknowledged and changes
    nothing in the API server: the processes stay marked as disconnected. *)
Theorem failed_reconnect_not_retried {S} `{GatewayClient S} cfg device e obs reportedAt reportedAt'
    (w w2 : World Gateway S GatewayCall) :
  window_fits cfg → wf_gateway cfg (self w) →
  let first := process_report cfg device obs reportedAt w in
  let hb := normalizeHeartbeat cfg (get_int (heartbeatHints (self w)) device) in
  let t := clock w (Datatypes.S (tick w)) in
  list_by_device device (env w) = Err e →
  IsZero (get_time (lastSeen (self w)) device) = true ∨
  staleAfter cfg hb < Sub (clock w (tick w)) (get_time (lastSeen (self w)) device) →
  self w2 = self first.2 → IsZero t = false →
  clock w2 (tick w2) - t ≤ window cfg device (self w) →
  let second := process_report cfg device [] reportedAt' w2 in
  first.1 = http_error StatusInternalServerError "failed to mark device connected" ∧
  env first.2 = env w ∧
  second.1 = ack ∧ env second.2 = env w2 ∧ trace second.2 = trace w2.
Proof.
  intros Hf Hg first hb t He Hstale Hself Ht Hnow second.
  assert (Hhb : 0 < hb) by apply normalizeHeartbeat_pos.
  assert (Hfirst : first.1 = http_error StatusInternalServerError "failed to mark device connected" ∧
    env first.2 = env w ∧ lastSeen (self first.2) !! device = Some t ∧
    heartbeatHints (self first.2) !! device = Some hb ∧ wf_gateway cfg (self first.2)).
  { pose proof (keeps_process_report cfg device obs reportedAt w Hg) as Hg'.
    revert Hg'. fold first. unfold first. rewrite process_report_run. cbv zeta.
    fold hb. rewrite (proj2 (report_is_stale_spec cfg device w)) by exact Hstale.
    unfold markDeviceConnected, listDeviceProcesses. rewrite !run_bind, run_ask. cbn [env].
    rewrite He, !run_ret. intros Hg'. do 2 (split; [done|]).
    split; [|split; [|exact Hg']]; simpl; rewrite ?(proj2 (Z.ltb_lt 0 hb) Hhb);
      by rewrite lookup_insert_eq. }
  destruct Hfirst as (H1 & H2 & H3 & H4 & Hg1). do 2 (split; [done|]).
  rewrite <-Hself in H3, H4, Hg1. unfold second.
  apply (heartbeat_writes_nothing cfg device reportedAt' t); [done..|].
  unfold window at 1, get_int. rewrite H4. simpl. by rewrite normalizeHeartbeat_id.
Qed.

Lemma failed_reconnect_not_retried_witness :
  let now i := Z.of_nat i * Second + 63839664000 * Second in
  let world g up := mkWorld (C:=GatewayCall) g (sample_store 0, up) now 0 [] in
  let w := world (mkGateway ∅ ∅ ∅) false in
  let first := process_report (S:=Store * bool) sample_config "tor1" [] 7 w in
  let w2 := world (self first.2) true in
  let second := process_report (S:=Store * bool) sample_config "tor1" [] 8 w2 in
  rs_Status first.1 = StatusInternalServerError ∧ second.1 = ack ∧ trace second.2 = [].
Proof.
  intros now world w first w2 second.
  assert (window_fits sample_config) as Hf by (split; [|split]; vm_compute; discriminate).
  assert (wf_gateway sample_config (self w)) as Hg.
  { split; simpl; [|set_solver]. intros d hb. by rewrite lookup_empty. }
  assert (list_by_device "tor1" (env w) = Err outage) as He by reflexivity.
  assert (clock w2 (tick w2) - clock w 1%nat ≤ window sample_config "tor1" (self w)) as Hnow
    by (vm_compute; discriminate).
  destruct (failed_reconnect_not_retried (S:=Store * bool) sample_config "tor1" outage [] 7 8 w w2
    Hf Hg He (or_introl eq_refl) eq_refl eq_refl Hnow) as (H1 & _ & H3 & _ & H5).
  unfold first, second. rewrite H1. split; [reflexivity|]. split; [exact H3|exact H5].
Defined.

(** A desired poll counts as a sign of life only after a report within the
    stale window; a device that never reported is never marked as seen by its
    polls. *)
Theorem poll_counts_only_after_report {S} `{GatewayClient S} `{SortSlice} cfg r device
    (w : World Gateway S GatewayCall) :
  lastSeen (self (handleDesired cfg r device w).2) ≠ lastSeen (self w) →
  ∃ t, lastReport (self w) !! device = Some t ∧
    Sub (clock w (tick w)) t ≤ staleAfter cfg (desiredHeartbeat device (self w)).1.
Proof.
  unfold handleDesired, computeDesired, listDeviceProcesses. rewrite !run_bind, run_ask, run_ret.
  destruct (list_by_device device (env w)) as [items|e]; [|by rewrite run_ret; intros []].
  rewrite run_bind, run_locked, run_ret. unfold recordDesiredHeartbeatIfEligible.
  rewrite run_bind, run_time_now, run_bind, run_get_self. cbn [self env clock tick trace].
  destruct (desiredEligible _ _ _ _) as [hb|] eqn:E;
    [intros _|intros Hne; destruct Hne; rewrite run_ret; by case_match].
  unfold desiredEligible in E. cbv zeta in E.
  change (lastReport (desiredHeartbeat device (self w)).2) with (lastReport (self w)) in E.
  destruct (lastReport (self w) !! device) as [t|] eqn:Ht.
  2: { unfold get_time in E. by rewrite Ht in E. }
  exists t. split; [done|].
  assert (get_time (lastReport (self w)) device = t) as Hg by (unfold get_time; by rewrite Ht).
  rewrite Hg in E. destruct (IsZero t); [done|].
  assert (normalizeHeartbeat cfg
            (get_int (heartbeatHints (desiredHeartbeat device (self w)).2) device) =
          (desiredHeartbeat device (self w)).1) as Hn.
  { unfold get_int. cbn [desiredHeartbeat heartbeatHints snd]. rewrite lookup_insert_eq.
    apply normalizeHeartbeat_id. cbn [desiredHeartbeat fst]. unfold defaultHeartbeatSeconds.
    destruct (heartbeatHints (self w) !! device) as [z|]; [destruct (Z.ltb_spec 0 z)|]; lia. }
  rewrite Hn in E. case_match; [done|by bool_prop].
Qed.

(** The configured default interval is ignored for a device whose first
    contact is a desired poll: it is answered the built-in 15 seconds, and the
    gateway uses 15 for its stale window from then on, whatever
    [--default-heartbeat-seconds] says. *)
Theorem first_poll_ignores_configured_interval {S} `{GatewayClient S} `{SortSlice} cfg device
    (w : World Gateway S GatewayCall) resp etag :
  heartbeatHints (self w) !! device = None →
  (computeDesired device w).1 = Ok (resp, etag) →
  de_HeartbeatIntervalSeconds resp = 15 ∧
  effectiveHeartbeat cfg device (self (computeDesired device w).2) = 15.
Proof.
  unfold computeDesired, listDeviceProcesses. rewrite run_bind, run_ask, run_ret. intros Hh.
  destruct (list_by_device device (env w)) as [items|e]; [|done].
  rewrite run_locked. unfold ret. cbn [fst snd self]. intros [= <- _].
  unfold desiredHeartbeat, effectiveHeartbeat, get_int. rewrite Hh. cbn. by rewrite lookup_insert_eq.
Qed.

Lemma first_poll_ignores_configured_interval_witness :
  let cfg := (New "" "" (60 * Second) 3).1 in
  let w := sample_world (C:=GatewayCall) 0 in
  normalizeHeartbeat cfg 0 = 60 ∧
  ∃ resp etag, (@computeDesired Store _ insertion_sort_slice "tor1" w).1 = Ok (resp, etag) ∧
    de_HeartbeatIntervalSeconds resp = 15.
Proof.
  intros cfg w. split; [vm_compute; reflexivity|].
  destruct (@computeDesired Store _ insertion_sort_slice "tor1" w).1 as [[resp etag]|e] eqn:E;
    [|discriminate E].
  exists resp, etag. split; [reflexivity|].
  exact (proj1 (@first_poll_ignores_configured_interval Store _ insertion_sort_slice cfg "tor1" w
    resp etag eq_refl E)).
Defined.

Lemma poll_counts_only_after_report_witness :
  let w := mkWorld (mkGateway ∅ {[ "tor1" := 63839664000 * Second ]} ∅) (sample_store 0)
             (λ i, Z.of_nat i * Second + 63839664000 * Second) 0 (@nil GatewayCall) in
  let poll := mkRequest "GET" "/v1/devices/tor1/desired" "" "" None in
  lastSeen (self (@handleDesired Store _ insertion_sort_slice sample_config poll "tor1" w).2) ≠
    lastSeen (self w) ∧
  ∃ t, lastReport (self w) !! "tor1" = Some t.
Proof.
  intros w poll.
  assert (lastSeen (self (@handleDesired Store _ insertion_sort_slice sample_config poll "tor1" w).2) ≠
          lastSeen (self w)) as Hne.
  { intros E. apply (f_equal (λ m : gmap string Z, bool_decide (m !! "tor1" = None))) in E.
    vm_compute in E. discriminate E. }
  split; [exact Hne|].
  destruct (@poll_counts_only_after_report Store _ insertion_sort_slice sample_config poll "tor1" w Hne)
    as (t & Ht & _).
  exists t. exact Ht.
Defined.
