(* ===== verification/GatewayConnection.v ===== *)
(** * Marking a device connected or disconnected

    When [markDeviceConnected] or [markDeviceDisconnected] succeeds, every
    process listed for the device carries the connection condition, either
    because it did already, and was not written, or because the API server
    stores it now. *)

From S2P Require Import Prelude GoStrings GoTime Api Conditions Kube Samples.
From S2P Require Import GatewayState GatewayStatus GatewayServer GatewayEffects.

Definition connection (connected : bool) (reason message : string) : Condition :=
  mkCondition ConditionAgentConnected (if connected then ConditionTrue else ConditionFalse)
    0 0 reason message.

Lemma setAgentConnected_holds now connected reason message st :
  holds (connection connected reason message)
    (st_Conditions (setAgentConnected now connected reason message st).1).
Proof.
  unfold setAgentConnected. cbn [st_Conditions set_Conditions].
  assert (holds (connection connected reason message)
    (SetCondition now (st_Conditions st) (connection connected reason message))) as Hh
    by apply SetCondition_establishes.
  repeat case_match; exact Hh.
Qed.

(** No change means that the condition was there. *)
Lemma setAgentConnected_unchanged now connected reason message st :
  (setAgentConnected now connected reason message st).2 = false →
  holds (connection connected reason message) (st_Conditions st).
Proof.
  unfold setAgentConnected. cbn [st_Conditions set_Conditions].
  fold (connection connected reason message).
  destruct (FindCondition (st_Conditions st) ConditionAgentConnected) as [b|] eqn:Hb; [|done].
  pose proof (SetCondition_found now (st_Conditions st) (connection connected reason message)) as Hf.
  cbn [c_Type connection] in Hf. rewrite Hf. cbn [snd]. intros Hc. bool_prop.
  repeat match goal with H : String.eqb _ _ = true |- _ => apply String.eqb_eq in H end.
  exists b. split; [exact Hb|]. apply same_condition_spec.
  pose proof (FindCondition_type _ _ _ Hb). simpl in *. auto.
Qed.

Section marks.
Context {S : Type} `{GatewayClientLaws S}.
Context (connected : bool) (reason message : string) (finish : Status → Status).
Context (ev_type ev_reason ev_msg : string).
Context (Hfinish : ∀ st, st_Conditions (finish st) = st_Conditions st).
Implicit Types w : World Gateway S GatewayCall.

Let mark := mark_process (S:=S) connected reason message finish ev_type ev_reason ev_msg.
Let cond := connection connected reason message.

(** What marking leaves of a process [p]. *)
Definition marked (s : S) (p : DeviceProcess) : Prop :=
  holds cond (st_Conditions (dp_Status p)) ∨
  ∃ q, stored s (dp_Key p) = Some q ∧ holds cond (st_Conditions (dp_Status q)) ∧
       dp_Spec q = dp_Spec p.

Lemma mark_process_frame p w : same_but (dp_Key p) (env w) (env (mark p w).2).
Proof.
  unfold mark, mark_process. rewrite run_time_now.
  destruct (setAgentConnected _ _ _ _ _) as [st changed]. destruct changed; [|by intros ? ?].
  cbn [negb]. cbv zeta. unfold patch. rewrite run_call. cbn [env].
  destruct (patch_status _ _ _) as [r s'] eqn:Hp. intros k Hk.
  pose proof (patch_status_frame _ _ _ _ _ k Hp Hk) as Hs. by destruct r.
Qed.

Lemma mark_process_marked p w : (mark p w).1 = None → marked (env (mark p w).2) p.
Proof using Hfinish.
  unfold mark, mark_process. rewrite run_time_now. set (t := clock w (tick w)).
  pose proof (setAgentConnected_holds t connected reason message (dp_Status p)) as Hh.
  pose proof (setAgentConnected_unchanged t connected reason message (dp_Status p)) as Hu.
  destruct (setAgentConnected _ _ _ _ _) as [st changed].
  destruct changed; cbn [negb fst snd] in *; [|intros _; left; by apply Hu].
  cbv zeta. unfold patch. rewrite run_call. cbn [env].
  destruct (patch_status _ _ _) as [[[]|e] s'] eqn:Hp; [|done]. intros _. right.
  destruct (patch_status_ok _ _ _ _ Hp eq_refl) as (q & Hq & Hst & Hsp).
  exists q. split; [exact Hq|]. split; [|exact Hsp]. rewrite Hst. simpl. by rewrite Hfinish.
Qed.

(** Marking the processes of one key each leaves each of them marked. *)
Lemma mark_loop procs w :
  NoDup (dp_Key <$> procs) → (for_each procs mark w).1 = None →
  Forall (marked (env (for_each procs mark w).2)) procs ∧
  ∀ k, k ∉ (dp_Key <$> procs) → stored (env (for_each procs mark w).2) k = stored (env w) k.
Proof using Hfinish.
  revert w. induction procs as [|p procs IH]; intros w; rewrite ?fmap_nil, ?fmap_cons; [by split|].
  intros [Hn Hd]%NoDup_cons. cbn [for_each]. unfold bind.
  pose proof (mark_process_marked p w) as Hm. pose proof (mark_process_frame p w) as Hf.
  destruct (mark p w) as [[e|] w'] eqn:E; [done|]. cbn [fst snd] in *.
  intros Hr. specialize (Hm eq_refl). destruct (IH w' Hd Hr) as [Hall Hother]. split.
  - constructor; [|exact Hall].
    destruct Hm as [Hm|(q & Hq & Hm)]; [by left|right]. exists q. by rewrite Hother.
  - intros k [Hk Hks]%not_elem_of_cons. by rewrite Hother, Hf.
Qed.
End marks.

(** ** Properties *)

(** A device is disconnected for all its processes.  When
    [markDeviceDisconnected] succeeds, every process the API server listed for
    the device either had the condition AgentConnected=False with that reason
    already or is now stored with it, its spec unchanged, and no process of
    another key was written. *)
Theorem disconnected_marks_all {S} `{GatewayClientLaws S} device items
    (w : World Gateway S GatewayCall) :
  let procs := filter (λ p, dp_DeviceName p = device) items in
  let w' := (markDeviceDisconnected device w).2 in
  list_by_device device (env w) = Ok items → NoDup (dp_Key <$> procs) →
  (markDeviceDisconnected device w).1 = None →
  Forall (marked false "AgentDisconnected" "device stale (no recent reports)" (env w')) procs ∧
  ∀ k, k ∉ (dp_Key <$> procs) → stored (env w') k = stored (env w) k.
Proof.
  intros procs w' Hl Hd. unfold w', markDeviceDisconnected, listDeviceProcesses.
  rewrite run_bind, run_ask, run_ret, Hl. apply mark_loop; [|exact Hd].
  intros st. unfold pending_if_empty. by case_match.
Qed.

Lemma disconnected_marks_all_witness :
  ∃ items, let procs := filter (λ p, dp_DeviceName p = "tor1") items in
  let w := sample_world (C:=GatewayCall) 0 in
  length procs = 2%nat ∧
  Forall (marked false "AgentDisconnected" "device stale (no recent reports)"
    (env (markDeviceDisconnected "tor1" w).2)) procs.
Proof.
  destruct (list_by_device "tor1" (sample_store 0)) as [items|e] eqn:E; [|discriminate E].
  exists items. intros procs w.
  assert (procs = [sample_process "infra" "a" "tor1"; sample_process "infra" "b" "tor1"] ∨
          procs = [sample_process "infra" "b" "tor1"; sample_process "infra" "a" "tor1"]) as Hp.
  { subst procs. vm_compute in E. injection E as <-. vm_compute. auto. }
  split; [by destruct Hp as [-> | ->]|].
  apply (disconnected_marks_all (S:=Store) "tor1" items w E).
  - fold procs. destruct Hp as [-> | ->]; apply (bool_decide_unpack _); vm_compute; exact I.
  - vm_compute. reflexivity.
Defined.

(** Connecting a device marks all its processes, in the same sense, and
    the device then has a recorded report. *)
Theorem connected_marks_all {S} `{GatewayClientLaws S} device items
    (w : World Gateway S GatewayCall) :
  let procs := filter (λ p, dp_DeviceName p = device) items in
  let w' := (markDeviceConnected device w).2 in
  list_by_device device (env w) = Ok items → NoDup (dp_Key <$> procs) →
  (markDeviceConnected device w).1 = None →
  Forall (marked true connectedReason connectedMessage (env w')) procs ∧
  device ∈ dom (lastReport (self w')).
Proof.
  intros procs w' Hl Hd. unfold w', markDeviceConnected, listDeviceProcesses.
  rewrite run_bind, run_ask, run_ret, Hl.
  fold procs.
  pose proof (mark_loop true connectedReason connectedMessage (λ st, st) EventTypeNormal
      "AgentConnected" "device connected" (λ _, eq_refl) procs w Hd) as Hm.
  unfold bind. destruct (for_each procs _ w) as [[e|] w1]; [done|]. cbn [fst snd] in *.
  intros _. destruct (Hm eq_refl) as [Hall _]. unfold record_report.
  rewrite run_time_now. unfold bind, modify, locked, ret. cbn [fst snd self env recordReport lastReport].
  split; [exact Hall|]. rewrite dom_insert. set_solver.
Qed.

Lemma connected_marks_all_witness :
  ∃ items, let procs := filter (λ p, dp_DeviceName p = "tor2") items in
  let w := sample_world (C:=GatewayCall) 0 in
  procs = [sample_process "infra" "c" "tor2"] ∧
  Forall (marked true connectedReason connectedMessage (env (markDeviceConnected "tor2" w).2)) procs.
Proof.
  destruct (list_by_device "tor2" (sample_store 0)) as [items|e] eqn:E; [|discriminate E].
  exists items. intros procs w.
  assert (procs = [sample_process "infra" "c" "tor2"]) as Hp.
  { subst procs. vm_compute in E. injection E as <-. vm_compute. reflexivity. }
  split; [exact Hp|].
  apply (connected_marks_all (S:=Store) "tor2" items w E).
  - fold procs. rewrite Hp. apply NoDup_singleton.
  - vm_compute. reflexivity.
Defined.
