(* ===== verification/GatewayReport.v ===== *)
(** * What an acknowledged report means

    A report is acknowledged only after each of its observations has been
    applied to a status the API server stores or has stored, or names no process
    as far as the gateway can see.  When the cache of the gateway has caught up
    and keeps up ([keeps_up]), these are the statuses stored now.  A report also
    makes a bounded number of patches. *)

From stdpp Require Import relations.
From S2P Require Import Prelude GoStrings GoTime Api Conditions Kube KubeServer Samples.
From S2P Require Import GatewayState GatewayStatus GatewayServer GatewayEffects.

Definition ob_key (o : Observation) : NamespacedName := (ob_Namespace o, ob_Name o).

(** The status tells what the observation saw: it is the status the observation
    leads to, or it differs from that in nothing the gateway compares. *)
Definition up_to_date (o : Observation) (st : Status) : Prop :=
  ∃ reportedAt now start st0, observed_start o = Some start ∧
    (st = observed_status o reportedAt now start st0 ∨
     reflectDeepEqualStatus st (observed_status o reportedAt now start st) = true).

Section report.
Context {S : Type} `{ConcurrentClient S}.
Implicit Types w : World Gateway S GatewayCall.

Lemma mark_patched c reason message finish ty er em p :
  env_rel (S:=S) patched (mark_process c reason message finish ty er em p).
Proof. unfold mark_process, patch, event. effects. all: intros ?; apply patched_once. Qed.

Lemma connected_patched device : env_rel (S:=S) patched (markDeviceConnected device).
Proof.
  unfold markDeviceConnected, listDeviceProcesses, record_report. effects.
  apply env_rel_for_each; [apply _|]. intros p _. apply mark_patched.
Qed.

Lemma round_patched device o t : env_rel (S:=S) patched (observation_round device o t).
Proof. unfold observation_round, patch, observation_events, event. effects. intros ?. apply patched_once. Qed.

Lemma loop_patched n device o t : env_rel (S:=S) patched (observation_loop n device o t).
Proof. induction n as [|n IH]; cbn [observation_loop]; effects. apply round_patched. Qed.

(** ** One observation *)

(** From [s] to [s'] the observation was applied to the process [p] the gateway
    read: it has become [q], which tells what was observed. *)
Definition applied (device : string) (o : Observation) (s s' : S) (p q : DeviceProcess) : Prop :=
  ∃ s1, patched s s1 ∧ patched s1 s' ∧ get_process (ob_key o) s1 = Ok p ∧ dp_DeviceName p = device ∧
    dp_Spec q = dp_Spec p ∧ up_to_date o (dp_Status q) ∧
    (q = p ∧ s' = s1 ∨ stored s' (ob_key o) = Some q).

(** Between [s] and [s'] the gateway was told that there is no such process. *)
Definition missing (k : NamespacedName) (s s' : S) : Prop :=
  ∃ s1 e, patched s s1 ∧ patched s1 s' ∧ err_Reason e = NotFound ∧
    (get_process k s1 = Err e ∨
     ∃ before after s2, dp_Key before = k ∧ patch_status before after s1 = (Err e, s2)).

Lemma missing_weaken k s0 s s' s2 : patched s0 s → missing k s s' → patched s' s2 → missing k s0 s2.
Proof.
  intros Hpre (s1 & e & Ha & Hb & Hrest) Hpost. exists s1, e.
  split; [by transitivity s|]. split; [by transitivity s'|done].
Qed.

(** A round that ends with NotFound was told so. *)
Lemma round_missing device o t w e :
  (observation_round device o t w).1 = Some (Err e) → err_Reason e = NotFound →
  missing (ob_key o) (env w) (env (observation_round device o t w).2).
Proof.
  intros Hr He. exists (env w), e. split; [done|]. split; [apply round_patched|]. split; [done|].
  revert Hr. unfold observation_round. rewrite run_ask. fold (ob_key o).
  destruct (get_process (ob_key o) (env w)) as [proc|e'] eqn:Hg.
  2: { cbn. intros [= ->]. by left. }
  apply get_process_key in Hg as Hkey.
  destruct (negb _); [by intros [= <-]|]. rewrite run_time_window, applyObservation_eq.
  destruct (observed_start o) as [start|]; [|by intros [= <-]].
  destruct (reflectDeepEqualStatus _ _); [done|]. unfold patch. rewrite run_call. cbn [env].
  destruct (patch_status _ _ _) as [[u|e1] s'] eqn:Hpt; cbn [fst snd].
  - unfold bind. by destruct (observation_events _ _ _ _ _ _).
  - destruct (IsConflict e1); [done|]. intros [= ->]. right. by eexists _, _, s'.
Qed.

Lemma round_applied device o t w u :
  (observation_round device o t w).1 = Some (Ok u) →
  ∃ p q, applied device o (env w) (env (observation_round device o t w).2) p q.
Proof.
  intros Hr. pose proof (round_patched device o t w) as Hp.
  pose proof (observation_round_outcome device o t w) as Ho. rewrite Hr in Ho.
  destruct Ho as (p & start & now & Hg & Hd & Hs & Hpt). fold (ob_key o) in Hg.
  pose proof (get_process_key _ _ _ Hg) as Hkey. cbv zeta in Hpt. destruct (reflectDeepEqualStatus _ _) eqn:Heq.
  - exists p, p, (env w). rewrite Hpt in *. split_all; try done; [|by left].
    exists t, now, start, (dp_Status p). auto.
  - destruct (patch_status_ok _ _ _ _ Hpt eq_refl) as (q & Hq & Hst & Hsp). rewrite Hkey in Hq.
    exists p, q, (env w). split_all; try done; [|by right].
    exists t, now, start, (dp_Status p). split; [done|]. left. by rewrite Hst.
Qed.

Lemma loop_applied n device o t w :
  let r := observation_loop n device o t w in
  match r.1 with
  | Ok _ => ∃ p q, applied device o (env w) (env r.2) p q
  | Err e => err_Reason e = NotFound → missing (ob_key o) (env w) (env r.2)
  end.
Proof.
  cbv zeta. revert w. induction n as [|n IH]; intros w; cbn [observation_loop]; [done|].
  pose proof (round_patched device o t w) as Hp.
  pose proof (round_applied device o t w) as Ha. pose proof (λ e, round_missing device o t w e) as Hm.
  unfold bind. destruct (observation_round device o t w) as [[[u|e]|] w']; cbn [fst snd ret] in *.
  - by apply (Ha u).
  - by apply Hm.
  - specialize (IH w'). destruct (observation_loop n device o t w') as [[u|e] w2]; cbn [fst snd] in *.
    + destruct IH as (p & q & s1 & Hpre & Hrest). exists p, q, s1. split; [by transitivity (env w')|done].
    + intros He. eapply missing_weaken; [exact Hp|by apply IH|done].
Qed.

(** ** All observations of a report *)

(** What is known of an observation of an acknowledged report. *)
Definition settled (device : string) (o : Observation) (s s' : S) : Prop :=
  missing (ob_key o) s s' ∨
  ∃ q, served s' q ∧ dp_Key q = ob_key o ∧ dp_DeviceName q = device ∧ up_to_date o (dp_Status q).

Lemma applied_settled device o s s' p q :
  coherent s → applied device o s s' p q → settled device o s s'.
Proof.
  intros Hc (s1 & Hpre & Hpost & Hg & Hd & Hsp & Hu & Hq). right. exists q.
  assert (served s' q ∧ dp_Key q = ob_key o) as [Hs Hk].
  { destruct Hq as [[-> ->]|Hq].
    - split; [|by eapply get_process_key]. eapply get_served; [|exact Hg]. exact (patched_coherent _ _ Hpre Hc).
    - eapply stored_served; [|exact Hq]. apply (patched_coherent s); [by transitivity s1|done]. }
  split_all; [done..| |done]. unfold dp_DeviceName in *. by rewrite Hsp.
Qed.

Lemma settled_weaken device o s0 s s' s2 :
  patched s0 s → settled device o s s' → patched s' s2 → settled device o s0 s2.
Proof.
  intros Hpre [Hm|(q & Hs & Hrest)] Hpost; [left; by eapply missing_weaken|right].
  exists q. split; [by eapply patched_served|done].
Qed.

(** With a cache that keeps up, the process that was stored is still, and its
    status tells what the observation saw. *)
Definition recorded (device : string) (o : Observation) (s' : S) (p : DeviceProcess) : Prop :=
  dp_DeviceName p = device ∧
  ∃ q, stored s' (ob_key o) = Some q ∧ dp_Spec q = dp_Spec p ∧ up_to_date o (dp_Status q).

Lemma applied_recorded device o s s' p0 p q :
  coherent s → keeps_up s → stored s (ob_key o) = Some p0 → applied device o s s' p q →
  recorded device o s' p0.
Proof.
  intros Hc Hk Hp0 (s1 & Hpre & Hpost & Hg & Hd & Hsp & Hu & Hq).
  destruct (Hk s1 Hpre) as (Hlive & _). apply Hlive in Hg.
  destruct (patched_stored s s1 _ _ Hpre Hc Hp0) as (p' & Hp' & Esp). simplify_eq.
  split; [unfold dp_DeviceName; by rewrite <-Esp|]. exists q. split; [|split; [congruence|done]].
  by destruct Hq as [[-> ->]|Hq].
Qed.

Lemma not_missing k s s' p :
  coherent s → keeps_up s → stored s k = Some p → ¬ missing k s s'.
Proof.
  intros Hc Hk Hp (s1 & e & Hpre & _ & He & Hm).
  destruct (patched_stored s s1 _ _ Hpre Hc Hp) as (q & Hq & _).
  destruct Hm as [Hg|(b & a & s2 & Hb & Hpt)].
  - destruct (Hk s1 Hpre) as (_ & Hgone & _). by rewrite (Hgone _ _ Hg He) in Hq.
  - rewrite <-Hb in Hq. by rewrite (patch_missing _ _ _ _ _ (patched_coherent _ _ Hpre Hc) Hpt He) in Hq.
Qed.

Lemma report_observation_loop device t o w :
  (report_observation device t o w).2 = (updateStatusForObservation device o (Some t) w).2 ∧
  ((report_observation device t o w).1 = None →
   match (updateStatusForObservation device o (Some t) w).1 with
   | Ok _ => True
   | Err e => err_Reason e = NotFound
   end) ∧
  (∀ rs, (report_observation device t o w).1 = Some rs → rs_Status rs ≠ StatusOK).
Proof.
  unfold report_observation, bind. destruct (updateStatusForObservation device o (Some t) w) as [[u|e] w'].
  { done. }
  cbn [fst snd]. destruct (IsBadRequest e); [by split_all; try done; intros rs [= <-]|].
  destruct (IsNotFound e) eqn:He; [|by split_all; try done; intros rs [= <-]].
  split_all; [done| |done]. intros _. by apply bool_decide_eq_true in He.
Qed.

(** An observation that does not end the request. *)
Lemma report_observation_settled device t o w :
  coherent (env w) → (report_observation device t o w).1 = None →
  let s' := env (report_observation device t o w).2 in
  settled device o (env w) s' ∧
  (keeps_up (env w) → ∀ p, stored (env w) (ob_key o) = Some p → recorded device o s' p).
Proof.
  intros Hc Hnone. destruct (report_observation_loop device t o w) as (Hw & Hn & _).
  specialize (Hn Hnone). cbv zeta. rewrite Hw. clear Hw Hnone. unfold updateStatusForObservation in *.
  pose proof (loop_applied maxAttempts device o (Some t) w) as Ha. cbv zeta in Ha.
  destruct (observation_loop maxAttempts device o (Some t) w) as [[u|e] w']; cbn [fst snd] in *.
  - destruct Ha as (p & q & Ha). split; [by eapply applied_settled|].
    intros Hk p0 Hp0. by eapply applied_recorded.
  - split; [left; by apply Ha|]. intros Hk p0 Hp0. by destruct (not_missing (ob_key o) (env w) (env w') p0 Hc Hk Hp0 (Ha Hn)).
Qed.

Lemma report_observation_patched device t o : env_rel (S:=S) patched (report_observation device t o).
Proof. intros w. rewrite (proj1 (report_observation_loop device t o w)). apply loop_patched. Qed.

Lemma observations_patched device t obs :
  env_rel (S:=S) patched (for_each obs (report_observation device t)).
Proof. apply env_rel_for_each; [apply _|]. intros o _. apply report_observation_patched. Qed.

Lemma observations_settled device t obs w :
  coherent (env w) → (for_each obs (report_observation device t) w).1 = None →
  ∀ o, o ∈ obs → settled device o (env w) (env (for_each obs (report_observation device t) w).2).
Proof.
  revert w. induction obs as [|o obs IH]; intros w Hc; [by intros _ o' Ho%elem_of_nil|].
  pose proof (report_observation_patched device t o w) as Hp.
  pose proof (report_observation_settled device t o w Hc) as Ho.
  cbn [for_each]. unfold bind. destruct (report_observation device t o w) as [[rs|] w1]; cbn [fst snd ret] in *; [done|].
  destruct (Ho eq_refl) as [Hs _]. intros Hr o' [->|Ho']%elem_of_cons.
  - by eapply settled_weaken; [|exact Hs|apply observations_patched].
  - eapply settled_weaken; [exact Hp|apply IH; [by eapply patched_coherent|done..]|done].
Qed.

Lemma observations_recorded device t obs w :
  NoDup (ob_key <$> obs) → coherent (env w) → keeps_up (env w) →
  (for_each obs (report_observation device t) w).1 = None →
  let s' := env (for_each obs (report_observation device t) w).2 in
  (∀ k, k ∉ (ob_key <$> obs) → stored s' k = stored (env w) k) ∧
  ∀ o p, o ∈ obs → stored (env w) (ob_key o) = Some p → recorded device o s' p.
Proof.
  revert w. induction obs as [|o obs IH]; intros w; cbv zeta.
  { intros _ _ _ _. split; [done|]. intros o p Ho. by apply elem_of_nil in Ho. }
  rewrite fmap_cons, NoDup_cons. intros [Hn Hd] Hc Hk. cbn [for_each]. unfold bind.
  pose proof (report_observation_settled device t o w Hc) as Hrec.
  pose proof (report_observation_patched device t o w) as Hp.
  pose proof (loop_frame maxAttempts device o (Some t) w) as Hf.
  change (observation_loop maxAttempts) with (updateStatusForObservation (S:=S)) in Hf.
  fold (ob_key o) in Hf. rewrite <-(proj1 (report_observation_loop device t o w)) in Hf.
  destruct (report_observation device t o w) as [[rs|] w1]; cbn [fst snd ret] in *; [done|].
  intros Hr. destruct (Hrec eq_refl) as [_ Ho].
  destruct (IH w1 Hd (patched_coherent _ _ Hp Hc) (keeps_up_patched _ _ Hp Hk) Hr) as [Hother Hall]. split.
  - intros k [Hk1 Hks]%not_elem_of_cons. rewrite Hother by done. by apply Hf.
  - intros o' p [->|Ho']%elem_of_cons Hst.
    + destruct (Ho Hk p Hst) as (Hdev & q & Hq & Hrest). split; [done|]. exists q. by rewrite Hother.
    + apply Hall; [done|]. rewrite Hf; [done|]. intros E. apply Hn. rewrite <-E. by apply list_elem_of_fmap_2.
Qed.

(** The report up to its observations, and those. *)
Lemma process_report_observations cfg device obs t w :
  let r := process_report cfg device obs t w in
  patched (env w) (env r.2) ∧
  (rs_Status r.1 = StatusOK →
   ∃ w3, patched (env w) (env w3) ∧ (for_each obs (report_observation device t) w3).1 = None ∧
     env r.2 = env (for_each obs (report_observation device t) w3).2).
Proof.
  cbv zeta. unfold process_report. rewrite run_time_now, run_get_self. cbn [self].
  destruct (lastSeenAndHeartbeat cfg device (self w)) as [prev hb]. cbv zeta.
  rewrite run_step. set (w1 := (record_heartbeat device hb _).2).
  rewrite run_step. set (w2 := (record_report device w1).2).
  assert (env w2 = env w) as E2 by done.
  rewrite run_step. set (m := (if _ : bool then _ else _ : M Gateway S GatewayCall (option ApiError))).
  assert (env_rel patched m) as Hm.
  { unfold m. destruct (IsZero prev || _); [apply connected_patched|by effects]. }
  specialize (Hm w2). rewrite E2 in Hm. destruct (m w2) as [[e|] w3]; cbn [fst snd] in *; [done|].
  rewrite run_step. pose proof (observations_patched device t obs w3) as Ho.
  assert (answers (λ r, ∀ rs, r = Some rs → rs_Status rs ≠ StatusOK)
    (for_each obs (report_observation (S:=S) device t))) as Ha.
  { apply answers_for_each. intros o w' rs'. by apply report_observation_loop. }
  specialize (Ha w3).
  destruct (for_each obs (report_observation device t) w3) as [[rs|] w4] eqn:E; cbn [fst snd ret default] in *;
    (split; [by transitivity (env w3)|]).
  - intros Hok. by destruct (Ha rs eq_refl).
  - intros _. exists w3. by rewrite E.
Qed.

Lemma process_report_settled cfg device obs t w :
  coherent (env w) → rs_Status (process_report cfg device obs t w).1 = StatusOK →
  ∀ o, o ∈ obs → settled device o (env w) (env (process_report cfg device obs t w).2).
Proof.
  intros Hc Hok o Ho. destruct (process_report_observations cfg device obs t w) as [_ Hr].
  destruct (Hr Hok) as (w3 & Hp & Hn & ->). eapply settled_weaken; [exact Hp| |done].
  apply observations_settled; [by eapply patched_coherent|done..].
Qed.

Lemma process_report_records cfg device obs t w :
  NoDup (ob_key <$> obs) → coherent (env w) → keeps_up (env w) →
  rs_Status (process_report cfg device obs t w).1 = StatusOK →
  ∀ o p, o ∈ obs → stored (env w) (ob_key o) = Some p →
    recorded device o (env (process_report cfg device obs t w).2) p.
Proof.
  intros Hd Hc Hk Hok o p Ho Hp. destruct (process_report_observations cfg device obs t w) as [_ Hr].
  destruct (Hr Hok) as (w3 & Hp3 & Hn & ->).
  destruct (patched_stored _ _ _ _ Hp3 Hc Hp) as (p3 & Hst & Hsp).
  destruct (observations_recorded device t obs w3 Hd (patched_coherent _ _ Hp3 Hc)
    (keeps_up_patched _ _ Hp3 Hk) Hn) as [_ Hall].
  destruct (Hall o p3 Ho Hst) as (Hdev & q & Hq & Hsq & Hu). split.
  - unfold dp_DeviceName in *. by rewrite <-Hsp.
  - exists q. split; [done|]. split; [congruence|done].
Qed.
End report.

(** ** How much a report writes *)

(** The processes patched, in order. *)
Definition patched_keys (l : list GatewayCall) : list NamespacedName :=
  omap (λ c, match c with CallPatch before _ => Some (dp_Key before) | _ => None end) l.

Lemma patched_keys_app l l' : patched_keys (l ++ l') = patched_keys l ++ patched_keys l'.
Proof. apply omap_app. Qed.

(** At most [n] patches, all of the process [k]. *)
Definition patches_at_most (n : nat) (k : NamespacedName) (l : list GatewayCall) : Prop :=
  ∃ m, (m ≤ n)%nat ∧ patched_keys l = replicate m k.

(** For each of the first [length ms] observations, as many patches of its process
    as [ms] says. *)
Definition observation_patches (ms : list nat) (obs : list Observation) : list NamespacedName :=
  concat (zip_with (λ m o, replicate m (ob_key o)) ms obs).

(** What a list of the processes of a device answers. *)
Definition listed {S} `{GatewayClient S} (device : string) (s : S) : list DeviceProcess :=
  match list_by_device device s with
  | Ok ps => filter (λ p, dp_DeviceName p = device) ps
  | Err _ => []
  end.

Lemma observation_patches_length ms obs :
  Forall (λ m, (m ≤ maxAttempts)%nat) ms →
  (length (observation_patches ms obs) ≤ maxAttempts * length obs)%nat.
Proof.
  intros Hms. revert obs. induction Hms as [|m ms Hm _ IH]; intros obs; [cbn; lia|].
  destruct obs as [|o obs]; [cbn; lia|]. specialize (IH obs). unfold observation_patches in *.
  cbn [zip_with concat length]. rewrite length_app, length_replicate. lia.
Qed.

Section work.
Context {S : Type} `{GatewayClientLaws S}.

#[local] Abbreviation GW := (M Gateway S GatewayCall).

Definition is_event (c : GatewayCall) : Prop :=
  match c with CallEvent _ _ _ _ => True | CallPatch _ _ => False end.

Lemma events_patch_nothing l : Forall is_event l → patched_keys l = [].
Proof. induction 1 as [|[b a|o ty re m] l Hc Hl IH]; [done..|exact IH]. Qed.

Lemma patches_zero {A} n k (m : GW A) : emits is_event m → writes (patches_at_most n k) m.
Proof.
  apply writes_impl. intros l Hl. exists 0%nat. split; [lia|]. by apply events_patch_nothing.
Qed.

Lemma events_only device p o t ch : emits is_event (observation_events (S:=S) device p o t ch).
Proof. unfold observation_events, event. effects. all: by apply emits_emit. Qed.

(** One patch and events. *)
Lemma patches_one {B} n k b a (m : result ApiError unit → GW B) :
  dp_Key b = k → (∀ r, writes (patches_at_most n k) (m r)) →
  writes (patches_at_most (Datatypes.S n) k) (bind (patch b a) m).
Proof.
  intros Hk Hm. eapply (writes_bind (λ l, l = [CallPatch b a])); [|by intros w; exists [CallPatch b a]|exact Hm].
  intros l1 l2 -> (j & Hj & E). exists (Datatypes.S j). split; [lia|]. cbn. by rewrite <-E, Hk.
Qed.

Lemma round_patches device o t : writes (patches_at_most 1 (ob_key o)) (observation_round (S:=S) device o t).
Proof.
  unfold observation_round. apply writes_ask_bind. intros s [proc|e] Hg; [|apply patches_zero; effects].
  apply get_process_key in Hg. fold (ob_key o) in Hg. destruct (negb _); [apply patches_zero; effects|].
  eapply (writes_bind (λ l, l = [])); [|by apply writes_silent|]; [by intros l1 l2 -> Hl|]. intros now.
  destruct (applyObservation _ _ _ _) as [[st ch]|e]; [|apply patches_zero; effects].
  destruct (reflectDeepEqualStatus _ _); [apply patches_zero; effects|]. cbv zeta.
  apply patches_one; [done|]. intros [u|e]; [|destruct (IsConflict e); apply patches_zero; effects].
  apply patches_zero. effects. apply events_only.
Qed.

Lemma patches_add {A B} n n' k (m : GW A) (f : A → GW B) :
  writes (patches_at_most n k) m → (∀ a, writes (patches_at_most n' k) (f a)) →
  writes (patches_at_most (n + n') k) (bind m f).
Proof.
  apply writes_bind. intros l1 l2 (i & Hi & E1) (j & Hj & E2). exists (i + j)%nat. split; [lia|].
  by rewrite patched_keys_app, E1, E2, replicate_add.
Qed.

Lemma loop_patches n device o t : writes (patches_at_most n (ob_key o)) (observation_loop (S:=S) n device o t).
Proof.
  induction n as [|n IH]; cbn [observation_loop]; [apply patches_zero; effects|].
  apply (patches_add 1 n); [apply round_patches|]. intros [r|]; [apply patches_zero; effects|exact IH].
Qed.

Lemma report_observation_patches device t o :
  writes (patches_at_most maxAttempts (ob_key o)) (report_observation (S:=S) device t o).
Proof.
  unfold report_observation. change maxAttempts with (maxAttempts + 0)%nat at 1.
  apply patches_add; [apply loop_patches|]. intros r. apply patches_zero. effects.
Qed.

Lemma observations_patches device t obs :
  writes (λ l, ∃ ms, (length ms ≤ length obs)%nat ∧ Forall (λ m, (m ≤ maxAttempts)%nat) ms ∧
            patched_keys l = observation_patches ms obs)
    (for_each obs (report_observation (S:=S) device t)).
Proof.
  induction obs as [|o obs IH]; cbn [for_each].
  { apply writes_silent; [|done]. by exists []. }
  eapply writes_bind; [|apply report_observation_patches|].
  2: { intros [rs|]; [|exact IH]. apply writes_silent; [|done]. exists []. split; [cbn; lia|done]. }
  intros l1 l2 (m & Hm & E1) (ms & Hl & Hms & E2). exists (m :: ms). split; [cbn; lia|].
  split; [by constructor|]. rewrite patched_keys_app, E1, E2. done.
Qed.

Lemma marks_patches c reason message finish ty er em ps :
  writes (λ l, patched_keys l `sublist_of` (dp_Key <$> ps))
    (for_each ps (mark_process (S:=S) c reason message finish ty er em)).
Proof.
  induction ps as [|p ps IH]; cbn [for_each]; [by apply writes_silent|].
  eapply (writes_bind (patches_at_most 1 (dp_Key p))).
  3: { intros [e|]; [|exact IH]. apply writes_silent; [apply sublist_nil_l|done]. }
  - intros l1 l2 (m & Hm & E1) Hl2. rewrite patched_keys_app, E1, fmap_cons.
    change (dp_Key p :: ?x) with ([dp_Key p] ++ x). apply sublist_app; [|done].
    destruct m as [|[|m]]; [apply sublist_nil_l|done|lia].
  - unfold mark_process. eapply (writes_bind (λ l, l = [])); [|by apply writes_silent|]; [by intros l1 l2 -> Hl|].
    intros now. destruct (setAgentConnected _ _ _ _ _) as [st ch]. destruct (negb ch); [apply patches_zero; effects|].
    cbv zeta. apply (patches_one 0); [done|]. intros [u|e]; apply patches_zero; unfold event; effects. by apply emits_emit.
Qed.

Lemma connected_patches device (w : World Gateway S GatewayCall) :
  ∃ new, trace (markDeviceConnected device w).2 = trace w ++ new ∧
    patched_keys new `sublist_of` (dp_Key <$> listed device (env w)).
Proof.
  unfold markDeviceConnected, listDeviceProcesses, listed. rewrite run_bind, run_ask, run_ret.
  destruct (list_by_device device (env w)) as [ps|e]; [|exists []; split; [by rewrite app_nil_r|apply sublist_nil_l]].
  revert w. eapply writes_bind; [|apply marks_patches|].
  2: { intros [e|]; [apply (writes_silent (λ l, patched_keys l = [])); done|].
       apply (writes_silent (λ l, patched_keys l = [])); done. }
  intros l1 l2 Hl1 Hl2. by rewrite patched_keys_app, Hl2, app_nil_r.
Qed.
End work.

(** ** Properties *)

(** C33: an acknowledged report is in the API server.  When the report of a
    device is answered 200, then for every observation in it the API server has
    stored, now or before, a process of that key and device whose status tells
    what the observation saw, or the gateway was told while handling the report
    that there is no such process; this holds for a cache that lags and for
    several observations of one process.  If moreover the cache has caught up and
    keeps up, and no process is observed twice, then every process that was stored
    is stored now with the same spec and such a status, whatever the marks of a
    reconnection, lost races and the other observations did in between. *)
Theorem acknowledged_report_is_stored {S} `{ConcurrentClient S} cfg device obs t
    (w : World Gateway S GatewayCall) :
  coherent (env w) → rs_Status (process_report cfg device obs t w).1 = StatusOK →
  let s' := env (process_report cfg device obs t w).2 in
  (∀ o, o ∈ obs →
     missing (ob_key o) (env w) s' ∨
     ∃ q, served s' q ∧ dp_Key q = ob_key o ∧ dp_DeviceName q = device ∧ up_to_date o (dp_Status q)) ∧
  (keeps_up (env w) → NoDup (ob_key <$> obs) →
   ∀ o p, o ∈ obs → stored (env w) (ob_key o) = Some p →
     dp_DeviceName p = device ∧
     ∃ q, stored s' (ob_key o) = Some q ∧ dp_Spec q = dp_Spec p ∧ up_to_date o (dp_Status q)).
Proof.
  intros Hc Hok. split.
  - by apply process_report_settled.
  - intros Hk Hd. by apply process_report_records.
Qed.

(** C4: the work of a report is bounded.  Handling a report patches each process
    the gateway lists for the device at most once, and none when the device was
    seen within its window, and then for every observation, in order, at most
    three times the process it names, and nothing else; so races with
    other writers cannot keep a report from being answered. *)
Theorem report_patches_bounded {S} `{GatewayClientLaws S} cfg device obs t
    (w : World Gateway S GatewayCall) :
  let r := process_report cfg device obs t w in
  ∃ new marks ms, trace r.2 = trace w ++ new ∧ patched_keys new = marks ++ observation_patches ms obs ∧
    marks `sublist_of` (dp_Key <$> listed device (env w)) ∧
    (let '(prevSeen, hb) := lastSeenAndHeartbeat cfg device (self w) in
     IsZero prevSeen = false → Sub (clock w (tick w)) prevSeen ≤ staleAfter cfg hb → marks = []) ∧
    (length ms ≤ length obs)%nat ∧ Forall (λ m, (m ≤ 3)%nat) ms ∧
    (length (patched_keys new) ≤ length (listed device (env w)) + 3 * length obs)%nat.
Proof.
  cbv zeta. change 3%nat with maxAttempts. unfold process_report.
  rewrite run_time_now, run_get_self. cbn [self].
  destruct (lastSeenAndHeartbeat cfg device (self w)) as [prev hb]. cbv zeta.
  rewrite run_step. set (w1 := (record_heartbeat device hb _).2).
  rewrite run_step. set (w2 := (record_report device w1).2).
  assert (env w2 = env w ∧ trace w2 = trace w) as [Ee Et] by done. rewrite run_step.
  assert (∀ m : M Gateway S GatewayCall (option ApiError), ∀ marks n1,
    trace (m w2).2 = trace w ++ n1 → patched_keys n1 = marks →
    marks `sublist_of` (dp_Key <$> listed device (env w)) →
    ∃ new ms, trace (match (m w2).1 with
      | Some _ => ret (http_error StatusInternalServerError "failed to mark device connected")
      | None => (r <- for_each obs (report_observation device t) ;; ret (default ack r))%go
      end (m w2).2).2 = trace w ++ new ∧ patched_keys new = marks ++ observation_patches ms obs ∧
      (length ms ≤ length obs)%nat ∧ Forall (λ m, (m ≤ maxAttempts)%nat) ms ∧
      (length (patched_keys new) ≤ length (listed device (env w)) + maxAttempts * length obs)%nat) as Hrest.
  { intros m marks n1 Hn1 Hm1 Hsub. apply sublist_length in Hsub as Hlen. rewrite length_fmap in Hlen.
    destruct (m w2) as [[e|] w3]; cbn [fst snd] in *.
    - exists n1, []. rewrite Hm1. cbn. rewrite app_nil_r. split_all; [done|done|lia|constructor|lia].
    - rewrite run_step. cbn [ret snd]. destruct (observations_patches device t obs w3) as (n2 & Hn2 & ms & Hl & Hms & Hp).
      exists (n1 ++ n2), ms. rewrite Hn2, Hn1, patched_keys_app, Hm1, Hp, <-app_assoc. split_all; try done.
      rewrite length_app. pose proof (observation_patches_length ms obs Hms). lia. }
  destruct (IsZero prev || _) eqn:Hstale.
  - destruct (connected_patches device w2) as (n1 & Hn1 & Hsub). rewrite Ee in Hsub. rewrite Et in Hn1.
    destruct (Hrest _ _ n1 Hn1 eq_refl Hsub) as (new & ms & Ht & Hp & Hall). exists new, (patched_keys n1), ms.
    split_all; try done; try apply Hall. intros Hz Hle. rewrite Hz in Hstale. cbn in Hstale. apply Z.ltb_lt in Hstale. lia.
  - destruct (Hrest (ret None) [] [] ltac:(by rewrite app_nil_r) eq_refl (sublist_nil_l _)) as (new & ms & Ht & Hp & Hall).
    exists new, [], ms. split_all; try done; try apply Hall. apply sublist_nil_l.
Qed.

Definition two_processes : Server :=
  server_put (sample_process "infra" "b" "tor1")
    (server_put (sample_process "infra" "a" "tor1") (mkServer ∅ [] 0)).

Lemma two_processes_coherent : server_coherent two_processes.
Proof. apply server_put_coherent, server_put_coherent, server_empty_coherent. Qed.

Definition seen_running (name : string) : Observation :=
  mkObservation "infra" name "sha256:00" (Some true) (Some true) 42 "" None None
    "" 1 "" "" (Some true) None "" "" "" "".

(** A first report of two processes. *)
Lemma acknowledged_report_is_stored_witness :
  let w := mkWorld (mkGateway ∅ ∅ ∅) two_processes (λ _, 63839664000 * Second) 0 [] in
  let w' := (process_report sample_config "tor1" [seen_running "a"; seen_running "b"]
               (63839664000 * Second) w).2 in
  ∃ q, stored (env w') ("infra", "b") = Some q ∧ up_to_date (seen_running "b") (dp_Status q).
Proof.
  intros w w'.
  destruct (stored (env w) ("infra", "b")) as [p|] eqn:Hp; [|vm_compute in Hp; discriminate Hp].
  assert (rs_Status (process_report sample_config "tor1" [seen_running "a"; seen_running "b"]
    (63839664000 * Second) w).1 = StatusOK) as Hok by (vm_compute; reflexivity).
  assert (coherent (env w)) as Hc by exact two_processes_coherent.
  destruct (acknowledged_report_is_stored (S:=Server) sample_config "tor1" [seen_running "a"; seen_running "b"]
    (63839664000 * Second) w Hc Hok) as [_ Hcur].
  destruct (Hcur (server_keeps_up _ two_processes_coherent) ltac:(by apply (bool_decide_unpack _))
    (seen_running "b") p ltac:(do 2 constructor) Hp) as (_ & q & Hq & _ & Hu).
  exists q. split; [exact Hq|exact Hu].
Defined.
