(* ===== verification/Manager.v ===== *)
(** * The controller-runtime manager as the programs use it

    The two servers configure a manager and hand it over to [Start].  The
    manager is not part of the repository: it is the class [Manager], which
    answers each call with an error or without. *)

From S2P Require Import Prelude GoStrings.

(** The calls of the entry points, in the program's words. *)
Inductive ManagerCall :=
  | CallGetConfig
  | CallNewManager (metricsAddr probeAddr : string)
  | CallIndexField (kind field : string)
  | CallAdd (runnable : string)
  | CallComplete (controller : string)
  | CallAddHealthzCheck (name : string)
  | CallAddReadyzCheck (name : string)
  | CallStart.

#[export] Instance ManagerCall_eq_dec : EqDecision ManagerCall.
Proof. solve_decision. Defined.

Class Manager (S : Type) := {
  manager_call : ManagerCall → S → result string unit * S
}.

Section startup.
Context {S : Type} `{Manager S}.
#[local] Open Scope go_scope.

(** [if err := ...; err != nil { os.Exit(1) }] for each call in turn; the answer
    is the exit status of the program. *)
Fixpoint must (l : list ManagerCall) : M unit S ManagerCall Z :=
  match l with
  | [] => ret 0
  | c :: l' =>
      r <- call c (manager_call c) ;;
      match r with
      | Err _ => ret 1
      | Ok _ => must l'
      end
  end.

(** How many of the calls the manager answers without an error, one after the
    other, before the first one it refuses. *)
Fixpoint accepted (l : list ManagerCall) (s : S) : nat :=
  match l with
  | [] => 0
  | c :: l' => match manager_call c s with (Ok _, s') => Datatypes.S (accepted l' s') | (Err _, _) => 0 end
  end.

Lemma accepted_le l s : (accepted l s ≤ length l)%nat.
Proof.
  revert s. induction l as [|c l IH]; intros s; cbn [accepted length]; [lia|].
  destruct (manager_call c s) as [[u|e] s']; [|lia]. specialize (IH s'). lia.
Qed.

(** The calls made are the accepted ones and the first that is refused; the
    status tells whether there was one. *)
Lemma must_calls l (w : World unit S ManagerCall) :
  trace (must l w).2 = trace w ++ take (Datatypes.S (accepted l (env w))) l ∧
  (must l w).1 = (if decide (accepted l (env w) = length l) then 0 else 1).
Proof.
  revert w. induction l as [|c l IH]; intros w; cbn [must accepted]; [by rewrite app_nil_r|].
  rewrite run_call. destruct (manager_call c (env w)) as [[u|e] s'] eqn:E; cbn [fst snd]; [|done].
  destruct (IH (mkWorld (self w) s' (clock w) (tick w) (trace w ++ [c]))) as [Ht Hr].
  cbn [trace env] in Ht, Hr. rewrite Ht, Hr, <-app_assoc. split; [done|]. cbn [length].
  repeat case_decide; congruence || lia.
Qed.
End startup.
