(* ===== verification/GatewayMain.v ===== *)
(** * The gateway program (cmd/gateway/main.go, gateway/server.go Start)

    The command line becomes the configuration of the gateway; the manager gets
    the field index the gateway's lists need, the gateway and the probes before it
    is started.  [Start] registers the handlers with a ServeMux, starts the
    staleness loop and waits for the server or the context to end. *)

From S2P Require Import Prelude GoStrings GoTime GoStrconv GoFlag GoPath Api Kube Manager.
From S2P Require Import GatewayState GatewayStatus GatewayServer GatewayAuth GatewayEffects GatewayDevices.

(** ** The command line *)

Definition gateway_flags : gmap string FlagKind :=
  list_to_map [("addr", FString); ("health-probe-bind-address", FString); ("device-token", FString);
    ("device-token-secret", FString); ("default-heartbeat-seconds", FInt); ("stale-multiplier", FInt)].

(** The registered defaults. *)
Definition gateway_defaults (Getenv : string → string) : Values :=
  list_to_map [("addr", VString ":8080"); ("health-probe-bind-address", VString ":8081");
    ("device-token", VString (Getenv "APOLLO_GATEWAY_TOKEN"));
    ("device-token-secret", VString (Getenv "APOLLO_GATEWAY_TOKEN_SECRET"));
    ("default-heartbeat-seconds", VInt 15); ("stale-multiplier", VInt 3)].

Record GatewayFlags := mkGatewayFlags {
  gf_addr : string;
  gf_probeAddr : string;
  gf_authToken : string;
  gf_authTokenSecret : string;
  gf_defaultHeartbeat : Z;
  gf_staleMultiplier : Z
}.

Definition gateway_values (v : Values) : GatewayFlags :=
  mkGatewayFlags (string_flag v "addr") (string_flag v "health-probe-bind-address")
    (string_flag v "device-token") (string_flag v "device-token-secret")
    (int_flag v "default-heartbeat-seconds") (int_flag v "stale-multiplier").

(** [flag.Parse()]; [libs] are the flags of the linked libraries. *)
Definition gateway_parse (libs : gmap string FlagKind) (Getenv : string → string) (args : list string)
    : result FlagError GatewayFlags :=
  match parse_flags (gateway_flags ∪ libs) args (gateway_defaults Getenv) with
  | Err e => Err e
  | Ok (v, _) => Ok (gateway_values v)
  end.

(** [gateway.New] with the parsed flags. *)
Definition gateway_of_flags (fl : GatewayFlags) : Config * Gateway :=
  New (gf_authToken fl) (gf_authTokenSecret fl) (seconds (gf_defaultHeartbeat fl)) (gf_staleMultiplier fl).

(** ** Starting *)

Definition deviceRef_index : string := "spec.deviceRef.name".

(** The index function of that field. *)
Definition deviceRef_keys (dp : DeviceProcess) : list string :=
  if String.eqb (dp_DeviceName dp) "" then [] else [dp_DeviceName dp].

Definition gateway_startup (fl : GatewayFlags) : list ManagerCall :=
  [CallGetConfig; CallNewManager "0" (gf_probeAddr fl); CallIndexField "DeviceProcess" deviceRef_index;
   CallAdd "gateway"; CallAddHealthzCheck "healthz"; CallAddReadyzCheck "readyz"; CallStart].

(** The exit status of the program. *)
Definition gateway_main {S} `{Manager S} (libs : gmap string FlagKind) (Getenv : string → string)
    (args : list string) : M unit S ManagerCall Z :=
  match gateway_parse libs Getenv args with
  | Err e => ret (flag_exit e)
  | Ok fl => must (gateway_startup fl)
  end.

(** ** Serving *)

(** [cleanPath] of net/http. *)
Definition cleanPath (p : string) : string :=
  if String.eqb p "" then "/"
  else
    let p := if HasPrefix p "/" then p else "/" +:+ p in
    let np := Clean p in
    if negb (String.eqb (TrimSuffix slash p) p) && negb (String.eqb np "/") then np +:+ "/" else np.

Inductive Route := RouteHealthz | RouteReadyz | RouteDevices.

(** The pattern that matches a path. *)
Definition mux_match (path : string) : option Route :=
  if String.eqb path "/healthz" then Some RouteHealthz
  else if String.eqb path "/readyz" then Some RouteReadyz
  else if HasPrefix path "/v1/devices/" then Some RouteDevices
  else None.

(** What the mux does with a request, whose path has no escapes: redirect it,
    or hand it to the handler of a pattern, or to none. *)
Inductive Routed :=
  | Redirect (location : string)
  | Handler (route : option Route).

Definition mux_route (r : Request) : Routed :=
  if String.eqb (rq_Method r) "CONNECT" then
    if bool_decide (mux_match (rq_Path r) = None) && bool_decide (mux_match (rq_Path r +:+ "/") ≠ None)
    then Redirect (rq_Path r +:+ "/") else Handler (mux_match (rq_Path r))
  else
    let path := cleanPath (rq_Path r) in
    if bool_decide (mux_match path = None) && bool_decide (mux_match (path +:+ "/") ≠ None)
    then Redirect (path +:+ "/")
    else if negb (String.eqb path (rq_Path r)) then Redirect path
    else Handler (mux_match path).

(** What is sent back: a redirect or a response. *)
Inductive Served :=
  | SRedirect (location : string)
  | SResponse (rs : Response).

Section serve.
Context {S : Type} `{GatewayClient S} `{SortSlice} (cfg : Config).
#[local] Open Scope go_scope.

(** The server's handler: the mux with the three handlers of [Start]. *)
Definition serve (r : Request) : M Gateway S GatewayCall Served :=
  match mux_route r with
  | Redirect location => ret (SRedirect location)
  | Handler None => ret (SResponse http_not_found)
  | Handler (Some RouteHealthz) => ret (SResponse (mkResponse StatusOK None (Text "ok")))
  | Handler (Some RouteReadyz) => ret (SResponse (mkResponse StatusOK None (Text "ready")))
  | Handler (Some RouteDevices) => rs <- handleDevice cfg r ;; ret (SResponse rs)
  end.
End serve.

(** The interval of [stalenessLoop]'s ticker. *)
Definition staleness_interval (cfg : Config) : Z :=
  if defaultInterval cfg <=? 0 then seconds defaultHeartbeatSeconds else defaultInterval cfg.

(** What wakes [Start]: the server ended with an error other than
    [ErrServerClosed], or the context ended. *)
Inductive StartWake :=
  | ServerFailed (err : string)
  | ContextDone.

(** The error [Start] returns, given what else is on the channel after the
    server was shut down. *)
Definition Start_returns (wake : StartWake) (late : option string) : option string :=
  match wake with
  | ServerFailed err => Some err
  | ContextDone => late
  end.

(** ** Facts *)

Lemma routed_device_path r :
  mux_route r = Handler (Some RouteDevices) → ∃ rest, rq_Path r = device_path rest.
Proof.
  assert (∀ p, mux_match p = Some RouteDevices → ∃ rest, p = device_path rest) as Hm.
  { intros p. unfold mux_match. destruct (String.eqb p "/healthz"), (String.eqb p "/readyz"); try done.
    destruct (HasPrefix p "/v1/devices/") eqn:E; [|done]. apply HasPrefix_spec in E as [rest ->]. by exists rest. }
  unfold mux_route. cbv zeta. destruct (String.eqb (rq_Method r) "CONNECT").
  - destruct (_ && _); [done|]. intros [= Hr]. by apply Hm.
  - destruct (_ && _); [done|]. destruct (String.eqb_spec (cleanPath (rq_Path r)) (rq_Path r)) as [E|]; [|done].
    cbn [negb]. intros [= Hr]. apply Hm. by rewrite <-E.
Qed.

(** The device a routed request is handled for is the one its token is checked
    against. *)
Lemma routed_token_device r x y device action l :
  mux_route r = Handler (Some RouteDevices) →
  path_parts (rq_Path r) = x :: y :: device :: action :: l → token_device (rq_Path r) = device.
Proof.
  intros Hr Hp. destruct (routed_device_path r Hr) as [rest E]. rewrite E in *.
  rewrite token_device_path. by eapply path_parts_device.
Qed.

(** The command line of a gateway with the given settings. *)
Definition gateway_args (token secret : string) (heartbeat multiplier : Z) : list string :=
  flag_arg <$> [("device-token", token); ("device-token-secret", secret);
    ("default-heartbeat-seconds", pretty heartbeat); ("stale-multiplier", pretty multiplier)].

Lemma gateway_parse_args libs Getenv token secret heartbeat multiplier :
  min_int64 ≤ heartbeat ≤ max_int64 → min_int64 ≤ multiplier ≤ max_int64 →
  gateway_parse libs Getenv (gateway_args token secret heartbeat multiplier) =
    Ok (mkGatewayFlags ":8080" ":8081" token secret heartbeat multiplier).
Proof.
  intros Hh Hm. unfold gateway_parse, gateway_args.
  set (l := [("device-token", token); _; _; _]).
  assert (∀ n k, gateway_flags !! n = Some k → (gateway_flags ∪ libs) !! n = Some k) as Hf
    by (intros n k; apply lookup_union_Some_l).
  rewrite <-(app_nil_r (flag_arg <$> l)).
  rewrite (parse_flag_args _ l [] _
    (<["stale-multiplier" := VInt multiplier]> (<["default-heartbeat-seconds" := VInt heartbeat]>
      (<["device-token-secret" := VString secret]> (<["device-token" := VString token]>
        (gateway_defaults Getenv)))))).
  - cbn [parse_flags]. unfold gateway_values, string_flag, int_flag. by simplify_map_eq.
  - unfold l. repeat constructor; vm_compute; congruence.
  - unfold l, set_all. cbn [foldl fst snd mbind option_bind].
    rewrite (Hf "device-token" FString eq_refl). cbn [mbind option_bind set_flag fst snd].
    rewrite (Hf "device-token-secret" FString eq_refl). cbn [mbind option_bind set_flag fst snd].
    rewrite (Hf "default-heartbeat-seconds" FInt eq_refl). cbn [mbind option_bind set_flag fst snd].
    rewrite (ParseInt0_pretty heartbeat Hh), (Hf "stale-multiplier" FInt eq_refl).
    cbn [mbind option_bind set_flag fst snd].
    by rewrite (ParseInt0_pretty multiplier Hm).
Qed.

Lemma configured_windows_fit token secret heartbeat multiplier addr probe :
  0 < heartbeat ≤ 9223372036 → 0 ≤ multiplier → Z.max 15 heartbeat * multiplier ≤ 9223372036 →
  let cfg := (gateway_of_flags (mkGatewayFlags addr probe token secret heartbeat multiplier)).1 in
  normalizeHeartbeat cfg 0 = heartbeat ∧ staleness_interval cfg = heartbeat * Second ∧ window_fits cfg.
Proof.
  intros Hh Hm Hw cfg.
  assert (seconds heartbeat = heartbeat * Second) as Hs by (apply seconds_exact; lia).
  assert (normalizeHeartbeat cfg 0 = heartbeat) as Hn.
  { unfold normalizeHeartbeat, cfg. cbn [gateway_of_flags New defaultInterval fst gf_defaultHeartbeat].
    rewrite Hs. unfold whole_seconds. rewrite Z.quot_mul by done. cbn [Z.leb].
    change (0 <=? 0) with true. cbv iota. by destruct (Z.leb_spec heartbeat 0); [lia|]. }
  split; [done|]. split.
  - unfold staleness_interval, cfg. cbn [gateway_of_flags New defaultInterval fst gf_defaultHeartbeat].
    rewrite Hs. destruct (Z.leb_spec (heartbeat * Second) 0); [unfold Second in *; lia|done].
  - unfold window_fits. rewrite Hn. unfold cfg, defaultHeartbeatSeconds.
    cbn [gateway_of_flags New staleMultiplier fst gf_staleMultiplier]. nia.
Qed.

(** ** Properties *)

(** C37: the gateway runs with what its command line says.  For flags written
    [--name=value], any tokens and any two 64-bit numbers, the gateway is made with
    exactly these; and with a positive heartbeat interval and windows that fit in
    64 bits of nanoseconds, the staleness loop ticks with that interval and the
    stale window of every device is computed without overflow. *)
Theorem gateway_configured libs Getenv token secret heartbeat multiplier :
  min_int64 ≤ multiplier ≤ max_int64 → min_int64 ≤ heartbeat ≤ max_int64 →
  ∃ fl, gateway_parse libs Getenv (gateway_args token secret heartbeat multiplier) = Ok fl ∧
    gateway_of_flags fl = New token secret (seconds heartbeat) multiplier ∧
    (0 < heartbeat ≤ 9223372036 → 0 ≤ multiplier → Z.max 15 heartbeat * multiplier ≤ 9223372036 →
     normalizeHeartbeat (gateway_of_flags fl).1 0 = heartbeat ∧
     staleness_interval (gateway_of_flags fl).1 = heartbeat * Second ∧
     window_fits (gateway_of_flags fl).1).
Proof.
  intros Hm Hh. eexists. split; [by apply gateway_parse_args|]. split; [done|].
  intros. by apply configured_windows_fit.
Qed.

Lemma gateway_configured_witness :
  ∃ fl, gateway_parse ∅ (λ _, "") (gateway_args "t" "" 30 3) = Ok fl ∧
    window_fits (gateway_of_flags fl).1 ∧ staleness_interval (gateway_of_flags fl).1 = 30 * Second.
Proof.
  destruct (gateway_configured ∅ (λ _, "") "t" "" 30 3) as (fl & Hp & _ & Hw);
    [split; vm_compute; discriminate..|].
  exists fl. split; [exact Hp|]. destruct Hw as (_ & Hi & Hf); [split; vm_compute; congruence|..];
    [vm_compute; discriminate..|]. split; [exact Hf|exact Hi].
Defined.

(** C38: the program is started ready or not at all.  A command line that cannot
    be parsed ends it with status 2, or 0 when it asks for help, before anything
    is called.  Otherwise it goes through its setup as long as the manager answers
    without an error: the calls it makes are the accepted ones and the first that is
    refused, and it ends with status 0 when none was refused and 1 otherwise.  So
    the manager is only started when the field index the gateway lists by, the
    gateway and both probes were accepted before. *)
Theorem gateway_program_starts {S} `{Manager S} libs Getenv args (w : World unit S ManagerCall) :
  let out := gateway_main libs Getenv args w in
  match gateway_parse libs Getenv args with
  | Err e => out = (flag_exit e, w)
  | Ok fl =>
      let n := accepted (gateway_startup fl) (env w) in
      ∃ calls, trace out.2 = trace w ++ calls ∧ calls = take (Datatypes.S n) (gateway_startup fl) ∧
        out.1 = (if decide (n = length (gateway_startup fl)) then 0 else 1) ∧
        (CallStart ∈ calls →
           [CallIndexField "DeviceProcess" deviceRef_index; CallAdd "gateway";
            CallAddHealthzCheck "healthz"; CallAddReadyzCheck "readyz"] ⊆ take n (gateway_startup fl))
  end.
Proof.
  unfold gateway_main. destruct (gateway_parse libs Getenv args) as [fl|e]; [|done]. cbv zeta.
  destruct (must_calls (gateway_startup fl) w) as [Ht Hr]. eexists. split_all; [exact Ht|done|exact Hr|].
  pose proof (accepted_le (gateway_startup fl) (env w)) as Hn. revert Hn.
  generalize (accepted (gateway_startup fl) (env w)). unfold gateway_startup. cbn [length]. intros n Hn.
  do 8 (destruct n as [|n]; [cbn [take]; set_solver|]). lia.
Qed.

(** C2: what changes something was authorized for the device it is for.  For every
    request the server gets, if handling it changes anything, in the gateway or
    outside, the mux handed it to [handleDevice], it was authorized, the token
    was checked against the very device the request is handled for, and every
    patch and event is for that device. *)
Theorem served_changes_are_authorized {S} `{GatewayClient S} `{SortSlice} cfg r
    (w : World Gateway S GatewayCall) :
  (serve cfg r w).2 ≠ w →
  ∃ x y device action l, path_parts (rq_Path r) = x :: y :: device :: action :: l ∧
    authorize cfg r = true ∧ token_device (rq_Path r) = device ∧ emits (call_for device) (serve (S:=S) cfg r).
Proof.
  unfold serve. destruct (mux_route r) as [loc|[[| |]|]] eqn:Hr; try done.
  intros Hne. assert ((handleDevice cfg r w).2 ≠ w) as Hne' by exact Hne.
  destruct (path_parts (rq_Path r)) as [|x [|y [|device [|action l]]]] eqn:Hp;
    try (exfalso; apply Hne'; unfold handleDevice; rewrite Hp; done).
  exists x, y, device, action, l. split; [done|]. split_all.
  - destruct (authorize cfg r) eqn:Ha; [done|]. exfalso. apply Hne'. unfold handleDevice. by rewrite Hp, Ha.
  - by eapply routed_token_device.
  - apply emits_bind; [|intros; apply emits_ret]. unfold handleDevice. rewrite Hp.
    effects; auto using emits_handleDesired, emits_handleReport, emits_handleConnect.
Qed.

Lemma served_changes_are_authorized_witness :
  (@serve Store _ insertion_sort_slice sample_config sample_report (sample_world 0)).2 ≠
    sample_world (C:=GatewayCall) 0 ∧
  token_device (rq_Path sample_report) = "tor1".
Proof.
  assert ((@serve Store _ insertion_sort_slice sample_config sample_report (sample_world 0)).2 ≠
    sample_world (C:=GatewayCall) 0) as Hne.
  { intros E. apply (f_equal (λ w : World Gateway Store GatewayCall, bool_decide (lastSeen (self w) !! "tor1" = None))) in E.
    vm_compute in E. discriminate E. }
  split; [exact Hne|].
  destruct (@served_changes_are_authorized Store _ insertion_sort_slice sample_config sample_report
    (sample_world 0) Hne) as (x & y & device & action & l & Hp & _ & Ht & _).
  assert (path_parts (rq_Path sample_report) = ["v1"; "devices"; "tor1"; "report"]) as Hp' by (vm_compute; reflexivity).
  rewrite Hp' in Hp. injection Hp as _ _ Hd _ _. rewrite Ht. symmetry. exact Hd.
Defined.
