(* ===== verification/GatewaySystem.v ===== *)
(** * The gateway as a system of threads (gateway/server.go)

    Requests arrive at any time and are handled by threads of their own; the
    ticker of the staleness loop starts a pass when the one before has ended;
    other clients change the API server.  [gw_step] interleaves all of them, one
    atomic action at a time.  [Rely] and [Guar] are what every thread may count
    on and what it promises; the threads of all handlers keep their promise. *)

From stdpp Require Import relations.
From S2P Require Import Prelude Threads GoStrings GoTime Api Conditions Kube KubeServer.
From S2P Require Import GatewayState GatewayStatus GatewayServer GatewayThreads GatewayEffects GatewayDevices.

(** What a thread works for. *)
Inductive Job :=
  | JRequest (r : Request)
  | JStale.

#[export] Instance Job_eq_dec : EqDecision Job.
Proof. intros x y. unfold Decision. repeat (decide equality). Defined.

(** The device and the action of a request. *)
Definition addresses (r : Request) (device action : string) : Prop :=
  ∃ x y l, path_parts (rq_Path r) = x :: y :: device :: action :: l.

(** [status_update cfg j p st]: the work of [j] calls for the status [st] of a
    process that is [p] now. *)
Inductive status_update (cfg : Config) : Job → DeviceProcess → Status → Prop :=
  | by_observation r req device obs reportedAt now start p :
      authorize cfg r = true → addresses r device "report" → rq_Report r = Some req →
      obs ∈ rr_Observations req → dp_Key p = (ob_Namespace obs, ob_Name obs) →
      dp_DeviceName p = device → observed_start obs = Some start →
      status_update cfg (JRequest r) p
        (observed_status obs (Some reportedAt) now start (dp_Status p))
  | by_contact r device action now p :
      authorize cfg r = true → addresses r device action → action ∈ ["report"; "connect"] →
      dp_DeviceName p = device →
      status_update cfg (JRequest r) p
        (setAgentConnected now true connectedReason connectedMessage (dp_Status p)).1
  | by_staleness now p :
      status_update cfg JStale p
        (pending_if_empty (setAgentConnected now false "AgentDisconnected"
           "device stale (no recent reports)" (dp_Status p)).1).

Section system.
Context {S : Type} `{ConcurrentClient S} `{SortSlice} (cfg : Config).
Abbreviation W := (World Gateway S GatewayCall).
Abbreviation GwThread := (thread Gateway S GatewayCall (option Response)).

Definition job_thread (j : Job) : GwThread :=
  match j with
  | JRequest r => tbind (thread_of (handleDevice cfg r)) (λ x, Done (Some x))
  | JStale => tbind (thread_of (markStaleDevices cfg)) (λ _, Done None)
  end.

Record Sys := mkSys {
  sys_world : W;
  sys_pool : list (Job * GwThread);
  sys_answers : list (Request * Response)
}.

(** What happens to the system. *)
Inductive sys_event :=
  | EArrive (r : Request)
  | ETick
  | ERun (i : nat)
  | EReturn (i : nat)
  | EOther.

(** The response a thread ends with. *)
Definition answer_of (j : Job) (x : option Response) : list (Request * Response) :=
  match j, x with JRequest r, Some rs => [(r, rs)] | _, _ => [] end.

Definition set_env (s : S) (w : W) : W := mkWorld (self w) s (clock w) (tick w) (trace w).

Inductive gw_step : Sys → sys_event → Sys → Prop :=
  | step_arrive r w p a :
      gw_step (mkSys w p a) (EArrive r) (mkSys w (p ++ [(JRequest r, job_thread (JRequest r))]) a)
  | step_tick w p a :
      JStale ∉ p.*1 →
      gw_step (mkSys w p a) ETick (mkSys w (p ++ [(JStale, job_thread JStale)]) a)
  | step_run i w p a p' w' :
      pool_step i p w = Some (p', w') →
      gw_step (mkSys w p a) (ERun i) (mkSys w' p' a)
  | step_return i j x w p a :
      p !! i = Some (j, Done x) →
      gw_step (mkSys w p a) (EReturn i) (mkSys w (delete i p) (a ++ answer_of j x))
  | step_other s w p a :
      evolves (env w) s → gw_step (mkSys w p a) EOther (mkSys (set_env s w) p a).

(** A gateway that was just made, over a coherent API server. *)
Definition sys_init (s : Sys) : Prop :=
  coherent (env (sys_world s)) ∧ self (sys_world s) = mkGateway ∅ ∅ ∅ ∧ sys_pool s = [].

Definition sys_reachable (s : Sys) : Prop :=
  ∃ s0, sys_init s0 ∧ rtc (λ x y, ∃ e, gw_step x e y) s0 s.

(** ** What threads rely on and guarantee *)

Definition gw_inv (w : W) : Prop := coherent (env w) ∧ wf_gateway cfg (self w).

Definition Rely (w w' : W) : Prop :=
  (gw_inv w → gw_inv w') ∧ (∀ p, served (env w) p → served (env w') p) ∧
  dom (lastSeen (self w)) ⊆ dom (lastSeen (self w')).

#[export] Instance Rely_preorder : PreOrder Rely.
Proof.
  split; [done|]. intros w1 w2 w3 (Hi1 & Hs1 & Hd1) (Hi2 & Hs2 & Hd2).
  split; [auto|]. split; [auto|]. by transitivity (dom (lastSeen (self w2))).
Qed.

(** Every change of a stored process is a status its job calls for. *)
Definition specified_writes (j : Job) (s s' : S) : Prop :=
  ∀ k, stored s' k = stored s k ∨
    ∃ p q, stored s k = Some p ∧ stored s' k = Some q ∧ dp_Spec q = dp_Spec p ∧
           status_update cfg j p (dp_Status q).

(** The maps change only for the device of a request. *)
Definition own_entries (j : Job) (g g' : Gateway) : Prop :=
  match j with
  | JRequest r => g' = g ∨ authorize cfg r = true ∧ ∃ device action, addresses r device action ∧ agree_but device g g'
  | JStale => g' = g
  end.

(** The clock moves on, and a device is seen at the time it is recorded. *)
Definition timely (w w' : W) : Prop :=
  clock w' = clock w ∧ (tick w ≤ tick w')%nat ∧
  ∀ device t, lastSeen (self w') !! device = Some t →
    lastSeen (self w) !! device = Some t ∨ t = clock w (tick w) ∧ (tick w < tick w')%nat.

Definition Guar (j : Job) (w w' : W) : Prop :=
  Rely w w' ∧ own_entries j (self w) (self w') ∧ specified_writes j (env w) (env w') ∧ timely w w'.

(** What a thread ends with. *)
Definition Post (j : Job) (x : option Response) (w : W) : Prop :=
  match j with JRequest _ => is_Some x | JStale => x = None end.

(** A thread of the job keeps its promise, from a world that has the invariant
    and in which [K] holds. *)
Definition safe (j : Job) (K : W → Prop) {A} (t : thread Gateway S GatewayCall A) : Prop :=
  ∀ w, gw_inv w → K w → rg Rely (Guar j) t (λ _ _, True) w.

(** What stays true whatever the other threads do. *)
Class Stable (K : W → Prop) : Prop := stable : ∀ w w', Rely w w' → K w → K w'.

#[export] Instance stable_true : Stable (λ _, True).
Proof. by intros w w'. Qed.
#[export] Instance stable_and K K' `{Stable K, Stable K'} : Stable (λ w, K w ∧ K' w).
Proof. intros w w' Hw [HK HK']. split; by eapply stable. Qed.
#[export] Instance stable_served ps : Stable (λ w, Forall (served (env w)) ps).
Proof. intros w w' (_ & Hs & _) HK. eapply Forall_impl; [exact HK|done]. Qed.
#[export] Instance stable_pure (P : Prop) : Stable (λ _, P).
Proof. by intros w w'. Qed.
#[export] Instance stable_seen device : Stable (λ w, device ∈ dom (lastSeen (self w))).
Proof. intros w w' (_ & _ & Hd) HK. by apply Hd. Qed.

Section rules.
Context (j : Job).

Lemma own_entries_refl g : own_entries j g g.
Proof. destruct j; simpl; auto. Qed.

Lemma guar_refl w w' :
  self w' = self w → env w' = env w → clock w' = clock w → (tick w ≤ tick w')%nat → Guar j w w'.
Proof.
  intros Hs He Hc Ht. unfold Guar, Rely, gw_inv, timely. rewrite Hs, He.
  split_all; [done..| |by left|done|done|by left]. apply own_entries_refl.
Qed.

Lemma rg_known {A} (t : thread Gateway S GatewayCall A) K w :
  Stable K → rg Rely (Guar j) t (λ _ _, True) w → gw_inv w → K w →
  rg Rely (Guar j) t (λ _ w', gw_inv w' ∧ K w') w.
Proof.
  intros HS. revert w. induction t as [a|B x k IH]; intros w Ht Hi HK; simpl in *; intros w' Hw.
  - split; [by apply Hw|by eapply HS].
  - destruct (Ht w' Hw) as [Hg Hr]. split; [done|].
    assert (gw_inv w') as Hi' by (by apply Hw).
    apply IH; [done|by apply Hg|]. eapply HS; [apply Hg|]. by eapply HS.
Qed.

Lemma safe_bind {A B} K `{!Stable K} (m : M Gateway S GatewayCall A) (k : A → M Gateway S GatewayCall B)
    `{Threaded _ _ _ _ m} `{∀ a, Threaded (k a)} :
  safe j K (thread_of m) → (∀ a, safe j K (thread_of (k a))) → safe j K (thread_of (bind m k)).
Proof.
  intros Hm Hk w Hi HK.
  change (rg Rely (Guar j) (tbind (thread_of m) (λ a, thread_of (k a))) (λ _ _, True) w).
  apply (rg_bind Rely). eapply rg_mono; [|apply rg_known; [done|by apply Hm|done..]].
  intros a w' [Hi' HK']. by apply Hk.
Qed.

Lemma safe_ret {A} K (a : A) : safe j K (thread_of (ret a)).
Proof. by intros w _ _. Qed.

(** An action, and what it lets the rest of the thread know. *)
Lemma safe_act {A B} K K' (x : action Gateway S GatewayCall A) (k : A → M Gateway S GatewayCall B)
    `{!Stable K} `{∀ a, Threaded (k a)} m (E : denote x = m) :
  (∀ w, gw_inv w → K w → Guar j w (denote x w).2 ∧ K' (denote x w).1 (denote x w).2) →
  (∀ a, safe j (K' a) (thread_of (k a))) →
  safe j K (@thread_of _ _ _ _ _ (@threaded_bind _ _ _ _ _ m k (threaded_act x m E) _)).
Proof.
  intros Hx Hk w Hi HK w' Hw. assert (gw_inv w') as Hi' by (by apply Hw).
  destruct (Hx w' Hi') as [Hg HK']; [by eapply stable|]. split; [done|].
  apply Hk; [by apply Hg|done].
Qed.

Lemma safe_last {A} K (x : action Gateway S GatewayCall A) `{!Stable K} m (E : denote x = m) :
  (∀ w, gw_inv w → K w → Guar j w (denote x w).2) → safe j K (@thread_of _ _ _ _ _ (threaded_act x m E)).
Proof. intros Hx w Hi HK w' Hw. split; [|done]. apply Hx; [by apply Hw|by eapply stable]. Qed.

Lemma safe_weaken {A} (K K' : W → Prop) (t : thread Gateway S GatewayCall A) :
  (∀ w, K w → K' w) → safe j K' t → safe j K t.
Proof. intros HK Ht w Hi Hw. apply Ht; auto. Qed.

Lemma safe_for_each {A R} K `{!Stable K} (l : list A) (body : A → M Gateway S GatewayCall (option R))
    `{∀ x, Threaded (body x)} :
  (∀ x, x ∈ l → safe j K (thread_of (body x))) → safe j K (thread_of (for_each l body)).
Proof.
  induction l as [|x l IH]; intros Hb; [apply safe_ret|].
  intros w Hi HK. apply (rg_bind Rely (Guar j) (thread_of (body x))).
  eapply rg_mono; [|apply rg_known; [done|apply Hb; [constructor|done..]|done..]].
  intros [v|] w' [Hi' HK']; [done|]. apply IH; [|done..]. intros y Hy. apply Hb. by constructor.
Qed.
End rules.
End system.
