(* ===== verification/GatewayRuns.v ===== *)
(** * Runs of the concurrent gateway

    The properties of [gw_step], and an executable form of it, which gives the
    runs that witnesses and counterexamples need. *)

From stdpp Require Import relations.
From S2P Require Import Prelude Threads GoStrings GoTime Api Conditions Kube KubeServer Samples.
From S2P Require Import GatewayState GatewayStatus GatewayServer GatewayThreads GatewayEffects GatewayDevices.
From S2P Require Import GatewaySystem GatewayInterleaving.

(** ** Executing events *)

Section exec.
Context {S : Type} `{ConcurrentClient S} `{SortSlice} (cfg : Config).

Definition sys_exec (e : sys_event) (s : Sys (S:=S)) : option Sys :=
  let '(mkSys w p a) := s in
  match e with
  | EArrive r => Some (mkSys w (p ++ [(JRequest r, job_thread cfg (JRequest r))]) a)
  | ETick =>
      if decide (JStale ∈ p.*1) then None
      else Some (mkSys w (p ++ [(JStale, job_thread cfg JStale)]) a)
  | ERun i => r ← pool_step i p w; Some (mkSys r.2 r.1 a)
  | EReturn i =>
      match p !! i with
      | Some (j, Done x) => Some (mkSys w (delete i p) (a ++ answer_of j x))
      | _ => None
      end
  | EOther => None
  end.

Fixpoint sys_run (l : list sys_event) (s : Sys (S:=S)) : option Sys :=
  match l with
  | [] => Some s
  | e :: l' => s' ← sys_exec e s; sys_run l' s'
  end.

Lemma sys_exec_step e s s' : sys_exec e s = Some s' → gw_step cfg s e s'.
Proof.
  destruct s as [w p a], e as [r| |i|i|]; simpl; intros Hs; simplify_eq.
  - constructor.
  - case_decide; simplify_eq. by constructor.
  - destruct (pool_step i p w) as [[p' w']|] eqn:E; simplify_eq/=. by constructor.
  - repeat case_match; simplify_eq. by constructor.
Qed.

Lemma sys_run_steps l s s' : sys_run l s = Some s' → rtc (λ x y, ∃ e, gw_step cfg x e y) s s'.
Proof.
  revert s. induction l as [|e l IH]; intros s Hs; simplify_eq/=; [done|].
  destruct (sys_exec e s) as [s1|] eqn:E; simplify_eq/=.
  eapply rtc_l; [exists e; by apply sys_exec_step|by apply IH].
Qed.

Lemma sys_run_app l1 l2 s : sys_run (l1 ++ l2) s = sys_run l1 s ≫= sys_run l2.
Proof.
  revert s. induction l1 as [|e l1 IH]; intros s; [done|]. simpl.
  destruct (sys_exec e s) as [s1|]; simpl; [apply IH|done].
Qed.

(** A step that starts nothing new. *)
Definition quiet (s s' : Sys (S:=S)) : Prop :=
  ∃ i, gw_step cfg s (ERun i) s' ∨ gw_step cfg s (EReturn i) s'.

Definition is_quiet (e : sys_event) : bool :=
  match e with ERun _ | EReturn _ => true | _ => false end.

Lemma sys_run_quiet l s s' : Forall (λ e, is_quiet e = true) l → sys_run l s = Some s' → rtc quiet s s'.
Proof.
  intros Hl. revert s. induction Hl as [|e l He _ IH]; intros s Hs; simplify_eq/=; [done|].
  destruct (sys_exec e s) as [s1|] eqn:E; simplify_eq/=. eapply rtc_l; [|by apply IH].
  apply sys_exec_step in E. destruct e as [| |i|i|]; try done; exists i; auto.
Qed.

Lemma empty_stuck s s' : sys_pool s = [] → ¬ quiet s s'.
Proof.
  intros Hp (i & [Hs|Hs]); inversion Hs; subst; simpl in Hp; subst.
  - match goal with E : pool_step _ _ _ = _ |- _ => by apply pool_step_spec in E as (?&?&?&?&_) end.
  - done.
Qed.

Lemma quiet_wf s : Acc (flip quiet) s.
Proof.
  assert (∀ n p, length p = n → ∀ w a, Acc (flip quiet) (mkSys (S:=S) w p a)) as Hacc;
    [|destruct s; by eapply Hacc].
  induction n as [n IHn] using (well_founded_induction Nat.lt_wf_0).
  intros p. induction p as [p IHp] using (well_founded_induction shrinks_wf).
  intros Hn w a. constructor. intros s' (i & [Hs|Hs]); inversion Hs; subst.
  - apply IHp; [by eapply pool_step_shrinks|].
    match goal with E : pool_step _ _ _ = _ |- _ => apply pool_step_spec in E as (?&?&?&_&_&->) end.
    by rewrite length_insert.
  - eapply IHn; [|reflexivity].
    match goal with E : _ !! _ = Some _ |- _ => pose proof E as Hlt; apply lookup_lt_Some in Hlt end.
    rewrite length_delete by eauto. lia.
Qed.

(** The requests being handled. *)
Definition pending (p : list (Job * thread Gateway S GatewayCall (option Response))) : list Request :=
  omap (λ jt, match jt.1 with JRequest r => Some r | JStale => None end) p.

Lemma pending_insert p i j (t t' : thread Gateway S GatewayCall (option Response)) :
  p !! i = Some (j, t) → pending (<[i := (j, t')]> p) = pending p.
Proof.
  unfold pending. revert i. induction p as [|[j0 t0] p IH]; intros [|i] Hi; simplify_eq/=; [done|].
  by rewrite (IH i Hi).
Qed.

Lemma pending_delete p i r (t : thread Gateway S GatewayCall (option Response)) :
  p !! i = Some (JRequest r, t) → pending p ≡ₚ r :: pending (delete i p).
Proof.
  unfold pending. revert i. induction p as [|[j0 t0] p IH]; intros [|i] Hi; simplify_eq/=; [done|].
  destruct j0; simpl; [|by apply IH]. rewrite (IH i Hi). constructor.
Qed.

Lemma pending_delete_stale p i (t : thread Gateway S GatewayCall (option Response)) :
  p !! i = Some (JStale, t) → pending (delete i p) = pending p.
Proof.
  unfold pending. revert i. induction p as [|[j0 t0] p IH]; intros [|i] Hi; simplify_eq/=; [done|].
  by rewrite (IH i Hi).
Qed.
End exec.

(** ** Facts about runs *)

Section facts.
Context {S : Type} `{ConcurrentClient S} `{SortSlice} (cfg : Config).
Implicit Types s : Sys (S:=S).

(** Returning answers the request of the thread. *)
Lemma returned_answer p i j x (w : World Gateway S GatewayCall) :
  rg_pool (Rely cfg) (Guar cfg) Post p w → p !! i = Some (j, Done x) →
  pending p ≡ₚ (answer_of j x).*1 ++ pending (delete i p).
Proof.
  intros Hp Hi. assert (Post j x w) as Hx.
  { pose proof (Forall_lookup_1 _ _ _ _ Hp Hi) as Hd. apply (Hd w). reflexivity. }
  destruct j as [r|]; simpl in *.
  - destruct Hx as [rs ->]. by eapply pending_delete.
  - subst x. simpl. by rewrite (pending_delete_stale p i (Done None)).
Qed.

Lemma quiet_answers s s' :
  sys_inv cfg s → quiet cfg s s' →
  sys_inv cfg s' ∧
  (sys_answers s').*1 ++ pending (sys_pool s') ≡ₚ (sys_answers s).*1 ++ pending (sys_pool s).
Proof.
  intros Hi (i & [Hs|Hs]); (split; [by eapply sys_inv_step|]); destruct Hi as [_ Hp]; inversion Hs; subst;
    cbn [sys_pool sys_answers sys_world] in *.
  - match goal with E : pool_step _ _ _ = _ |- _ => apply pool_step_spec in E as (j&t&t'&Ht&_&->) end.
    by rewrite (pending_insert _ _ _ _ _ Ht).
  - rewrite fmap_app, <-app_assoc, <-(returned_answer p i j x w); done.
Qed.

Lemma quiet_stuck s : (∀ s', ¬ quiet cfg s s') → sys_pool s = [].
Proof.
  destruct s as [w [|[j t] p] a]; intros Hs; [done|exfalso].
  destruct t as [x|B x k].
  - eapply Hs. exists 0%nat. right. by eapply step_return.
  - eapply Hs. exists 0%nat. left. by eapply step_run.
Qed.

(** With clock readings that do not go back, no record of a device does. *)
Definition seen_in_past s : Prop :=
  ∀ device t, lastSeen (self (sys_world s)) !! device = Some t →
    ∃ i, (i < tick (sys_world s))%nat ∧ t = clock (sys_world s) i.

Lemma step_timely s e s' :
  sys_inv cfg s → gw_step cfg s e s' → timely (sys_world s) (sys_world s').
Proof.
  intros [Hi Hp] Hs.
  assert (∀ w : World Gateway S GatewayCall, timely w w) as Hrefl
    by (intros w; unfold timely; split_all; [done|done|by left]).
  destruct Hs as [r w p a|w p a _|i w p a p' w' Hs|i j x w p a _|s w p a He]; cbn; try apply Hrefl.
  - destruct (rg_pool_step (Rely cfg) (Guar cfg) ltac:(by intros j w1 w2 [? _]) Post i p w p' w' Hp Hs)
      as (_ & j & _ & HG). apply HG.
  - unfold timely. split_all; [done|done|by left].
Qed.

Lemma sys_run_clock l s s' :
  sys_inv cfg s → sys_run cfg l s = Some s' → clock (sys_world s') = clock (sys_world s).
Proof.
  revert s. induction l as [|e l IH]; intros s Hi Hs; simplify_eq/=; [done|].
  destruct (sys_exec cfg e s) as [s1|] eqn:E; simplify_eq/=. apply sys_exec_step in E.
  rewrite (IH s1); [|by eapply sys_inv_step|done]. by apply (step_timely s e s1).
Qed.

Lemma timely_past w w' (device : string) t :
  timely (S:=S) w w' →
  (∀ d u, lastSeen (self w) !! d = Some u → ∃ i, (i < tick w)%nat ∧ u = clock w i) →
  lastSeen (self w') !! device = Some t → ∃ i, (i < tick w')%nat ∧ t = clock w' i.
Proof.
  intros (Hc & Ht & Hs) Hp Hd. rewrite Hc. destruct (Hs device t Hd) as [Ho|[-> Hlt]].
  - destruct (Hp _ _ Ho) as (i & Hlt & ->). exists i. split; [lia|done].
  - by exists (tick w).
Qed.

Lemma reachable_past s : sys_reachable cfg s → seen_in_past s.
Proof.
  intros (s0 & Hi & Hr). assert (seen_in_past s0) as Hp0.
  { destruct Hi as (_ & Hs & _). intros d t. rewrite Hs. cbn. by rewrite lookup_empty. }
  pose proof (sys_inv_init cfg s0 Hi) as Hi'. clear Hi. rename Hi' into Hi. revert Hi Hp0.
  induction Hr as [|x y z [e Hs] _ IH]; [done|]. intros Hi Hp0. apply IH; [exact (sys_inv_step cfg x e y Hi Hs)|].
  intros d t Hd. eapply timely_past; [by eapply step_timely|exact Hp0|exact Hd].
Qed.
(** A schedule of the first thread is a run of the system. *)
Lemma schedule_runs n p w p' w' a :
  run_schedule (replicate n 0%nat) p w = Some (p', w') →
  rtc (λ x y, ∃ e, gw_step (S:=S) cfg x e y) (mkSys w p a) (mkSys w' p' a).
Proof.
  revert p w. induction n as [|n IH]; intros p w Hn; simplify_eq/=; [done|].
  destruct (pool_step 0 p w) as [[p1 w1]|] eqn:E; simplify_eq/=.
  eapply rtc_l; [exists (ERun 0); by constructor|by apply IH].
Qed.
End facts.

(** ** A race *)

(** A server with one process, and a clock that pauses for a minute after [n]
    readings. *)
Definition one_process : Server := server_put (sample_process "infra" "a" "tor1") (mkServer ∅ [] 0).

Definition pausing_clock (n i : nat) : Z :=
  (63839664000 + Z.of_nat i + (if Nat.ltb i n then 0 else 60)) * Second.

Definition connect_request : Request :=
  mkRequest "POST" "/v1/devices/tor1/connect" "secret-token" "" None.

Definition heartbeat_request : Request :=
  mkRequest "POST" "/v1/devices/tor1/report" "secret-token" ""
    (Some (mkReportRequest "v1" "2024-01-01T00:00:00Z" true [])).

Definition race_start : Sys (S:=Server) :=
  mkSys (mkWorld (mkGateway ∅ ∅ ∅) one_process (pausing_clock 4) 0 []) [] [].

(** The device connects; a minute later a pass of the staleness loop looks at
    the maps; a heartbeat is handled; the pass goes on. *)
Definition race_events : list sys_event :=
  EArrive connect_request :: replicate 8 (ERun 0) ++ EReturn 0 ::
  ETick :: replicate 2 (ERun 0) ++
  EArrive heartbeat_request :: replicate 7 (ERun 1) ++ EReturn 1 ::
  replicate 4 (ERun 0) ++ [EReturn 0].

Definition race_end : option (Sys (S:=Server)) :=
  @sys_run Server _ insertion_sort_slice sample_config race_events race_start.

(** Whether a process is marked as connected. *)
Definition agent_connected (s : Server) (k : NamespacedName) : option string :=
  p ← stored s k; c ← FindCondition (st_Conditions (dp_Status p)) ConditionAgentConnected; Some (c_Status c).

Lemma race_start_init : sys_init race_start.
Proof.
  split; [|done]. apply server_put_coherent, server_empty_coherent.
Qed.

(** The race up to its [n]th event. *)
Definition race_at (n : nat) : option (Sys (S:=Server)) :=
  @sys_run Server _ insertion_sort_slice sample_config (take n race_events) race_start.

Lemma race_at_reachable n s : race_at n = Some s → sys_reachable (H2:=insertion_sort_slice) sample_config s.
Proof. intros Hs. exists race_start. split; [exact race_start_init|by eapply sys_run_steps]. Qed.

Lemma race_at_step n e s s' :
  race_events !! n = Some e → race_at n = Some s → race_at (S n) = Some s' →
  gw_step (H2:=insertion_sort_slice) sample_config s e s'.
Proof.
  unfold race_at. intros He Hs Hs'. erewrite take_S_r, sys_run_app, Hs in Hs' by exact He. simpl in Hs'.
  destruct (sys_exec sample_config e s) as [s1|] eqn:E; simplify_eq/=. by apply sys_exec_step.
Qed.

(** The end of the race from its states in between. *)
Lemma race_from s1 s2 s3 : race_at 24 = Some s1 → race_at 25 = Some s2 → race_at 27 = Some s3 →
  @sys_exec Server _ insertion_sort_slice sample_config (ERun 0) s1 = Some s2 ∧
  @sys_run Server _ insertion_sort_slice sample_config (drop 25 race_events) s2 = Some s3.
Proof.
  intros E1 E2 E3. split.
  - pose proof (take_S_r race_events 24 (ERun 0) eq_refl) as Ht. unfold race_at in *.
    rewrite Ht, sys_run_app, E1 in E2. cbn [mbind option_bind sys_run] in E2.
    by destruct (sys_exec sample_config (ERun 0) s1).
  - unfold race_at in *. change (take 27 race_events) with race_events in E3.
    rewrite <-(take_drop 25 race_events), sys_run_app, E2 in E3. exact E3.
Qed.

(** What a projection of a state of the race is. *)
Lemma race_at_proj {A} n s (f : Sys (S:=Server) → A) a : race_at n = Some s → f <$> race_at n = Some a → f s = a.
Proof. intros -> [= H]. exact H. Qed.

(** ** Properties *)

(** C3: no update of a status is lost.  In every run, under every interleaving
    with other requests, with the staleness loop and with other clients of the
    API server, an action of the gateway that changes a stored process leaves its
    spec and replaces its status by what the work of the thread calls for when
    applied to the status stored at that moment: an observation of the request's
    report that names the process, the contact of the device the request
    addresses and is authorized for, or a disconnection by the staleness loop. *)
Theorem concurrent_writes_specified {S} `{ConcurrentClient S} `{SortSlice} cfg (s s' : Sys (S:=S)) e k :
  sys_reachable cfg s → gw_step cfg s e s' → e ≠ EOther →
  stored (env (sys_world s')) k = stored (env (sys_world s)) k ∨
  ∃ i j p q, e = ERun i ∧ (sys_pool s).*1 !! i = Some j ∧
    stored (env (sys_world s)) k = Some p ∧ stored (env (sys_world s')) k = Some q ∧
    dp_Spec q = dp_Spec p ∧ status_update cfg j p (dp_Status q).
Proof.
  intros Hr Hs He. apply sys_inv_reachable in Hr as [Hi Hp].
  destruct Hs as [r w p a|w p a _|i w p a p' w' Hs|i j x w p a _|st w p a Ho]; cbn in *; try by left.
  destruct (rg_pool_step (Rely cfg) (Guar cfg) ltac:(by intros j w1 w2 [? _]) Post i p w p' w' Hp Hs)
    as (_ & j & Hj & _ & _ & HG & _).
  destruct (HG k) as [|(q & q' & Hq)]; [by left|]. right. exists i, j, q, q'. naive_solver.
Qed.

Lemma concurrent_writes_specified_witness :
  ∃ s s' p q, sys_reachable (H2:=insertion_sort_slice) sample_config s ∧
    gw_step (H2:=insertion_sort_slice) sample_config s (ERun 0) s' ∧
    stored (env (sys_world s)) ("infra", "a") = Some p ∧
    stored (env (sys_world s')) ("infra", "a") = Some q ∧ dp_Status p ≠ dp_Status q ∧
    status_update sample_config (JRequest connect_request) p (dp_Status q).
Proof.
  assert (((λ _, tt) <$> race_at 6) = Some tt ∧ ((λ _, tt) <$> race_at 7) = Some tt) as [H6 H7]
    by (split; vm_compute; reflexivity).
  destruct (race_at 6) as [s|] eqn:E; [|discriminate H6].
  destruct (race_at 7) as [s'|] eqn:E'; [|discriminate H7].
  pose proof (race_at_reachable 6 s E) as Hr.
  pose proof (race_at_step 6 (ERun 0) s s' eq_refl E E') as Hst.
  assert (agent_connected (env (sys_world s)) ("infra", "a") = None) as Hn
    by (apply (race_at_proj 6 s (λ s, agent_connected (env (sys_world s)) ("infra", "a")) None E);
        vm_compute; reflexivity).
  assert (agent_connected (env (sys_world s')) ("infra", "a") = Some ConditionTrue) as Ht
    by (apply (race_at_proj 7 s' (λ s, agent_connected (env (sys_world s)) ("infra", "a")) _ E');
        vm_compute; reflexivity).
  assert ((sys_pool s).*1 = [JRequest connect_request]) as Hj
    by (apply (race_at_proj 6 s (λ s, (sys_pool s).*1) _ E); vm_compute; reflexivity).
  destruct (concurrent_writes_specified sample_config s s' (ERun 0) ("infra", "a") Hr Hst ltac:(discriminate))
    as [Hsame|(i & j & p & q & [= <-] & Hji & Hp & Hq & _ & Hu)].
  - exfalso. unfold agent_connected in Hn, Ht. rewrite Hsame in Ht. rewrite Hn in Ht. discriminate Ht.
  - rewrite Hj in Hji. injection Hji as <-. exists s, s', p, q.
    split; [exact Hr|]. split; [exact Hst|]. split; [exact Hp|]. split; [exact Hq|]. split; [|exact Hu].
    intros Heq. unfold agent_connected in Hn, Ht. rewrite Hp in Hn. rewrite Hq in Ht.
    simpl in Hn, Ht. rewrite Heq, Ht in Hn. discriminate Hn.
Defined.

(** The system drains: from every reachable state, when nothing new arrives, the
    threads can only take finitely many steps, however they are scheduled; when
    none can move, none is left, and exactly the requests that were being handled
    have been answered. *)
Theorem every_request_is_answered {S} `{ConcurrentClient S} `{SortSlice} cfg (s : Sys (S:=S)) :
  sys_reachable cfg s →
  Acc (flip (quiet cfg)) s ∧
  ∀ s', rtc (quiet cfg) s s' → (∀ s'', ¬ quiet cfg s' s'') →
    sys_pool s' = [] ∧ (sys_answers s').*1 ≡ₚ (sys_answers s).*1 ++ pending (sys_pool s).
Proof.
  intros Hr. split; [apply quiet_wf|]. intros s' Hs Hstuck. apply quiet_stuck in Hstuck.
  split; [done|]. apply sys_inv_reachable in Hr.
  assert ((sys_answers s').*1 ++ pending (sys_pool s') ≡ₚ (sys_answers s).*1 ++ pending (sys_pool s)) as Hp.
  { clear Hstuck. induction Hs as [|x y z Hxy _ IH]; [done|].
    destruct (quiet_answers cfg x y Hr Hxy) as [Hy E]. rewrite <-E. by apply IH. }
  rewrite Hstuck in Hp. cbn in Hp. by rewrite app_nil_r in Hp.
Qed.

Lemma every_request_is_answered_witness :
  ∃ s s', sys_reachable (H2:=insertion_sort_slice) sample_config s ∧
    pending (sys_pool s) = [heartbeat_request] ∧
    rtc (quiet (H2:=insertion_sort_slice) sample_config) s s' ∧
    (sys_answers s').*1 ≡ₚ [connect_request; heartbeat_request].
Proof.
  assert ((pending ∘ sys_pool) <$> race_at 14 = Some [heartbeat_request]) as Hp by (vm_compute; reflexivity).
  assert ((fmap fst ∘ sys_answers) <$> race_at 14 = Some [connect_request]) as Ha by (vm_compute; reflexivity).
  assert (sys_pool <$> (race_at 14 ≫= @sys_run Server _ insertion_sort_slice sample_config (drop 14 race_events)) =
          Some []) as He by (vm_compute; reflexivity).
  destruct (race_at 14) as [s|] eqn:E; [|discriminate Hp]. injection Hp as Hp. injection Ha as Ha.
  cbn [mbind option_bind] in He.
  destruct (sys_run sample_config (drop 14 race_events) s) as [s'|] eqn:E'; [|discriminate He].
  injection He as He. exists s, s'.
  pose proof (race_at_reachable 14 s E) as Hr.
  assert (rtc (quiet (H2:=insertion_sort_slice) sample_config) s s') as Hq.
  { eapply sys_run_quiet; [|exact E']. repeat constructor. }
  split; [exact Hr|]. split; [exact Hp|]. split; [exact Hq|].
  destruct (every_request_is_answered sample_config s Hr) as [_ Hall].
  destruct (Hall s' Hq (λ s'', empty_stuck sample_config s' s'' He)) as [_ Hans].
  unfold compose in Ha, Hp. rewrite Ha, Hp in Hans. exact Hans.
Defined.

(** C34: the bookkeeping in every run.  Whatever threads do at the same time,
    every interval stored is the default or the configured one, a device that
    reported has been seen, every device was seen at a time the clock has shown,
    and a step moves no device's last sign of life back, if the clock does not go
    back. *)
Theorem concurrent_bookkeeping {S} `{ConcurrentClient S} `{SortSlice} cfg (s s' : Sys (S:=S)) e :
  sys_reachable cfg s → gw_step cfg s e s' →
  wf_gateway cfg (self (sys_world s)) ∧
  ((∀ i j, (i ≤ j)%nat → (clock (sys_world s) i ≤ clock (sys_world s) j)%Z) →
   ∀ device t t', lastSeen (self (sys_world s)) !! device = Some t →
     lastSeen (self (sys_world s')) !! device = Some t' → (t ≤ t')%Z).
Proof.
  intros Hr Hs. pose proof (reachable_past cfg s Hr) as Hp.
  apply sys_inv_reachable in Hr as Hi. split; [apply Hi|].
  intros Hc device t t' Ht Ht'. destruct (step_timely cfg s e s' Hi Hs) as (_ & _ & Hd).
  destruct (Hd device t' Ht') as [E|[-> _]]; [by simplify_eq|].
  destruct (Hp device t Ht) as (i & Hlt & ->). apply Hc. lia.
Qed.

Lemma concurrent_bookkeeping_witness :
  ∃ s s' : Sys (S:=Server), sys_reachable (H2:=insertion_sort_slice) sample_config s ∧
    gw_step (H2:=insertion_sort_slice) sample_config s (ERun 1) s' ∧
    lastSeen (self (sys_world s)) !! "tor1" ≠ lastSeen (self (sys_world s')) !! "tor1" ∧
    wf_gateway sample_config (self (sys_world s)).
Proof.
  assert (((λ s, lastSeen (self (sys_world s)) !! "tor1") <$> race_at 16) = Some (Some (pausing_clock 4 0)))
    as H1 by (vm_compute; reflexivity).
  assert (((λ s, lastSeen (self (sys_world s)) !! "tor1") <$> race_at 17) = Some (Some (pausing_clock 4 6)))
    as H2 by (vm_compute; reflexivity).
  destruct (race_at 16) as [s|] eqn:E; [|discriminate H1]. injection H1 as H1.
  destruct (race_at 17) as [s'|] eqn:E'; [|discriminate H2]. injection H2 as H2.
  pose proof (race_at_reachable 16 s E) as Hr.
  pose proof (race_at_step 16 (ERun 1) s s' eq_refl E E') as Hs.
  exists s, s'. split; [exact Hr|]. split; [exact Hs|]. split; [rewrite H1, H2; vm_compute; discriminate|].
  apply (concurrent_bookkeeping sample_config s s' (ERun 1) Hr Hs).
Defined.

(** A handler is the schedule that does not interrupt it: the system can answer a
    request that arrives alone exactly as the handler does, and is then in the
    state the handler leaves. *)
Theorem handler_is_a_schedule {S} `{ConcurrentClient S} `{SortSlice} cfg r
    (w : World Gateway S GatewayCall) a :
  rtc (λ x y, ∃ e, gw_step cfg x e y) (mkSys w [] a)
    (mkSys (handleDevice cfg r w).2 [] (a ++ [(r, (handleDevice cfg r w).1)])).
Proof.
  destruct (run_alone [(JRequest r, job_thread cfg (JRequest r))] 0 (JRequest r)
    (job_thread cfg (JRequest r)) w eq_refl) as [n Hn].
  assert (run (job_thread cfg (JRequest r)) w = (Some (handleDevice cfg r w).1, (handleDevice cfg r w).2)) as Hrun.
  { unfold job_thread. rewrite run_tbind, run_thread. done. }
  rewrite Hrun in Hn. eapply rtc_l; [exists (EArrive r); constructor|].
  etransitivity; [exact (schedule_runs cfg n _ w _ _ a Hn)|].
  apply rtc_once. exists (EReturn 0). by eapply (step_return cfg 0 (JRequest r) (Some _)).
Qed.

(** ** Heartbeats after the race *)

#[local] Existing Instance insertion_sort_slice.

(** The device was seen within its window. *)
Definition seen_lately (s : Sys (S:=Server)) : Prop :=
  ∃ seen, lastSeen (self (sys_world s)) !! "tor1" = Some seen ∧
    is_stale sample_config (clock (sys_world s) (tick (sys_world s))) "tor1" seen (self (sys_world s)) = false.

Definition next_heartbeat (w : World Gateway Server GatewayCall) : World Gateway Server GatewayCall :=
  (handleDevice sample_config heartbeat_request w).2.

(** A heartbeat reads the clock three times and is recorded at the second
    reading; the next one starts two readings later. *)
Definition on_time (w : World Gateway Server GatewayCall) : Prop :=
  (∀ seen, lastSeen (self w) !! "tor1" = Some seen → clock w (tick w) - seen ≤ 45 * Second) ∧
  ∀ i, (tick w ≤ i)%nat → IsZero (clock w i) = false ∧ clock w (2 + i)%nat - clock w i ≤ 45 * Second.

(** What the maps hold about the device from one heartbeat to the next. *)
Definition beating (w : World Gateway Server GatewayCall) : Prop :=
  wf_gateway sample_config (self w) ∧ get_int (heartbeatHints (self w)) "tor1" = 15 ∧
  ∃ seen, lastSeen (self w) !! "tor1" = Some seen ∧ IsZero seen = false.

(** The time of a report without observations is not used. *)
Lemma heartbeat_is_report : ∃ reportedAt, ∀ w : World Gateway Server GatewayCall,
  handleDevice sample_config heartbeat_request w = process_report sample_config "tor1" [] reportedAt w.
Proof. exists 0. intros w. reflexivity. Qed.

Lemma beat w : beating w → on_time w →
  (handleDevice sample_config heartbeat_request w).1 = ack ∧ env (next_heartbeat w) = env w ∧
  beating (next_heartbeat w) ∧ on_time (next_heartbeat w).
Proof.
  intros (Hg & Hh & seen & Hs & Hz) [Hseen Hc]. specialize (Hseen seen Hs).
  assert (wf_gateway sample_config (self (next_heartbeat w))) as Hg'
    by (by apply (keeps_handleDevice sample_config heartbeat_request w)).
  revert Hg'. unfold next_heartbeat. destruct heartbeat_is_report as [reportedAt ->].
  assert (window_fits sample_config) as Hf by (split; [|split]; vm_compute; discriminate).
  assert (window sample_config "tor1" (self w) = 45 * Second) as Hw by (unfold window; by rewrite Hh).
  destruct (heartbeat_writes_nothing sample_config "tor1" reportedAt seen w) as (Ha & He & _);
    try done; [by rewrite Hw|]. intros Hg'. split; [exact Ha|]. split; [exact He|].
  revert Hg'. rewrite process_report_run.
  assert (report_is_stale sample_config "tor1" w = false) as ->.
  { apply not_true_is_false. rewrite report_is_stale_spec. unfold get_time. rewrite Hs. simpl.
    destruct (staleAfter_window sample_config "tor1" (self w) Hf Hg) as [Hsw Hr]. rewrite Hsw, Hw.
    intros [?|Hst]; [congruence|]. apply Z.lt_nge in Hst. apply Hst. apply Sub_le; unfold min_int64, Second in *; lia. }
  rewrite Hh. unfold beating, on_time. cbn. unfold get_int. intros Hg'. split_all.
  - exact Hg'.
  - by rewrite lookup_insert_eq.
  - eexists. rewrite lookup_insert_eq. split; [done|apply Hc; lia].
  - intros seen'. rewrite lookup_insert_eq. intros [= <-]. apply (Hc (Datatypes.S (tick w))). lia.
  - intros i Hi. apply Hc. lia.
Qed.

(** The clock of the race is slow enough once it has paused. *)
Lemma pausing_on_time w : clock w = pausing_clock 4 → (4 ≤ tick w)%nat →
  (∀ seen, lastSeen (self w) !! "tor1" = Some seen → clock w (tick w) - seen ≤ 45 * Second) → on_time w.
Proof.
  intros Hc Ht Hs. split; [exact Hs|]. intros i Hi. rewrite Hc. unfold pausing_clock, IsZero, zero_time, Second.
  assert (Nat.ltb i 4 = false) as -> by (apply Nat.ltb_ge; lia).
  assert (Nat.ltb (2 + i) 4 = false) as -> by (apply Nat.ltb_ge; lia).
  split; [apply Z.eqb_neq; lia|lia].
Qed.

Lemma beats w n : beating w → on_time w →
  let w' := Nat.iter n next_heartbeat w in beating w' ∧ on_time w' ∧ env w' = env w.
Proof.
  intros Hb Hw. cbv zeta. induction n as [|n (IH1 & IH2 & IH3)]; [done|]. cbn [Nat.iter].
  destruct (beat _ IH1 IH2) as (_ & He & ? & ?). split; [done|]. split; [done|].
  change (env (next_heartbeat (Nat.iter n next_heartbeat w)) = env w). by rewrite He.
Qed.

(** At the points of the race where the device was last seen by its heartbeat. *)
Lemma race_seen n s : race_at n = Some s →
  (λ s, (lastSeen (self (sys_world s)) !! "tor1",
         is_stale sample_config (clock (sys_world s) (tick (sys_world s))) "tor1" (pausing_clock 4 6) (self (sys_world s))))
    <$> race_at n = Some (Some (pausing_clock 4 6), false) →
  seen_lately s.
Proof. intros -> [= Hs Hf]. by exists (pausing_clock 4 6). Qed.

(** Heartbeats can follow the end of the race. *)
Lemma race_end_beats s : race_at 27 = Some s → beating (sys_world s) ∧ on_time (sys_world s).
Proof.
  intros E. pose proof (λ A f a, race_at_proj (A:=A) 27 s f a E) as P.
  pose proof (sys_inv_reachable sample_config s (race_at_reachable 27 s E)) as [[_ Hg] _].
  assert (lastSeen (self (sys_world s)) !! "tor1" = Some (pausing_clock 4 6)) as Hseen
    by (apply (P _ (λ s, lastSeen (self (sys_world s)) !! "tor1")); vm_compute; reflexivity).
  split.
  - split; [exact Hg|]. split.
    + apply (P _ (λ s, get_int (heartbeatHints (self (sys_world s))) "tor1")). vm_compute. reflexivity.
    + exists (pausing_clock 4 6). split; [exact Hseen|vm_compute; reflexivity].
  - apply pausing_on_time.
    + by apply (sys_run_clock sample_config (take 27 race_events) race_start); [apply sys_inv_init, race_start_init|].
    + apply Nat.leb_le, (P _ (λ s, Nat.leb 4 (tick (sys_world s)))). vm_compute. reflexivity.
    + intros seen. rewrite Hseen. intros [= <-].
      apply Z.leb_le, (P _ (λ s, clock (sys_world s) (tick (sys_world s)) - pausing_clock 4 6 <=? 45 * Second)).
      vm_compute. reflexivity.
Qed.

(** What the last step of the pass before its end does. *)
Lemma race_marks s1 s2 s3 : race_at 24 = Some s1 → race_at 25 = Some s2 → race_at 27 = Some s3 →
  agent_connected (env (sys_world s1)) ("infra", "a") = Some ConditionTrue ∧
  agent_connected (env (sys_world s2)) ("infra", "a") = Some ConditionFalse ∧
  agent_connected (env (sys_world s3)) ("infra", "a") = Some ConditionFalse.
Proof.
  intros E1 E2 E3. set (f s := agent_connected (env (sys_world (S:=Server) s)) ("infra", "a")). split_all.
  - apply (race_at_proj 24 s1 f _ E1). vm_compute. reflexivity.
  - apply (race_at_proj 25 s2 f _ E2). vm_compute. reflexivity.
  - apply (race_at_proj 27 s3 f _ E3). vm_compute. reflexivity.
Qed.

(** C36: a pass of the staleness loop can undo the report that came in between.
    There is a run of the gateway alone, without another client of the API server,
    in which the pass marks the device's process as disconnected in a step that
    comes after the device's heartbeat was acknowledged: before that step the device
    was seen within its window and its process is marked as connected, and at the
    end of the run nothing is being handled, no other request was answered, the
    device is within its window, and the process is marked as disconnected.  It
    stays so: however many heartbeats come after that, each at most 45 seconds after
    the one before, they are all acknowledged and change nothing in the API
    server; the clock of the run is one that is fast enough for them. *)
Theorem stale_mark_overtakes_report :
  ∃ before after (s1 s2 s3 : Sys (S:=Server)),
    sys_init race_start ∧ sys_run sample_config before race_start = Some s1 ∧
    sys_exec sample_config (ERun 0) s1 = Some s2 ∧ sys_run sample_config after s2 = Some s3 ∧
    (sys_pool s1).*1 = [JStale] ∧ last (sys_answers s1) = Some (heartbeat_request, ack) ∧ seen_lately s1 ∧
    agent_connected (env (sys_world s1)) ("infra", "a") = Some ConditionTrue ∧
    agent_connected (env (sys_world s2)) ("infra", "a") = Some ConditionFalse ∧
    sys_pool s3 = [] ∧ sys_answers s3 = sys_answers s1 ∧ seen_lately s3 ∧
    agent_connected (env (sys_world s3)) ("infra", "a") = Some ConditionFalse ∧
    on_time (sys_world s3) ∧
    ∀ (w : World Gateway Server GatewayCall) n,
      self w = self (sys_world s3) → env w = env (sys_world s3) → on_time w →
      (handleDevice sample_config heartbeat_request (Nat.iter n next_heartbeat w)).1 = ack ∧
      env (Nat.iter n next_heartbeat w) = env (sys_world s3).
Proof.
  assert (((λ _, tt) <$> race_at 24 = Some tt) ∧ ((λ _, tt) <$> race_at 25 = Some tt) ∧
    ((λ _, tt) <$> race_at 27 = Some tt)) as (H1 & H2 & H3) by (split_all; vm_compute; reflexivity).
  destruct (race_at 24) as [s1|] eqn:E1; [|discriminate H1].
  destruct (race_at 25) as [s2|] eqn:E2; [|discriminate H2].
  destruct (race_at 27) as [s3|] eqn:E3; [|discriminate H3].
  destruct (race_from s1 s2 s3 E1 E2 E3) as [Es Er]. destruct (race_marks s1 s2 s3 E1 E2 E3) as (M1 & M2 & M3).
  destruct (race_end_beats s3 E3) as [Hb Ht].
  assert (sys_answers s1 = [(connect_request, ack); (heartbeat_request, ack)]) as A1
    by (apply (race_at_proj 24 s1 sys_answers _ E1); vm_compute; reflexivity).
  assert (sys_answers s3 = [(connect_request, ack); (heartbeat_request, ack)]) as A3
    by (apply (race_at_proj 27 s3 sys_answers _ E3); vm_compute; reflexivity).
  exists (take 24 race_events), (drop 25 race_events), s1, s2, s3. rewrite A1, A3.
  split; [exact race_start_init|]. split; [exact E1|]. split; [exact Es|]. split; [exact Er|].
  split; [apply (race_at_proj 24 s1 (λ s, (sys_pool s).*1) _ E1); vm_compute; reflexivity|].
  split; [reflexivity|]. split; [apply (race_seen 24 s1 E1); vm_compute; reflexivity|].
  split; [exact M1|]. split; [exact M2|].
  split; [apply (race_at_proj 27 s3 sys_pool _ E3); vm_compute; reflexivity|].
  split; [reflexivity|]. split; [apply (race_seen 27 s3 E3); vm_compute; reflexivity|].
  split; [exact M3|]. split; [exact Ht|]. intros w n Hself Henv Hw.
  assert (beating w) as Hbw by (unfold beating in *; by rewrite Hself).
  destruct (beats w n Hbw Hw) as (Hb' & Hw' & He). rewrite <-Henv. split; [by apply beat|exact He].
Qed.
