(* ===== verification/ControllerApi.v ===== *)
(** * What the deployment controller calls

    The libraries and services the controller uses, as classes: label selectors
    and owner references (apimachinery, controller-runtime), the validation
    functions of apimachinery, and the Kubernetes client.  Each states the
    documented behaviour the controller relies on, and has an instance. *)

From S2P Require Import Prelude GoStrings Api Kube.

(** ** Label selectors *)

(** The documented meaning of a requirement. *)
Definition requirement_holds (labels : gmap string string) (r : SelectorRequirement) : bool :=
  match rq_Operator r, labels !! rq_Key r with
  | OpIn, Some v => bool_decide (v ∈ rq_Values r)
  | OpIn, None => false
  | OpNotIn, Some v => bool_decide (v ∉ rq_Values r)
  | OpNotIn, None => true
  | OpExists, Some _ => true
  | OpExists, None => false
  | OpDoesNotExist, Some _ => false
  | OpDoesNotExist, None => true
  | OpOther _, _ => false
  end.

(** A selector selects a label set when every label and every requirement holds. *)
Definition selects (sel : LabelSelector) (labels : gmap string string) : bool :=
  bool_decide (sel_MatchLabels sel ⊆ labels) &&
  forallb (requirement_holds labels) (sel_MatchExpressions sel).

(** [metav1.LabelSelectorAsSelector] and [labels.Selector]. *)
Class LabelSelectors := {
  Selector : Type;
  LabelSelectorAsSelector : LabelSelector → result ApiError Selector;
  Matches : Selector → gmap string string → bool;
  Matches_selects : ∀ sel s labels,
    LabelSelectorAsSelector sel = Ok s → Matches s labels = selects sel labels
}.

Definition known_operator (r : SelectorRequirement) : bool :=
  match rq_Operator r with OpOther _ => false | _ => true end.

Program Definition plain_selectors : LabelSelectors := {|
  Selector := LabelSelector;
  LabelSelectorAsSelector sel :=
    if forallb known_operator (sel_MatchExpressions sel) then Ok sel
    else Err (mkApiError OtherReason "not a valid label selector operator");
  Matches := selects
|}.
Next Obligation. simpl. intros sel s labels. by case_match; intros ?; simplify_eq. Qed.

(** ** Validation (k8s.io/apimachinery/pkg/util/validation) *)

Definition DNS1123SubdomainMaxLength : Z := 253.

(** Each function answers a list of messages; what the code looks at is
    whether it is empty. *)
Class Validation := {
  IsDNS1123Subdomain : string → bool;
  IsQualifiedName : string → bool;
  IsValidLabelValue : string → bool;
  IsDNS1123Subdomain_length : ∀ s, IsDNS1123Subdomain s = true →
    0 < Z.of_nat (String.length s) ≤ DNS1123SubdomainMaxLength
}.

(** An instance: lower case letters, digits, dashes and dots, an alphanumeric
    character at both ends. *)
Definition alnum (c : ascii) : bool :=
  ((48 <=? code c) && (code c <=? 57)) || ((97 <=? code c) && (code c <=? 122)).
Fixpoint last_byte (s : string) : option ascii :=
  match s with
  | EmptyString => None
  | String c EmptyString => Some c
  | String _ s' => last_byte s'
  end.
Definition dns_name (s : string) : bool :=
  all_bytes (λ c, alnum c || Ascii.eqb c dash || Ascii.eqb c "."%char) s &&
  match s with String c _ => alnum c | EmptyString => false end &&
  match last_byte s with Some c => alnum c | None => false end &&
  (Z.of_nat (String.length s) <=? DNS1123SubdomainMaxLength).

Program Definition plain_validation : Validation := {|
  IsDNS1123Subdomain := dns_name;
  IsQualifiedName s := negb (String.eqb s "");
  IsValidLabelValue s := (Z.of_nat (String.length s) <=? 63)
|}.
Next Obligation.
  simpl. unfold dns_name. intros [|c s] ?; bool_prop; [done|]. split; [simpl; lia|done].
Qed.

(** ** Owner references (controllerutil, metav1) *)

Definition set_OwnerReferences (refs : list OwnerReference) (p : DeviceProcess) : DeviceProcess :=
  let m := dp_Meta p in
  mkDeviceProcess
    (mkObjectMeta (om_Name m) (om_Namespace m) (om_UID m) (om_ResourceVersion m) (om_Generation m)
       (om_Labels m) (om_Annotations m) refs)
    (dp_Spec p) (dp_Status p).

(** The controller reference of an object: the first one marked so. *)
Definition controller_of (p : DeviceProcess) : option OwnerReference :=
  head (filter (λ r, or_Controller r = true) (om_OwnerReferences (dp_Meta p))).

Class OwnerReferences := {
  SetControllerReference : DeviceProcessDeployment → DeviceProcess → result ApiError DeviceProcess;
  IsControlledBy : DeviceProcess → DeviceProcessDeployment → bool;
  SetControllerReference_ok : ∀ d p p', SetControllerReference d p = Ok p' →
    om_OwnerReferences (dp_Meta p) = [] →
    ∃ ref, p' = set_OwnerReferences [ref] p ∧ or_Controller ref = true ∧
           or_UID ref = om_UID (dep_Meta d);
  IsControlledBy_spec : ∀ p d, IsControlledBy p d =
    match controller_of p with Some r => String.eqb (or_UID r) (om_UID (dep_Meta d)) | None => false end
}.

Definition controlled_by (p : DeviceProcess) (d : DeviceProcessDeployment) : bool :=
  match controller_of p with Some r => String.eqb (or_UID r) (om_UID (dep_Meta d)) | None => false end.

Definition set_controller (d : DeviceProcessDeployment) (p : DeviceProcess)
    : result ApiError DeviceProcess :=
  match controller_of p with
  | Some _ => Err (mkApiError OtherReason "already owned")
  | None =>
      Ok (set_OwnerReferences (om_OwnerReferences (dp_Meta p) ++
        [mkOwnerReference "DeviceProcessDeployment" (om_Name (dep_Meta d)) (om_UID (dep_Meta d)) true]) p)
  end.

Program Definition plain_owners : OwnerReferences :=
  {| SetControllerReference := set_controller; IsControlledBy := controlled_by |}.
Next Obligation.
  simpl. unfold set_controller. intros d p p'. destruct (controller_of p); [done|].
  intros [= <-] ->. by eexists.
Qed.
Next Obligation. done. Qed.

(** ** The Kubernetes client *)

Class ControllerClient (S : Type) `{LabelSelectors} := {
  get_deployment : NamespacedName → S → result ApiError DeviceProcessDeployment;
  get_device_process : NamespacedName → S → result ApiError DeviceProcess;
  (** [List] of NetworkSwitches in a namespace matching a selector; only the
      metadata of a switch is read. *)
  list_switches : string → Selector → S → result ApiError (list ObjectMeta);
  (** [List] of deployments in a namespace, by a key of the field index. *)
  list_deployments : string → string → S → result ApiError (list DeviceProcessDeployment);
  (** [List] of processes in a namespace whose deployment label has a value. *)
  list_processes : string → string → S → result ApiError (list DeviceProcess);
  (** [Patch(ctx, desired, client.Apply, ...)] *)
  apply_process : DeviceProcess → S → result ApiError unit * S;
  (** [Create] answers the object as stored, which it decodes into its argument. *)
  create_process : DeviceProcess → S → result ApiError DeviceProcess * S;
  update_process : DeviceProcess → S → result ApiError unit * S;
  delete_process : DeviceProcess → S → result ApiError unit * S;
  (** [Status().Patch(ctx, after, MergeFrom(before))] *)
  patch_deployment_status : DeviceProcessDeployment → DeviceProcessDeployment → S →
    result ApiError unit * S
}.

(** A JSON merge patch computed from [before] and [after] carries the fields in
    which they differ, lists as a whole. *)
Definition merge_field {A} `{EqDecision A} (before after stored : A) : A :=
  if decide (before = after) then stored else after.

Definition merge_deployment_status (b a st : DeviceProcessDeploymentStatus)
    : DeviceProcessDeploymentStatus :=
  mkDeploymentStatus
    (merge_field (dst_ObservedGeneration b) (dst_ObservedGeneration a) (dst_ObservedGeneration st))
    (merge_field (dst_DesiredNumberScheduled b) (dst_DesiredNumberScheduled a)
       (dst_DesiredNumberScheduled st))
    (merge_field (dst_CurrentNumberScheduled b) (dst_CurrentNumberScheduled a)
       (dst_CurrentNumberScheduled st))
    (merge_field (dst_UpdatedNumberScheduled b) (dst_UpdatedNumberScheduled a)
       (dst_UpdatedNumberScheduled st))
    (merge_field (dst_NumberReady b) (dst_NumberReady a) (dst_NumberReady st))
    (merge_field (dst_NumberAvailable b) (dst_NumberAvailable a) (dst_NumberAvailable st))
    (merge_field (dst_NumberUnavailable b) (dst_NumberUnavailable a) (dst_NumberUnavailable st))
    (merge_field (dst_Conditions b) (dst_Conditions a) (dst_Conditions st)).
