(* ===== verification/ControllerBuild.v ===== *)
(** * What the controller builds
    (controller/reconcilers/deviceprocessdeployment_controller.go)

    The pure functions of the reconciler: selector keys, the labels copied from
    a device, the name and the content of the desired DeviceProcess. *)

From S2P Require Import Prelude GoStrings GoCrypto Api Conditions SpecHash Kube ControllerApi.

Definition deviceProcessDeploymentKey : string := "deviceprocessdeployment".
Definition deviceProcessDeploymentUIDKey : string := "deviceprocessdeployment-uid".
Definition allSelectorIndexKey : string := "__all__".

Definition dep_Name (d : DeviceProcessDeployment) : string := om_Name (dep_Meta d).
Definition dep_Namespace (d : DeviceProcessDeployment) : string := om_Namespace (dep_Meta d).
Definition dep_UID (d : DeviceProcessDeployment) : string := om_UID (dep_Meta d).
Definition dep_Key (d : DeviceProcessDeployment) : NamespacedName := (dep_Namespace d, dep_Name d).

Definition mergeStringMaps (base extras : gmap string string) : gmap string string := extras ∪ base.

Definition selectorLabelKeys (selector : LabelSelector) : gset string :=
  let keys := dom (sel_MatchLabels selector) ∪
              list_to_set (rq_Key <$> sel_MatchExpressions selector) in
  if decide (keys = ∅) then {[ allSelectorIndexKey ]} else keys.

Definition hasUnsupportedSelector (sel : LabelSelector) : bool :=
  existsb (λ expr, match rq_Operator expr with OpNotIn | OpDoesNotExist => true | _ => false end)
    (sel_MatchExpressions sel).

(** The keys always copied from a device. *)
Definition inventory_keys : gset string := {[ "role"; "type"; "rack" ]}.

Section build.
Context `{Validation} `{Unicode}.

Definition selectedDeviceLabels (deviceLabels : gmap string string) (selector : LabelSelector)
    : gmap string string :=
  if decide (deviceLabels = ∅) then ∅
  else
    let keys := selectorLabelKeys selector ∪ inventory_keys in
    filter (λ kv, (bool_decide (kv.1 ∈ keys) && IsQualifiedName kv.1 && IsValidLabelValue kv.2) = true)
      deviceLabels.

Definition name_hash (deploymentName deviceName : string) : string :=
  take_bytes 10 (hex (sha1 (deploymentName +:+ ":" +:+ deviceName))).

Definition deviceProcessName (deploymentName deviceName : string) : string :=
  let base := ToLower (deploymentName +:+ "-" +:+ deviceName) in
  if IsDNS1123Subdomain base && (Z.of_nat (String.length base) <=? DNS1123SubdomainMaxLength)
  then base
  else
    let hashStr := name_hash deploymentName deviceName in
    let maxPrefixLen := DNS1123SubdomainMaxLength - Z.of_nat (String.length hashStr) - 1 in
    let prefix := ToLower deploymentName in
    let prefix := if maxPrefixLen <? Z.of_nat (String.length prefix)
                  then take_bytes (Z.to_nat maxPrefixLen) prefix else prefix in
    let prefix := Trim dash prefix in
    let prefix := if String.eqb prefix "" then "dpd" else prefix in
    prefix +:+ "-" +:+ hashStr.

Definition controller_labels (deployment : DeviceProcessDeployment) : gmap string string :=
  {[ "app" := dep_Name deployment;
     deviceProcessDeploymentKey := dep_Name deployment;
     deviceProcessDeploymentUIDKey := dep_UID deployment ]}.

Definition desired_labels (deployment : DeviceProcessDeployment) (device : ObjectMeta)
    : gmap string string :=
  let template := ds_Template (dep_Spec deployment) in
  mergeStringMaps
    (mergeStringMaps (tm_Labels template) (controller_labels deployment))
    (selectedDeviceLabels (om_Labels device) (ds_Selector (dep_Spec deployment))).

Definition desired_spec (deployment : DeviceProcessDeployment) (device : ObjectMeta)
    : DeviceProcessSpec :=
  let template := tm_Spec (ds_Template (dep_Spec deployment)) in
  mkSpec (mkDeviceRef DeviceRefKindNetworkSwitch (om_Name device) "")
    (ts_Artifact template) (ts_Execution template) (ts_RestartPolicy template)
    (ts_HealthCheck template).

Definition buildDesiredDeviceProcess (deployment : DeviceProcessDeployment) (device : ObjectMeta)
    (name : string) : DeviceProcess :=
  mkDeviceProcess
    (mkObjectMeta name (dep_Namespace deployment) "" "" 0 (desired_labels deployment device)
       (tm_Annotations (ds_Template (dep_Spec deployment))) [])
    (desired_spec deployment device) empty_status.
End build.

(** The digest the controller compares with what agents report; the same as the
    gateway's. *)
Definition hashDeviceProcessSpec (spec : DeviceProcessSpec) : string :=
  "sha256:" +:+ hex (sha256 (marshal_spec spec)).

Definition isProcessReady (proc : DeviceProcess) : bool :=
  if negb (String.eqb (st_Phase (dp_Status proc)) DeviceProcessPhaseRunning) then false
  else
    match FindCondition (st_Conditions (dp_Status proc)) ConditionAgentConnected,
          FindCondition (st_Conditions (dp_Status proc)) ConditionHealthy with
    | Some connected, Some healthy =>
        String.eqb (c_Status connected) ConditionTrue && String.eqb (c_Status healthy) ConditionTrue
    | _, _ => false
    end.

(** ** Lemmas *)

(** A selector with supported operators looks at labels that are there. *)
Lemma selects_keys sel labels k :
  hasUnsupportedSelector sel = false → selects sel labels = true →
  k ∈ selectorLabelKeys sel → k = allSelectorIndexKey ∨ k ∈ dom labels.
Proof.
  unfold selectorLabelKeys, selects, hasUnsupportedSelector. intros Hu Hs. bool_prop.
  case_decide; [set_solver|]. intros [Hk|Hk]%elem_of_union; right.
  - apply elem_of_dom in Hk as [v Hv]. apply elem_of_dom. exists v. by eapply lookup_weaken.
  - apply elem_of_list_to_set, list_elem_of_fmap in Hk as (r & -> & Hr).
    match goal with Hf : forallb _ _ = true |- _ => rewrite forallb_forall in Hf;
      specialize (Hf r (proj1 (list_elem_of_In _ _) Hr)) end.
    assert (match rq_Operator r with OpNotIn | OpDoesNotExist => true | _ => false end = false) as Hop.
    { apply not_true_is_false. intros Ht. apply not_true_iff_false in Hu. apply Hu.
      apply existsb_exists. exists r. split; [by apply list_elem_of_In|done]. }
    unfold requirement_holds in *. apply elem_of_dom.
    by destruct (rq_Operator r), (labels !! rq_Key r).
Qed.

(** What a selector selects depends on the labels at its keys only. *)
Lemma selects_local sel labels labels' :
  (∀ k, k ∈ selectorLabelKeys sel → labels !! k = labels' !! k) →
  selects sel labels = selects sel labels'.
Proof.
  intros Hk. unfold selectorLabelKeys in Hk.
  assert (∀ k, k ∈ dom (sel_MatchLabels sel) ∪ list_to_set (C:=gset string) (rq_Key <$> sel_MatchExpressions sel) →
    labels !! k = labels' !! k) as Hkeys.
  { intros k Hin. apply Hk. case_decide as Hd; [|done]. rewrite Hd in Hin. set_solver. }
  unfold selects. f_equal.
  - apply bool_decide_ext. rewrite !map_subseteq_spec. split; intros Hs k v Hv.
    + rewrite <-Hkeys; [by apply Hs|]. apply elem_of_union_l, elem_of_dom. by eexists.
    + rewrite Hkeys; [by apply Hs|]. apply elem_of_union_l, elem_of_dom. by eexists.
  - assert (∀ r, In r (sel_MatchExpressions sel) →
      requirement_holds labels r = requirement_holds labels' r) as Hr.
    { intros r Hr. unfold requirement_holds. rewrite Hkeys; [done|].
      apply elem_of_union_r, elem_of_list_to_set, list_elem_of_fmap. exists r.
      split; [done|]. by apply list_elem_of_In. }
    apply eq_true_iff_eq. rewrite !forallb_forall.
    split; intros Hf r Hin; [rewrite <-Hr|rewrite Hr]; auto.
Qed.

Lemma length_name_hash deploymentName deviceName :
  String.length (name_hash deploymentName deviceName) = 10%nat.
Proof. unfold name_hash. by rewrite length_take_bytes, length_hex, length_sha1. Qed.

Section labels.
Context `{Validation}.

Lemma selectedDeviceLabels_lookup labels selector k :
  selectedDeviceLabels labels selector !! k =
    match labels !! k with
    | Some v =>
        if bool_decide (k ∈ selectorLabelKeys selector ∪ inventory_keys) &&
           IsQualifiedName k && IsValidLabelValue v then Some v else None
    | None => None
    end.
Proof.
  unfold selectedDeviceLabels. case_decide as Hd; [by subst|].
  rewrite map_lookup_filter. destruct (labels !! k) as [v|] eqn:E; simpl; [|done].
  destruct (_ && _ && _) eqn:Hv; [by rewrite option_guard_True|by rewrite option_guard_False].
Qed.
End labels.

(** The three sources of the labels of a process, by precedence. *)
Lemma desired_labels_at `{Validation} deployment device k :
  desired_labels deployment device !! k =
    match selectedDeviceLabels (om_Labels device) (ds_Selector (dep_Spec deployment)) !! k with
    | Some v => Some v
    | None =>
        if String.eqb k deviceProcessDeploymentUIDKey then Some (dep_UID deployment)
        else if String.eqb k deviceProcessDeploymentKey || String.eqb k "app"
             then Some (dep_Name deployment)
        else tm_Labels (ds_Template (dep_Spec deployment)) !! k
    end.
Proof.
  unfold desired_labels, mergeStringMaps, controller_labels.
  rewrite lookup_union. destruct (selectedDeviceLabels _ _ !! k); [by rewrite union_Some_l|].
  rewrite (left_id_L None (∪)), lookup_union.
  destruct (String.eqb_spec k deviceProcessDeploymentUIDKey) as [->|Hu].
  { rewrite lookup_insert_ne by done. rewrite lookup_insert_ne by done.
    by rewrite lookup_singleton_eq, union_Some_l. }
  destruct (String.eqb_spec k deviceProcessDeploymentKey) as [->|Hd].
  { rewrite lookup_insert_ne by done. by rewrite lookup_insert_eq, union_Some_l. }
  destruct (String.eqb_spec k "app") as [->|Ha].
  { by rewrite lookup_insert_eq, union_Some_l. }
  simpl. rewrite !lookup_insert_ne, lookup_singleton_ne by done. by rewrite (left_id_L None (∪)).
Qed.

(** ** Properties *)

(** The name of a DeviceProcess always fits a Kubernetes name: it is never
    longer than 253 bytes nor empty, however long the names it is made of. *)
Theorem deviceProcessName_length `{Validation} `{Unicode} deploymentName deviceName :
  0 < Z.of_nat (String.length (deviceProcessName deploymentName deviceName)) ≤
    DNS1123SubdomainMaxLength.
Proof.
  unfold deviceProcessName. cbv zeta. rewrite length_name_hash. change (DNS1123SubdomainMaxLength - Z.of_nat 10 - 1) with 242.
  destruct (IsDNS1123Subdomain _ && _) eqn:E.
  - bool_prop. by apply IsDNS1123Subdomain_length.
  - rewrite !length_app_s, length_name_hash. unfold DNS1123SubdomainMaxLength.
    match goal with |- context [if String.eqb ?p "" then _ else _] => set (t := p) end.
    assert (String.length t ≤ 242)%nat as Ht.
    { unfold t. etrans; [apply length_Trim|].
      case_match; bool_prop; [rewrite length_take_bytes|]; lia. }
    change (String.length "-") with 1%nat. change (String.length "dpd") with 3%nat.
    case_match; [change (String.length "dpd") with 3%nat|]; lia.
Qed.

(** The labels of a desired process: a label of the device selected by the
    deployment's selector (or an inventory label) wins, then the controller's
    own labels, then the template's.  So the label [cleanupStale] and
    [updateStatus] list by carries the deployment's name whenever the selector
    does not use that key. *)
Theorem desired_labels_lookup `{Validation} deployment device k :
  desired_labels deployment device !! k =
    match selectedDeviceLabels (om_Labels device) (ds_Selector (dep_Spec deployment)) !! k with
    | Some v => Some v
    | None =>
        if String.eqb k deviceProcessDeploymentUIDKey then Some (dep_UID deployment)
        else if String.eqb k deviceProcessDeploymentKey || String.eqb k "app"
             then Some (dep_Name deployment)
        else tm_Labels (ds_Template (dep_Spec deployment)) !! k
    end ∧
  (deviceProcessDeploymentKey ∉ selectorLabelKeys (ds_Selector (dep_Spec deployment)) →
   desired_labels deployment device !! deviceProcessDeploymentKey = Some (dep_Name deployment)).
Proof.
  split; [apply desired_labels_at|]. intros Hn. rewrite desired_labels_at, selectedDeviceLabels_lookup.
  destruct (om_Labels device !! _); [|done]. rewrite bool_decide_eq_false_2; [done|].
  unfold inventory_keys. set_solver.
Qed.

(** Names of different pairs collide.  Whenever the joined name is a valid
    Kubernetes name, deployment [a-b] on device [c] and deployment [a] on device
    [b-c] name the same DeviceProcess. *)
Theorem deviceProcessName_collision `{Validation} `{Unicode} a b c :
  IsDNS1123Subdomain (ToLower (a +:+ "-" +:+ b +:+ "-" +:+ c)) = true →
  deviceProcessName (a +:+ "-" +:+ b) c = deviceProcessName a (b +:+ "-" +:+ c).
Proof.
  intros Hv. unfold deviceProcessName. cbv zeta. rewrite !app_assoc_s, Hv.
  rewrite (proj2 (Z.leb_le _ _)); [done|]. by apply IsDNS1123Subdomain_length.
Qed.

Lemma deviceProcessName_collision_witness :
  @IsDNS1123Subdomain plain_validation (@ToLower ascii_unicode ("web" +:+ "-" +:+ "tor" +:+ "-" +:+ "1"))
    = true ∧
  @deviceProcessName plain_validation ascii_unicode ("web" +:+ "-" +:+ "tor") "1" =
    @deviceProcessName plain_validation ascii_unicode "web" ("tor" +:+ "-" +:+ "1").
Proof.
  assert (@IsDNS1123Subdomain plain_validation
            (@ToLower ascii_unicode ("web" +:+ "-" +:+ "tor" +:+ "-" +:+ "1")) = true) as Hv
    by (vm_compute; reflexivity).
  split; [exact Hv|].
  exact (@deviceProcessName_collision plain_validation ascii_unicode "web" "tor" "1" Hv).
Defined.

Example deviceProcessName_hashed :
  @deviceProcessName plain_validation ascii_unicode "web_1" "TOR1" = "web_1-2cfb136640".
Proof. vm_compute. reflexivity. Qed.
