(* ===== verification/Cluster.v ===== *)
(** * The API server as the controller uses it

    [ControllerClientLaws] states what the controller relies on, over the
    processes and deployments stored; [Cluster] is an instance.  A write that
    succeeds leaves the fields it sets: server-side apply keeps what other field
    managers own, and a field that is not set may have a default, so of the stored
    object nothing more is assumed. *)

From S2P Require Import Prelude GoStrings GoJson GoJsonFacts Api SpecHash Kube Samples ControllerApi ControllerBuild.

(** ** What a write sets *)

(** Every field of the document [a] is in [b], objects field by field and
    everything else, lists too, as a whole. *)
Fixpoint json_sets (a b : json) {struct a} : Prop :=
  match a with
  | JObject fs =>
      match b with
      | JObject gs => foldr (λ f P, (∃ v, (f.1, v) ∈ gs ∧ json_sets f.2 v) ∧ P) True fs
      | _ => False
      end
  | _ => b = a
  end.

Lemma json_sets_object fs gs :
  json_sets (JObject fs) (JObject gs) ↔ Forall (λ f, ∃ v, (f.1, v) ∈ gs ∧ json_sets f.2 v) fs.
Proof.
  change (json_sets (JObject fs) (JObject gs)) with
    (foldr (λ f P, (∃ v, (f.1, v) ∈ gs ∧ json_sets f.2 v) ∧ P) True fs).
  induction fs as [|f fs IH]; [done|]. cbn [foldr]. by rewrite Forall_cons, IH.
Qed.

#[export] Instance json_sets_preorder : PreOrder json_sets.
Proof.
  split.
  - intros a. induction a as [x|x|x|x| |l IH|fs IH] using json_rect'; try done.
    apply json_sets_object, Forall_forall. intros f Hf. exists f.2. rewrite Forall_forall in IH.
    split; [by destruct f|by apply IH].
  - intros a. induction a as [x|x|x|x| |l IH|fs IH] using json_rect'; intros b c Hab; try by (cbn in Hab; subst b).
    destruct b as [| | | | | |gs]; try done. intros Hbc. destruct c as [| | | | | |hs]; try done.
    rewrite json_sets_object in *. rewrite Forall_forall in *. intros f Hf.
    destruct (Hab f Hf) as (v & Hv & Hfv). destruct (Hbc _ Hv) as (u & Hu & Hvu). exists u.
    split; [exact Hu|]. by apply (IH f Hf v u).
Qed.

Lemma json_sets_fields fs fs' gs gs' : json_sets (JObject fs) (JObject fs') → json_sets (JObject gs) (JObject gs') →
  json_sets (JObject (fs ++ gs)) (JObject (fs' ++ gs')).
Proof.
  rewrite !json_sets_object. intros Hf Hg. apply Forall_app. split.
  - eapply Forall_impl; [exact Hf|]. intros f (v & Hv & ?). exists v. split; [set_solver|done].
  - eapply Forall_impl; [exact Hg|]. intros f (v & Hv & ?). exists v. split; [set_solver|done].
Qed.

(** A default for a field that is not set. *)
Definition default_string (d s : string) : string := if String.eqb s "" then d else s.
Definition default_number (d z : Z) : Z := if z =? 0 then d else z.

Lemma json_sets_omit_string name s d :
  json_sets (JObject (omit_string name s)) (JObject (omit_string name (default_string d s))).
Proof. unfold omit_string, default_string. destruct (String.eqb s "") eqn:E; [done|]. by rewrite E. Qed.

Lemma json_sets_omit_number name z d :
  json_sets (JObject (omit_number name z)) (JObject (omit_number name (default_number d z))).
Proof. unfold omit_number, default_number. destruct (z =? 0) eqn:E; [done|]. by rewrite E. Qed.

(** A stored process has what was written: the fields of the spec that the
    encoding of the written one has, and at least its labels, annotations and owner
    references. *)
Record has_written (q p : DeviceProcess) : Prop := {
  written_spec : json_sets (json_Spec (dp_Spec p)) (json_Spec (dp_Spec q));
  written_labels : om_Labels (dp_Meta p) ⊆ om_Labels (dp_Meta q);
  written_annotations : om_Annotations (dp_Meta p) ⊆ om_Annotations (dp_Meta q);
  written_owners : om_OwnerReferences (dp_Meta p) ⊆ om_OwnerReferences (dp_Meta q)
}.

#[export] Instance has_written_transitive : Transitive has_written.
Proof. intros a b c [????] [????]. split; by etrans. Qed.

Class ControllerClientLaws (S : Type) `{ControllerClient S} := {
  stored_process : S → NamespacedName → option DeviceProcess;
  stored_deployment : S → NamespacedName → option DeviceProcessDeployment;
  get_device_process_key : ∀ k s p, get_device_process k s = Ok p → dp_Key p = k;
  apply_ok : ∀ p s s', apply_process p s = (Ok tt, s') →
    ∃ q, stored_process s' (dp_Key p) = Some q ∧ has_written q p;
  create_ok : ∀ p p' s s', create_process p s = (Ok p', s') →
    dp_Key p' = dp_Key p ∧ has_written p' p ∧ stored_process s' (dp_Key p) = Some p';
  update_ok : ∀ p s s', update_process p s = (Ok tt, s') →
    ∃ q, stored_process s' (dp_Key p) = Some q ∧ has_written q p;
  apply_frame : ∀ p s k, k ≠ dp_Key p → stored_process (apply_process p s).2 k = stored_process s k;
  create_frame : ∀ p s k, k ≠ dp_Key p → stored_process (create_process p s).2 k = stored_process s k;
  update_frame : ∀ p s k, k ≠ dp_Key p → stored_process (update_process p s).2 k = stored_process s k;
  delete_frame : ∀ p s k, k ≠ dp_Key p → stored_process (delete_process p s).2 k = stored_process s k;
  status_frame : ∀ b a s k,
    stored_process (patch_deployment_status b a s).2 k = stored_process s k;
  (** The merge patch of a status. *)
  status_ok : ∀ b a s s' d, patch_deployment_status b a s = (Ok tt, s') →
    stored_deployment s (dep_Key b) = Some d →
    ∃ d', stored_deployment s' (dep_Key b) = Some d' ∧
      dep_Status d' = merge_deployment_status (dep_Status b) (dep_Status a) (dep_Status d);
  (** The field index of [SetupWithManager], when the list succeeds. *)
  index_sound : ∀ ns k s l d, list_deployments ns k s = Ok l → d ∈ l →
    stored_deployment s (dep_Key d) = Some d ∧ dep_Namespace d = ns ∧
    k ∈ selectorLabelKeys (ds_Selector (dep_Spec d));
  index_complete : ∀ ns k s l d, list_deployments ns k s = Ok l →
    stored_deployment s (dep_Key d) = Some d → dep_Namespace d = ns →
    k ∈ selectorLabelKeys (ds_Selector (dep_Spec d)) → d ∈ l
}.

(** ** An instance *)

Record Cluster := mkCluster {
  cl_deployments : gmap NamespacedName DeviceProcessDeployment;
  cl_processes : gmap NamespacedName DeviceProcess;
  cl_switches : list ObjectMeta
}.

Definition set_processes (m : gmap NamespacedName DeviceProcess) (c : Cluster) : Cluster :=
  mkCluster (cl_deployments c) m (cl_switches c).

Definition lookup_or {A} (m : gmap NamespacedName A) (k : NamespacedName) : result ApiError A :=
  match m !! k with Some a => Ok a | None => Err (mkApiError NotFound "not found") end.

(** The defaults of config/crd/bases/azure.com_deviceprocesses.yaml. *)
Definition default_health (h : DeviceProcessHealthCheck) : DeviceProcessHealthCheck :=
  mkHealthCheck (hc_Exec_Command h) (default_number 30 (hc_PeriodSeconds h)) (default_number 5 (hc_TimeoutSeconds h))
    (default_number 1 (hc_SuccessThreshold h)) (default_number 3 (hc_FailureThreshold h)).
Definition default_spec (s : DeviceProcessSpec) : DeviceProcessSpec :=
  mkSpec (sp_DeviceRef s) (sp_Artifact s) (sp_Execution s)
    (default_string DeviceProcessRestartPolicyAlways (sp_RestartPolicy s)) (default_health <$> sp_HealthCheck s).

(** The object an apply or update leaves: the labels and annotations are merged
    and the owners added, the status is not written through. *)
Definition written (old : option DeviceProcess) (p : DeviceProcess) : DeviceProcess :=
  match old with
  | Some q =>
      mkDeviceProcess
        (mkObjectMeta (dp_Name p) (dp_Namespace p) (om_UID (dp_Meta q))
           (bump (om_ResourceVersion (dp_Meta q))) (om_Generation (dp_Meta q) + 1)
           (om_Labels (dp_Meta p) ∪ om_Labels (dp_Meta q))
           (om_Annotations (dp_Meta p) ∪ om_Annotations (dp_Meta q))
           (om_OwnerReferences (dp_Meta p) ++
            filter (λ r, r ∉ om_OwnerReferences (dp_Meta p)) (om_OwnerReferences (dp_Meta q))))
        (default_spec (dp_Spec p)) (dp_Status q)
  | None =>
      mkDeviceProcess
        (mkObjectMeta (dp_Name p) (dp_Namespace p) "uid" "1" 1 (om_Labels (dp_Meta p))
           (om_Annotations (dp_Meta p)) (om_OwnerReferences (dp_Meta p)))
        (default_spec (dp_Spec p)) empty_status
  end.

Definition put_process (p : DeviceProcess) (c : Cluster) : Cluster :=
  set_processes (<[dp_Key p := written (cl_processes c !! dp_Key p) p]> (cl_processes c)) c.

#[export] Instance cluster_client : @ControllerClient Cluster plain_selectors := {|
  get_deployment k c := lookup_or (cl_deployments c) k;
  get_device_process k c :=
    match cl_processes c !! k with
    | Some p => if decide (dp_Key p = k) then Ok p else Err (mkApiError OtherReason "corrupt")
    | None => Err (mkApiError NotFound "not found")
    end;
  list_switches ns sel c :=
    Ok (filter (λ m, om_Namespace m = ns ∧ @Matches plain_selectors sel (om_Labels m) = true)
          (cl_switches c));
  list_deployments ns k c :=
    Ok (filter (λ d, (cl_deployments c !! dep_Key d = Some d ∧ dep_Namespace d = ns) ∧
                     k ∈ selectorLabelKeys (ds_Selector (dep_Spec d)))
          (map_to_list (cl_deployments c)).*2);
  list_processes ns name c :=
    Ok (filter (λ p, dp_Namespace p = ns ∧
                 om_Labels (dp_Meta p) !! deviceProcessDeploymentKey = Some name)
          (map_to_list (cl_processes c)).*2);
  apply_process p c := (Ok tt, put_process p c);
  create_process p c :=
    match cl_processes c !! dp_Key p with
    | Some _ => (Err (mkApiError AlreadyExists "already exists"), c)
    | None => (Ok (written None p), put_process p c)
    end;
  update_process p c := (Ok tt, put_process p c);
  delete_process p c := (Ok tt, set_processes (delete (dp_Key p) (cl_processes c)) c);
  patch_deployment_status b a c :=
    match cl_deployments c !! dep_Key b with
    | None => (Err (mkApiError NotFound "not found"), c)
    | Some d =>
        (Ok tt, mkCluster
           (<[dep_Key b := mkDeployment (dep_Meta d) (dep_Spec d)
                (merge_deployment_status (dep_Status b) (dep_Status a) (dep_Status d))]>
              (cl_deployments c)) (cl_processes c) (cl_switches c))
    end
|}.

Lemma default_spec_sets s : json_sets (json_Spec s) (json_Spec (default_spec s)).
Proof.
  unfold json_Spec. apply json_sets_fields; [done|]. cbn [default_spec sp_RestartPolicy sp_HealthCheck].
  apply json_sets_fields; [apply json_sets_omit_string|]. destruct (sp_HealthCheck s) as [h|]; [|done].
  cbn [fmap option_fmap option_map]. apply json_sets_object, Forall_singleton.
  exists (json_HealthCheck (default_health h)). split; [set_solver|].
  unfold json_HealthCheck. apply json_sets_fields; [done|].
  repeat (apply json_sets_fields; [apply json_sets_omit_number|]). apply json_sets_omit_number.
Qed.

Lemma has_written_written old p : has_written (written old p) p.
Proof.
  destruct old; split; simpl; try apply default_spec_sets; try apply map_union_subseteq_l; try done; set_solver.
Qed.

Lemma put_process_found p c :
  ∃ q, cl_processes (put_process p c) !! dp_Key p = Some q ∧ has_written q p.
Proof. eexists. simpl. rewrite lookup_insert_eq. split; [done|apply has_written_written]. Qed.

Lemma put_process_frame p c k :
  k ≠ dp_Key p → cl_processes (put_process p c) !! k = cl_processes c !! k.
Proof. intros Hk. simpl. by rewrite lookup_insert_ne. Qed.

#[export] Program Instance cluster_laws : @ControllerClientLaws Cluster plain_selectors _ := {|
  stored_process c k := cl_processes c !! k;
  stored_deployment c k := cl_deployments c !! k
|}.
Next Obligation. simpl. intros k s p. repeat case_match; naive_solver. Qed.
Next Obligation. simpl. intros p s s' [= <-]. apply put_process_found. Qed.
Next Obligation.
  simpl. intros p p' s s'. destruct (cl_processes s !! dp_Key p) eqn:E; [done|].
  intros [= <- <-]. split; [done|]. split; [apply (has_written_written None)|].
  simpl. by rewrite lookup_insert_eq, E.
Qed.
Next Obligation. simpl. intros p s s' [= <-]. apply put_process_found. Qed.
Next Obligation. simpl. intros. by apply put_process_frame. Qed.
Next Obligation.
  simpl. intros p s k Hk. destruct (cl_processes s !! dp_Key p); [done|]. by apply put_process_frame.
Qed.
Next Obligation. simpl. intros. by apply put_process_frame. Qed.
Next Obligation. simpl. intros. by rewrite lookup_delete_ne. Qed.
Next Obligation. simpl. intros. by destruct (cl_deployments s !! dep_Key b). Qed.
Next Obligation.
  simpl. intros b a s s' d. destruct (cl_deployments s !! dep_Key b); [|done].
  intros [= <-] [= ->]. eexists. simpl. by rewrite lookup_insert_eq.
Qed.
Next Obligation.
  simpl. intros ns k s l d [= <-] Hd. by apply list_elem_of_filter in Hd as [[[Hd Hns] Hk] _].
Qed.
Next Obligation.
  simpl. intros ns k s l d [= <-] Hd Hns Hk. apply list_elem_of_filter. split; [done|].
  apply list_elem_of_fmap. exists (dep_Key d, d). split; [done|]. by apply elem_of_map_to_list.
Qed.
