(* ===== verification/Controller.v ===== *)
(** * The deployment reconciler
    (controller/reconcilers/deviceprocessdeployment_controller.go)

    [Reconcile] and its helpers as computations over the API server; the
    controller keeps no state of its own.  [updateStatus] copies the status
    struct, which shares the conditions slice with the original: the sharing is
    modelled by [Aliased]. *)

From S2P Require Import Prelude GoStrings GoTime GoCrypto Api Conditions SpecHash Kube.
From S2P Require Import ControllerApi ControllerBuild.

#[local] Open Scope go_scope.

(** What the reconciler does outside. *)
Inductive ControllerCall :=
  | CallApply (p : DeviceProcess)
  | CallCreate (p : DeviceProcess)
  | CallUpdate (p : DeviceProcess)
  | CallDelete (p : DeviceProcess)
  | CallStatus (before after : DeviceProcessDeployment)
  | CallRecord (object : DeviceProcessDeployment) (eventtype reason message : string).

(** The errors of [listNetworkSwitches]. *)
Inductive SwitchError :=
  | NetworkSwitchUnavailable
  | ListFailed (e : ApiError).

(** [ctrl.Result]. *)
Record Result := mkResult { RequeueAfter : Z }.

Definition isApplyNotSupported (e : ApiError) : bool :=
  Contains (err_Message e) "apply patches are not supported".

(** ** Slices of conditions that share an array

    [status := deployment.Status] copies the slice header: [al_cur] is the
    copy's view, [al_old] the original's, and they share one array until an
    append outgrows its capacity. *)
Record Aliased := mkAliased {
  al_old : list Condition;
  al_cur : list Condition;
  al_shared : bool
}.

Definition alias (cs : list Condition) : Aliased := mkAliased cs cs true.

(** [cond.SetCondition(&status.Conditions, c)] when the array has room for
    [cap] conditions: an update in place shows through the other view, an append
    does not, and one beyond the capacity moves the copy to a new array. *)
Definition set_aliased (cap : nat) (now : Z) (c : Condition) (a : Aliased) : Aliased :=
  let cur := SetCondition now (al_cur a) c in
  let fits := match FindCondition (al_cur a) (c_Type c) with
              | Some _ => true
              | None => (length (al_cur a) <? cap)%nat
              end in
  mkAliased
    (if al_shared a then take (length (al_old a)) cur else al_old a)
    cur (al_shared a && fits).

(** ** Counting *)

Definition count_int32 {A} (f : A → bool) (l : list A) : Z :=
  foldl (λ n x, if f x then int32 (n + 1) else n) 0 l.

Section controller.
Context {S : Type} `{Validation} `{Unicode} `{OwnerReferences} `{ControllerClient S} `{SortSlice}.

Abbreviation CT := (M unit S ControllerCall).

(** ** Creating and updating *)

Definition apply (p : DeviceProcess) : CT (result ApiError unit) :=
  call (CallApply p) (apply_process p).

Definition create (p : DeviceProcess) : CT (result ApiError DeviceProcess) :=
  call (CallCreate p) (create_process p).

Definition clear_ResourceVersion (p : DeviceProcess) : DeviceProcess :=
  mkDeviceProcess (set_ResourceVersion "" (dp_Meta p)) (dp_Spec p) (dp_Status p).

(** The update of an existing object from the desired one. *)
Definition merge_desired (current desired : DeviceProcess) : DeviceProcess :=
  let m := dp_Meta current in
  mkDeviceProcess
    (mkObjectMeta (om_Name m) (om_Namespace m) (om_UID m) (om_ResourceVersion m) (om_Generation m)
       (mergeStringMaps (om_Labels m) (om_Labels (dp_Meta desired)))
       (mergeStringMaps (om_Annotations m) (om_Annotations (dp_Meta desired)))
       (om_OwnerReferences (dp_Meta desired)))
    (dp_Spec desired) (dp_Status current).

Definition update_existing (desired : DeviceProcess) (created : bool) : CT (result ApiError bool) :=
  g <- ask (get_device_process (dp_Key desired)) ;;
  match g with
  | Err e => ret (Err e)
  | Ok current =>
      let merged := merge_desired current desired in
      u <- call (CallUpdate merged) (update_process merged) ;;
      match u with Err e => ret (Err e) | Ok _ => ret (Ok created) end
  end.

Definition upsertWithoutSSA (desired : DeviceProcess) (created : bool) : CT (result ApiError bool) :=
  let desired := clear_ResourceVersion desired in
  if created then
    c <- create desired ;;
    match c with
    | Err e => if IsAlreadyExists e then update_existing desired false else ret (Err e)
    | Ok _ => ret (Ok created)
    end
  else update_existing desired created.

Definition applyDeviceProcess (deployment : DeviceProcessDeployment) (device : ObjectMeta)
    (name : string) : CT (result ApiError bool) :=
  g <- ask (get_device_process (dep_Namespace deployment, name)) ;;
  match (match g with Ok _ => Ok false | Err e => if IsNotFound e then Ok true else Err e end) with
  | Err e => ret (Err e)
  | Ok created =>
      let desired := clear_ResourceVersion (buildDesiredDeviceProcess deployment device name) in
      match SetControllerReference deployment desired with
      | Err e => ret (Err e)
      | Ok desired =>
          r <- apply desired ;;
          match r with
          | Ok _ => ret (Ok created)
          | Err e =>
              if isApplyNotSupported e then upsertWithoutSSA desired created
              else if IsNotFound e then
                c <- create desired ;;
                match (match c with
                       | Ok stored => Ok stored
                       | Err e => if IsAlreadyExists e then Ok desired else Err e
                       end) with
                | Err e => ret (Err e)
                | Ok desired =>
                    r <- apply desired ;;
                    match r with
                    | Ok _ => ret (Ok true)
                    | Err e => if isApplyNotSupported e then upsertWithoutSSA desired true
                               else ret (Err e)
                    end
                end
              else ret (Err e)
          end
      end
  end.

(** ** Deleting *)

(** Whether [cleanupStale] deletes a listed process. *)
Definition is_stale_process (deployment : DeviceProcessDeployment) (desired : gset string)
    (process : DeviceProcess) : bool :=
  negb (bool_decide (dp_Name process ∈ desired)) &&
  match om_Labels (dp_Meta process) !! deviceProcessDeploymentUIDKey with
  | Some uid => String.eqb uid (dep_UID deployment)
  | None => true
  end &&
  IsControlledBy process deployment.

(** The loop of [cleanupStale]; it stops at the first error that is not
    NotFound, with the number deleted so far. *)
Fixpoint cleanup_loop (deployment : DeviceProcessDeployment) (desired : gset string)
    (processes : list DeviceProcess) (deleted : Z) : CT (result ApiError Z) :=
  match processes with
  | [] => ret (Ok deleted)
  | process :: rest =>
      if is_stale_process deployment desired process then
        d <- call (CallDelete process) (delete_process process) ;;
        match d with
        | Err e => if IsNotFound e then cleanup_loop deployment desired rest deleted else ret (Err e)
        | Ok _ => cleanup_loop deployment desired rest (deleted + 1)
        end
      else cleanup_loop deployment desired rest deleted
  end.

Definition cleanupStale (deployment : DeviceProcessDeployment) (desired : gset string)
    : CT (result ApiError Z) :=
  l <- ask (list_processes (dep_Namespace deployment) (dep_Name deployment)) ;;
  match l with
  | Err e => ret (Err e)
  | Ok processes => cleanup_loop deployment desired processes 0
  end.

(** ** The deployment's status *)

Definition desired_hashes (deployment : DeviceProcessDeployment) (devices : list ObjectMeta)
    : gmap string string :=
  foldl (λ m device,
      let name := deviceProcessName (dep_Name deployment) (om_Name device) in
      <[name := hashDeviceProcessSpec (dp_Spec (buildDesiredDeviceProcess deployment device name))]> m)
    ∅ devices.

Definition is_updated (hashes : gmap string string) (proc : DeviceProcess) : bool :=
  let desiredHash := default "" (hashes !! dp_Name proc) in
  negb (String.eqb desiredHash "") &&
  String.eqb (st_ObservedSpecHash (dp_Status proc)) desiredHash.

(** The counts of a rollout. *)
Record Rollout := mkRollout {
  ro_desired : Z; ro_current : Z; ro_updated : Z; ro_ready : Z; ro_available : Z
}.

Definition rollout (deployment : DeviceProcessDeployment) (devices : list ObjectMeta)
    (processes : list DeviceProcess) : Rollout :=
  let hashes := desired_hashes deployment devices in
  mkRollout (int32 (Z.of_nat (length devices))) (int32 (Z.of_nat (length processes)))
    (count_int32 (is_updated hashes) processes)
    (count_int32 isProcessReady processes) (count_int32 isProcessReady processes).

Definition ro_unavailable (ro : Rollout) : Z :=
  let unavailable := int32 (ro_desired ro - ro_available ro) in
  if unavailable <? 0 then 0 else unavailable.

Definition counts_text (available desired : Z) : string :=
  pretty available +:+ "/" +:+ pretty desired +:+ " available".
Definition updating_text (updated available desired : Z) : string :=
  "updated=" +:+ pretty updated +:+ " available=" +:+ pretty available +:+
  " desired=" +:+ pretty desired.

Definition mk (ty status reason message : string) : Condition :=
  mkCondition ty status 0 0 reason message.

(** The two conditions, in the order they are set. *)
Definition rollout_conditions (ro : Rollout) : Condition * Condition :=
  let '(desired, updated, available) := (ro_desired ro, ro_updated ro, ro_available ro) in
  if desired =? 0 then
    (mk ConditionAvailable ConditionFalse "NoTargets" "no devices matched selector",
     mk ConditionProgressing ConditionFalse "NoTargets" "no devices matched selector")
  else
    (if available =? desired
     then mk ConditionAvailable ConditionTrue "AllAvailable" "all device processes are available"
     else mk ConditionAvailable ConditionFalse "NotEnoughAvailable" (counts_text available desired),
     if (updated <? desired) || (available <? desired)
     then mk ConditionProgressing ConditionTrue "Updating" (updating_text updated available desired)
     else mk ConditionProgressing ConditionFalse "Updated" "all device processes updated").

(** The new status, and the old one as the writes to the shared array leave
    it. *)
Definition rollout_status (cap : nat) (now : nat → Z) (generation : Z) (ro : Rollout)
    (old : DeviceProcessDeploymentStatus)
    : DeviceProcessDeploymentStatus * DeviceProcessDeploymentStatus :=
  let '(available, progressing) := rollout_conditions ro in
  let a := set_aliased cap (now 1%nat) progressing
             (set_aliased cap (now 0%nat) available (alias (dst_Conditions old))) in
  (mkDeploymentStatus (dst_ObservedGeneration old) (dst_DesiredNumberScheduled old)
     (dst_CurrentNumberScheduled old) (dst_UpdatedNumberScheduled old) (dst_NumberReady old)
     (dst_NumberAvailable old) (dst_NumberUnavailable old) (al_old a),
   mkDeploymentStatus generation (ro_desired ro) (ro_current ro) (ro_updated ro) (ro_ready ro)
     (ro_available ro) (ro_unavailable ro) (al_cur a)).

Definition set_dep_Status (st : DeviceProcessDeploymentStatus) (d : DeviceProcessDeployment)
    : DeviceProcessDeployment := mkDeployment (dep_Meta d) (dep_Spec d) st.

(** [cap] is the capacity of the array the client decoded the conditions
    into. *)
Definition updateStatus (cap : nat) (deployment : DeviceProcessDeployment)
    (devices : list ObjectMeta) : CT (result ApiError unit) :=
  l <- ask (list_processes (dep_Namespace deployment) (dep_Name deployment)) ;;
  match l with
  | Err e => ret (Err e)
  | Ok processes =>
      now <- time_window 2 ;;
      let '(old, status) := rollout_status cap now (om_Generation (dep_Meta deployment))
                              (rollout deployment devices processes) (dep_Status deployment) in
      if bool_decide (old = status) then ret (Ok tt)
      else
        let before := set_dep_Status old deployment in
        let after := set_dep_Status status deployment in
        call (CallStatus before after) (patch_deployment_status before after)
  end.

(** ** Reconcile *)

Definition listNetworkSwitches (namespace : string) (selector : Selector)
    : CT (result SwitchError (list ObjectMeta)) :=
  l <- ask (list_switches namespace selector) ;;
  ret (match l with
       | Ok items => Ok items
       | Err e => if bool_decide (err_Reason e = NoKindMatch) then Err NetworkSwitchUnavailable
                  else Err (ListFailed e)
       end).

Definition record (d : DeviceProcessDeployment) (ty reason msg : string) : CT unit :=
  emit (CallRecord d ty reason msg).

(** The loop over the devices: the names, and how many were created. *)
Fixpoint apply_loop (deployment : DeviceProcessDeployment) (devices : list ObjectMeta)
    (desiredNames : gset string) (createdCount : Z) : CT (result ApiError (gset string * Z)) :=
  match devices with
  | [] => ret (Ok (desiredNames, createdCount))
  | device :: rest =>
      let name := deviceProcessName (dep_Name deployment) (om_Name device) in
      r <- applyDeviceProcess deployment device name ;;
      match r with
      | Err e => ret (Err e)
      | Ok created =>
          apply_loop deployment rest ({[ name ]} ∪ desiredNames)
            (if created then createdCount + 1 else createdCount)
      end
  end.

Definition record_count (n : Z) (deployment : DeviceProcessDeployment) (reason before after : string)
    : CT unit :=
  if 0 <? n then record deployment "Normal" reason (before +:+ pretty n +:+ after) else ret tt.

(** From the list of matching devices on. *)
Definition reconcile_devices (cap : nat) (deployment : DeviceProcessDeployment)
    (devices : list ObjectMeta) : CT (result ApiError Result) :=
  a <- apply_loop deployment devices ∅ 0 ;;
  match a with
  | Err e => ret (Err e)
  | Ok (desiredNames, createdCount) =>
      d <- cleanupStale deployment desiredNames ;;
      match d with
      | Err e => ret (Err e)
      | Ok deletedCount =>
          record_count createdCount deployment "CreatedDeviceProcess" "Created "
            " DeviceProcess object(s)" ;;;
          record_count deletedCount deployment "DeletedDeviceProcess" "Deleted "
            " stale DeviceProcess object(s)" ;;;
          u <- updateStatus cap deployment devices ;;
          match u with Err e => ret (Err e) | Ok _ => ret (Ok (mkResult 0)) end
      end
  end.

Definition Reconcile (cap : nat) (req : NamespacedName) : CT (result ApiError Result) :=
  g <- ask (get_deployment req) ;;
  match g with
  | Err e => if IsNotFound e then ret (Ok (mkResult 0)) else ret (Err e)
  | Ok deployment =>
      match LabelSelectorAsSelector (ds_Selector (dep_Spec deployment)) with
      | Err e => ret (Err e)
      | Ok selector =>
          if hasUnsupportedSelector (ds_Selector (dep_Spec deployment)) then
            record deployment "Warning" "UnsupportedSelector"
              "selector uses NotIn/DoesNotExist; reconcile skipped" ;;;
            ret (Ok (mkResult 0))
          else
            l <- listNetworkSwitches (dep_Namespace deployment) selector ;;
            match l with
            | Err NetworkSwitchUnavailable => ret (Ok (mkResult Minute))
            | Err (ListFailed e) => ret (Err e)
            | Ok devices => reconcile_devices cap deployment devices
            end
      end
  end.

End controller.
