(* ===== verification/ControllerMain.v ===== *)
(** * The controller program (controller/main.go, SetupWithManager)

    The command line names two addresses; the manager gets the index of
    deployments by the labels of their selectors, the reconciler with its watches
    and the probes before it is started. *)

From S2P Require Import Prelude GoStrings GoStrconv GoFlag Api Kube Manager.
From S2P Require Import ControllerApi ControllerBuild.

Definition controller_flags : gmap string FlagKind :=
  list_to_map [("metrics-bind-address", FString); ("health-probe-bind-address", FString)].

Definition controller_defaults : Values :=
  list_to_map [("metrics-bind-address", VString ":8080"); ("health-probe-bind-address", VString ":8081")].

Definition selectorKeysIndex : string := "selectorKeys".

(** The index function of [SetupWithManager]. *)
Definition selector_index_keys (dep : DeviceProcessDeployment) : list string :=
  elements (selectorLabelKeys (ds_Selector (dep_Spec dep))).

(** [SetupWithManager]: the index, then the controller with its watches. *)
Definition SetupWithManager : list ManagerCall :=
  [CallIndexField "DeviceProcessDeployment" selectorKeysIndex; CallComplete "DeviceProcessDeployment"].

Definition controller_startup (metricsAddr probeAddr : string) : list ManagerCall :=
  [CallGetConfig; CallNewManager metricsAddr probeAddr] ++ SetupWithManager ++
  [CallAddHealthzCheck "healthz"; CallAddReadyzCheck "readyz"; CallStart].

(** The exit status of the program. *)
Definition controller_main {S} `{Manager S} (libs : gmap string FlagKind) (args : list string)
    : M unit S ManagerCall Z :=
  match parse_flags (controller_flags ∪ libs) args controller_defaults with
  | Err e => ret (flag_exit e)
  | Ok (v, _) =>
      must (controller_startup (string_flag v "metrics-bind-address")
              (string_flag v "health-probe-bind-address"))
  end.

(** The controller is started ready or not at all: it goes through its setup as
    long as the manager answers without an error, and the manager is only started
    when the index, the reconciler and the probes were accepted before. *)
Theorem controller_program_starts {S} `{Manager S} libs args (w : World unit S ManagerCall) :
  let out := controller_main libs args w in
  match parse_flags (controller_flags ∪ libs) args controller_defaults with
  | Err e => out = (flag_exit e, w)
  | Ok (v, _) =>
      let l := controller_startup (string_flag v "metrics-bind-address")
                 (string_flag v "health-probe-bind-address") in
      let n := accepted l (env w) in
      ∃ calls, trace out.2 = trace w ++ calls ∧ calls = take (Datatypes.S n) l ∧
        out.1 = (if decide (n = length l) then 0 else 1) ∧
        (CallStart ∈ calls → SetupWithManager ++ [CallAddHealthzCheck "healthz"; CallAddReadyzCheck "readyz"] ⊆ take n l)
  end.
Proof.
  unfold controller_main. destruct (parse_flags _ _ _) as [[v rest]|e]; [|done]. cbv zeta.
  set (l := controller_startup _ _). destruct (must_calls l w) as [Ht Hr]. eexists.
  split_all; [exact Ht|done|exact Hr|].
  pose proof (accepted_le l (env w)) as Hn. revert Hn.
  generalize (accepted l (env w)). unfold l, controller_startup, SetupWithManager. cbn [length app]. intros n Hn.
  do 8 (destruct n as [|n]; [cbn [take]; set_solver|]). lia.
Qed.

(** The labels of a switch find a deployment through the index: a switch that a
    supported selector selects has one of its keys as a label, or the selector is
    filed under the key of all. *)
Lemma selected_switch_is_indexed dep labels :
  hasUnsupportedSelector (ds_Selector (dep_Spec dep)) = false →
  selects (ds_Selector (dep_Spec dep)) labels = true →
  selector_index_keys dep ≠ [] ∧
  ∀ k, k ∈ selector_index_keys dep → k = allSelectorIndexKey ∨ k ∈ dom labels.
Proof.
  intros Hu Hs. split.
  - unfold selector_index_keys. intros E.
    assert (selectorLabelKeys (ds_Selector (dep_Spec dep)) ≡ ∅) as He by (by apply elements_empty_inv).
    revert He. unfold selectorLabelKeys. case_match; set_solver.
  - intros k Hk. unfold selector_index_keys in Hk. apply elem_of_elements in Hk. by eapply selects_keys.
Qed.
