(* ===== verification/ControllerProps.v ===== *)
(** * What the reconciler guarantees

    The footprint of [Reconcile], its convergence over any client with the laws
    of [Cluster], the counts of a rollout, and what becomes of the deployment's
    conditions. *)

From S2P Require Import Prelude GoStrings GoTime Api Conditions SpecHash Kube Samples.
From S2P Require Import ControllerApi ControllerBuild Cluster Controller.

(** ** The footprint *)

(** What the reconciler wants stored for a device. *)
Definition device_desired `{Validation} `{Unicode} (d : DeviceProcessDeployment) (device : ObjectMeta)
    : DeviceProcess :=
  buildDesiredDeviceProcess d device (deviceProcessName (dep_Name d) (om_Name device)).

(** The process of one of the devices. *)
Definition named_by `{Validation} `{Unicode} (d : DeviceProcessDeployment) (devices : list ObjectMeta)
    (p : DeviceProcess) : Prop :=
  ∃ device, device ∈ devices ∧ dp_Key p = dp_Key (device_desired d device).

(** The names of their processes. *)
Definition desired_names `{Validation} `{Unicode} (d : DeviceProcessDeployment) (devices : list ObjectMeta)
    : gset string := list_to_set (dp_Name ∘ device_desired d <$> devices).

(** The listed processes [cleanupStale] is meant to delete. *)
Definition stale `{OwnerReferences} (d : DeviceProcessDeployment) (names : gset string)
    (p : DeviceProcess) : Prop :=
  dp_Name p ∉ names ∧
  (om_Labels (dp_Meta p) !! deviceProcessDeploymentUIDKey = None ∨
   om_Labels (dp_Meta p) !! deviceProcessDeploymentUIDKey = Some (dep_UID d)) ∧
  IsControlledBy p d = true.

#[export] Instance stale_dec `{OwnerReferences} d names p : Decision (stale d names p).
Proof. unfold stale. apply _. Defined.

Lemma is_stale_process_spec `{OwnerReferences} d names p :
  is_stale_process d names p = true ↔ stale d names p.
Proof.
  unfold is_stale_process, stale. rewrite !andb_true_iff, negb_true_iff, bool_decide_eq_false.
  destruct (om_Labels (dp_Meta p) !! deviceProcessDeploymentUIDKey); rewrite ?String.eqb_eq; naive_solver.
Qed.

(** The calls a reconcile of [d] that matched [devices] may make. *)
Definition call_of `{Validation} `{Unicode} `{OwnerReferences} (d : DeviceProcessDeployment)
    (devices : list ObjectMeta) (c : ControllerCall) : Prop :=
  match c with
  | CallApply p | CallCreate p | CallUpdate p => named_by d devices p
  | CallDelete p => stale d (desired_names d devices) p
  | CallStatus b a =>
      dep_Meta b = dep_Meta d ∧ dep_Meta a = dep_Meta d ∧ dep_Spec b = dep_Spec d ∧ dep_Spec a = dep_Spec d
  | CallRecord o _ _ _ => o = d
  end.

(** What a whole reconcile writes, by what it reads first: nothing without the
    deployment, a valid selector or the list of switches, and only a warning for a
    selector that is not supported. *)
Definition footprint {S} `{Validation} `{Unicode} `{OwnerReferences} `{ControllerClient S}
    (req : NamespacedName) (s : S) (new : list ControllerCall) : Prop :=
  match get_deployment req s with
  | Err _ => new = []
  | Ok d =>
      match LabelSelectorAsSelector (ds_Selector (dep_Spec d)) with
      | Err _ => new = []
      | Ok selector =>
          if hasUnsupportedSelector (ds_Selector (dep_Spec d)) then
            new = [CallRecord d "Warning" "UnsupportedSelector"
                     "selector uses NotIn/DoesNotExist; reconcile skipped"]
          else
            match list_switches (dep_Namespace d) selector s with
            | Err _ => new = []
            | Ok devices => Forall (call_of d devices) new
            end
      end
  end.

Section footprint.
Context {S : Type} `{Validation} `{Unicode} `{OwnerReferences} `{ControllerClientLaws S}.
Context (d : DeviceProcessDeployment) (devices : list ObjectMeta).

Lemma named_same_key p q : named_by d devices p → dp_Key q = dp_Key p → named_by d devices q.
Proof. intros (dev & Hin & Hd) Hk. exists dev. by rewrite Hk. Qed.

Lemma emits_update_existing p created :
  named_by d devices p → emits (call_of d devices) (update_existing (S:=S) p created).
Proof.
  intros Hn. unfold update_existing. apply emits_ask_bind. intros s [q|e] Hg; [|apply emits_ret].
  apply get_device_process_key in Hg. apply emits_bind; [|intros ?; by effects]. apply emits_call.
  by apply (named_same_key p).
Qed.

Lemma emits_upsert p created :
  named_by d devices p → emits (call_of d devices) (upsertWithoutSSA (S:=S) p created).
Proof.
  intros Hn. unfold upsertWithoutSSA.
  assert (named_by d devices (clear_ResourceVersion p)) as Hc by done.
  unfold create. cbv zeta. effects; by apply emits_update_existing.
Qed.

Lemma controlled_key p p' :
  SetControllerReference d p = Ok p' → om_OwnerReferences (dp_Meta p) = [] →
  ∃ ref, p' = set_OwnerReferences [ref] p ∧ or_Controller ref = true ∧ or_UID ref = dep_UID d.
Proof. apply SetControllerReference_ok. Qed.

Lemma emits_apply_again p :
  named_by d devices p →
  emits (call_of d devices) (r <- apply p ;;
    match r with
    | Ok _ => ret (Ok true)
    | Err e => if isApplyNotSupported e then upsertWithoutSSA p true else ret (Err e)
    end : M unit S ControllerCall (result ApiError bool))%go.
Proof.
  intros Hn. unfold apply. apply emits_bind; [by apply emits_call|intros r].
  effects. by apply emits_upsert.
Qed.

Lemma emits_applyDeviceProcess device : device ∈ devices →
  emits (call_of d devices) (applyDeviceProcess (S:=S) d device (deviceProcessName (dep_Name d) (om_Name device))).
Proof.
  intros Hdev. unfold applyDeviceProcess. apply emits_bind; [by effects|intros g].
  case_match; [|apply emits_ret]. cbv zeta.
  destruct (SetControllerReference _ _) as [desired|e] eqn:Hs; [|apply emits_ret].
  apply controlled_key in Hs as (ref & -> & _); [|done].
  set (desired := set_OwnerReferences _ _).
  assert (named_by d devices desired) as Hn by (by exists device).
  apply emits_bind; [by apply emits_call|intros r].
  destruct r as [u|e]; [apply emits_ret|].
  destruct (isApplyNotSupported e); [by apply emits_upsert|].
  destruct (IsNotFound e); [|apply emits_ret]. apply emits_call_bind; [done|]. intros s [stored|e'] s' Hc.
  - apply emits_apply_again. apply create_ok in Hc as (Hk' & _). by eapply named_same_key.
  - destruct (IsAlreadyExists e'); [by apply emits_apply_again|apply emits_ret].
Qed.

Lemma emits_apply_loop l names n : l ⊆ devices →
  emits (call_of d devices) (apply_loop (S:=S) d l names n).
Proof.
  revert names n. induction l as [|device l IH]; intros names n Hl; simpl; [by effects|].
  apply emits_bind; [apply emits_applyDeviceProcess; set_solver|intros r]. effects; apply IH; set_solver.
Qed.

(** The names the loop over the devices answers. *)
Lemma apply_loop_names l names n :
  answers (λ r, ∀ names' n', r = Ok (names', n') → names' = desired_names d l ∪ names)
    (apply_loop (S:=S) d l names n).
Proof.
  revert names n. induction l as [|device l IH]; intros names n; simpl.
  { apply answers_ret. intros names' n' [= <- <-]. set_solver. }
  apply answers_bind. intros [created|e]; [|by apply answers_ret].
  eapply answers_impl; [apply IH|]. intros r Hr names' n' E. rewrite (Hr _ _ E). set_solver.
Qed.

Lemma emits_cleanup_loop procs n :
  emits (call_of d devices) (cleanup_loop (S:=S) d (desired_names d devices) procs n).
Proof.
  revert n. induction procs as [|p procs IH]; intros n; simpl; [by effects|].
  destruct (is_stale_process d (desired_names d devices) p) eqn:Hp; [|apply IH].
  apply emits_bind; [apply emits_call; by apply is_stale_process_spec|intros r].
  effects; apply IH.
Qed.

Lemma emits_updateStatus cap : emits (call_of d devices) (updateStatus (S:=S) cap d devices).
Proof.
  unfold updateStatus. effects. apply emits_call. simpl. auto.
Qed.

Lemma emits_reconcile_devices cap :
  emits (call_of d devices) (reconcile_devices (S:=S) cap d devices).
Proof.
  unfold reconcile_devices. eapply emits_bind_post; [by apply emits_apply_loop|apply apply_loop_names|].
  intros [[names n]|e] Hr; [|apply emits_ret]. rewrite (Hr _ _ eq_refl), (right_id_L ∅ (∪)).
  unfold cleanupStale, record_count, record.
  effects; auto using emits_cleanup_loop, emits_updateStatus. all: by apply emits_emit.
Qed.
End footprint.

(** ** Convergence *)

Section convergence.
Context {S : Type} `{Validation} `{Unicode} `{OwnerReferences} `{ControllerClientLaws S}.
Implicit Types w : World unit S ControllerCall.

(** Every process but the one of a key is as before. *)
Definition only_key (k : NamespacedName) (s s' : S) : Prop :=
  ∀ k', k' ≠ k → stored_process s' k' = stored_process s k'.

#[export] Instance only_key_preorder k : PreOrder (only_key k).
Proof. split; [done|]. intros a b c Hab Hbc k' Hk. by rewrite Hbc, Hab. Qed.

Lemma only_key_update_existing p created :
  env_rel (only_key (dp_Key p)) (update_existing (S:=S) p created).
Proof.
  unfold update_existing. apply env_rel_ask_bind. intros s [q|e] Hg; [|by effects].
  apply get_device_process_key in Hg. cbv zeta. effects.
  apply env_rel_call. intros s' k Hk. apply update_frame.
  change (dp_Key (merge_desired q p)) with (dp_Key q). congruence.
Qed.

Lemma only_key_create p : env_rel (only_key (dp_Key p)) (create (S:=S) p).
Proof. apply env_rel_call. intros s k. apply create_frame. Qed.
Lemma only_key_apply p : env_rel (only_key (dp_Key p)) (apply (S:=S) p).
Proof. apply env_rel_call. intros s k. apply apply_frame. Qed.

Lemma only_key_upsert p created :
  env_rel (only_key (dp_Key p)) (upsertWithoutSSA (S:=S) p created).
Proof.
  unfold upsertWithoutSSA. cbv zeta. change (dp_Key p) with (dp_Key (clear_ResourceVersion p)).
  generalize (clear_ResourceVersion p). intros q.
  effects; auto using only_key_create, only_key_update_existing.
Qed.

(** An upsert that succeeds leaves the object written. *)
Definition stored_written (s : S) (p : DeviceProcess) : Prop :=
  ∃ q, stored_process s (dp_Key p) = Some q ∧ has_written q p.

Lemma stored_written_through s p p' :
  dp_Key p' = dp_Key p → has_written p' p → stored_written s p' → stored_written s p.
Proof.
  intros Hk Hw (q & Hq & Hqw). exists q. rewrite <-Hk. split; [exact Hq|]. by etrans.
Qed.
Lemma stored_written_clear s p : stored_written s (clear_ResourceVersion p) → stored_written s p.
Proof. by apply stored_written_through. Qed.

Lemma update_existing_written p created w b :
  (update_existing p created w).1 = Ok b → stored_written (env (update_existing p created w).2) p.
Proof.
  unfold update_existing. rewrite run_ask.
  destruct (get_device_process (dp_Key p) (env w)) as [q|e] eqn:Hg; [|done].
  apply get_device_process_key in Hg. cbv zeta. rewrite run_call.
  destruct (update_process _ _) as [[[]|e] s'] eqn:Hu; [|done]. intros _.
  apply update_ok in Hu as (r & Hr & Hw). exists r.
  change (dp_Key (merge_desired q p)) with (dp_Key q) in Hr. rewrite Hg in Hr.
  split; [exact Hr|]. etrans; [exact Hw|].
  split; [done|apply map_union_subseteq_l|apply map_union_subseteq_l|done].
Qed.

Lemma upsert_written p created w b :
  (upsertWithoutSSA p created w).1 = Ok b → stored_written (env (upsertWithoutSSA p created w).2) p.
Proof.
  intros Hok. apply stored_written_clear. revert Hok. unfold upsertWithoutSSA. cbv zeta.
  destruct created; [|apply update_existing_written].
  unfold create. rewrite run_call.
  destruct (create_process _ _) as [[q|e] s'] eqn:Hc; cbn [fst snd].
  - intros _. apply create_ok in Hc as (_ & Hw & Hq). by exists q.
  - destruct (IsAlreadyExists e); [|done]. apply update_existing_written.
Qed.

Lemma apply_again_written p w b :
  let m := (r <- apply p ;;
    match r with
    | Ok _ => ret (Ok true)
    | Err e => if isApplyNotSupported e then upsertWithoutSSA p true else ret (Err e)
    end)%go in
  (m w).1 = Ok b → stored_written (env (m w).2) p.
Proof.
  cbv zeta. unfold apply. rewrite run_call.
  destruct (apply_process p (env w)) as [[[]|e] s'] eqn:Ha; cbn [fst snd].
  - intros _. by apply apply_ok in Ha.
  - destruct (isApplyNotSupported e); [apply upsert_written|done].
Qed.

(** The process of a device is stored with what was built for it, and the
    deployment is among its owners, as the controller. *)
Definition device_stored (s : S) (d : DeviceProcessDeployment) (device : ObjectMeta) : Prop :=
  ∃ q, stored_process s (dp_Key (device_desired d device)) = Some q ∧
    has_written q (device_desired d device) ∧
    ∃ ref, ref ∈ om_OwnerReferences (dp_Meta q) ∧ or_Controller ref = true ∧ or_UID ref = dep_UID d.

Lemma stored_controlled s d device ref : or_Controller ref = true → or_UID ref = dep_UID d →
  stored_written s (set_OwnerReferences [ref] (clear_ResourceVersion (device_desired d device))) →
  device_stored s d device.
Proof.
  intros Hc Hu (q & Hq & Hw). exists q. split; [exact Hq|]. split.
  - etrans; [exact Hw|]. split; try done. apply list_subseteq_nil.
  - exists ref. split; [|done]. apply (written_owners _ _ Hw), list_elem_of_here.
Qed.

Lemma applyDeviceProcess_written d device w b :
  let m := applyDeviceProcess d device (deviceProcessName (dep_Name d) (om_Name device)) in
  (m w).1 = Ok b → device_stored (env (m w).2) d device.
Proof.
  cbv zeta. unfold applyDeviceProcess. rewrite run_ask.
  case_match; [|done]. cbv zeta.
  destruct (SetControllerReference _ _) as [desired|e] eqn:Hs; [|done].
  apply controlled_key in Hs as (ref & -> & Hc & Hu); [|done]. intros Hok.
  apply (stored_controlled _ _ _ ref Hc Hu). revert Hok.
  change (buildDesiredDeviceProcess _ _ _) with (device_desired d device).
  set (desired := set_OwnerReferences _ _). clear Hc Hu. unfold apply at 1 3. rewrite run_call.
  destruct (apply_process desired (env w)) as [[[]|e] s'] eqn:Ha; cbn [fst snd].
  { intros _. by apply apply_ok in Ha. }
  destruct (isApplyNotSupported e); [apply upsert_written|].
  destruct (IsNotFound e); [|done]. unfold create. rewrite run_call.
  destruct (create_process _ _) as [[q|e'] s''] eqn:Hc; cbn [fst snd].
  - apply create_ok in Hc as (Hqk & Hw & _). intros Hok.
    apply (stored_written_through _ _ q Hqk Hw). by eapply apply_again_written.
  - destruct (IsAlreadyExists e'); [|done]. apply apply_again_written.
Qed.

Lemma only_key_applyDeviceProcess d device :
  env_rel (only_key (dp_Key (device_desired d device)))
    (applyDeviceProcess (S:=S) d device (deviceProcessName (dep_Name d) (om_Name device))).
Proof.
  unfold applyDeviceProcess. effects_step; [by effects|].
  case_match; [|by effects]. cbv zeta.
  destruct (SetControllerReference _ _) as [desired|e] eqn:Hs; [|by effects].
  apply controlled_key in Hs as (ref & -> & _); [|done].
  set (desired := set_OwnerReferences _ _). change (dp_Key (device_desired d device)) with (dp_Key desired).
  effects_step; [apply only_key_apply|].
  match goal with |- env_rel _ (match ?a with _ => _ end) => destruct a as [u|e] end; [by effects|].
  destruct (isApplyNotSupported e); [apply only_key_upsert|].
  destruct (IsNotFound e); [|by effects].
  assert (∀ p, env_rel (only_key (dp_Key p)) (r <- apply (S:=S) p ;;
    match r with
    | Ok _ => ret (Ok true)
    | Err e => if isApplyNotSupported e then upsertWithoutSSA p true else ret (Err e)
    end)%go) as Hagain.
  { intros p. effects; auto using only_key_apply, only_key_upsert. }
  apply env_rel_call_bind; [apply _|intros s k; apply create_frame|].
  intros s [q|e'] s' Hc.
  - apply create_ok in Hc as (Hqk & _). rewrite <-Hqk. apply Hagain.
  - destruct (IsAlreadyExists e'); [apply Hagain|by effects].
Qed.
End convergence.

(** ** The loops of [Reconcile] *)

Section loops.
Context {S : Type} `{Validation} `{Unicode} `{OwnerReferences} `{ControllerClientLaws S}.
Implicit Types w : World unit S ControllerCall.
Context (d : DeviceProcessDeployment).

Definition device_key (device : ObjectMeta) : NamespacedName := dp_Key (device_desired d device).

(** The processes of some keys are as before. *)
Definition keeps_keys (P : NamespacedName → Prop) (s s' : S) : Prop :=
  ∀ k, P k → stored_process s' k = stored_process s k.

#[export] Instance keeps_keys_preorder P : PreOrder (keeps_keys P).
Proof. split; [done|]. intros a b c Hab Hbc k Hk. by rewrite Hbc, Hab. Qed.

Lemma keeps_keys_stored P s s' device :
  keeps_keys P s s' → P (device_key device) → device_stored s d device → device_stored s' d device.
Proof. intros Hk HP (q & Hq & Hw). exists q. by rewrite Hk. Qed.

Lemma apply_loop_keeps devices names n :
  env_rel (keeps_keys (λ k, k ∉ device_key <$> devices)) (apply_loop (S:=S) d devices names n).
Proof.
  revert names n. induction devices as [|device devices IH]; intros names n; simpl; [by effects|].
  effects_step.
  - intros w k Hk. apply only_key_applyDeviceProcess. rewrite not_elem_of_cons in Hk. by destruct Hk.
  - effects. intros w k Hk. apply IH. rewrite not_elem_of_cons in Hk. by destruct Hk.
Qed.

(** A loop that succeeds leaves every device's process written. *)
Lemma apply_loop_written devices names n w names' n' :
  NoDup (device_key <$> devices) →
  (apply_loop d devices names n w).1 = Ok (names', n') →
  Forall (device_stored (env (apply_loop d devices names n w).2) d) devices.
Proof.
  revert names n w. induction devices as [|device devices IH]; intros names n w Hd; simpl; [constructor|].
  unfold bind. rewrite fmap_cons, NoDup_cons in Hd. destruct Hd as [Hn Hd].
  destruct (applyDeviceProcess _ _ _ w) as [[b|e] w'] eqn:E; [|done].
  pose proof (applyDeviceProcess_written d device w b) as Hw. cbv zeta in Hw. rewrite E in Hw.
  specialize (Hw eq_refl). cbn [fst snd] in *.
  intros Hr. constructor; [|by apply IH].
  eapply keeps_keys_stored; [apply apply_loop_keeps|exact Hn|exact Hw].
Qed.

Lemma cleanup_loop_keeps names procs n :
  env_rel (keeps_keys (λ k, k.2 ∈ names)) (cleanup_loop (S:=S) d names procs n).
Proof.
  revert n. induction procs as [|p procs IH]; intros n; simpl; [by effects|].
  destruct (is_stale_process d names p) eqn:Hp; [|apply IH].
  effects; try apply IH. apply env_rel_call. intros s k Hk. apply delete_frame. intros ->.
  unfold is_stale_process in Hp. bool_prop. done.
Qed.

Lemma cleanupStale_keeps names :
  env_rel (keeps_keys (λ k, k.2 ∈ names)) (cleanupStale (S:=S) d names).
Proof. unfold cleanupStale. effects. apply cleanup_loop_keeps. Qed.

Lemma updateStatus_keeps P cap devices :
  env_rel (keeps_keys P) (updateStatus (S:=S) cap d devices).
Proof.
  unfold updateStatus. effects. apply env_rel_call. intros s k _. apply status_frame.
Qed.

Lemma reconcile_devices_converges cap devices w r :
  NoDup (device_key <$> devices) → (reconcile_devices cap d devices w).1 = Ok r →
  Forall (device_stored (env (reconcile_devices cap d devices w).2) d) devices.
Proof.
  intros Hd. unfold reconcile_devices. rewrite (run_step (apply_loop d devices ∅ 0)).
  pose proof (λ names' n', apply_loop_written devices ∅ 0 w names' n' Hd) as Ha.
  pose proof (apply_loop_names (S:=S) d devices ∅ 0 w) as Hn.
  destruct (apply_loop d devices ∅ 0 w) as [[[names n]|e] w1]; cbn [fst snd] in *; [|done].
  specialize (Ha _ _ eq_refl) as Hall. rewrite (Hn _ _ eq_refl), (right_id_L ∅ (∪)). clear Ha Hn. intros _.
  match goal with |- context [env (?m w1).2] =>
    assert (env_rel (keeps_keys (λ k, k.2 ∈ desired_names d devices)) m) as Hk end.
  { unfold record_count, record. effects; auto using cleanupStale_keeps, updateStatus_keeps. }
  apply Forall_forall. intros device Hdev. rewrite Forall_forall in Hall.
  eapply keeps_keys_stored; [apply Hk| |by apply Hall].
  apply elem_of_list_to_set, list_elem_of_fmap. by exists device.
Qed.
End loops.

(** ** Properties *)

(** C9: what a reconcile writes is its own.  Every object it applies, creates
    or updates is the process of one of the switches it matched, in the
    deployment's namespace and under the name built for that switch; every object
    it deletes is controlled by the deployment, carries its UID label or none, and
    is not the process of any of them; the only status it patches and the only
    object it records events about is the deployment.  Without the deployment, a
    valid selector or the list of switches it writes nothing, and for a selector
    that is not supported it only records a warning. *)
Theorem reconcile_footprint {S} `{Validation} `{Unicode} `{OwnerReferences} `{ControllerClientLaws S}
    cap req (w : World unit S ControllerCall) :
  ∃ new, trace (Reconcile cap req w).2 = trace w ++ new ∧ footprint req (env w) new.
Proof.
  unfold Reconcile, footprint. rewrite run_ask.
  assert (trace w = trace w ++ []) as Hnil by (by rewrite app_nil_r).
  destruct (get_deployment req (env w)) as [d|e]; [|exists []; by destruct (IsNotFound e)].
  destruct (LabelSelectorAsSelector _) as [selector|e]; [|by exists []].
  destruct (hasUnsupportedSelector _); [by eexists|].
  unfold listNetworkSwitches. rewrite run_bind, run_ask, run_ret.
  destruct (list_switches _ _ _) as [devices|e]; [apply emits_reconcile_devices|].
  exists []. by case_bool_decide.
Qed.

(** C8: a reconcile converges.  When [Reconcile] succeeds on a deployment whose
    selector is supported, every switch the selector matched has, in the API
    server, its DeviceProcess: with every field of the spec, every label and every
    annotation built for it, and with the deployment as its controller.  Neither
    the writes for the other switches nor the deletion of stale processes nor the
    status patch undoes that, and it holds whichever of the apply, the create and
    the update succeeded.  The names built for the switches are distinct. *)
Theorem reconcile_converges {S} `{Validation} `{Unicode} `{OwnerReferences} `{ControllerClientLaws S}
    cap req (w : World unit S ControllerCall) d selector devices r :
  get_deployment req (env w) = Ok d →
  LabelSelectorAsSelector (ds_Selector (dep_Spec d)) = Ok selector →
  hasUnsupportedSelector (ds_Selector (dep_Spec d)) = false →
  list_switches (dep_Namespace d) selector (env w) = Ok devices →
  NoDup (device_key d <$> devices) →
  (Reconcile cap req w).1 = Ok r →
  Forall (device_stored (env (Reconcile cap req w).2) d) devices.
Proof.
  intros Hg Hs Hu Hl Hd. unfold Reconcile. rewrite run_ask, Hg, Hs, Hu.
  unfold listNetworkSwitches. rewrite run_bind, run_ask, run_ret, Hl.
  by apply reconcile_devices_converges.
Qed.

(** A deployment with an unsupported selector is left alone: one warning is
    recorded and nothing is written. *)
Theorem unsupported_selector_writes_nothing {S} `{Validation} `{Unicode} `{OwnerReferences}
    `{ControllerClient S} cap req (w : World unit S ControllerCall) d :
  get_deployment req (env w) = Ok d →
  is_ok (LabelSelectorAsSelector (ds_Selector (dep_Spec d))) = true →
  hasUnsupportedSelector (ds_Selector (dep_Spec d)) = true →
  Reconcile cap req w =
    (Ok (mkResult 0),
     mkWorld (self w) (env w) (clock w) (tick w)
       (trace w ++ [CallRecord d "Warning" "UnsupportedSelector"
                      "selector uses NotIn/DoesNotExist; reconcile skipped"])).
Proof.
  intros Hg Hs Hu. unfold Reconcile. rewrite run_ask, Hg.
  destruct (LabelSelectorAsSelector _); [|done]. by rewrite Hu.
Qed.

(** ** Counts *)

Lemma count_int32_exact {A} (f : A → bool) l :
  Z.of_nat (length l) ≤ max_int32 → count_int32 f l = Z.of_nat (length (filter (λ x, f x = true) l)).
Proof.
  unfold count_int32. intros Hl.
  assert (∀ n, 0 ≤ n → n + Z.of_nat (length l) ≤ max_int32 →
    foldl (λ n x, if f x then int32 (n + 1) else n) n l =
    n + Z.of_nat (length (filter (λ x, f x = true) l))) as Hg; [|by rewrite Hg].
  clear Hl. induction l as [|x l IH]; intros n Hn Hl; simpl; [lia|]. rewrite filter_cons.
  unfold max_int32 in *. simpl in Hl. destruct (f x) eqn:E; simpl.
  - rewrite int32_id by (unfold max_int32; lia). rewrite IH by lia. lia.
  - rewrite IH by lia. lia.
Qed.

(** The specification of a rollout: plain counts. *)
Definition counts `{Validation} `{Unicode} (d : DeviceProcessDeployment) (devices : list ObjectMeta)
    (processes : list DeviceProcess) : Rollout :=
  let ready := Z.of_nat (length (filter (λ p, isProcessReady p = true) processes)) in
  mkRollout (Z.of_nat (length devices)) (Z.of_nat (length processes))
    (Z.of_nat (length (filter (λ p, is_updated (desired_hashes d devices) p = true) processes)))
    ready ready.

Lemma rollout_counts `{Validation} `{Unicode} d devices processes :
  Z.of_nat (length devices) ≤ max_int32 → Z.of_nat (length processes) ≤ max_int32 →
  rollout d devices processes = counts d devices processes.
Proof.
  intros Hd Hp. unfold rollout, counts, max_int32 in *. cbv zeta.
  rewrite !count_int32_exact by (unfold max_int32; lia).
  rewrite !int32_id by (unfold max_int32; lia). done.
Qed.

(** ** The conditions of a deployment *)

Lemma set_aliased_in_place cap now c a e :
  al_shared a = true → length (al_old a) = length (al_cur a) →
  FindCondition (al_cur a) (c_Type c) = Some e →
  let a' := set_aliased cap now c a in
  al_old a' = al_cur a' ∧ al_shared a' = true ∧
  length (al_cur a') = length (al_cur a) ∧ types (al_cur a') = types (al_cur a).
Proof.
  intros Hs Hl Hf. unfold set_aliased. rewrite Hs, Hf. cbn [al_old al_cur al_shared andb].
  assert (types (SetCondition now (al_cur a) c) = types (al_cur a)) as Ht.
  { rewrite SetCondition_types, decide_True; [apply app_nil_r|].
    apply FindCondition_Some_in in Hf as Hin. apply FindCondition_type in Hf.
    unfold types. apply list_elem_of_fmap. eauto. }
  assert (length (SetCondition now (al_cur a) c) = length (al_cur a)) as Hlen.
  { apply (f_equal length) in Ht. unfold types in Ht. by rewrite !length_fmap in Ht. }
  split_all; [|done|done|done]. by rewrite Hl, <-Hlen, firstn_all.
Qed.

(** When both conditions exist, the two views are the same at the end. *)
Lemma rollout_status_conditions cap now generation ro old :
  is_Some (FindCondition (dst_Conditions old) ConditionAvailable) →
  is_Some (FindCondition (dst_Conditions old) ConditionProgressing) →
  dst_Conditions (rollout_status cap now generation ro old).1 =
  dst_Conditions (rollout_status cap now generation ro old).2.
Proof.
  intros [e1 H1] [e2 H2]. unfold rollout_status.
  destruct (rollout_conditions ro) as [available progressing] eqn:Hro. cbn [fst snd dst_Conditions].
  assert (c_Type available = ConditionAvailable ∧ c_Type progressing = ConditionProgressing) as [Ha Hp].
  { unfold rollout_conditions in Hro. repeat case_match; by simplify_eq. }
  destruct (set_aliased_in_place cap (now 0%nat) available (alias (dst_Conditions old)) e1)
    as (Ho & Hs & Hl & Ht); [done|done|by rewrite Ha|].
  destruct (FindCondition (al_cur (set_aliased cap (now 0%nat) available (alias (dst_Conditions old))))
              ConditionProgressing) as [e|] eqn:Hf.
  - apply (set_aliased_in_place cap (now 1%nat) progressing _ e); [done|by rewrite Ho|by rewrite Hp].
  - apply FindCondition_none in Hf. rewrite Ht in Hf. apply FindCondition_none in Hf.
    cbn [al_cur alias] in Hf. congruence.
Qed.

(** The counts of a rollout are exact: up to 2^31 - 1 devices and
    processes, the 32-bit counters hold the number of matched switches, of the
    deployment's processes, of those that reported the desired spec hash, of the
    ready ones, and of the switches left without an available process. *)
Theorem rollout_counts_exact `{Validation} `{Unicode} d devices processes :
  Z.of_nat (length devices) ≤ max_int32 → Z.of_nat (length processes) ≤ max_int32 →
  let ro := rollout d devices processes in
  ro = counts d devices processes ∧
  ro_unavailable ro = Z.max 0 (Z.of_nat (length devices) -
    Z.of_nat (length (filter (λ p, isProcessReady p = true) processes))) ∧
  0 ≤ ro_updated ro ≤ ro_current ro ∧ 0 ≤ ro_available ro ≤ ro_current ro.
Proof.
  intros Hd Hp ro. unfold ro. rewrite rollout_counts by done. split; [done|].
  unfold counts, ro_unavailable. cbn [ro_desired ro_available ro_updated ro_current].
  pose proof (length_filter (λ p, isProcessReady p = true) processes) as H1.
  pose proof (length_filter (λ p, is_updated (desired_hashes d devices) p = true) processes) as H2.
  unfold max_int32 in *. split_all; try lia.
  rewrite int32_id by (unfold max_int32; lia). case_match; bool_prop; lia.
Qed.

(** C11: a deployment's conditions are written once and never again.  The new
    status shares the array of its conditions with the old one, so once both
    conditions exist the updates reach the base of the merge patch too, and the
    patch carries the counts but not the conditions: after a successful
    [updateStatus] the API server holds the new counts with the conditions of
    before. *)
Theorem deployment_conditions_frozen {S} `{Validation} `{Unicode} `{ControllerClientLaws S}
    cap d devices processes (w w' : World unit S ControllerCall) :
  stored_deployment (env w) (dep_Key d) = Some d →
  list_processes (dep_Namespace d) (dep_Name d) (env w) = Ok processes →
  is_Some (FindCondition (dst_Conditions (dep_Status d)) ConditionAvailable) →
  is_Some (FindCondition (dst_Conditions (dep_Status d)) ConditionProgressing) →
  updateStatus cap d devices w = (Ok tt, w') →
  ∃ d', stored_deployment (env w') (dep_Key d) = Some d' ∧
    dst_NumberAvailable (dep_Status d') = ro_available (rollout d devices processes) ∧
    dst_UpdatedNumberScheduled (dep_Status d') = ro_updated (rollout d devices processes) ∧
    dst_Conditions (dep_Status d') = dst_Conditions (dep_Status d).
Proof.
  intros Hst Hl Ha Hp. unfold updateStatus. rewrite run_ask, Hl, run_time_window.
  set (ro := rollout d devices processes).
  set (now := λ i, clock w (tick w + i)%nat).
  pose proof (rollout_status_conditions cap now (om_Generation (dep_Meta d)) ro (dep_Status d) Ha Hp) as Hc.
  destruct (rollout_status cap now (om_Generation (dep_Meta d)) ro (dep_Status d)) as [old status] eqn:Hr.
  cbn [fst snd] in Hc.
  assert (dst_NumberAvailable old = dst_NumberAvailable (dep_Status d) ∧
          dst_UpdatedNumberScheduled old = dst_UpdatedNumberScheduled (dep_Status d) ∧
          dst_NumberAvailable status = ro_available ro ∧
          dst_UpdatedNumberScheduled status = ro_updated ro) as (Hoa & Hou & Hsa & Hsu).
  { unfold rollout_status in Hr. destruct (rollout_conditions ro). by simplify_eq/=. }
  assert (∀ (x y : Z), (if decide (x = y) then x else y) = y) as Hif by (intros; by case_decide).
  case_bool_decide as Heq.
  - intros [= <-]. exists d. cbn [env]. split; [exact Hst|]. subst status.
    by rewrite <-Hoa, <-Hou, Hsa, Hsu.
  - unfold call. cbn [env].
    destruct (patch_deployment_status _ _ _) as [r s'] eqn:Hpatch. intros [= -> <-].
    destruct (status_ok _ _ _ _ d Hpatch Hst) as (d' & Hd' & Hm).
    exists d'. split; [exact Hd'|]. rewrite Hm. unfold merge_deployment_status, merge_field, set_dep_Status.
    cbn [dst_NumberAvailable dst_UpdatedNumberScheduled dst_Conditions dep_Status].
    rewrite Hoa, Hou, Hsa, Hsu, !Hif. split_all; [done|done|]. by rewrite decide_True.
Qed.

(** The cleanup deletes exactly the stale processes.  When it succeeds, the
    calls it made are one delete for each listed process that is not desired,
    carries the deployment's UID label or none, and is controlled by the
    deployment, in the order of the list. *)
Theorem cleanup_deletes_exactly_stale {S} `{OwnerReferences} `{ControllerClient S} d names
    (w : World unit S ControllerCall) processes n :
  list_processes (dep_Namespace d) (dep_Name d) (env w) = Ok processes →
  (cleanupStale d names w).1 = Ok n →
  trace (cleanupStale d names w).2 =
    trace w ++ (CallDelete <$> filter (stale d names) processes).
Proof.
  rewrite (list_filter_iff _ (λ p, is_stale_process d names p = true))
    by (intros; by rewrite is_stale_process_spec).
  intros Hl. unfold cleanupStale. rewrite run_ask, Hl. clear Hl. generalize 0.
  revert w. induction processes as [|p processes IH]; intros w m; simpl; [by rewrite app_nil_r|].
  rewrite filter_cons. destruct (is_stale_process d names p); simpl; [|apply IH].
  rewrite run_call. destruct (delete_process p (env w)) as [[u|e] s'] eqn:E; cbn [fst snd].
  - intros Hok. rewrite (IH _ _ Hok). cbn [trace]. by rewrite <-app_assoc.
  - destruct (IsNotFound e); [|done]. intros Hok. rewrite (IH _ _ Hok). cbn [trace].
    by rewrite <-app_assoc.
Qed.
