(* ===== verification/ControllerWatch.v ===== *)
(** * Which deployments a switch event reconciles
    (controller/reconcilers/deviceprocessdeployment_controller.go)

    The handlers of NetworkSwitch events and the functions they use.  A switch
    is its metadata; [None] is a nil object. *)

From S2P Require Import Prelude GoStrings Api Kube ControllerApi ControllerBuild Cluster.

(** [q.Add] for each request, once: the requests in the order they are added. *)
Definition enqueueRequests (reqs : list NamespacedName) : list NamespacedName :=
  (foldl (λ (st : gset NamespacedName * list NamespacedName) nn,
      if decide (nn ∈ st.1) then st else ({[ nn ]} ∪ st.1, st.2 ++ [nn]))
    (∅, []) reqs).2.

Definition get_label (labels : gmap string string) (k : string) : string := default "" (labels !! k).

Definition changed_keys (a b : gmap string string) : gset string :=
  dom (filter (λ kv, get_label b kv.1 ≠ kv.2) a).

Section watch.
Context {S : Type} `{ControllerClient S} `{SortSlice}.

(** [sets.List]: the elements in order. *)
Definition sorted_list (s : gset string) : list string := sort_slice String.ltb (elements s).

Definition changedLabelKeys (oldObj newObj : option ObjectMeta) : list string :=
  match oldObj, newObj with
  | Some old, Some new =>
      sorted_list (changed_keys (om_Labels old) (om_Labels new) ∪
                   changed_keys (om_Labels new) (om_Labels old))
  | _, _ => []
  end.

(** The requests found so far, and the set of their keys. *)
Definition Found : Type := gset NamespacedName * list NamespacedName.

Definition add_deployment (labels : gmap string string) (st : Found) (dep : DeviceProcessDeployment)
    : Found :=
  match LabelSelectorAsSelector (ds_Selector (dep_Spec dep)) with
  | Err _ => st
  | Ok selector =>
      if negb (Matches selector labels) then st
      else if decide (dep_Key dep ∈ st.1) then st
      else ({[ dep_Key dep ]} ∪ st.1, st.2 ++ [dep_Key dep])
  end.

Definition add_key (s : S) (sw : ObjectMeta) (st : Found) (key : string) : Found :=
  match list_deployments (om_Namespace sw) key s with
  | Err _ => st
  | Ok items => foldl (add_deployment (om_Labels sw)) st items
  end.

Definition keys_to_check (sw : ObjectMeta) (keys : list string) : gset string :=
  {[ allSelectorIndexKey ]} ∪
  (match keys with [] => dom (om_Labels sw) | _ => list_to_set keys end).

Definition requestsForNetworkSwitch (s : S) (obj : option ObjectMeta) (keys : list string)
    : list NamespacedName :=
  match obj with
  | None => []
  | Some sw => (foldl (add_key s sw) (∅, []) (sorted_list (keys_to_check sw keys))).2
  end.

(** The event handlers, behind the predicate. *)
Definition on_create (s : S) (obj : option ObjectMeta) : list NamespacedName :=
  enqueueRequests (requestsForNetworkSwitch s obj []).

Definition on_delete : S → option ObjectMeta → list NamespacedName := on_create.

Definition update_predicate (oldObj newObj : option ObjectMeta) : bool :=
  match oldObj, newObj with
  | Some old, Some new =>
      negb (bool_decide (om_Labels old = om_Labels new)) ||
      negb (om_Generation old =? om_Generation new)
  | _, _ => true
  end.

Definition on_update (s : S) (oldObj newObj : option ObjectMeta) : list NamespacedName :=
  if negb (update_predicate oldObj newObj) then []
  else match changedLabelKeys oldObj newObj with
       | [] => []
       | changedKeys =>
           enqueueRequests (requestsForNetworkSwitch s oldObj changedKeys ++
                            requestsForNetworkSwitch s newObj changedKeys)
       end.
End watch.

(** ** Lemmas *)

Lemma enqueue_fold (reqs : list NamespacedName) (st : gset NamespacedName * list NamespacedName) :
  (∀ k, k ∈ st.1 ↔ k ∈ st.2) → NoDup st.2 →
  let st' := foldl (λ (st : gset NamespacedName * list NamespacedName) nn,
      if decide (nn ∈ st.1) then st else ({[ nn ]} ∪ st.1, st.2 ++ [nn])) st reqs in
  NoDup st'.2 ∧ ∀ k, k ∈ st'.2 ↔ k ∈ st.2 ∨ k ∈ reqs.
Proof.
  revert st. induction reqs as [|r reqs IH]; intros st Hs Hn; simpl; [set_solver|].
  case_decide as Hr.
  - destruct (IH st Hs Hn) as [Hn' Hk]. split; [done|]. intros k. rewrite Hk. set_solver.
  - destruct (IH ({[ r ]} ∪ st.1, st.2 ++ [r])) as [Hn' Hk]; simpl.
    + set_solver.
    + apply NoDup_app. split_all; [done|set_solver|apply NoDup_singleton].
    + split; [done|]. intros k. rewrite Hk. set_solver.
Qed.

Lemma enqueueRequests_spec (reqs : list NamespacedName) :
  NoDup (enqueueRequests reqs) ∧ ∀ k, k ∈ enqueueRequests reqs ↔ k ∈ reqs.
Proof.
  destruct (enqueue_fold reqs (∅, [])) as [Hn Hk]; [set_solver|constructor|].
  split; [exact Hn|]. intros k. unfold enqueueRequests. rewrite Hk. set_solver.
Qed.

Section requests.
Context {S : Type} `{ControllerClientLaws S} `{SortSlice}.

Definition hit (labels : gmap string string) (d : DeviceProcessDeployment) : Prop :=
  is_ok (LabelSelectorAsSelector (ds_Selector (dep_Spec d))) = true ∧
  selects (ds_Selector (dep_Spec d)) labels = true.

Lemma add_deployment_spec labels (st : Found) d k :
  (∀ k, k ∈ st.1 ↔ k ∈ st.2) →
  (∀ k, k ∈ (add_deployment labels st d).1 ↔ k ∈ (add_deployment labels st d).2) ∧
  (k ∈ (add_deployment labels st d).2 ↔ k ∈ st.2 ∨ (hit labels d ∧ k = dep_Key d)).
Proof.
  intros Hs. unfold add_deployment, hit.
  destruct (LabelSelectorAsSelector _) as [sel|e] eqn:E; simpl; [|naive_solver].
  rewrite (Matches_selects _ _ labels E).
  destruct (selects _ labels); simpl; [|naive_solver].
  case_decide; simpl; set_solver.
Qed.

Lemma add_deployments_spec labels ds (st : Found) k :
  (∀ k, k ∈ st.1 ↔ k ∈ st.2) →
  let st' := foldl (add_deployment labels) st ds in
  (∀ k, k ∈ st'.1 ↔ k ∈ st'.2) ∧
  (k ∈ st'.2 ↔ k ∈ st.2 ∨ ∃ d, d ∈ ds ∧ hit labels d ∧ k = dep_Key d).
Proof.
  revert st. induction ds as [|d ds IH]; intros st Hs; simpl; [set_solver|].
  destruct (add_deployment_spec labels st d k Hs) as [Hs' Hk].
  destruct (IH _ Hs') as [Hs'' Hk']. split; [done|]. rewrite Hk', Hk. set_solver.
Qed.

(** The requests for a switch: the deployments found under one of the keys
    that match its labels. *)
Lemma requests_spec s sw keys k :
  k ∈ requestsForNetworkSwitch s (Some sw) keys ↔
  ∃ key items d, key ∈ keys_to_check sw keys ∧ list_deployments (om_Namespace sw) key s = Ok items ∧
    d ∈ items ∧ hit (om_Labels sw) d ∧ k = dep_Key d.
Proof.
  unfold requestsForNetworkSwitch, sorted_list.
  assert (∀ ks (st : Found), (∀ k, k ∈ st.1 ↔ k ∈ st.2) →
    k ∈ (foldl (add_key s sw) st ks).2 ↔ k ∈ st.2 ∨
      ∃ key items d, key ∈ ks ∧ list_deployments (om_Namespace sw) key s = Ok items ∧
        d ∈ items ∧ hit (om_Labels sw) d ∧ k = dep_Key d) as Hf.
  { induction ks as [|key ks IH]; intros st Hs; simpl; [set_solver|].
    unfold add_key at 2. destruct (list_deployments _ key s) as [items|e] eqn:E.
    - destruct (add_deployments_spec (om_Labels sw) items st k Hs) as [Hs' Hk].
      rewrite IH, Hk by done. split.
      + intros [[Hin|(d & Hd & Hh & ->)]|(key' & items' & d & Hk' & Hrest)]; [by left|right..].
        * exists key, items, d. split; [constructor|done].
        * exists key', items', d. split; [by constructor|done].
      + intros [Hin|(key' & items' & d & Hk' & Hl & Hrest)]; [auto|].
        apply elem_of_cons in Hk' as [->|Hk']; [|right; eauto 10].
        rewrite E in Hl. injection Hl as <-. left. right. eauto.
    - rewrite IH by done. split; [intros [?|(key' & items' & d & Hk' & Hr)]; [by left|right]|].
      + exists key', items', d. split; [by constructor|done].
      + intros [?|(key' & items' & d & Hk' & Hl & Hr)]; [by left|right].
        apply elem_of_cons in Hk' as [->|Hk']; [congruence|]. eauto 10. }
  rewrite Hf by set_solver. setoid_rewrite (sort_slice_perm _ String.ltb (elements (keys_to_check sw keys))).
  set_solver.
Qed.

Lemma changedLabelKeys_spec old new k :
  k ∈ changedLabelKeys (Some old) (Some new) ↔
  get_label (om_Labels old) k ≠ get_label (om_Labels new) k.
Proof.
  unfold changedLabelKeys, sorted_list.
  rewrite (sort_slice_perm _ String.ltb (elements _)), elem_of_elements, elem_of_union.
  assert (∀ a b : gmap string string, k ∈ changed_keys a b ↔
    ∃ v, a !! k = Some v ∧ get_label b k ≠ v) as Hc.
  { intros a b. unfold changed_keys. rewrite elem_of_dom. unfold is_Some.
    setoid_rewrite map_lookup_filter_Some. naive_solver. }
  rewrite !Hc. unfold get_label.
  destruct (om_Labels old !! k), (om_Labels new !! k); naive_solver.
Qed.

(** A stored deployment is found under each of its selector's keys. *)
Lemma request_of_key s sw keys key d :
  stored_deployment s (dep_Key d) = Some d → dep_Namespace d = om_Namespace sw →
  is_ok (list_deployments (om_Namespace sw) key s) = true →
  hit (om_Labels sw) d → key ∈ keys_to_check sw keys →
  key ∈ selectorLabelKeys (ds_Selector (dep_Spec d)) →
  dep_Key d ∈ requestsForNetworkSwitch s (Some sw) keys.
Proof.
  intros Hst Hns Hok Hh Hk Hsel. apply requests_spec.
  destruct (list_deployments (om_Namespace sw) key s) as [items|e] eqn:E; [|done].
  exists key, items, d. split_all; try done. by eapply index_complete.
Qed.
End requests.

(** ** Properties *)

(** C10: no creation or deletion of a switch is missed.  When every list of the
    field index succeeds, the requests for a switch contain every stored
    deployment of its namespace with a supported selector that selects it; each
    request is enqueued once; and every request is the key of a stored deployment
    of the switch's namespace, with a valid selector that selects the switch. *)
Theorem switch_event_complete {S} `{ControllerClientLaws S} `{SortSlice} s sw :
  (∀ key, is_ok (list_deployments (om_Namespace sw) key s) = true) →
  NoDup (on_create s (Some sw)) ∧
  (∀ d, stored_deployment s (dep_Key d) = Some d → dep_Namespace d = om_Namespace sw →
     is_ok (LabelSelectorAsSelector (ds_Selector (dep_Spec d))) = true →
     hasUnsupportedSelector (ds_Selector (dep_Spec d)) = false →
     selects (ds_Selector (dep_Spec d)) (om_Labels sw) = true →
     dep_Key d ∈ on_create s (Some sw)) ∧
  (∀ k, k ∈ on_create s (Some sw) →
     ∃ d, stored_deployment s k = Some d ∧ dep_Key d = k ∧ dep_Namespace d = om_Namespace sw ∧
          is_ok (LabelSelectorAsSelector (ds_Selector (dep_Spec d))) = true ∧
          selects (ds_Selector (dep_Spec d)) (om_Labels sw) = true).
Proof.
  intros Hok. unfold on_create.
  destruct (enqueueRequests_spec (requestsForNetworkSwitch s (Some sw) [])) as [Hn Hk].
  split; [exact Hn|]. split.
  - intros d Hst Hns Hc Hu Hsel. apply Hk.
    destruct (set_choose_or_empty (selectorLabelKeys (ds_Selector (dep_Spec d)))) as [[key Hkey]|He].
    + apply (request_of_key s sw [] key); try done.
      destruct (selects_keys _ _ _ Hu Hsel Hkey) as [->|Hin]; unfold keys_to_check; set_solver.
    + exfalso. unfold selectorLabelKeys in He. case_decide; set_solver.
  - intros k Hin. apply Hk, requests_spec in Hin as (key & items & d & _ & Hl & Hd & [Hv Hsel] & ->).
    destruct (index_sound _ _ _ _ _ Hl Hd) as (Hst & Hns & _). by exists d.
Qed.

(** No label with an empty value appears or disappears. *)
Definition no_empty_label_change (old new : gmap string string) : Prop :=
  ∀ k, old !! k ≠ new !! k → get_label old k ≠ get_label new k.

(** No change of a switch's labels that moves it in or out of a deployment
    is missed, as long as no label with an empty value appears or disappears. *)
Theorem switch_update_complete {S} `{ControllerClientLaws S} `{SortSlice} s old new d :
  (∀ key, is_ok (list_deployments (om_Namespace new) key s) = true) →
  om_Namespace old = om_Namespace new → no_empty_label_change (om_Labels old) (om_Labels new) →
  stored_deployment s (dep_Key d) = Some d → dep_Namespace d = om_Namespace new →
  is_ok (LabelSelectorAsSelector (ds_Selector (dep_Spec d))) = true →
  selects (ds_Selector (dep_Spec d)) (om_Labels old) ≠
    selects (ds_Selector (dep_Spec d)) (om_Labels new) →
  dep_Key d ∈ on_update s (Some old) (Some new).
Proof.
  intros Hok Hns He Hst Hdns Hc Hsel.
  assert (∃ key, key ∈ selectorLabelKeys (ds_Selector (dep_Spec d)) ∧
            get_label (om_Labels old) key ≠ get_label (om_Labels new) key) as (key & Hkey & Hch).
  { destruct (decide (Exists (λ k, om_Labels old !! k ≠ om_Labels new !! k)
      (elements (selectorLabelKeys (ds_Selector (dep_Spec d)))))) as [Hex|Hex].
    - apply Exists_exists in Hex as (k & Hk & Hne). exists k. split; [by apply elem_of_elements|auto].
    - exfalso. apply Hsel. apply selects_local. intros k Hk.
      destruct (decide (om_Labels old !! k = om_Labels new !! k)) as [|Hne]; [done|].
      exfalso. apply Hex. apply Exists_exists. exists k. split; [by apply elem_of_elements|done]. }
  assert (key ∈ changedLabelKeys (Some old) (Some new)) as Hin by (by apply changedLabelKeys_spec).
  unfold on_update. replace (update_predicate (Some old) (Some new)) with true.
  2: { symmetry. unfold update_predicate. apply orb_true_iff. left.
       apply negb_true_iff, bool_decide_eq_false. intros E. apply Hch. by rewrite E. }
  cbn [negb]. destruct (changedLabelKeys (Some old) (Some new)) as [|k0 ks] eqn:Eks;
    [by apply elem_of_nil in Hin|]. rewrite <-Eks in *.
  apply enqueueRequests_spec, elem_of_app.
  assert (∀ sw, key ∈ keys_to_check sw (changedLabelKeys (Some old) (Some new))) as Hkeys.
  { intros sw. unfold keys_to_check. rewrite Eks in *. set_solver. }
  destruct (selects (ds_Selector (dep_Spec d)) (om_Labels old)) eqn:Eo; [left|right].
  - apply (request_of_key s old _ key); try done; [congruence|rewrite Hns; apply Hok].
  - destruct (selects (ds_Selector (dep_Spec d)) (om_Labels new)) eqn:En; [|done].
    by apply (request_of_key s new _ key).
Qed.

(** A label with an empty value that appears or disappears is not noticed:
    when the labels of a switch change in no other way, no deployment is
    reconciled, although a selector that asks for the label's existence now
    selects the switch. *)
Theorem empty_label_change_missed {S} `{ControllerClient S} `{SortSlice} s old new k :
  om_Labels old !! k = None → om_Labels new = <[k := ""]> (om_Labels old) →
  on_update s (Some old) (Some new) = [] ∧
  selects (mkSelector ∅ [mkRequirement k OpExists []]) (om_Labels old) = false ∧
  selects (mkSelector ∅ [mkRequirement k OpExists []]) (om_Labels new) = true.
Proof.
  intros Hk Hn. split; [|split].
  - unfold on_update. destruct (negb _); [done|].
    destruct (changedLabelKeys (Some old) (Some new)) as [|k' ks] eqn:E; [done|]. exfalso.
    assert (k' ∈ changedLabelKeys (Some old) (Some new)) as Hin by (rewrite E; constructor).
    apply changedLabelKeys_spec in Hin. apply Hin. unfold get_label. rewrite Hn.
    destruct (decide (k = k')) as [<-|]; [by rewrite lookup_insert_eq, Hk|by rewrite lookup_insert_ne].
  - unfold selects, requirement_holds. simpl. rewrite Hk. apply andb_false_r.
  - unfold selects, requirement_holds. simpl. rewrite Hn, lookup_insert_eq.
    rewrite bool_decide_eq_true_2; [done|]. apply map_empty_subseteq.
Qed.

(** A change of an inventory label alone is not propagated.  The labels
    role, type and rack are copied to every process, but an update of a switch
    only looks at deployments whose selector uses a changed key: when [rack]
    changes and the selector does not use it, the deployment is not reconciled
    although the labels it wants for the process have changed. *)
Theorem inventory_label_change_missed {S} `{ControllerClientLaws S} `{SortSlice} `{Validation}
    s old new d v :
  stored_deployment s (dep_Key d) = Some d →
  om_Labels new = <["rack" := v]> (om_Labels old) → om_Labels old !! "rack" ≠ Some v →
  IsQualifiedName "rack" = true → IsValidLabelValue v = true →
  "rack" ∉ selectorLabelKeys (ds_Selector (dep_Spec d)) →
  allSelectorIndexKey ∉ selectorLabelKeys (ds_Selector (dep_Spec d)) →
  tm_Labels (ds_Template (dep_Spec d)) !! "rack" = None →
  dep_Key d ∉ on_update s (Some old) (Some new) ∧
  desired_labels d new !! "rack" = Some v ∧ desired_labels d old !! "rack" ≠ Some v.
Proof.
  intros Hst Hn Ho Hq Hv Hk Ha Ht.
  split; [|split].
  - unfold on_update. destruct (negb _); [apply not_elem_of_nil|].
    destruct (changedLabelKeys (Some old) (Some new)) as [|k0 ks] eqn:E; [apply not_elem_of_nil|].
    rewrite <-E. intros Hin. apply enqueueRequests_spec, elem_of_app in Hin.
    assert (∀ key, key ∈ changedLabelKeys (Some old) (Some new) → key = "rack") as Hch.
    { intros key. rewrite changedLabelKeys_spec, Hn. unfold get_label.
      destruct (decide ("rack" = key)) as [|Hne]; [done|]. by rewrite lookup_insert_ne. }
    assert (∀ sw, dep_Key d ∉ requestsForNetworkSwitch s (Some sw)
                                (changedLabelKeys (Some old) (Some new))) as Hno.
    { intros sw Hr. apply requests_spec in Hr as (key & items & d' & Hkey & Hl & Hd' & _ & Hdk).
      destruct (index_sound _ _ _ _ _ Hl Hd') as (Hst' & _ & Hkd').
      assert (d' = d) as -> by (rewrite Hdk in Hst; congruence).
      unfold keys_to_check in Hkey. rewrite E in Hkey. rewrite <-E in Hkey.
      apply elem_of_union in Hkey as [->%elem_of_singleton|Hkey]; [done|].
      apply elem_of_list_to_set in Hkey. by rewrite (Hch _ Hkey) in Hkd'. }
    by destruct Hin as [Hin|Hin]; apply Hno in Hin.
  - rewrite desired_labels_at, selectedDeviceLabels_lookup, Hn, lookup_insert_eq.
    rewrite bool_decide_eq_true_2 by (unfold inventory_keys; set_solver). by rewrite Hq, Hv.
  - rewrite desired_labels_at, selectedDeviceLabels_lookup. simpl.
    destruct (om_Labels old !! "rack") as [u|] eqn:Eu; [|by rewrite Ht].
    destruct (_ && _ && _); [by intros [= ->]|by rewrite Ht].
Qed.
