(* ===== verification/ControllerSamples.v ===== *)
(** * The reconciler on a concrete cluster

    Witnesses of the properties of [ControllerProps] and [ControllerWatch], on a cluster with one
    deployment and two switches. *)

From S2P Require Import Prelude GoStrings GoTime Api Conditions SpecHash Kube Samples.
From S2P Require Import ControllerApi ControllerBuild Cluster Controller ControllerProps ControllerWatch.

#[local] Existing Instance plain_validation.
#[local] Existing Instance ascii_unicode.
#[local] Existing Instance plain_owners.
#[local] Existing Instance plain_selectors.
#[local] Existing Instance insertion_sort_slice.

(** ** A cluster to run on *)

Definition sample_template : DeviceProcessTemplate :=
  mkTemplate {[ "tier" := "edge" ]} ∅
    (mkTemplateSpec (mkArtifact ArtifactTypeOCI "oci://registry/agent:1" "")
       (mkExecution DeviceProcessBackendSystemd ["bin/agent"] [] [] "" "")
       DeviceProcessRestartPolicyAlways None).

Definition sample_deployment (exprs : list SelectorRequirement) (cs : list Condition)
    : DeviceProcessDeployment :=
  mkDeployment (mkObjectMeta "web" "infra" "uid-web" "1" 1 ∅ ∅ [])
    (mkDeploymentSpec (mkSelector {[ "role" := "leaf" ]} exprs) sample_template)
    (mkDeploymentStatus 0 0 0 0 0 0 0 cs).

Definition sample_switch (name : string) : ObjectMeta :=
  mkObjectMeta name "infra" ("uid-" +:+ name) "1" 1 {[ "role" := "leaf" ]} ∅ [].

Definition sample_cluster (exprs : list SelectorRequirement) (cs : list Condition)
    (procs : list DeviceProcess) : Cluster :=
  mkCluster {[ ("infra", "web") := sample_deployment exprs cs ]}
    (list_to_map ((λ p, (dp_Key p, p)) <$> procs))
    [sample_switch "tor1"; sample_switch "tor2"].

Definition controller_world (c : Cluster) : World unit Cluster ControllerCall :=
  mkWorld tt c (λ i, Z.of_nat i) 0 [].

Definition sample_reconcile : NamespacedName → M unit Cluster ControllerCall (result ApiError Result) :=
  Reconcile 2.

Lemma reconcile_converges_witness :
  let w := controller_world (sample_cluster [] [] []) in
  (sample_reconcile ("infra", "web") w).1 = Ok (mkResult 0) ∧
  Forall (device_stored (env (sample_reconcile ("infra", "web") w).2) (sample_deployment [] []))
    [sample_switch "tor1"; sample_switch "tor2"].
Proof.
  intros w.
  assert ((sample_reconcile ("infra", "web") w).1 = Ok (mkResult 0)) as Hr by (vm_compute; reflexivity).
  split; [exact Hr|].
  apply (@reconcile_converges Cluster _ _ _ plain_selectors _ _ 2 ("infra", "web") w
    (sample_deployment [] []) (ds_Selector (dep_Spec (sample_deployment [] []))) _ (mkResult 0)); [vm_compute; reflexivity..| |exact Hr].
  apply NoDup_cons. split; [|apply NoDup_singleton].
  intros Hin. apply list_elem_of_singleton in Hin.
  apply (f_equal (λ k : NamespacedName, String.eqb k.2 "web-tor1")) in Hin.
  vm_compute in Hin. discriminate Hin.
Defined.

Lemma unsupported_selector_writes_nothing_witness :
  let bad := [mkRequirement "rack" OpDoesNotExist []] in
  let w := controller_world (sample_cluster bad [] []) in
  env (sample_reconcile ("infra", "web") w).2 = env w.
Proof.
  intros bad w. unfold sample_reconcile.
  rewrite (@unsupported_selector_writes_nothing Cluster _ _ _ plain_selectors _ 2 ("infra", "web") w (sample_deployment bad [])); reflexivity.
Defined.

(** A process of the deployment for a switch that is gone. *)
Definition leftover : DeviceProcess :=
  set_OwnerReferences [mkOwnerReference "DeviceProcessDeployment" "web" "uid-web" true]
    (device_desired (sample_deployment [] []) (sample_switch "tor9")).

(** Two processes are applied, and the leftover one is deleted. *)
Lemma reconcile_footprint_witness :
  let w := controller_world (sample_cluster [] [] [leftover]) in
  ∃ new, trace (sample_reconcile ("infra", "web") w).2 = trace w ++ new ∧
    Forall (call_of (sample_deployment [] []) [sample_switch "tor1"; sample_switch "tor2"]) new ∧
    (λ c, match c with
          | CallApply p => "apply " +:+ dp_Name p | CallDelete p => "delete " +:+ dp_Name p
          | CallStatus _ _ => "status" | CallRecord _ _ reason _ => reason | _ => ""
          end) <$> new =
      ["apply web-tor1"; "apply web-tor2"; "delete web-tor9"; "CreatedDeviceProcess"; "DeletedDeviceProcess";
       "status"].
Proof.
  intros w.
  destruct (@reconcile_footprint Cluster _ _ _ plain_selectors _ _ 2 ("infra", "web") w)
    as (new & Ht & Hf).
  exists new. split; [exact Ht|]. split; [exact Hf|].
  change (trace (sample_reconcile ("infra", "web") w).2 = [] ++ new) in Ht. rewrite app_nil_l in Ht.
  rewrite <-Ht. vm_compute. reflexivity.
Defined.

(** A process of the sample deployment that runs and reports health. *)
Definition ready_process (device : string) : DeviceProcess :=
  let p := device_desired (sample_deployment [] []) (sample_switch device) in
  set_dp_Status (mkStatus DeviceProcessPhaseRunning
    [mkCondition ConditionAgentConnected ConditionTrue 0 5 "AgentConnected" "device reported";
     mkCondition ConditionHealthy ConditionTrue 0 5 "Healthy" "process healthy"]
    (hashDeviceProcessSpec (dp_Spec p)) "DaemonSet" "" "" 0 "" "" 7 None None 0 "")
    (set_OwnerReferences [mkOwnerReference "DeviceProcessDeployment" "web" "uid-web" true] p).

Definition early_conditions : list Condition :=
  [mkCondition ConditionAvailable ConditionFalse 0 1 "NotEnoughAvailable" "0/2 available";
   mkCondition ConditionProgressing ConditionTrue 0 1 "Updating" "updated=0 available=0 desired=2"].

Lemma rollout_counts_exact_witness :
  let devices := [sample_switch "tor1"; sample_switch "tor2"] in
  let ro := rollout (sample_deployment [] []) devices [ready_process "tor1"] in
  Z.of_nat (length devices) ≤ max_int32 ∧ ro_unavailable ro = 1.
Proof.
  intros devices ro. split; [vm_compute; discriminate|].
  assert (Z.of_nat (length devices) ≤ max_int32) as H1 by (vm_compute; discriminate).
  assert (Z.of_nat (length [ready_process "tor1"]) ≤ max_int32) as H2 by (vm_compute; discriminate).
  destruct (rollout_counts_exact (sample_deployment [] []) devices [ready_process "tor1"] H1 H2)
    as (_ & Hu & _).
  etrans; [exact Hu|]. vm_compute. reflexivity.
Defined.

(** Both processes are available, two are counted, and the condition still says
    that none is. *)
Lemma deployment_conditions_frozen_witness :
  let d := sample_deployment [] early_conditions in
  let w := controller_world (sample_cluster [] early_conditions
             [ready_process "tor1"; ready_process "tor2"]) in
  let w' := (updateStatus 4 d [sample_switch "tor1"; sample_switch "tor2"] w).2 in
  ∃ d', @stored_deployment Cluster _ _ _ (env w') ("infra", "web") = Some d' ∧
    dst_NumberAvailable (dep_Status d') = 2 ∧
    dst_Conditions (dep_Status d') = early_conditions.
Proof.
  intros d w w'.
  destruct (list_processes (dep_Namespace d) (dep_Name d) (env w)) as [procs|e] eqn:Hl; [|discriminate Hl].
  assert (ro_available (rollout d [sample_switch "tor1"; sample_switch "tor2"] procs) = 2) as Ha.
  { vm_compute in Hl. injection Hl as <-. vm_compute. reflexivity. }
  destruct (updateStatus 4 d [sample_switch "tor1"; sample_switch "tor2"] w) as [r w1] eqn:Hu.
  assert (r = Ok tt) as ->.
  { apply (f_equal fst) in Hu. symmetry. etrans; [|exact Hu]. vm_compute. reflexivity. }
  destruct (deployment_conditions_frozen 4 d [sample_switch "tor1"; sample_switch "tor2"] procs w w1)
    as (d' & Hd & Hn & _ & Hc);
    [reflexivity|exact Hl|by eexists|by eexists|exact Hu|].
  exists d'. subst w'. split; [exact Hd|]. split; [by rewrite Hn|exact Hc].
Defined.

Lemma cleanup_deletes_exactly_stale_witness :
  let d := sample_deployment [] [] in
  let w := controller_world (sample_cluster [] [] [ready_process "tor1"; ready_process "tor9"]) in
  ∃ p, dp_Name p = "web-tor9" ∧
    trace (cleanupStale d {[ "web-tor1" ]} w).2 = trace w ++ [CallDelete p].
Proof.
  intros d w. exists (ready_process "tor9"). split; [vm_compute; reflexivity|].
  destruct (list_processes (dep_Namespace d) (dep_Name d) (env w)) as [procs|e] eqn:Hl; [|discriminate Hl].
  rewrite (cleanup_deletes_exactly_stale d {[ "web-tor1" ]} w procs 1 Hl); [|vm_compute; reflexivity].
  f_equal. vm_compute in Hl. injection Hl as <-. vm_compute. reflexivity.
Defined.

(** ** Switch events *)

Definition watched : Cluster := sample_cluster [mkRequirement "rack" OpExists []] [] [].

Definition watched_deployment : DeviceProcessDeployment :=
  sample_deployment [mkRequirement "rack" OpExists []] [].

Definition labelled (labels : gmap string string) : ObjectMeta :=
  mkObjectMeta "tor1" "infra" "uid-tor1" "1" 1 labels ∅ [].

Lemma switch_event_complete_witness :
  let sw := labelled {[ "role" := "leaf"; "rack" := "r1" ]} in
  ("infra", "web") ∈ on_create watched (Some sw).
Proof.
  intros sw.
  destruct (switch_event_complete watched sw) as (_ & Hc & _); [done|].
  apply (Hc watched_deployment); vm_compute; reflexivity.
Defined.

Lemma switch_update_complete_witness :
  ("infra", "web") ∈ on_update watched (Some (labelled {[ "role" := "leaf" ]}))
    (Some (labelled {[ "role" := "leaf"; "rack" := "r1" ]})).
Proof.
  apply (switch_update_complete watched (labelled {[ "role" := "leaf" ]})
    (labelled {[ "role" := "leaf"; "rack" := "r1" ]}) watched_deployment); try (vm_compute; reflexivity).
  - intros k Hk. unfold get_label. cbn [labelled om_Labels] in *.
    destruct (decide (k = "role")) as [->|H1]; [by vm_compute in Hk|].
    destruct (decide (k = "rack")) as [->|H2]; [vm_compute; discriminate|].
    exfalso. apply Hk. by rewrite lookup_insert_ne, !lookup_singleton_ne by congruence.
  - vm_compute. discriminate.
Defined.

Lemma empty_label_change_missed_witness :
  let old := labelled {[ "role" := "leaf" ]} in
  let new := labelled {[ "rack" := ""; "role" := "leaf" ]} in
  on_update watched (Some old) (Some new) = [] ∧
  selects (ds_Selector (dep_Spec watched_deployment)) (om_Labels new) = true.
Proof.
  intros old new. split; [|vm_compute; reflexivity].
  apply (empty_label_change_missed watched old new "rack"); vm_compute; reflexivity.
Defined.

Lemma inventory_label_change_missed_witness :
  let old := labelled {[ "role" := "leaf" ]} in
  let new := labelled {[ "rack" := "r1"; "role" := "leaf" ]} in
  let c := sample_cluster [] [] [] in
  ("infra", "web") ∉ on_update c (Some old) (Some new) ∧
  desired_labels (sample_deployment [] []) new !! "rack" = Some "r1".
Proof.
  intros old new c.
  destruct (inventory_label_change_missed c old new (sample_deployment [] []) "r1")
    as (H1 & H2 & _); try (vm_compute; reflexivity).
  - vm_compute. discriminate.
  - intros Hin. vm_compute in Hin. discriminate Hin.
  - intros Hin. vm_compute in Hin. discriminate Hin.
  - split; [exact H1|exact H2].
Defined.
