(* ===== verification/EndToEnd.v ===== *)
(** * From a deployment to a counted, ready process

    The three programs meet in two places: the spec hash, which the gateway
    hands to the agent, the agent echoes and the controller compares; and the
    conditions, which the gateway sets and the controller reads. *)

From S2P Require Import Prelude GoStrings GoTime Api Conditions SpecHash Kube Samples.
From S2P Require Import GatewayState GatewayStatus GatewayServer.
From S2P Require Import ControllerApi ControllerBuild Controller ControllerProps ControllerSamples.

(** The observation of an agent that runs an item: it echoes the item's spec
    hash and reports the process started and healthy, without error. *)
Definition reports_running (item : DesiredItem) (obs : Observation) : Prop :=
  ob_ObservedSpecHash obs = di_SpecHash item ∧ ob_ProcessStarted obs = Some true ∧
  ob_Healthy obs = Some true ∧ trimmed (ob_ErrorMessage obs) = "".

Section end_to_end.
Context `{Validation} `{Unicode} (d : DeviceProcessDeployment).

Lemma desired_hashes_spec devices (m : gmap string string) device :
  NoDup ((λ x, dp_Name (device_desired d x)) <$> devices) → device ∈ devices →
  foldl (λ m x,
      <[deviceProcessName (dep_Name d) (om_Name x) :=
        hashDeviceProcessSpec (dp_Spec (buildDesiredDeviceProcess d x
          (deviceProcessName (dep_Name d) (om_Name x))))]> m) m devices
    !! dp_Name (device_desired d device) = Some (hashSpec (dp_Spec (device_desired d device))).
Proof.
  assert (∀ devices (m : gmap string string) name,
    name ∉ ((λ x, dp_Name (device_desired d x)) <$> devices) →
    foldl (λ m x,
      <[deviceProcessName (dep_Name d) (om_Name x) :=
        hashDeviceProcessSpec (dp_Spec (buildDesiredDeviceProcess d x
          (deviceProcessName (dep_Name d) (om_Name x))))]> m) m devices !! name = m !! name) as Hother.
  { clear devices m device. induction devices as [|x devices IH]; intros m name Hn; simpl; [done|].
    rewrite fmap_cons, not_elem_of_cons in Hn. destruct Hn as [Hne Hn].
    rewrite IH by done. by rewrite lookup_insert_ne. }
  revert m. induction devices as [|x devices IH]; intros m Hd Hin; [by apply elem_of_nil in Hin|].
  rewrite fmap_cons, NoDup_cons in Hd. destruct Hd as [Hn Hd]. cbn [foldl].
  apply elem_of_cons in Hin as [->|Hin]; [|by apply IH].
  rewrite Hother by done. by rewrite lookup_insert_eq.
Qed.

(** A process with the spec that was built for a matched switch, whose status
    echoes the hash of that spec, is updated. *)
Lemma echoed_hash_is_updated devices device q :
  NoDup ((λ x, dp_Name (device_desired d x)) <$> devices) → device ∈ devices →
  dp_Name q = dp_Name (device_desired d device) →
  st_ObservedSpecHash (dp_Status q) = hashSpec (dp_Spec (device_desired d device)) →
  is_updated (desired_hashes d devices) q = true.
Proof.
  intros Hd Hin Hname Hhash. unfold is_updated, desired_hashes. cbv zeta.
  rewrite Hname, desired_hashes_spec, Hhash by done.
  change (default "" (Some ?x)) with x.
  destruct (String.eqb_spec (hashSpec (dp_Spec (device_desired d device))) "") as [E|E];
    [by apply hashSpec_nonempty in E|]. apply String.eqb_refl.
Qed.
End end_to_end.

(** The status of a running process is ready. *)
Lemma running_status_ready now obs reportedAt start p :
  ob_ProcessStarted obs = Some true → ob_Healthy obs = Some true →
  trimmed (ob_ErrorMessage obs) = "" →
  isProcessReady (set_dp_Status (observed_status obs reportedAt now start (dp_Status p)) p) = true.
Proof.
  intros Hs Hh He. unfold isProcessReady. cbn [set_dp_Status dp_Status].
  assert (st_Phase (observed_status obs reportedAt now start (dp_Status p)) = DeviceProcessPhaseRunning) as ->.
  { cbn [observed_status st_Phase]. unfold observed_phase. by rewrite He, Hs. }
  rewrite String.eqb_refl. cbn [negb].
  pose proof (apply_updates_establishes now
    (observation_updates obs reportedAt (spec_changed obs (dp_Status p)) (has_warning (dp_Status p)))
    (st_Conditions (dp_Status p))
    (observation_updates_nodup obs reportedAt _ _)) as Hall.
  rewrite Forall_forall in Hall.
  assert (∀ i ty reason message, (i, cond_true ty reason message) ∈
    observation_updates obs reportedAt (spec_changed obs (dp_Status p)) (has_warning (dp_Status p)) →
    ∃ c, FindCondition (st_Conditions (observed_status obs reportedAt now start (dp_Status p))) ty = Some c ∧
         c_Status c = ConditionTrue) as Hfound.
  { intros i ty reason message Hin. destruct (Hall _ Hin) as (c & Hc & Hsame). exists c.
    split; [exact Hc|]. by apply same_condition_spec in Hsame as (_ & -> & _). }
  destruct (Hfound 0%nat ConditionAgentConnected connectedReason connectedMessage) as (c1 & -> & ->).
  { unfold observation_updates. apply elem_of_app. left. constructor. }
  destruct (Hfound 6%nat ConditionHealthy "Healthy" "process healthy") as (c2 & -> & ->).
  { unfold observation_updates, health_updates. rewrite Hh, !elem_of_app. do 6 right. constructor. }
  by rewrite String.eqb_refl.
Qed.

(** ** Properties *)

(** A running process is counted.  For a switch the deployment matched,
    once the stored process has the spec the controller built and the agent
    reports the item the gateway made of it as running and healthy, the status
    the gateway stores makes the controller count the process both as updated
    and as ready. *)
Theorem running_process_is_counted `{Validation} `{Unicode} d devices device p now obs reportedAt st ch :
  NoDup ((λ x, dp_Name (device_desired d x)) <$> devices) → device ∈ devices →
  dp_Name p = dp_Name (device_desired d device) → dp_Spec p = dp_Spec (device_desired d device) →
  reports_running (desired_item p) obs →
  applyObservation now obs reportedAt (dp_Status p) = Ok (st, ch) →
  is_updated (desired_hashes d devices) (set_dp_Status st p) = true ∧
  isProcessReady (set_dp_Status st p) = true.
Proof.
  intros Hd Hin Hname Hspec (Hhash & Hs & Hh & He). rewrite applyObservation_eq.
  destruct (observed_start obs) as [start|]; [|done]. intros [= <- _]. split.
  - apply (echoed_hash_is_updated d devices device); [done..|]. rewrite <-Hspec.
    cbn [set_dp_Status dp_Status dp_Spec observed_status st_ObservedSpecHash]. unfold spec_changed.
    change (di_SpecHash (desired_item p)) with (hashSpec (dp_Spec p)) in Hhash. rewrite Hhash.
    destruct (String.eqb_spec (hashSpec (dp_Spec p)) "") as [E|E]; [by apply hashSpec_nonempty in E|].
    by destruct (String.eqb_spec (st_ObservedSpecHash (dp_Status p)) (hashSpec (dp_Spec p))).
  - by apply running_status_ready.
Qed.

#[local] Existing Instance plain_validation.
#[local] Existing Instance ascii_unicode.

Definition running_observation (hash : string) : Observation :=
  mkObservation "infra" "web-tor1" hash (Some true) (Some true) 42 "2024-01-01T00:00:00Z" None None
    "sha256:aa" 1 "" "" (Some true) (Some true) "" "" "" "".

Lemma running_process_is_counted_witness :
  let d := sample_deployment [] [] in
  let p := device_desired d (sample_switch "tor1") in
  ∃ st ch, applyObservation (λ _, 7) (running_observation (hashSpec (dp_Spec p))) None (dp_Status p)
             = Ok (st, ch) ∧
    is_updated (desired_hashes d [sample_switch "tor1"]) (set_dp_Status st p) = true ∧
    isProcessReady (set_dp_Status st p) = true.
Proof.
  intros d p.
  destruct (applyObservation (λ _, 7) (running_observation (hashSpec (dp_Spec p))) None (dp_Status p))
    as [[st ch]|e] eqn:E; [|vm_compute in E; discriminate E].
  exists st, ch. split; [reflexivity|].
  apply (running_process_is_counted d [sample_switch "tor1"] (sample_switch "tor1") p (λ _, 7)
           (running_observation (hashSpec (dp_Spec p))) None st ch); [|constructor|reflexivity|reflexivity| |exact E].
  - apply NoDup_singleton.
  - unfold reports_running; split_all; reflexivity.
Defined.
