(* ===== verification/GoNet.v ===== *)
(** * Go's [net.SplitHostPort], [strings.FieldsFunc] and [strings.EqualFold]

    What the agent uses of them: the host of an address, the fields between
    commas, and a comparison without regard to case with an ASCII word. *)

From S2P Require Import Prelude GoStrings GoTime.

(** The last [c] of a string: what is before it and what is after it. *)
Fixpoint split_last (c : ascii) (s : string) : option (string * string) :=
  match s with
  | EmptyString => None
  | String a r =>
      match split_last c r with
      | Some (x, y) => Some (String a x, y)
      | None => if Ascii.eqb c a then Some ("", r) else None
      end
  end.

Definition colon : ascii := ":"%char.
Definition comma : ascii := ","%char.
Definition open_bracket : ascii := "["%char.
Definition close_bracket : ascii := "]"%char.

(** [net.SplitHostPort], [None] for an error.  An address in brackets ends
    with the bracket, a colon and the port; in any other address the host has
    no colon; and no other brackets are allowed. *)
Definition SplitHostPort (hostport : string) : option (string * string) :=
  match split_last colon hostport with
  | None => None
  | Some (host, port) =>
      match hostport with
      | String a rest =>
          if Ascii.eqb a open_bracket then
            match after_byte close_bracket rest with
            | None => None
            | Some after =>
                let host := before_byte close_bracket rest in
                if negb (String.eqb after (String colon port)) then None
                else if contains_byte open_bracket rest || contains_byte close_bracket after then None
                else Some (host, port)
            end
          else if contains_byte colon host then None
          else if contains_byte open_bracket hostport || contains_byte close_bracket hostport then None
          else Some (host, port)
      | EmptyString => None
      end
  end.

Example split_host_port_ex :
  (SplitHostPort "ghcr.io:443", SplitHostPort "ghcr.io", SplitHostPort "[::1]:80", SplitHostPort "::1",
   SplitHostPort "[::1]80:9", SplitHostPort ":80") =
  (Some ("ghcr.io", "443"), None, Some ("::1", "80"), None, None, Some ("", "80")).
Proof. vm_compute. reflexivity. Qed.

(** [strings.FieldsFunc] for one separating byte: the pieces that are not
    empty. *)
Definition FieldsFunc (c : ascii) (s : string) : list string :=
  List.filter (λ x, negb (String.eqb x "")) (Split c s).

(** [strings.EqualFold(s, word)] for a word of ASCII characters no other
    character folds to. *)
Definition equal_fold (word s : string) : bool :=
  match skip_name word s with Some EmptyString => true | _ => false end.

Example equal_fold_ex : (equal_fold "true" "TrUe", equal_fold "true" "true1", equal_fold "1" "1") = (true, false, true).
Proof. vm_compute. reflexivity. Qed.

(** ** Lemmas *)

Lemma split_last_spec c s x y : split_last c s = Some (x, y) →
  s = x +:+ String c y ∧ lacks c y = true.
Proof.
  revert x y. induction s as [|a s IH]; intros x y H; [done|]. cbn in H.
  destruct (split_last c s) as [[x' y']|] eqn:E.
  - simplify_eq. destruct (IH _ _ eq_refl) as [-> Hy]. done.
  - destruct (Ascii.eqb_spec c a) as [<-|]; [|done]. simplify_eq. split; [done|].
    clear IH. induction y as [|b y IHy]; [done|]. cbn in E. destruct (split_last c y) as [[]|]; [done|].
    destruct (Ascii.eqb_spec c b) as [|Hb]; [done|]. cbn. apply Ascii.eqb_neq in Hb. rewrite Hb. cbn. by apply IHy.
Qed.

(** A host outside brackets has no colon. *)
Lemma SplitHostPort_host a host port :
  SplitHostPort a = Some (host, port) → HasPrefix a "[" = false → lacks colon host = true.
Proof.
  unfold SplitHostPort. intros H Hb. destruct (split_last colon a) as [[h p]|]; [|done].
  destruct a as [|b r]; [done|]. destruct (Ascii.eqb_spec b open_bracket) as [->|]; [by destruct r|].
  destruct (contains_byte colon h) eqn:Hc; [done|].
  destruct (contains_byte open_bracket _ || _); [done|]. simplify_eq.
  unfold contains_byte in Hc. rewrite any_byte_negb in Hc. by apply negb_false_iff in Hc.
Qed.
