(* ===== verification/AgentRender.v ===== *)
(** * The files and command lines the agent writes (agent/main.go, agent/envfile.go)

    The rendering of a unit file and of its environment file, with the escaping
    and the validation that keep a spec from injecting directives, and the
    resolution of the command against the artifact's root. *)

From S2P Require Import Prelude GoStrings GoStrconv GoPath Api GatewayState GatewayServer.

(** ** Errors *)

Inductive RenderError :=
  | MissingCommand
  | ArgNewline                       (** invalid ExecStart arg: contains newline *)
  | ControlCharacter (label : string)
  | InvalidEnvName (name : string)
  | EnvNewline (key : string)
  | MissingRootfs
  | InvalidCommand
  | CommandEscapes (cmd : string)    (** command must not escape artifact rootfs *)
  | PathEscapes (cmd : string).      (** command path escapes rootfs *)

(** [err.Error()]. *)
Definition render_error_text `{Unicode} (e : RenderError) : string :=
  match e with
  | MissingCommand => "missing command"
  | ArgNewline => "invalid ExecStart arg: contains newline"
  | ControlCharacter label => "invalid " +:+ label +:+ ": contains control character"
  | InvalidEnvName name => "invalid env var name " +:+ Quote name
  | EnvNewline key => "invalid env var " +:+ Quote key +:+ ": value contains newline"
  | MissingRootfs => "missing rootfs path"
  | InvalidCommand => "invalid command"
  | CommandEscapes cmd => "command must not escape artifact rootfs: " +:+ cmd
  | PathEscapes cmd => "command path escapes rootfs: " +:+ cmd
  end.

(** ** Unit files *)

Definition escape_quotes (s : string) : string :=
  ReplaceAll dquote (String backslash (str1 dquote))
    (ReplaceAll backslash (String backslash (str1 backslash)) s).

Definition quoted (s : string) : string := str1 dquote +:+ escape_quotes s +:+ str1 dquote.

Definition has_newline (s : string) : bool := ContainsAny s (nl +:+ str1 carriage_return).

Definition escapeSystemdArg (arg : string) : result RenderError string :=
  if String.eqb arg "" then Ok (str1 dquote +:+ str1 dquote)
  else if has_newline arg then Err ArgNewline
  else if ContainsAny arg (space +:+ str1 dquote +:+ str1 backslash +:+ str1 tab) then Ok (quoted arg)
  else Ok arg.

Definition renderExecStart (cmd args : list string) : result RenderError string :=
  match result_map escapeSystemdArg (cmd ++ args) with
  | Ok escaped => Ok (Join space escaped)
  | Err e => Err e
  end.

Definition ValidateUnitField (label value : string) : result RenderError unit :=
  if any_byte (λ c, code c <? 32) value then Err (ControlCharacter label) else Ok tt.

Definition renderSystemdRestartMode (policy : string) : string :=
  if String.eqb policy DeviceProcessRestartPolicyNever then "no"
  else if String.eqb policy DeviceProcessRestartPolicyOnFailure then "on-failure"
  else "always".

(** ** Environment files *)

Definition env_key_first (c : ascii) : bool :=
  in_range 65 90 c || in_range 97 122 c || Ascii.eqb c "_"%char.
Definition env_key_rest (c : ascii) : bool := env_key_first c || in_range 48 57 c.

(** [envKeyPattern.MatchString]: a letter or underscore, then letters, digits
    and underscores. *)
Definition envKeyPattern (key : string) : bool :=
  match key with
  | String c rest => env_key_first c && all_bytes env_key_rest rest
  | EmptyString => false
  end.

Definition render_env_var (v : DeviceProcessEnvVar) : result RenderError string :=
  let key := TrimSpace (ev_Name v) in
  if negb (envKeyPattern key) then Err (InvalidEnvName (ev_Name v))
  else if has_newline (ev_Value v) then Err (EnvNewline key)
  else Ok (key +:+ "=" +:+ quoted (ev_Value v) +:+ nl).

Definition concat_strings (l : list string) : string := foldr String.append EmptyString l.

Section render.
Context `{SortSlice}.

Definition RenderEnvFile (vars : list DeviceProcessEnvVar) : result RenderError string :=
  match vars with
  | [] => Ok ""
  | _ =>
      let items := sort_slice (λ a b, String.ltb (ev_Name a) (ev_Name b)) vars in
      match result_map render_env_var items with
      | Ok ls => Ok (concat_strings ls)
      | Err e => Err e
      end
  end.

(** The optional directive of a trimmed field. *)
Definition directive (name value : string) : string :=
  let v := TrimSpace value in
  if String.eqb v "" then "" else name +:+ "=" +:+ v +:+ nl.

Definition unit_text (item : DesiredItem) (execStart envPath : string) : string :=
  let ex := sp_Execution (di_Spec item) in
  "[Unit]" +:+ nl +:+ "Description=Apollo DeviceProcess " +:+ di_Namespace item +:+ "/" +:+
  di_Name item +:+ nl +:+ "After=network.target" +:+ nl +:+ nl +:+
  "[Service]" +:+ nl +:+ "Type=simple" +:+ nl +:+ "ExecStart=" +:+ execStart +:+ nl +:+
  directive "WorkingDirectory" (ex_WorkingDir ex) +:+
  "EnvironmentFile=-" +:+ envPath +:+ nl +:+
  "Restart=" +:+ renderSystemdRestartMode (sp_RestartPolicy (di_Spec item)) +:+ nl +:+
  directive "User" (ex_User ex) +:+
  nl +:+ "[Install]" +:+ nl +:+ "WantedBy=multi-user.target" +:+ nl.

(** The unit file and the environment file of an item. *)
Definition renderUnitFiles (item : DesiredItem) (envPath : string)
    : result RenderError (string * string) :=
  let ex := sp_Execution (di_Spec item) in
  match ex_Command ex with
  | [] => Err MissingCommand
  | _ =>
      match renderExecStart (ex_Command ex) (ex_Args ex) with
      | Err e => Err e
      | Ok execStart =>
          match ValidateUnitField "workingDir" (ex_WorkingDir ex) with
          | Err e => Err e
          | Ok _ =>
              match ValidateUnitField "user" (ex_User ex) with
              | Err e => Err e
              | Ok _ =>
                  match RenderEnvFile (ex_Env ex) with
                  | Err e => Err e
                  | Ok env => Ok (unit_text item execStart envPath, env)
                  end
              end
          end
      end
  end.
End render.

(** ** The command *)

(** [resolveCommand], run in the working directory [cwd]. *)
Definition resolveCommand (cwd : string) (cmd : list string) (rootfs : string)
    : result RenderError (list string) :=
  match cmd with
  | [] => Err MissingCommand
  | cmd0 :: rest =>
      let rootfs := TrimSpace rootfs in
      if String.eqb rootfs "" then Err MissingRootfs
      else if HasPrefix cmd0 (str1 slash) then Ok cmd
      else
        let clean := TrimSpace cmd0 in
        if String.eqb clean "" then Err InvalidCommand
        else
          let normalized := Clean clean in
          if HasPrefix normalized ".." || IsAbs normalized then Err (CommandEscapes cmd0)
          else
            let joined := JoinPath rootfs normalized in
            let rootAbs := Abs cwd rootfs in
            let joinedAbs := Abs cwd joined in
            if negb (HasPrefix joinedAbs (rootAbs +:+ str1 slash)) && negb (String.eqb joinedAbs rootAbs)
            then Err (PathEscapes cmd0)
            else Ok (joined :: rest)
  end.

(** ** Keys of managed items *)

Definition itemKey (ns name : string) : string := ns +:+ "/" +:+ name.

Definition splitKey (key : string) : option (string * string) :=
  match SplitN2 slash key with
  | [ns; name] => if String.eqb ns "" || String.eqb name "" then None else Some (ns, name)
  | _ => None
  end.
