(* ===== verification/AgentFiles.v ===== *)
(** * What the rendered files say

    A unit file has no other lines than the intended ones, its ExecStart line
    determines the command and the arguments, and an environment file gives back
    the variables.  The only text read back here is what the agent itself writes:
    a quoted value up to its closing quote.  How systemd reads an ExecStart line is
    not modelled; what it gives a meaning to and the agent leaves as it is, is
    shown by an example. *)

From S2P Require Import Prelude GoStrings GoPath Api Samples GatewayState GatewayServer AgentRender.

(** ** Reading a quoted value *)

Definition is_blank (c : ascii) : bool := Ascii.eqb c " "%char || Ascii.eqb c tab.

(** The text before the closing quote, with its backslash escapes undone, and
    the text after the quote. *)
Fixpoint to_closing (s acc : string) : option (string * string) :=
  match s with
  | EmptyString => None
  | String c s' =>
      if Ascii.eqb c backslash then
        match s' with
        | EmptyString => None
        | String d s'' => to_closing s'' (acc +:+ str1 d)
        end
      else if Ascii.eqb c dquote then Some (acc, s') else to_closing s' (acc +:+ str1 c)
  end.

(** One line [KEY="value"] of an environment file. *)
Definition read_env_line (line : string) : option (string * string) :=
  match after_byte "="%char line with
  | Some (String c rest) =>
      if Ascii.eqb c dquote then
        match to_closing rest "" with
        | Some (v, EmptyString) => Some (before_byte "="%char line, v)
        | _ => None
        end
      else None
  | _ => None
  end.

Definition read_env_file (text : string) : option (list (string * string)) :=
  mapM read_env_line (filter (λ l, l ≠ "") (Split newline text)).

(** ** Escaping *)

Lemma escape_quotes_cons c s :
  escape_quotes (String c s) =
    (if Ascii.eqb c backslash then String backslash (str1 backslash)
     else if Ascii.eqb c dquote then String backslash (str1 dquote) else str1 c) +:+ escape_quotes s.
Proof.
  assert (∀ a b, ReplaceAll dquote (String backslash (str1 dquote)) (a +:+ b) =
    ReplaceAll dquote (String backslash (str1 dquote)) a +:+
    ReplaceAll dquote (String backslash (str1 dquote)) b) as Happ.
  { intros a b. induction a as [|x a IH]; [done|]. rewrite app_cons. cbn [ReplaceAll].
    by rewrite IH, app_assoc_s. }
  unfold escape_quotes. cbn [ReplaceAll]. rewrite Happ. f_equal.
  rewrite (Ascii.eqb_sym backslash c).
  destruct (Ascii.eqb_spec c backslash) as [->|Hb]; [done|].
  cbn [ReplaceAll str1]. rewrite app_empty_r, (Ascii.eqb_sym dquote c). done.
Qed.

(** The text between quotes is read back. *)
Lemma to_closing_escaped s t w :
  to_closing (escape_quotes s +:+ String dquote t) w = Some (w +:+ s, t).
Proof.
  revert w. induction s as [|c s IH]; intros w; [by rewrite app_empty_r|].
  rewrite escape_quotes_cons, app_assoc_s.
  assert (w +:+ String c s = (w +:+ str1 c) +:+ s) as -> by (by rewrite app_assoc_s).
  rewrite <-IH. destruct (Ascii.eqb_spec c backslash) as [->|Hb]; [done|].
  destruct (Ascii.eqb_spec c dquote) as [->|Hd]; [done|].
  change (str1 c +:+ ?x) with (String c x). cbn [to_closing].
  apply Ascii.eqb_neq in Hb, Hd. by rewrite Hb, Hd.
Qed.

Lemma quoted_app s t : quoted s +:+ t = String dquote (escape_quotes s +:+ String dquote t).
Proof. unfold quoted. by rewrite !app_assoc_s. Qed.

Lemma quoted_inj s s' t t' : quoted s +:+ t = quoted s' +:+ t' → s = s' ∧ t = t'.
Proof.
  rewrite !quoted_app. intros [= E]. pose proof (to_closing_escaped s t "") as Hs.
  rewrite E, to_closing_escaped in Hs. by injection Hs.
Qed.

(** A byte that is not escaped. *)
Definition plain_byte (c : ascii) : bool :=
  negb (Ascii.eqb c backslash) && negb (is_blank c) && negb (Ascii.eqb c dquote).

Lemma ContainsAny_special s :
  ContainsAny s (space +:+ str1 dquote +:+ str1 backslash +:+ str1 tab) = false →
  all_bytes plain_byte s = true.
Proof.
  unfold ContainsAny. rewrite any_byte_negb, negb_false_iff. apply all_bytes_impl. intros c.
  change (contains_byte c (space +:+ str1 dquote +:+ str1 backslash +:+ str1 tab)) with
    (Ascii.eqb c " "%char || (Ascii.eqb c dquote || (Ascii.eqb c backslash || (Ascii.eqb c tab || false)))).
  unfold plain_byte, is_blank.
  destruct (Ascii.eqb c " "), (Ascii.eqb c dquote), (Ascii.eqb c backslash), (Ascii.eqb c tab); done.
Qed.

(** An argument is written in quotes, or as it is. *)
Lemma escaped_arg arg q : escapeSystemdArg arg = Ok q →
  q = quoted arg ∨ q = arg ∧ arg ≠ "" ∧ all_bytes plain_byte arg = true.
Proof.
  unfold escapeSystemdArg. destruct (String.eqb_spec arg "") as [->|Hne]; [intros [= <-]; by left|].
  destruct (has_newline arg); [done|].
  destruct (ContainsAny arg _) eqn:E; intros [= <-]; [by left|]. right. by apply ContainsAny_special in E.
Qed.

(** What follows an argument: the end or a blank. *)
Definition arg_end (t : string) : Prop := match t with EmptyString => True | String c _ => is_blank c = true end.

Lemma plain_inj a a' t t' : all_bytes plain_byte a = true → all_bytes plain_byte a' = true →
  arg_end t → arg_end t' → a +:+ t = a' +:+ t' → a = a' ∧ t = t'.
Proof.
  assert (∀ c r, all_bytes plain_byte (String c r) = true → is_blank c = false) as Hblank.
  { intros c r. cbn [all_bytes]. unfold plain_byte. intros Hc. by bool_prop. }
  revert a'. induction a as [|c a IH]; intros [|c' a'] Ha Ha' Ht Ht' E; [done| | |].
  - apply Hblank in Ha'. change ("" +:+ t) with t in E. subst t. cbn in Ht. congruence.
  - apply Hblank in Ha. change ("" +:+ t') with t' in E. subst t'. cbn in Ht'. congruence.
  - rewrite !app_cons in E. injection E as <- E. cbn [all_bytes] in Ha, Ha'. bool_prop.
    destruct (IH a') as [-> ->]; done.
Qed.

Lemma escaped_inj a a' q q' t t' : escapeSystemdArg a = Ok q → escapeSystemdArg a' = Ok q' →
  arg_end t → arg_end t' → q +:+ t = q' +:+ t' → a = a' ∧ t = t'.
Proof.
  assert (∀ a c r, all_bytes plain_byte a = true → a ≠ "" → a +:+ r ≠ String dquote c) as Hmix.
  { intros [|x s] c r Ha Hne; [done|]. rewrite app_cons. intros [= -> _]. discriminate Ha. }
  intros [->|(-> & Hne & Hp)]%escaped_arg [->|(-> & Hne' & Hp')]%escaped_arg Ht Ht'.
  - apply quoted_inj.
  - rewrite quoted_app. intros E. symmetry in E. by eapply Hmix in E.
  - rewrite quoted_app. intros E. by eapply Hmix in E.
  - by apply plain_inj.
Qed.

Lemma escaped_nonempty a q : escapeSystemdArg a = Ok q → q ≠ "".
Proof. by intros [->|(-> & ? & _)]%escaped_arg. Qed.

(** The rest of a line after its first argument. *)
Definition more_args (qs : list string) : string := match qs with [] => "" | _ => space +:+ Join space qs end.
Lemma Join_more q qs : Join space (q :: qs) = q +:+ more_args qs.
Proof. destruct qs as [|r qs]; [by rewrite <-(app_empty_r q) at 1|by apply Join_cons]. Qed.

Lemma escaped_line_inj parts parts' qs qs' :
  Forall2 (λ a q, escapeSystemdArg a = Ok q) parts qs → Forall2 (λ a q, escapeSystemdArg a = Ok q) parts' qs' →
  Join space qs = Join space qs' → parts = parts'.
Proof.
  assert (∀ qs, arg_end (more_args qs)) as Hend by (by intros [|q qs0]).
  assert (∀ a q qs, escapeSystemdArg a = Ok q → Join space (q :: qs) ≠ "") as Hne.
  { intros a q qs0 Hq%escaped_nonempty. rewrite Join_more. by destruct q. }
  intros Hf. revert parts' qs'. induction Hf as [|a q parts qs Hq Hf IH]; intros parts' qs' Hf' E.
  - destruct Hf' as [|a' q' parts' qs' Hq' Hf']; [done|]. symmetry in E. by apply (Hne a') in E.
  - destruct Hf' as [|a' q' parts' qs' Hq' Hf']; [by apply (Hne a) in E|].
    rewrite !Join_more in E. destruct (escaped_inj _ _ _ _ _ _ Hq Hq' (Hend _) (Hend _) E) as [-> Em].
    f_equal. apply (IH _ _ Hf'). destruct qs as [|r qs], qs' as [|r' qs']; [done|done|done|].
    by injection Em.
Qed.

Lemma escaped_fails a : is_ok (escapeSystemdArg a) = negb (has_newline a).
Proof.
  unfold escapeSystemdArg. destruct (String.eqb_spec a "") as [->|]; [done|].
  destruct (has_newline a); [done|]. by destruct (ContainsAny a _).
Qed.

(** ** Lines *)

Lemma Split_lines ls :
  Forall (λ l, lacks newline l = true) ls →
  Split newline (concat_strings ((λ l, l +:+ nl) <$> ls)) = ls ++ [""].
Proof.
  induction 1 as [|l ls Hl H IH]; [done|]. rewrite fmap_cons.
  change (concat_strings (?x :: ?k)) with (x +:+ concat_strings k).
  rewrite app_assoc_s. change (nl +:+ ?x) with (String newline x).
  rewrite Split_app by done. by rewrite IH.
Qed.

Lemma concat_strings_app l1 l2 : concat_strings (l1 ++ l2) = concat_strings l1 +:+ concat_strings l2.
Proof.
  induction l1 as [|x l1 IH]; [done|]. simpl app.
  change (concat_strings (?x :: ?k)) with (x +:+ concat_strings k). by rewrite IH, app_assoc_s.
Qed.

Lemma has_newline_lacks s : has_newline s = false → lacks newline s = true.
Proof.
  unfold has_newline, ContainsAny, lacks. rewrite any_byte_negb, negb_false_iff.
  apply all_bytes_impl. intros c. change (contains_byte c (nl +:+ str1 carriage_return)) with
    (Ascii.eqb c newline || (Ascii.eqb c carriage_return || false)).
  rewrite (Ascii.eqb_sym newline c). by destruct (Ascii.eqb c newline).
Qed.

Lemma lacks_escape_quotes c s :
  c ≠ backslash → c ≠ dquote → lacks c s = true → lacks c (escape_quotes s) = true.
Proof.
  intros Hb Hd. apply Ascii.eqb_neq in Hb, Hd. induction s as [|a s IH]; [done|].
  unfold lacks in *. cbn [all_bytes]. intros [Ha Hs]%andb_true_iff.
  rewrite escape_quotes_cons, all_bytes_app, IH by done. rewrite andb_true_r.
  destruct (Ascii.eqb a backslash); [cbn; by rewrite Hb|].
  destruct (Ascii.eqb a dquote); [cbn; by rewrite Hb, Hd|]. cbn. by rewrite Ha.
Qed.

Lemma lacks_quoted s : has_newline s = false → lacks newline (quoted s) = true.
Proof.
  intros Hs. unfold quoted. rewrite !lacks_app.
  rewrite lacks_escape_quotes by (done || by apply has_newline_lacks). done.
Qed.

Lemma lacks_escaped_arg arg q : escapeSystemdArg arg = Ok q → lacks newline q = true.
Proof.
  unfold escapeSystemdArg. destruct (String.eqb arg ""); [by intros [= <-]|].
  destruct (has_newline arg) eqn:E; [done|].
  destruct (ContainsAny arg _); intros [= <-]; [by apply lacks_quoted|by apply has_newline_lacks].
Qed.

Lemma lacks_join c sep l :
  lacks c sep = true → Forall (λ x, lacks c x = true) l → lacks c (Join sep l) = true.
Proof.
  intros Hs. induction 1 as [|x l Hx H IH]; [done|].
  destruct H as [|y l Hy H]; [done|]. rewrite Join_cons, !lacks_app by done. by rewrite Hx, Hs, IH.
Qed.

Lemma lacks_execStart cmd args s : renderExecStart cmd args = Ok s → lacks newline s = true.
Proof.
  unfold renderExecStart. destruct (result_map _ _) as [qs|e] eqn:E; [|done]. intros [= <-].
  apply result_map_ok in E. apply lacks_join; [done|].
  induction E as [|a q l qs Ha _ IH]; constructor; [by eapply lacks_escaped_arg|done].
Qed.

(** The trimmed value of a validated field has no control character. *)
Lemma lacks_validated label value :
  ValidateUnitField label value = Ok tt → lacks newline (TrimSpace value) = true.
Proof.
  unfold ValidateUnitField. destruct (any_byte _ value) eqn:E; [done|]. intros _.
  rewrite any_byte_negb, negb_false_iff in E. apply (TrimSpace_all _ value) in E.
  unfold lacks. revert E. apply all_bytes_impl. intros c Hc. apply negb_true_iff, Ascii.eqb_neq.
  intros <-. by vm_compute in Hc.
Qed.

(** ** The lines of a unit file *)

Definition directive_lines (name value : string) : list string :=
  let v := TrimSpace value in if String.eqb v "" then [] else [name +:+ "=" +:+ v].

Definition unit_lines (item : DesiredItem) (execStart envPath : string) : list string :=
  let ex := sp_Execution (di_Spec item) in
  ["[Unit]"; "Description=Apollo DeviceProcess " +:+ di_Namespace item +:+ "/" +:+ di_Name item;
   "After=network.target"; ""; "[Service]"; "Type=simple"; "ExecStart=" +:+ execStart] ++
  directive_lines "WorkingDirectory" (ex_WorkingDir ex) ++
  ["EnvironmentFile=-" +:+ envPath;
   "Restart=" +:+ renderSystemdRestartMode (sp_RestartPolicy (di_Spec item))] ++
  directive_lines "User" (ex_User ex) ++ [""; "[Install]"; "WantedBy=multi-user.target"].

Lemma directive_concat name value :
  directive name value = concat_strings ((λ l, l +:+ nl) <$> directive_lines name value).
Proof.
  unfold directive, directive_lines. cbv zeta. case_match; [done|].
  cbn. by rewrite app_empty_r, !app_assoc_s.
Qed.

Lemma unit_text_lines item execStart envPath :
  unit_text item execStart envPath =
    concat_strings ((λ l, l +:+ nl) <$> unit_lines item execStart envPath).
Proof.
  unfold unit_text, unit_lines. rewrite !directive_concat, !fmap_app, !concat_strings_app.
  cbn [fmap list_fmap concat_strings foldr]. by rewrite !app_empty_r, !app_assoc_s.
Qed.

Lemma lacks_unit_lines item execStart envPath :
  lacks newline execStart = true → lacks newline envPath = true →
  lacks newline (di_Namespace item) = true → lacks newline (di_Name item) = true →
  lacks newline (TrimSpace (ex_WorkingDir (sp_Execution (di_Spec item)))) = true →
  lacks newline (TrimSpace (ex_User (sp_Execution (di_Spec item)))) = true →
  Forall (λ l, lacks newline l = true) (unit_lines item execStart envPath).
Proof.
  intros He Hp Hns Hn Hw Hu.
  assert (∀ name value, lacks newline name = true → lacks newline (TrimSpace value) = true →
    Forall (λ l, lacks newline l = true) (directive_lines name value)) as Hdir.
  { intros name value Hname Hv. unfold directive_lines. cbv zeta. case_match; [done|].
    apply Forall_singleton. rewrite !lacks_app, Hname, Hv. done. }
  assert (∀ p, lacks newline (renderSystemdRestartMode p) = true) as Hr.
  { intros p. unfold renderSystemdRestartMode. by repeat case_match. }
  unfold unit_lines. rewrite !Forall_app.
  split_all; repeat (apply Forall_cons; split); try done; try (by apply Hdir);
    rewrite ?lacks_app, ?He, ?Hp, ?Hns, ?Hn, ?Hr; done.
Qed.

(** ** Environment files *)

Lemma env_key_lacks c key :
  envKeyPattern key = true → env_key_rest c = false → lacks c key = true.
Proof.
  intros Hk Hc. apply (lacks_impl env_key_rest); [done|].
  destruct key as [|a rest]; [done|]. unfold envKeyPattern in Hk. bool_prop.
  cbn [all_bytes]. apply andb_true_iff. split; [|done].
  unfold env_key_rest. by match goal with H : env_key_first _ = true |- _ => rewrite H end.
Qed.

(** The line of a variable, without its newline. *)
Definition env_line (v : DeviceProcessEnvVar) : string :=
  TrimSpace (ev_Name v) +:+ "=" +:+ quoted (ev_Value v).

Lemma render_env_var_ok v l :
  render_env_var v = Ok l →
  l = env_line v +:+ nl ∧ lacks newline (env_line v) = true ∧ env_line v ≠ "" ∧
  read_env_line (env_line v) = Some (TrimSpace (ev_Name v), ev_Value v).
Proof.
  unfold render_env_var. cbv zeta. destruct (envKeyPattern (TrimSpace (ev_Name v))) eqn:Hk; [|done].
  destruct (has_newline (ev_Value v)) eqn:Hn; [done|]. cbn [negb]. intros [= <-].
  unfold env_line. split_all.
  - by rewrite !app_assoc_s.
  - rewrite !lacks_app, env_key_lacks, lacks_quoted by done. done.
  - by destruct (TrimSpace (ev_Name v)).
  - unfold read_env_line. change ("=" +:+ ?x) with (String "="%char x).
    rewrite after_byte_app, before_byte_app by (by apply env_key_lacks).
    rewrite <-(app_empty_r (quoted _)), quoted_app. cbn [Ascii.eqb]. by rewrite to_closing_escaped.
Qed.

Lemma read_env_lines vs ls :
  Forall2 (λ v l, render_env_var v = Ok l) vs ls →
  read_env_file (concat_strings ls) = Some ((λ v, (TrimSpace (ev_Name v), ev_Value v)) <$> vs).
Proof.
  intros H.
  assert (ls = (λ l, l +:+ nl) <$> (env_line <$> vs)) as ->.
  { induction H as [|v l vs ls Hv H IH]; [done|]. rewrite !fmap_cons, <-IH. f_equal.
    by apply render_env_var_ok. }
  assert (Forall (λ v, lacks newline (env_line v) = true ∧ env_line v ≠ "" ∧
    read_env_line (env_line v) = Some (TrimSpace (ev_Name v), ev_Value v)) vs) as Hall.
  { clear -H. remember ((λ l, l +:+ nl) <$> (env_line <$> vs)) as ls eqn:E. clear E.
    induction H as [|v l vs ls Hv H IH]; constructor; [by eapply render_env_var_ok|done]. }
  unfold read_env_file. rewrite Split_lines.
  2: { apply Forall_fmap. eapply Forall_impl; [exact Hall|]. by intros v (? & _). }
  rewrite filter_app. replace (filter (λ l, l ≠ "") [""]) with (@nil string) by done.
  rewrite app_nil_r. clear H.
  induction Hall as [|v vs (Hl & Hne & Hr) Hall IH]; [done|].
  rewrite !fmap_cons, filter_cons_True by done. cbn [mapM]. rewrite Hr. cbn. by rewrite IH.
Qed.

(** ** Properties *)

(** C27: a unit file has exactly the intended lines.  Whatever the command, the
    arguments, the working directory, the user and the environment of a spec
    are, a unit file that is rendered consists of the fixed section headers and
    directives, in order, with one line per directive: no field can add one.
    The namespace, the name and the path of the environment file have no
    newline. *)
Theorem unit_file_lines `{SortSlice} item envPath unit env :
  lacks newline (di_Namespace item) = true → lacks newline (di_Name item) = true →
  lacks newline envPath = true →
  renderUnitFiles item envPath = Ok (unit, env) →
  ∃ execStart, renderExecStart (ex_Command (sp_Execution (di_Spec item)))
                 (ex_Args (sp_Execution (di_Spec item))) = Ok execStart ∧
    Split newline unit = unit_lines item execStart envPath ++ [""].
Proof.
  intros Hns Hn Hp. unfold renderUnitFiles. cbv zeta.
  destruct (ex_Command (sp_Execution (di_Spec item))) as [|c cs]; [done|].
  destruct (renderExecStart _ _) as [execStart|e] eqn:He; [|done].
  destruct (ValidateUnitField "workingDir" _) as [[]|e] eqn:Hw; [|done].
  destruct (ValidateUnitField "user" _) as [[]|e] eqn:Hu; [|done].
  destruct (RenderEnvFile _) as [env'|e]; [|done]. intros [= <- <-].
  exists execStart. split; [done|]. rewrite unit_text_lines. apply Split_lines, lacks_unit_lines;
    eauto using lacks_execStart, lacks_validated.
Qed.

Definition sample_agent_item : DesiredItem :=
  mkDesiredItem "uid" "infra" "a" 1
    (mkSpec (mkDeviceRef DeviceRefKindNetworkSwitch "tor1" "") (mkArtifact ArtifactTypeFile "/bin/x" "")
       (mkExecution DeviceProcessBackendSystemd ["/bin/x"] ["-m"; "a b"]
          [mkEnvVar "B" "two words"; mkEnvVar " A " "x"] " /srv " "nobody")
       DeviceProcessRestartPolicyNever None) "sha256:00".

Lemma unit_file_lines_witness :
  ∃ unit env execStart, @renderUnitFiles insertion_sort_slice sample_agent_item "/etc/e" = Ok (unit, env) ∧
    Split newline unit = unit_lines sample_agent_item execStart "/etc/e" ++ [""].
Proof.
  destruct (@renderUnitFiles insertion_sort_slice sample_agent_item "/etc/e") as [[unit env]|e] eqn:E;
    [|vm_compute in E; discriminate E].
  destruct (@unit_file_lines insertion_sort_slice sample_agent_item "/etc/e" unit env
    eq_refl eq_refl eq_refl E) as (execStart & _ & Hs).
  exists unit, env, execStart. split; [reflexivity|exact Hs].
Defined.


(** Specifiers, variables, single quotes and semicolons, which systemd gives a
    meaning to in an ExecStart line, are left as they are. *)
Example exec_start_left_raw :
  renderExecStart ["/bin/echo"] ["%H"; "$HOME"; "'a"; ";"] = Ok "/bin/echo %H $HOME 'a ;".
Proof. reflexivity. Qed.

(** C29: the environment file is read back: one line per variable, sorted by
    name, each with the trimmed name and the exact value. *)
Theorem env_file_round_trip `{SortSlice} vars text :
  RenderEnvFile vars = Ok text →
  ∃ sorted, sorted ≡ₚ vars ∧ StronglySorted (λ a b, String.ltb (ev_Name b) (ev_Name a) = false) sorted ∧
    read_env_file text = Some ((λ v, (TrimSpace (ev_Name v), ev_Value v)) <$> sorted).
Proof.
  destruct vars as [|v vars].
  { intros [= <-]. exists []. split_all; [done|constructor|done]. }
  unfold RenderEnvFile. set (sorted := sort_slice _ _).
  destruct (result_map render_env_var sorted) as [ls|e] eqn:E; [|done]. intros [= <-].
  exists sorted. split_all.
  - apply sort_slice_perm.
  - apply (sort_slice_sorted _ (λ a b, String.ltb (ev_Name a) (ev_Name b))).
    + intros x y Hxy%ltb_true_le. by apply ltb_false_le.
    + intros x y z. rewrite !ltb_false_le. intros. by etrans.
  - apply read_env_lines. by apply result_map_ok.
Qed.

Lemma env_file_round_trip_witness :
  ∃ text, @RenderEnvFile insertion_sort_slice [mkEnvVar "B" "two words"; mkEnvVar "A" "x"] = Ok text ∧
    ∃ l, read_env_file text = Some l ∧ length l = 2%nat.
Proof.
  destruct (@RenderEnvFile insertion_sort_slice [mkEnvVar "B" "two words"; mkEnvVar "A" "x"])
    as [text|e] eqn:E; [|vm_compute in E; discriminate E].
  exists text. split; [reflexivity|].
  destruct (@env_file_round_trip insertion_sort_slice _ _ E) as (sorted & Hp & _ & Hr).
  eexists. split; [exact Hr|]. rewrite length_fmap, Hp. reflexivity.
Defined.

(** A relative command stays inside the artifact's root.  When
    [resolveCommand] accepts a command that does not start with a slash, for an
    absolute root, the result is a path under the cleaned root, with the
    arguments unchanged. *)
Theorem resolved_command_confined cwd cmd0 rest rootfs res :
  resolveCommand cwd (cmd0 :: rest) rootfs = Ok res →
  IsAbs (TrimSpace rootfs) = true → HasPrefix cmd0 (str1 slash) = false →
  ∃ path, res = path :: rest ∧
    (path = Clean (TrimSpace rootfs) ∨
     HasPrefix path (Clean (TrimSpace rootfs) +:+ str1 slash) = true).
Proof.
  intros Hr Ha Hc. unfold resolveCommand in Hr. cbv zeta in Hr. rewrite Hc in Hr.
  destruct (String.eqb_spec (TrimSpace rootfs) "") as [E|Hne]; [done|].
  destruct (String.eqb (TrimSpace cmd0) ""); [done|].
  destruct (HasPrefix (Clean (TrimSpace cmd0)) ".." || IsAbs (Clean (TrimSpace cmd0))); [done|].
  destruct (negb _ && negb _) eqn:Hin; [done|]. injection Hr as <-.
  eexists. split; [done|].
  assert (IsAbs (TrimSpace rootfs +:+ str1 slash +:+ Clean (TrimSpace cmd0)) = true) as Hja.
  { apply HasPrefix_spec in Ha as [t ->]. unfold IsAbs. rewrite app_assoc_s. apply HasPrefix_app. }
  assert (JoinPath (TrimSpace rootfs) (Clean (TrimSpace cmd0)) =
          Clean (TrimSpace rootfs +:+ str1 slash +:+ Clean (TrimSpace cmd0))) as Hj.
  { unfold JoinPath. by apply String.eqb_neq in Hne as ->. }
  assert (Abs cwd (TrimSpace rootfs) = Clean (TrimSpace rootfs)) as Hra by (unfold Abs; by rewrite Ha).
  assert (Abs cwd (JoinPath (TrimSpace rootfs) (Clean (TrimSpace cmd0))) =
          JoinPath (TrimSpace rootfs) (Clean (TrimSpace cmd0))) as Hjj.
  { rewrite Hj. unfold Abs. rewrite Clean_abs by done. by apply Clean_idempotent. }
  rewrite Hra, Hjj in Hin. apply andb_false_iff in Hin as [Hin|Hin]; apply negb_false_iff in Hin;
    [by right|left; by apply String.eqb_eq].
Qed.

Lemma resolved_command_confined_witness :
  ∃ res, resolveCommand "/" ["bin/../bin/agent"; "-v"] "/var/lib/a" = Ok res ∧
    ∃ path, res = path :: ["-v"] ∧
      (path = "/var/lib/a" ∨ HasPrefix path "/var/lib/a/" = true).
Proof.
  destruct (resolveCommand "/" ["bin/../bin/agent"; "-v"] "/var/lib/a") as [res|e] eqn:E;
    [|vm_compute in E; discriminate E].
  exists res. split; [reflexivity|].
  exact (resolved_command_confined "/" "bin/../bin/agent" ["-v"] "/var/lib/a" res E eq_refl eq_refl).
Defined.
