(* ===== verification/AgentPaths.v ===== *)
(** * Unit names and file paths (agent/systemd/manager.go)

    The names of the unit and environment files of a namespaced name. *)

From S2P Require Import Prelude GoStrings GoCrypto GoPath.

Definition unitDir : string := "/etc/systemd/system".
Definition envDir : string := "/etc/apollo/env".
Definition maxUnitBaseLen : Z := 80.

Record Paths := mkPaths {
  UnitName : string;
  UnitPath : string;
  EnvPath : string
}.

(** The runes [reInvalid] does not match. *)
Definition valid_rune (r : Z) : bool :=
  ((97 <=? r) && (r <=? 122)) || ((65 <=? r) && (r <=? 90)) || ((48 <=? r) && (r <=? 57)) ||
  (r =? 95) || (r =? 46) || (r =? 45).

(** [reInvalid.ReplaceAllString(s, "-")]. *)
Definition replace_invalid (s : string) : string := MapRunes (λ r, if valid_rune r then r else 45) s.

Section paths.
Context `{Unicode}.

Definition sanitize (s : string) : string :=
  let s := Trim dash (replace_invalid (TrimSpace (ToLower s))) in
  if String.eqb s "" then "device" else s.

Definition sanitizedBase (namespace name : string) : string :=
  let base := "apollo-" +:+ sanitize namespace +:+ "-" +:+ sanitize name in
  if Z.of_nat (String.length base) <=? maxUnitBaseLen then base
  else
    let suffix := take_bytes 8 (hex (sha256 base)) in
    let keep := maxUnitBaseLen - Z.of_nat (String.length suffix) - 1 in
    let keep := if keep <? 1 then 1 else keep in
    take_bytes (Z.to_nat keep) base +:+ "-" +:+ suffix.

Definition PathsFor (namespace name : string) : Paths :=
  let base := sanitizedBase namespace name in
  let unitName := base +:+ ".service" in
  mkPaths unitName (JoinPath unitDir unitName) (JoinPath envDir (base +:+ ".env")).
End paths.

(** ** Lemmas *)

(** The bytes of a unit name. *)
Definition unit_byte (c : ascii) : bool := valid_rune (code c).

Lemma replace_invalid_bytes s : all_bytes unit_byte (replace_invalid s) = true.
Proof.
  unfold replace_invalid, MapRunes. induction (runes s) as [|r rs IH]; [done|].
  cbn [foldr]. rewrite all_bytes_app, IH, andb_true_r.
  assert (∀ x, valid_rune x = true → all_bytes unit_byte (encode_rune x) = true) as Hv.
  { intros x Hx. assert (0 ≤ x < 128) as Hr.
    { unfold valid_rune in Hx. repeat (apply orb_true_iff in Hx as [Hx|Hx]);
        try apply Z.eqb_eq in Hx; bool_prop; lia. }
    unfold encode_rune. replace ((0 <=? x) && (x <? 128)) with true
      by (symmetry; apply andb_true_iff; split; [apply Z.leb_le|apply Z.ltb_lt]; lia).
    cbn. unfold unit_byte. by rewrite code_byte, Hx by lia. }
  destruct (valid_rune r) eqn:E; by apply Hv.
Qed.

Lemma take_bytes_all f n s : all_bytes f s = true → all_bytes f (take_bytes n s) = true.
Proof.
  revert n. induction s as [|c s IH]; intros [|n] H; try done. cbn in *.
  apply andb_true_iff in H as [-> Hs]. by apply IH.
Qed.

Section bytes.
Context `{Unicode}.

Lemma sanitize_bytes s : all_bytes unit_byte (sanitize s) = true.
Proof.
  unfold sanitize. cbv zeta. case_match; [done|].
  unfold Trim. apply trim_right_by_all, trim_left_by_all, replace_invalid_bytes.
Qed.

Lemma hex_unit_bytes s : all_bytes unit_byte (hex s) = true.
Proof.
  eapply all_bytes_impl; [|apply hex_alphabet]. intros c Hc. unfold is_hex in Hc.
  unfold unit_byte, valid_rune. rewrite !orb_true_iff, !andb_true_iff, !Z.leb_le in *. lia.
Qed.

Lemma sanitizedBase_bytes namespace name :
  all_bytes unit_byte (sanitizedBase namespace name) = true ∧
  HasPrefix (sanitizedBase namespace name) "apollo-" = true ∧
  Z.of_nat (String.length (sanitizedBase namespace name)) ≤ maxUnitBaseLen.
Proof.
  unfold sanitizedBase. cbv zeta.
  set (tail := sanitize namespace +:+ "-" +:+ sanitize name).
  assert (all_bytes unit_byte ("apollo-" +:+ tail) = true) as Hb.
  { unfold tail. rewrite !all_bytes_app, !sanitize_bytes. done. }
  destruct (Z.leb_spec (Z.of_nat (String.length ("apollo-" +:+ tail))) maxUnitBaseLen) as [Hl|Hl].
  { split_all; [exact Hb|apply HasPrefix_app|exact Hl]. }
  rewrite !length_take_bytes, length_hex, length_sha256.
  change (maxUnitBaseLen - Z.of_nat (Nat.min 8 (2 * 32)) - 1 <? 1) with false. cbv iota.
  change (Z.to_nat (maxUnitBaseLen - Z.of_nat (Nat.min 8 (2 * 32)) - 1)) with (7 + 64)%nat.
  assert (take_bytes (7 + 64) ("apollo-" +:+ tail) = "apollo-" +:+ take_bytes 64 tail) as Ht by done.
  split_all.
  - rewrite !all_bytes_app, (take_bytes_all _ _ _ Hb), (take_bytes_all _ _ _ (hex_unit_bytes _)). done.
  - rewrite Ht, app_assoc_s. apply HasPrefix_app.
  - rewrite !length_app_s, !length_take_bytes, length_hex, length_sha256.
    change (String.length "-") with 1%nat. unfold maxUnitBaseLen in *. lia.
Qed.
End bytes.

(** A name of unit bytes after the directory prefix is one more component. *)
Lemma unit_bytes_plain s ext :
  all_bytes unit_byte s = true → HasPrefix s "apollo-" = true → all_bytes unit_byte ext = true →
  plain_part (s +:+ ext) = true.
Proof.
  intros Hb Hp He. apply HasPrefix_spec in Hp as [t ->]. unfold plain_part.
  rewrite !app_assoc_s. rewrite !andb_true_iff. split_all; try done.
  apply (lacks_impl unit_byte); [done|]. rewrite <-app_assoc_s, all_bytes_app. by rewrite Hb, He.
Qed.

Lemma paths_of_unit `{Unicode} namespace name :
  UnitPath (PathsFor namespace name) = unitDir +:+ "/" +:+ sanitizedBase namespace name +:+ ".service" ∧
  EnvPath (PathsFor namespace name) = envDir +:+ "/" +:+ sanitizedBase namespace name +:+ ".env".
Proof.
  destruct (sanitizedBase_bytes namespace name) as (Hb & Hp & _). split.
  - apply (JoinPath_component _ ["etc"; "systemd"; "system"]); [done|done| |by apply unit_bytes_plain].
    by repeat constructor.
  - apply (JoinPath_component _ ["etc"; "apollo"; "env"]); [done|done| |by apply unit_bytes_plain].
    by repeat constructor.
Qed.

(** ** Properties *)

(** C30: unit files stay in their directory.  For every namespace and name,
    the unit name consists of letters, digits, dashes, dots and underscores, its
    base is at most 80 bytes long, and the unit and environment files are direct
    children of the unit and the environment directory. *)
Theorem unit_paths_confined `{Unicode} namespace name :
  let base := sanitizedBase namespace name in
  all_bytes unit_byte base = true ∧ Z.of_nat (String.length base) ≤ maxUnitBaseLen ∧
  UnitPath (PathsFor namespace name) = unitDir +:+ "/" +:+ base +:+ ".service" ∧
  EnvPath (PathsFor namespace name) = envDir +:+ "/" +:+ base +:+ ".env".
Proof.
  intros base. destruct (sanitizedBase_bytes namespace name) as (Hb & Hp & Hl).
  split; [exact Hb|]. split; [exact Hl|]. apply paths_of_unit.
Qed.

(** Different DeviceProcesses can share their files.  The dash that joins
    the namespace and the name also occurs in them, so [a-b]/[c] and [a]/[b-c]
    have the same unit and environment file. *)
Theorem unit_paths_collision `{Unicode} a b c :
  sanitize (a +:+ "-" +:+ b) = a +:+ "-" +:+ b → sanitize c = c → sanitize a = a →
  sanitize (b +:+ "-" +:+ c) = b +:+ "-" +:+ c →
  PathsFor (a +:+ "-" +:+ b) c = PathsFor a (b +:+ "-" +:+ c).
Proof.
  intros Hab Hc Ha Hbc. unfold PathsFor, sanitizedBase. cbv zeta.
  by rewrite Hab, Hc, Ha, Hbc, !app_assoc_s.
Qed.

Lemma unit_paths_collision_witness :
  @sanitize ascii_unicode "team-a" = "team-a" ∧
  @PathsFor ascii_unicode "team-a" "web" = @PathsFor ascii_unicode "team" "a-web".
Proof.
  assert (@sanitize ascii_unicode "team-a" = "team-a") as Hs by (vm_compute; reflexivity).
  split; [exact Hs|].
  apply (@unit_paths_collision ascii_unicode "team" "a" "web"); vm_compute; reflexivity.
Defined.
