(* ===== verification/AgentHost.v ===== *)
(** * The machine the agent runs on

    The file system, [systemctl], the OCI fetcher and the HTTP client of the
    agent are the class [Host]; every call that may change the machine is
    recorded in the trace.  [HostLaws] states what the agent relies on, over the
    regular files of the machine.  [Machine] is an instance: files, units, a
    registry and a budget of failures. *)

From S2P Require Import Prelude GoStrings GoTime GoPath GatewayServer.

(** The longest pause between two attempts, of the loop and of downloads. *)
Definition maxBackoff : Z := 30 * Second.

(** An error of package [os]; [errors.Is(err, os.ErrNotExist)] and its text. *)
Record IoError := mkIoError { io_NotExist : bool; io_Message : string }.

(** [ociResult]. *)
Record OciResult := mkOciResult {
  oci_rootfsPath : string;
  oci_digest : string;
  oci_downloaded : bool;
  oci_verified : bool;
  oci_attempts : Z;
  oci_lastAttemptTime : string;
  oci_lastError : string;
  oci_downloadReason : string;
  oci_downloadMessage : string;
  oci_verifyReason : string;
  oci_verifyMessage : string
}.

(** The requests of the agent: what it sets of an [http.Request]. *)
Record HttpRequest := mkHttpRequest {
  hr_Method : string;
  hr_URL : string;
  hr_DeviceToken : string;
  hr_IfNoneMatch : string;
  hr_Report : option ReportRequest
}.

(** The calls that may change the machine or the gateway. *)
Inductive AgentCall :=
  | CallMkdirAll (dir : string)
  | CallCreateTemp (dir pattern : string)
  | CallChmod (name : string) (perm : Z)
  | CallWrite (name content : string)
  | CallClose (name : string)
  | CallRename (from to : string)
  | CallRemove (path : string)
  | CallSystemctl (args : list string)
  | CallEnsure (ref : string)
  | CallHttp (r : HttpRequest).

(** A file made by [os.CreateTemp] is named by its path; the pattern ends in a
    star, which is left out here.  [systemctl] answers its combined output and
    the text of its error; [ensure_artifact] is the interface [ociFetcher]. *)
Class Host (S : Type) := {
  read_file : string → S → result IoError string;
  mkdir_all : string → S → result IoError unit * S;
  create_temp : string → string → S → result IoError string * S;
  chmod_file : string → Z → S → result IoError unit * S;
  write_file : string → string → S → result IoError unit * S;
  close_file : string → S → result IoError unit * S;
  rename_file : string → string → S → result IoError unit * S;
  remove_file : string → S → result IoError unit * S;
  systemctl : list string → S → (string * option string) * S;
  ensure_artifact : string → S → (OciResult * option string) * S;
  http_do : HttpRequest → S → result string Response * S
}.

(** The files only the agent writes: everything that starts like a unit or an
    environment file of it. *)
Definition agent_file (p : string) : bool :=
  HasPrefix p "/etc/systemd/system/apollo-" || HasPrefix p "/etc/apollo/env/apollo-".

(** A name in a directory, as [os.CreateTemp] joins them. *)
Definition in_dir (d name : string) : string :=
  if String.eqb (TrimSuffix slash d) d then d +:+ "/" +:+ name else d +:+ name.

(** What the agent relies on, over the contents of the regular files.  An
    operation that fails changes no content, except that a failed write leaves
    any content in the file it wrote. *)
Class HostLaws (S : Type) `{Host S} := {
  content : S → string → option string;
  read_file_ok : ∀ p s c, read_file p s = Ok c → content s p = Some c;
  read_file_missing : ∀ p s e, read_file p s = Err e → io_NotExist e = true → content s p = None;
  mkdir_all_frame : ∀ d s p, content (mkdir_all d s).2 p = content s p;
  create_temp_ok : ∀ d pat s n s', create_temp d pat s = (Ok n, s') →
    (∃ x, n = in_dir d (pat +:+ x)) ∧ content s n = None ∧ content s' n = Some "" ∧
    ∀ p, p ≠ n → content s' p = content s p;
  create_temp_err : ∀ d pat s e s', create_temp d pat s = (Err e, s') →
    ∀ p, content s' p = content s p;
  chmod_file_frame : ∀ n m s p, content (chmod_file n m s).2 p = content s p;
  write_file_ok : ∀ n c s s', write_file n c s = (Ok tt, s') →
    content s' n = Some (default "" (content s n) +:+ c);
  write_file_frame : ∀ n c s p, p ≠ n → content (write_file n c s).2 p = content s p;
  close_file_frame : ∀ n s p, content (close_file n s).2 p = content s p;
  rename_file_ok : ∀ a b s s', rename_file a b s = (Ok tt, s') →
    content s' b = content s a ∧ (a ≠ b → content s' a = None) ∧
    ∀ p, p ≠ a → p ≠ b → content s' p = content s p;
  rename_file_err : ∀ a b s e s', rename_file a b s = (Err e, s') →
    ∀ p, content s' p = content s p;
  remove_file_ok : ∀ a s s', remove_file a s = (Ok tt, s') → content s' a = None;
  remove_file_missing : ∀ a s e s', remove_file a s = (Err e, s') → io_NotExist e = true →
    content s a = None;
  remove_file_err : ∀ a s e s' p, remove_file a s = (Err e, s') → content s' p = content s p;
  remove_file_frame : ∀ a s p, p ≠ a → content (remove_file a s).2 p = content s p;
  systemctl_frame : ∀ args s p, agent_file p = true → content (systemctl args s).2 p = content s p;
  ensure_frame : ∀ ref s p, agent_file p = true → content (ensure_artifact ref s).2 p = content s p;
  http_frame : ∀ r s p, content (http_do r s).2 p = content s p
}.

(** ** An instance *)

(** [units]: the active units with their main process; [broken]: the
    [systemctl] commands that fail; [full]: no file can be written; [serial]:
    the next temporary name. *)
Record Machine := mkMachine {
  files : gmap string string;
  units : gmap string Z;
  broken : list (list string);
  full : bool;
  registry : string → OciResult * option string;
  gateway : HttpRequest → result string Response;
  serial : nat
}.

Definition set_files (f : gmap string string) (m : Machine) : Machine :=
  mkMachine f (units m) (broken m) (full m) (registry m) (gateway m) (serial m).
Definition set_units (u : gmap string Z) (m : Machine) : Machine :=
  mkMachine (files m) u (broken m) (full m) (registry m) (gateway m) (serial m).
Definition next_serial (m : Machine) : Machine :=
  mkMachine (files m) (units m) (broken m) (full m) (registry m) (gateway m) (Datatypes.S (serial m)).

Definition enoent : IoError := mkIoError true "no such file or directory".
Definition enospc : IoError := mkIoError false "no space left on device".

Definition machine_create_temp (d pat : string) (m : Machine) : result IoError string * Machine :=
  let n := in_dir d (pat +:+ pretty (serial m)) in
  match files m !! n with
  | Some _ => (Err (mkIoError false "file exists"), m)
  | None => if full m then (Err enospc, m) else (Ok n, next_serial (set_files (<[n := ""]> (files m)) m))
  end.

Definition machine_write (n c : string) (m : Machine) : result IoError unit * Machine :=
  if full m then (Err enospc, m)
  else (Ok tt, set_files (<[n := default "" (files m !! n) +:+ c]> (files m)) m).

Definition machine_rename (a b : string) (m : Machine) : result IoError unit * Machine :=
  match files m !! a with
  | None => (Err enoent, m)
  | Some c => (Ok tt, set_files (<[b := c]> (delete a (files m))) m)
  end.

Definition machine_remove (a : string) (m : Machine) : result IoError unit * Machine :=
  match files m !! a with
  | None => (Err enoent, m)
  | Some _ => (Ok tt, set_files (delete a (files m)) m)
  end.

Definition show_text (pid : option Z) : string :=
  match pid with
  | Some pid => "MainPID=" +:+ pretty pid +:+ nl +:+
      "ExecMainStartTimestamp=Tue 2024-01-02 05:08:51 UTC" +:+ nl +:+ "ActiveState=active" +:+ nl +:+
      "SubState=running" +:+ nl
  | None => "MainPID=0" +:+ nl +:+ "ExecMainStartTimestamp=" +:+ nl +:+ "ActiveState=inactive" +:+ nl +:+
      "SubState=dead" +:+ nl
  end.

Definition start_unit (u : string) (m : Machine) : (string * option string) * Machine :=
  match files m !! ("/etc/systemd/system/" +:+ u) with
  | Some _ => (("", None), set_units (<[u := 100]> (units m)) m)
  | None => (("Unit " +:+ u +:+ " could not be found.", Some "exit status 5"), m)
  end.

Definition machine_systemctl (args : list string) (m : Machine) : (string * option string) * Machine :=
  if bool_decide (args ∈ broken m) then (("failure", Some "exit status 1"), m)
  else match args with
       | ["enable"; "--now"; u] | ["restart"; u] | ["start"; u] => start_unit u m
       | ["disable"; "--now"; u] => (("", None), set_units (delete u (units m)) m)
       | "show" :: u :: _ => ((show_text (units m !! u), None), m)
       | _ => (("", None), m)
       end.

#[export] Instance machine_host : Host Machine := {|
  read_file p m := match files m !! p with Some c => Ok c | None => Err enoent end;
  mkdir_all d m := (Ok tt, m);
  create_temp := machine_create_temp;
  chmod_file n p m := (Ok tt, m);
  write_file := machine_write;
  close_file n m := (Ok tt, m);
  rename_file := machine_rename;
  remove_file := machine_remove;
  systemctl := machine_systemctl;
  ensure_artifact ref m := (registry m ref, m);
  http_do r m := (gateway m r, m)
|}.

Lemma machine_systemctl_files args m : files (machine_systemctl args m).2 = files m.
Proof.
  unfold machine_systemctl, start_unit.
  repeat match goal with |- context [match ?x with _ => _ end] => destruct x end; reflexivity.
Qed.

#[export] Program Instance machine_laws : HostLaws Machine := {| content m p := files m !! p |}.
Next Obligation. simpl. intros p m c H. destruct (files m !! p); by simplify_eq. Qed.
Next Obligation. simpl. intros p m e H _. by destruct (files m !! p). Qed.
Next Obligation. done. Qed.
Next Obligation.
  simpl. unfold machine_create_temp. intros d pat m n m' H.
  destruct (files m !! _) eqn:E; [done|]. destruct (full m); [done|]. simplify_eq/=.
  split_all; [eauto|done|by rewrite lookup_insert_eq|]. intros p Hp. by rewrite lookup_insert_ne.
Qed.
Next Obligation.
  simpl. unfold machine_create_temp. intros d pat m e m' H p.
  destruct (files m !! in_dir d _); [by simplify_eq|]. destruct (full m); by simplify_eq.
Qed.
Next Obligation. done. Qed.
Next Obligation.
  simpl. unfold machine_write. intros n c m m' H. destruct (full m); simplify_eq/=.
  by rewrite lookup_insert_eq.
Qed.
Next Obligation.
  simpl. unfold machine_write. intros n c m p Hp. destruct (full m); [done|]. cbn.
  by rewrite lookup_insert_ne.
Qed.
Next Obligation. done. Qed.
Next Obligation.
  simpl. unfold machine_rename. intros a b m m' H. destruct (files m !! a) eqn:E; simplify_eq/=.
  split_all; [by rewrite lookup_insert_eq| |].
  - intros Hab. rewrite lookup_insert_ne by done. by rewrite lookup_delete_eq.
  - intros p Ha Hb. by rewrite lookup_insert_ne, lookup_delete_ne.
Qed.
Next Obligation.
  simpl. unfold machine_rename. intros a b m e m' H p. destruct (files m !! a); by simplify_eq.
Qed.
Next Obligation.
  simpl. unfold machine_remove. intros a m m' H. destruct (files m !! a) eqn:E; simplify_eq/=.
  by rewrite lookup_delete_eq.
Qed.
Next Obligation.
  simpl. unfold machine_remove. intros a m e m' H _. destruct (files m !! a) eqn:E; by simplify_eq/=.
Qed.
Next Obligation.
  simpl. unfold machine_remove. intros a m e m' p H. destruct (files m !! a) eqn:E; by simplify_eq/=.
Qed.
Next Obligation.
  simpl. unfold machine_remove. intros a m p Hp. destruct (files m !! a) eqn:E; [|done]. cbn.
  by rewrite lookup_delete_ne.
Qed.
Next Obligation. intros args m p _. cbn. by rewrite machine_systemctl_files. Qed.
Next Obligation. done. Qed.
Next Obligation. done. Qed.
