(* ===== verification/AgentSystemd.v ===== *)
(** * Unit files and systemctl (agent/systemd/manager.go)

    Writing a file only when its content changes, through a temporary file and
    a rename; removing files; the [systemctl] commands and the reading of
    [systemctl show]. *)

From S2P Require Import Prelude GoStrings GoTime GoStrconv GoPath GatewayServer AgentPaths AgentHost.

#[local] Open Scope go_scope.

Section systemd.
Context {G S : Type} `{Host S}.

Abbreviation AG := (M G S AgentCall).

(** ** Files *)

Definition op_mkdir (d : string) : AG (result IoError unit) := call (CallMkdirAll d) (mkdir_all d).
Definition op_create (d pat : string) : AG (result IoError string) :=
  call (CallCreateTemp d pat) (create_temp d pat).
Definition op_chmod (n : string) (perm : Z) : AG (result IoError unit) :=
  call (CallChmod n perm) (chmod_file n perm).
Definition op_write (n c : string) : AG (result IoError unit) := call (CallWrite n c) (write_file n c).
Definition op_close (n : string) : AG (result IoError unit) := call (CallClose n) (close_file n).
Definition op_rename (a b : string) : AG (result IoError unit) := call (CallRename a b) (rename_file a b).
Definition op_remove (p : string) : AG (result IoError unit) := call (CallRemove p) (remove_file p).

(** [if err := m; err != nil { tmp.Close(); return err }]. *)
Definition or_close {A} (tmp : string) (m : AG (result IoError unit)) (k : AG (result IoError A))
    : AG (result IoError A) :=
  r <- m ;; match r with Err e => op_close tmp ;;; ret (Err e) | Ok _ => k end.

(** A temporary file in the directory of [path], filled and renamed to [path];
    the deferred removal runs however it ends.  A mode of 0 is not set. *)
Definition replace_file (pattern path content : string) (perm : Z) : AG (result IoError unit) :=
  _ <-? op_mkdir (Dir path) ;;
  tmp <-? op_create (Dir path) pattern ;;
  deferred (op_remove tmp)
    (or_close tmp (if perm =? 0 then ret (Ok tt) else op_chmod tmp perm)
       (or_close tmp (op_write tmp content)
          (_ <-? op_close tmp ;; op_rename tmp path))).

Definition tempFileTemplate : string := ".tmp-apollo-".

(** The answer is whether the file changed. *)
Definition writeIfChanged (path content : string) (perm : Z) : AG (result IoError bool) :=
  existing <- ask (read_file path) ;;
  let write := (_ <-? replace_file tempFileTemplate path content perm ;; ret (Ok true)) in
  match existing with
  | Ok c => if String.eqb c content then ret (Ok false) else write
  | Err e => if io_NotExist e then write else ret (Err e)
  end.

Definition removeIfExists (path : string) : AG (result IoError bool) :=
  r <- op_remove path ;;
  match r with
  | Ok _ => ret (Ok true)
  | Err e => if io_NotExist e then ret (Ok false) else ret (Err e)
  end.

(** What a function that answers two flags and an error returns. *)
Record Details := mkDetails { d_unit : bool; d_env : bool; d_err : option IoError }.

Definition EnsureUnitWithDetails (unitName unitContent envPath envContent : string) : AG Details :=
  changedUnit <- writeIfChanged (JoinPath unitDir unitName) unitContent 420 ;;
  match changedUnit with
  | Err e => ret (mkDetails false false (Some e))
  | Ok changedUnit =>
      r <- op_mkdir (Dir envPath) ;;
      match r with
      | Err e => ret (mkDetails changedUnit false (Some e))
      | Ok _ =>
          changedEnv <- writeIfChanged envPath envContent 384 ;;
          match changedEnv with
          | Err e => ret (mkDetails changedUnit false (Some e))
          | Ok changedEnv => ret (mkDetails changedUnit changedEnv None)
          end
      end
  end.

Definition RemoveUnitWithDetails (unitPath envPath : string) : AG Details :=
  unitRemoved <- removeIfExists unitPath ;;
  match unitRemoved with
  | Err e => ret (mkDetails false false (Some e))
  | Ok unitRemoved =>
      envRemoved <- removeIfExists envPath ;;
      match envRemoved with
      | Err e => ret (mkDetails unitRemoved false (Some e))
      | Ok envRemoved => ret (mkDetails unitRemoved envRemoved None)
      end
  end.

Definition EnsureUnit (unitName unitContent envPath envContent : string) : AG (bool * option IoError) :=
  d <- EnsureUnitWithDetails unitName unitContent envPath envContent ;; ret (d_unit d || d_env d, d_err d).

Definition RemoveUnit (unitPath envPath : string) : AG (bool * option IoError) :=
  d <- RemoveUnitWithDetails unitPath envPath ;; ret (d_unit d || d_env d, d_err d).

(** ** systemctl *)

Definition runSystemctl (args : list string) : AG (string * option string) :=
  call (CallSystemctl args) (systemctl args).

(** The text of a failed command: what was run, the error and the output. *)
Definition systemctl_error (what err out : string) : string :=
  "systemctl " +:+ what +:+ ": " +:+ err +:+ ": " +:+ TrimSpace out.

Definition checked (what : string) (args : list string) : AG (option string) :=
  r <- runSystemctl args ;;
  ret (match r.2 with Some err => Some (systemctl_error what err r.1) | None => None end).

Definition EnableAndStart (u : string) : AG (option string) :=
  checked ("enable --now " +:+ u) ["enable"; "--now"; u].
Definition Start (u : string) : AG (option string) := checked ("start " +:+ u) ["start"; u].
Definition Restart (u : string) : AG (option string) := checked ("restart " +:+ u) ["restart"; u].
Definition StopAndDisable (u : string) : AG (option string) :=
  checked ("disable --now " +:+ u) ["disable"; "--now"; u].
Definition DaemonReload : AG (option string) := checked "daemon-reload" ["daemon-reload"].

Definition IsUnitNotFoundError `{Unicode} (err : string) : bool :=
  let s := ToLower err in
  Contains s "could not be found" || Contains s "not-found" || Contains s "loaded: not-found" ||
  Contains s "does not exist" || (Contains s "unit file" && Contains s "does not exist").

(** A failed stop of a unit that does not exist is no failure. *)
Definition stopAndDisableQuiet `{Unicode} (u : string) : AG (option string) :=
  err <- StopAndDisable u ;;
  ret (match err with
       | Some e => if IsUnitNotFoundError e then None else Some e
       | None => None
       end).
End systemd.

(** ** Reading systemctl show *)

(** The value of the first line that starts with [key=]. *)
Definition show_value (key : string) (lines : list string) : string :=
  match List.find (λ line, HasPrefix line (key +:+ "=")) lines with
  | Some line => TrimPrefix line (key +:+ "=")
  | None => ""
  end.

Definition EqualFold_na (s : string) : bool :=
  match skip_name "n/a" s with Some EmptyString => true | _ => false end.

(** The instant [parseTimestamp] returns, the zero time with an error too. *)
Definition parseTimestamp `{LocalZone} (val : string) : Z :=
  let val := TrimSpace val in
  if String.eqb val "" || EqualFold_na val then zero_time
  else match parse_systemctl val with
       | Some t => t
       | None => default zero_time (parse_rfc3339 val)
       end.

Record UnitStatus := mkUnitStatus {
  us_pid : Z;
  us_start : Z;
  us_active : string;
  us_sub : string
}.

Definition parse_show `{LocalZone} (out : string) : UnitStatus :=
  let lines := Split newline out in
  mkUnitStatus (parse_int (TrimSpace (show_value "MainPID" lines)))
    (parseTimestamp (TrimSpace (show_value "ExecMainStartTimestamp" lines)))
    (show_value "ActiveState" lines) (show_value "SubState" lines).

Definition show_args (u : string) : list string :=
  ["show"; u; "-p"; "MainPID"; "-p"; "ExecMainStartTimestamp"; "-p"; "ActiveState"; "-p"; "SubState"].

Definition Show {G S} `{Host S} `{LocalZone} (u : string) : M G S AgentCall (result string UnitStatus) :=
  r <- runSystemctl (show_args u) ;;
  ret (match r.2 with
       | Some err => Err (systemctl_error ("show " +:+ u) err r.1)
       | None => Ok (parse_show r.1)
       end).

(** The output of the test suite of the code. *)
Example parse_show_ex :
  let out := "MainPID=4321" +:+ nl +:+ "ExecMainStartTimestamp=Tue 2024-02-13 14:22:11 UTC" +:+ nl +:+
    "ActiveState=active" +:+ nl +:+ "SubState=running" +:+ nl in
  let st := @parse_show utc_zone out in
  us_pid st = 4321 ∧ format_rfc3339 (us_start st) = "2024-02-13T14:22:11Z" ∧
  us_active st = "active" ∧ us_sub st = "running".
Proof. vm_compute. repeat split. Qed.
