(* ===== verification/AgentSystemdFacts.v ===== *)
(** * What the file operations of the agent guarantee

    A file is replaced in one step, so neither an error nor a crash leaves a
    part of the new content; what is removed is gone; and nothing else
    changes. *)

From S2P Require Import Prelude GoStrings GoPath GatewayServer AgentPaths AgentHost AgentSystemd.

#[local] Open Scope go_scope.

(** The temporary files next to a file. *)
Definition is_temp (pat path p : string) : Prop := ∃ x, p = in_dir (Dir path) (pat +:+ x).

(** One call that may change the machine. *)
Inductive host_step {S} `{Host S} : S → S → Prop :=
  | step_mkdir d s : host_step s (mkdir_all d s).2
  | step_create d pat s : host_step s (create_temp d pat s).2
  | step_chmod n m s : host_step s (chmod_file n m s).2
  | step_write n c s : host_step s (write_file n c s).2
  | step_close n s : host_step s (close_file n s).2
  | step_rename a b s : host_step s (rename_file a b s).2
  | step_remove a s : host_step s (remove_file a s).2.

Section replace.
Context {G S : Type} `{HostLaws S}.
Context (pat path c : string) (s0 : S) (J : S → Prop).

(** Every state between two calls has the old or the new content; [J] is
    whatever such steps preserve. *)
Context (HJ : ∀ s s', host_step s s' → J s →
  content s' path = content s0 path ∨ content s' path = Some c → J s').
Context (Hpath : ¬ is_temp pat path path).

(** The files that are neither written nor temporary are as at the start. *)
Definition others_kept (s : S) : Prop :=
  ∀ p, p ≠ path → ¬ is_temp pat path p → content s p = content s0 p.

Definition not_yet (s : S) : Prop := J s ∧ others_kept s ∧ content s path = content s0 path.
Definition tmp_holds (n x : string) (s : S) : Prop :=
  is_temp pat path n ∧ not_yet s ∧ content s n = Some x.
Definition replaced (r : result IoError unit) (s : S) : Prop :=
  J s ∧ others_kept s ∧
  content s path = match r with Ok _ => Some c | Err _ => content s0 path end.

(** A step that touches at most a temporary file. *)
Lemma temp_step n s s' : host_step s s' → is_temp pat path n →
  (∀ p, p ≠ n → content s' p = content s p) → J s → others_kept s →
  content s path = content s0 path ∨ content s path = Some c →
  J s' ∧ others_kept s' ∧ content s' path = content s path.
Proof.
  intros Hs Ht Hf HJs Ho Hp.
  assert (content s' path = content s path) as Hsame by (apply Hf; intros ->; done).
  split_all; [|intros p Hpp Hnt|done].
  - apply (HJ _ _ Hs HJs). by rewrite Hsame.
  - rewrite Hf; [by apply Ho|]. intros ->. done.
Qed.

Lemma not_yet_step n s s' : host_step s s' → is_temp pat path n →
  (∀ p, p ≠ n → content s' p = content s p) → not_yet s → not_yet s'.
Proof.
  intros Hs Ht Hf (HJs & Ho & Hp).
  destruct (temp_step n s s') as (HJ' & Ho' & Hp'); auto.
  split; [done|split; [done|congruence]].
Qed.

Lemma replaced_step n r s s' : host_step s s' → is_temp pat path n →
  (∀ p, p ≠ n → content s' p = content s p) → replaced r s → replaced r s'.
Proof.
  intros Hs Ht Hf (HJs & Ho & Hp).
  destruct (temp_step n s s') as (HJ' & Ho' & Hp'); auto.
  { rewrite Hp. destruct r; auto. }
  split; [done|split; [done|congruence]].
Qed.

(** A step that touches no file. *)
Lemma quiet_step s s' : host_step s s' → (∀ p, content s' p = content s p) → not_yet s → not_yet s'.
Proof.
  intros Hs Hf (HJs & Ho & Hp). split; [|split].
  - apply (HJ s); [done|done|left; by rewrite Hf].
  - intros p ??. rewrite Hf. by apply Ho.
  - by rewrite Hf.
Qed.

Lemma tmp_quiet_step n x s s' : host_step s s' →
  (∀ p, content s' p = content s p) → tmp_holds n x s → tmp_holds n x s'.
Proof.
  intros Hs Hf (Ht & Hn & Hx). split; [done|]. split; [by apply (quiet_step s)|by rewrite Hf].
Qed.

(** The operations on a temporary file. *)
Lemma op_mkdir_triple d : env_triple not_yet (op_mkdir (G:=G) d) (λ _, not_yet).
Proof.
  apply env_triple_call. intros s a s' E Hn.
  assert (s' = (mkdir_all d s).2) as -> by (by rewrite E).
  apply (quiet_step s); [constructor|apply mkdir_all_frame|done].
Qed.

Lemma op_create_triple :
  env_triple not_yet (op_create (G:=G) (Dir path) pat)
    (λ r s, match r with Ok n => tmp_holds n "" s | Err _ => not_yet s end).
Proof.
  apply env_triple_call. intros s a s' E Hn.
  assert (host_step s s') as Hs.
  { assert (s' = (create_temp (Dir path) pat s).2) as -> by (by rewrite E). constructor. }
  destruct a as [n|e].
  - destruct (create_temp_ok _ _ _ _ _ E) as (Ht & _ & Hc & F).
    split; [exact Ht|]. split; [by apply (not_yet_step n s)|done].
  - apply (quiet_step s); [done| |done]. by apply (create_temp_err _ _ _ _ _ E).
Qed.

Lemma op_chmod_triple n perm x :
  env_triple (tmp_holds n x) (op_chmod (G:=G) n perm) (λ _, tmp_holds n x).
Proof.
  apply env_triple_call. intros s a s' E Hn.
  assert (s' = (chmod_file n perm s).2) as -> by (by rewrite E).
  apply (tmp_quiet_step n x s); [constructor|apply chmod_file_frame|done].
Qed.

Lemma op_close_triple n x :
  env_triple (tmp_holds n x) (op_close (G:=G) n) (λ _, tmp_holds n x).
Proof.
  apply env_triple_call. intros s a s' E Hn.
  assert (s' = (close_file n s).2) as -> by (by rewrite E).
  apply (tmp_quiet_step n x s); [constructor|apply close_file_frame|done].
Qed.

Lemma op_close_not_yet n : env_triple not_yet (op_close (G:=G) n) (λ _, not_yet).
Proof.
  apply env_triple_call. intros s a s' E Hn.
  assert (s' = (close_file n s).2) as -> by (by rewrite E).
  apply (quiet_step s); [constructor|apply close_file_frame|done].
Qed.

Lemma op_write_triple n :
  env_triple (tmp_holds n "") (op_write (G:=G) n c)
    (λ r s, match r with Ok _ => tmp_holds n c s | Err _ => is_temp pat path n ∧ not_yet s end).
Proof.
  apply env_triple_call. intros s a s' E (Ht & Hn & Hx).
  assert (not_yet s') as Hn'.
  { assert (s' = (write_file n c s).2) as -> by (by rewrite E).
    apply (not_yet_step n s); [constructor|done| |done]. intros p. apply write_file_frame. }
  destruct a as [[]|e]; [|done]. split; [done|]. split; [done|].
  by rewrite (write_file_ok _ _ _ _ E), Hx.
Qed.

Lemma op_rename_triple n :
  env_triple (tmp_holds n c) (op_rename (G:=G) n path) (λ r s, is_temp pat path n ∧ replaced r s).
Proof.
  apply env_triple_call. intros s a s' E (Ht & (HJs & Ho & Hp) & Hx). split; [done|].
  assert (host_step s s') as Hs.
  { assert (s' = (rename_file n path s).2) as -> by (by rewrite E). constructor. }
  destruct a as [[]|e].
  - destruct (rename_file_ok _ _ _ _ E) as (Hc & _ & F). rewrite Hx in Hc. split; [|split; [|done]].
    + apply (HJ s); auto.
    + intros p Hpp Hnt. rewrite F; [by apply Ho| |done]. intros ->. done.
  - pose proof (rename_file_err _ _ _ _ _ E) as F.
    split; [apply (HJ s); [done|done|left; by rewrite F]|split; [|by rewrite F]].
    intros p ??. rewrite F. by apply Ho.
Qed.

Lemma op_remove_triple n r :
  env_triple (λ s, is_temp pat path n ∧ replaced r s) (op_remove (G:=G) n) (λ _, replaced r).
Proof.
  apply env_triple_call. intros s a s' E [Ht Hr].
  assert (s' = (remove_file n s).2) as -> by (by rewrite E).
  apply (replaced_step n r s); [constructor|done|apply remove_file_frame|done].
Qed.

Lemma or_close_triple n x y (m k : M G S AgentCall (result IoError unit)) :
  env_triple (tmp_holds n x) m
    (λ r s, match r with Ok _ => tmp_holds n y s | Err _ => is_temp pat path n ∧ not_yet s end) →
  env_triple (tmp_holds n y) k (λ r s, is_temp pat path n ∧ replaced r s) →
  env_triple (tmp_holds n x) (or_close n m k) (λ r s, is_temp pat path n ∧ replaced r s).
Proof.
  intros Hm Hk. unfold or_close. eapply env_triple_bind; [exact Hm|]. intros [u|e]; [exact Hk|].
  apply env_triple_pre. intros Ht.
  eapply env_triple_bind; [apply op_close_not_yet|intros ?]. by apply env_triple_ret.
Qed.

Lemma replace_file_triple perm : env_triple not_yet (replace_file (G:=G) pat path c perm) replaced.
Proof.
  unfold replace_file, bind_ok, deferred.
  eapply env_triple_bind; [apply op_mkdir_triple|]. intros [u|e]; [|by apply env_triple_ret].
  eapply env_triple_bind; [apply op_create_triple|]. intros [n|e]; [|by apply env_triple_ret].
  eapply env_triple_bind; [|intros r; eapply env_triple_bind; [apply op_remove_triple|]].
  2: { intros ?. by apply env_triple_ret. }
  apply (or_close_triple n "" "").
  { destruct (perm =? 0); [by apply env_triple_ret|].
    eapply env_triple_weaken; [apply op_chmod_triple|done|]. intros [u'|e] s; [done|].
    intros (Ht & Hn & _). done. }
  apply (or_close_triple n "" c); [apply op_write_triple|].
  eapply env_triple_bind; [apply op_close_triple|]. intros [u'|e]; [apply op_rename_triple|].
  apply env_triple_ret. by intros s (Ht & Hn & _).
Qed.
End replace.

(** ** Changing a file *)

Definition same_others (pat path : string) {S} `{HostLaws S} (s0 s : S) : Prop :=
  ∀ p, p ≠ path → ¬ is_temp pat path p → content s p = content s0 p.

Lemma replace_file_spec {G S} `{HostLaws S} pat path c perm (s0 : S) :
  ¬ is_temp pat path path →
  env_triple (eq s0) (replace_file (G:=G) pat path c perm) (λ r s, same_others pat path s0 s ∧
    content s path = match r with Ok _ => Some c | Err _ => content s0 path end).
Proof.
  intros Hp. eapply env_triple_weaken.
  - by apply (replace_file_triple pat path c s0 (λ _, True)).
  - intros s <-. by split.
  - by intros r s (_ & Ho & Hr).
Qed.

(** [J] as in [replace_file_triple]. *)
Lemma writeIfChanged_triple {G S} `{HostLaws S} path c perm (s0 : S) (J : S → Prop) :
  (∀ s s', host_step s s' → J s →
     content s' path = content s0 path ∨ content s' path = Some c → J s') →
  ¬ is_temp tempFileTemplate path path → J s0 →
  env_triple (eq s0) (writeIfChanged (G:=G) path c perm)
    (λ r s, J s ∧ same_others tempFileTemplate path s0 s ∧
      match r with
      | Ok true => content s path = Some c ∧ content s0 path ≠ Some c
      | Ok false => content s path = Some c ∧ s = s0
      | Err _ => content s path = content s0 path
      end).
Proof.
  intros HJ Hp HJ0. unfold writeIfChanged. cbv zeta.
  set (write := bind_ok _ _).
  assert (content s0 path ≠ Some c → env_triple (eq s0) write (λ r s, J s ∧
    same_others tempFileTemplate path s0 s ∧
    match r with
    | Ok true => content s path = Some c ∧ content s0 path ≠ Some c
    | Ok false => content s path = Some c ∧ s = s0
    | Err _ => content s path = content s0 path
    end)) as Hwrite.
  { intros Hne. unfold write, bind_ok. eapply env_triple_bind.
    - eapply env_triple_weaken; [apply (replace_file_triple tempFileTemplate path c s0 J HJ Hp)| |].
      + intros s <-. by split.
      + intros r s Hr. exact Hr.
    - intros [u|e]; apply env_triple_ret; intros s (HJs & Ho & Hc); done. }
  eapply env_triple_bind; [apply (env_triple_ask _ _ (λ r s, r = read_file path s0 ∧ s0 = s))|].
  { by intros s <-. }
  intros r. apply env_triple_pre. intros ->. destruct (read_file path s0) as [x|e] eqn:E.
  - apply read_file_ok in E. destruct (String.eqb_spec x c) as [->|Hx].
    + apply env_triple_ret. by intros s <-.
    + apply Hwrite. congruence.
  - destruct (io_NotExist e) eqn:Hne; [|by apply env_triple_ret; intros s <-].
    apply Hwrite. by rewrite (read_file_missing _ _ _ E Hne).
Qed.

Lemma writeIfChanged_spec {G S} `{HostLaws S} path c perm (s0 : S) :
  ¬ is_temp tempFileTemplate path path →
  env_triple (eq s0) (writeIfChanged (G:=G) path c perm) (λ r s, same_others tempFileTemplate path s0 s ∧
    match r with
    | Ok true => content s path = Some c ∧ content s0 path ≠ Some c
    | Ok false => content s path = Some c ∧ s = s0
    | Err _ => content s path = content s0 path
    end).
Proof.
  intros Hp. eapply env_triple_weaken;
    [by apply (writeIfChanged_triple path c perm s0 (λ _, True))|done|].
  by intros r s (_ & Hr).
Qed.

Lemma removeIfExists_spec {G S} `{HostLaws S} path (s0 : S) :
  env_triple (eq s0) (removeIfExists (G:=G) path) (λ r s, (∀ p, p ≠ path → content s p = content s0 p) ∧
    match r with
    | Ok _ => content s path = None
    | Err _ => content s path = content s0 path
    end).
Proof.
  unfold removeIfExists, op_remove.
  eapply env_triple_bind; [apply (env_triple_call _ _ _
    (λ r s, remove_file path s0 = (r, s)))|].
  { by intros s a s' E ->. }
  intros [[]|e].
  - apply env_triple_ret. intros s E. split; [|by eapply remove_file_ok].
    intros p Hp. pose proof (remove_file_frame path s0 p Hp) as F. by rewrite E in F.
  - destruct (io_NotExist e) eqn:Hne; apply env_triple_ret; intros s E; split.
    + intros p _. by apply (remove_file_err _ _ _ _ p E).
    + rewrite (remove_file_err _ _ _ _ path E). by eapply remove_file_missing.
    + intros p _. by apply (remove_file_err _ _ _ _ p E).
    + by apply (remove_file_err _ _ _ _ path E).
Qed.

(** ** A machine that remembers its states *)

#[export] Instance logged_host {S} `{Host S} : Host (S * list S) := {|
  read_file p sl := read_file p sl.1;
  mkdir_all d := logging (mkdir_all d);
  create_temp d pat := logging (create_temp d pat);
  chmod_file n m := logging (chmod_file n m);
  write_file n c := logging (write_file n c);
  close_file n := logging (close_file n);
  rename_file a b := logging (rename_file a b);
  remove_file a := logging (remove_file a);
  systemctl args := logging (systemctl args);
  ensure_artifact ref := logging (ensure_artifact ref);
  http_do r := logging (http_do r)
|}.

#[export] Program Instance logged_laws {S} `{HostLaws S} : HostLaws (S * list S) :=
  {| content sl := content sl.1 |}.
Next Obligation. intros S H H0 p sl c E. by apply read_file_ok. Qed.
Next Obligation. intros S H H0 p sl e E. by apply read_file_missing. Qed.
Next Obligation. intros S H H0 d sl p. apply mkdir_all_frame. Qed.
Next Obligation. intros S H H0 d pat sl n sl' E%logging_inv. by apply create_temp_ok. Qed.
Next Obligation. intros S H H0 d pat sl e sl' E%logging_inv. by eapply create_temp_err. Qed.
Next Obligation. intros S H H0 n m sl p. apply chmod_file_frame. Qed.
Next Obligation. intros S H H0 n c sl sl' E%logging_inv. by apply write_file_ok. Qed.
Next Obligation. intros S H H0 n c sl p. apply write_file_frame. Qed.
Next Obligation. intros S H H0 n sl p. apply close_file_frame. Qed.
Next Obligation. intros S H H0 a b sl sl' E%logging_inv. by apply rename_file_ok. Qed.
Next Obligation. intros S H H0 a b sl e sl' E%logging_inv. by eapply rename_file_err. Qed.
Next Obligation. intros S H H0 a sl sl' E%logging_inv. by eapply remove_file_ok. Qed.
Next Obligation. intros S H H0 a sl e sl' E%logging_inv. by eapply remove_file_missing. Qed.
Next Obligation. intros S H H0 a sl e sl' p E%logging_inv. by eapply remove_file_err. Qed.
Next Obligation. intros S H H0 a sl p. apply remove_file_frame. Qed.
Next Obligation. intros S H H0 args sl p. apply systemctl_frame. Qed.
Next Obligation. intros S H H0 ref sl p. apply ensure_frame. Qed.
Next Obligation. intros S H H0 r sl p. apply http_frame. Qed.

(** Every state a step logs is the state it leads to. *)
Lemma host_step_log {S} `{Host S} (sl sl' : S * list S) : host_step sl sl' → sl'.2 = sl.2 ++ [sl'.1].
Proof. by destruct 1. Qed.

(** ** Properties *)

(** C19: files are replaced in one step.  Replacing a file, by whatever
    sequence of calls it takes and whichever of them fail, leads through states
    in which the file has its old content or the new one, never a part of it or
    none, so a crash at any moment leaves one of the two; and afterwards it has
    the new content exactly when no error is returned. *)
Theorem file_write_atomic {G S} `{HostLaws S} path text perm (w : World G (S * list S) AgentCall) :
  ¬ is_temp tempFileTemplate path path →
  (env w).2 = [] →
  let r := writeIfChanged path text perm w in
  Forall (λ s, content s path = content (env w).1 path ∨ content s path = Some text) (env r.2).2 ∧
  (is_ok r.1 = true → content (env r.2).1 path = Some text) ∧
  (is_ok r.1 = false → content (env r.2).1 path = content (env w).1 path).
Proof.
  intros Hp Hlog r.
  destruct (writeIfChanged_triple (G:=G) path text perm (env w)
    (λ sl, Forall (λ s, content s path = content (env w).1 path ∨ content s path = Some text) sl.2))
    with (w := w) as (HJ & _ & Hr); [|done|by rewrite Hlog|done|].
  { intros sl sl' Hs HJ Hc. rewrite (host_step_log _ _ Hs). apply Forall_app. split; [done|].
    by apply Forall_singleton. }
  split; [exact HJ|]. fold r in Hr. destruct r as [[[]|e] w']; split; try done; by intros _; destruct Hr.
Qed.

Lemma file_write_atomic_witness :
  let path := "/etc/systemd/system/apollo-a.service" in
  let m := mkMachine {[ path := "old" ]} ∅ [] false
             (λ _, (mkOciResult "" "" true true 0 "" "" "" "" "" "", None)) (λ _, Err "down") 0 in
  let w := mkWorld tt (m, []) (λ _, 0) 0 [] in
  let r := writeIfChanged path "new" 420 w in
  Forall (λ s, content s path = content m path ∨ content s path = Some "new") (env r.2).2 ∧
  content m path = Some "old" ∧ length (env r.2).2 = 7%nat ∧ is_ok r.1 = true.
Proof.
  intros path m w r. split; [|split; [reflexivity|split; vm_compute; reflexivity]].
  apply (file_write_atomic path "new" 420 w); [|reflexivity].
  intros [x Hx]. discriminate Hx.
Defined.
