(* ===== verification/AgentUnits.v ===== *)
(** * The files of a unit

    What writing and removing the files of one unit does, and that it leaves
    the files of every other unit alone. *)

From S2P Require Import Prelude GoStrings GoTime GoPath GatewayServer AgentPaths AgentHost AgentSystemd AgentSystemdFacts.

#[local] Open Scope go_scope.

(** ** Paths *)

Section paths.
Context `{Unicode}.

Lemma unit_path_eq ns n : UnitPath (PathsFor ns n) = unitDir +:+ "/" +:+ sanitizedBase ns n +:+ ".service".
Proof. exact (proj1 (paths_of_unit ns n)). Qed.
Lemma env_path_eq ns n : EnvPath (PathsFor ns n) = envDir +:+ "/" +:+ sanitizedBase ns n +:+ ".env".
Proof. exact (proj2 (paths_of_unit ns n)). Qed.

Lemma sanitizedBase_shape ns n ext : lacks slash ext = true →
  lacks slash (sanitizedBase ns n +:+ ext) = true ∧ ∃ t, sanitizedBase ns n = "apollo-" +:+ t.
Proof.
  intros He. destruct (sanitizedBase_bytes ns n) as (Hb & Hp & _). split.
  - rewrite lacks_app, He, andb_true_r. apply (lacks_impl unit_byte); [done|exact Hb].
  - by apply HasPrefix_spec.
Qed.

Lemma unit_path_Dir ns n : Dir (UnitPath (PathsFor ns n)) = unitDir.
Proof.
  rewrite unit_path_eq. unfold Dir. rewrite up_to_slash_component; [reflexivity|].
  by apply sanitizedBase_shape.
Qed.
Lemma env_path_Dir ns n : Dir (EnvPath (PathsFor ns n)) = envDir.
Proof.
  rewrite env_path_eq. unfold Dir. rewrite up_to_slash_component; [reflexivity|].
  by apply sanitizedBase_shape.
Qed.

Lemma agent_file_unit ns n : agent_file (UnitPath (PathsFor ns n)) = true.
Proof.
  rewrite unit_path_eq. destruct (sanitizedBase_shape ns n "") as [_ [t ->]]; [done|].
  unfold agent_file. apply orb_true_iff. left. rewrite app_assoc_s. 
  change (unitDir +:+ "/" +:+ "apollo-" +:+ ?x) with ("/etc/systemd/system/apollo-" +:+ x).
  apply HasPrefix_app.
Qed.
Lemma agent_file_env ns n : agent_file (EnvPath (PathsFor ns n)) = true.
Proof.
  rewrite env_path_eq. destruct (sanitizedBase_shape ns n "") as [_ [t ->]]; [done|].
  unfold agent_file. apply orb_true_iff. right. rewrite app_assoc_s.
  change (envDir +:+ "/" +:+ "apollo-" +:+ ?x) with ("/etc/apollo/env/apollo-" +:+ x).
  apply HasPrefix_app.
Qed.

(** Temporary files are no files of a unit. *)
Lemma temp_not_agent_file dir x :
  dir = unitDir ∨ dir = envDir → agent_file (in_dir dir (tempFileTemplate +:+ x)) = false.
Proof. by intros [-> | ->]. Qed.

Lemma not_temp_unit ns n p : agent_file p = true → ¬ is_temp tempFileTemplate (UnitPath (PathsFor ns n)) p.
Proof.
  intros Hp [x ->]. rewrite unit_path_Dir, temp_not_agent_file in Hp; [done|by left].
Qed.
Lemma not_temp_env ns n p : agent_file p = true → ¬ is_temp tempFileTemplate (EnvPath (PathsFor ns n)) p.
Proof.
  intros Hp [x ->]. rewrite env_path_Dir, temp_not_agent_file in Hp; [done|by right].
Qed.

Lemma unit_path_not_env ns n ns' n' : UnitPath (PathsFor ns n) ≠ EnvPath (PathsFor ns' n').
Proof. rewrite unit_path_eq, env_path_eq. discriminate. Qed.

Lemma app_inj_r_s (s t u : string) : s +:+ u = t +:+ u → s = t.
Proof.
  revert t. induction s as [|c s IH]; intros [|d t] Hs; rewrite ?app_nil, ?app_cons in Hs; try done.
  - apply (f_equal String.length) in Hs. cbn in Hs. rewrite length_app_s in Hs. lia.
  - apply (f_equal String.length) in Hs. cbn in Hs. rewrite length_app_s in Hs. lia.
  - injection Hs as -> Hs. by rewrite (IH _ Hs).
Qed.

(** Units with different names have different files. *)
Lemma unit_paths_distinct ns n ns' n' :
  UnitName (PathsFor ns n) ≠ UnitName (PathsFor ns' n') →
  UnitPath (PathsFor ns n) ≠ UnitPath (PathsFor ns' n') ∧
  EnvPath (PathsFor ns n) ≠ EnvPath (PathsFor ns' n').
Proof.
  intros Hne. rewrite !unit_path_eq, !env_path_eq. split; intros E; apply Hne; cbn.
  - apply app_inj_l in E. by apply app_inj_l in E.
  - do 2 apply app_inj_l in E. by apply app_inj_r_s in E as ->.
Qed.
End paths.

(** ** Footprints *)

(** Every file of a unit other than [p]'s is as before. *)
Definition unit_frame {S} `{HostLaws S} (p : Paths) : relation S :=
  λ s s', ∀ q, agent_file q = true → q ≠ UnitPath p → q ≠ EnvPath p → content s' q = content s q.

#[export] Instance unit_frame_preorder {S} `{HostLaws S} p : PreOrder (unit_frame (S:=S) p).
Proof.
  split; [by intros s q|]. intros s1 s2 s3 H1 H2 q Hq Hu He. by rewrite H2, H1.
Qed.

(** No file of a unit changes. *)
Definition units_kept {S} `{HostLaws S} : relation S :=
  λ s s', ∀ q, agent_file q = true → content s' q = content s q.

#[export] Instance units_kept_preorder {S} `{HostLaws S} : PreOrder (units_kept (S:=S)).
Proof. split; [by intros s q|]. intros s1 s2 s3 H1 H2 q Hq. by rewrite H2, H1. Qed.

Lemma env_rel_triple {G S C A} (R : relation S) (m : M G S C A) :
  (∀ s0, env_triple (eq s0) m (λ _ s, R s0 s)) → env_rel R m.
Proof. intros Hm w. by apply (Hm (env w)). Qed.

Lemma env_triple_rel {G S C A} (P : S → Prop) (R : relation S) (m : M G S C A) (Q : S → Prop) :
  env_rel R m → (∀ s s', P s → R s s' → Q s') → env_triple P m (λ _, Q).
Proof. intros Hm HQ w Hw. eapply HQ; [exact Hw|apply Hm]. Qed.

Lemma units_kept_frame {G S A} `{HostLaws S} p (m : M G S AgentCall A) :
  env_rel units_kept m → env_rel (unit_frame p) m.
Proof. intros Hm w q Hq _ _. by apply Hm. Qed.

Section units.
Context {G S : Type} `{HostLaws S} `{Unicode}.

Lemma runSystemctl_kept args : env_rel units_kept (runSystemctl (G:=G) args).
Proof. intros w q Hq. by apply systemctl_frame. Qed.

Lemma checked_kept what args : env_rel units_kept (checked (G:=G) what args).
Proof. unfold checked. apply env_rel_bind; [apply _|apply runSystemctl_kept|]. by intros r w q. Qed.

Lemma Show_kept `{LocalZone} u : env_rel units_kept (Show (G:=G) u).
Proof. unfold Show. apply env_rel_bind; [apply _|apply runSystemctl_kept|]. by intros r w q. Qed.

Lemma stopAndDisableQuiet_kept u : env_rel units_kept (stopAndDisableQuiet (G:=G) u).
Proof. unfold stopAndDisableQuiet. apply env_rel_bind; [apply _|apply checked_kept|]. by intros r w q. Qed.

Lemma op_mkdir_kept d : env_rel units_kept (op_mkdir (G:=G) d).
Proof. intros w q _. apply mkdir_all_frame. Qed.

(** [writeIfChanged] on a file of a unit. *)
Definition written (path c : string) (s0 : S) (r : result IoError bool) (s : S) : Prop :=
  (∀ q, agent_file q = true → q ≠ path → content s q = content s0 q) ∧
  match r with
  | Ok true => content s path = Some c ∧ content s0 path ≠ Some c
  | Ok false => content s path = Some c ∧ content s0 path = Some c
  | Err _ => content s path = content s0 path
  end.

Lemma write_unit_file path c perm (s0 : S) :
  (∀ q, agent_file q = true → ¬ is_temp tempFileTemplate path q) → agent_file path = true →
  env_triple (eq s0) (writeIfChanged (G:=G) path c perm) (written path c s0).
Proof.
  intros Ht Hp. eapply env_triple_weaken; [apply writeIfChanged_spec; by apply Ht|done|].
  intros r s [Ho Hr]. split.
  - intros q Hq Hne. apply Ho; [done|by apply Ht].
  - destruct r as [[]|e]; [done| |done]. destruct Hr as [Hc ->]. done.
Qed.

(** The unit and the environment file of [p], each old or new. *)
Definition ensured (p : Paths) (u e : string) (s0 : S) (d : Details) (s : S) : Prop :=
  unit_frame p s0 s ∧
  (d_unit d = true → content s0 (UnitPath p) ≠ Some u) ∧
  (d_env d = true → content s0 (EnvPath p) ≠ Some e) ∧
  match d_err d with
  | None => content s (UnitPath p) = Some u ∧ content s (EnvPath p) = Some e ∧
            (d_unit d = false → content s0 (UnitPath p) = Some u) ∧
            (d_env d = false → content s0 (EnvPath p) = Some e)
  | Some _ => (content s (UnitPath p) = if d_unit d then Some u else content s0 (UnitPath p)) ∧
              content s (EnvPath p) = content s0 (EnvPath p)
  end.

(** From the two writes to the files of the unit. *)
Lemma ensured_unit_failed ns n u e s0 err s :
  written (UnitPath (PathsFor ns n)) u s0 (Err err) s →
  ensured (PathsFor ns n) u e s0 (mkDetails false false (Some err)) s.
Proof.
  intros [Ho Hr]. unfold ensured. cbn [d_unit d_env d_err]. split_all; [|done|done|done|].
  - intros q Hq Hu _. by apply Ho.
  - apply Ho; [apply agent_file_env|]. by apply not_eq_sym, unit_path_not_env.
Qed.

Lemma ensured_env_failed ns n u e s0 cu err s1 s :
  written (UnitPath (PathsFor ns n)) u s0 (Ok cu) s1 →
  (∀ q, agent_file q = true → content s q = content s1 q) →
  ensured (PathsFor ns n) u e s0 (mkDetails cu false (Some err)) s.
Proof.
  intros [Ho Hr] Hs. unfold ensured. cbn [d_unit d_env d_err]. split_all; [| |done| |].
  - intros q Hq Hu _. rewrite Hs by done. by apply Ho.
  - destruct cu; [by intros _; apply Hr|done].
  - rewrite Hs by apply agent_file_unit. destruct cu; [by apply Hr|]. cbv iota. destruct Hr; congruence.
  - rewrite Hs by apply agent_file_env. apply Ho; [apply agent_file_env|].
    by apply not_eq_sym, unit_path_not_env.
Qed.

Lemma ensured_written ns n u e s0 cu ce s1 s :
  written (UnitPath (PathsFor ns n)) u s0 (Ok cu) s1 → written (EnvPath (PathsFor ns n)) e s1 (Ok ce) s →
  ensured (PathsFor ns n) u e s0 (mkDetails cu ce None) s.
Proof.
  intros [Ho Hr] [Ho' Hr'].
  assert (UnitPath (PathsFor ns n) ≠ EnvPath (PathsFor ns n)) as Hne by apply unit_path_not_env.
  assert (content s1 (EnvPath (PathsFor ns n)) = content s0 (EnvPath (PathsFor ns n))) as Hce
    by (by apply Ho; [apply agent_file_env|]).
  rewrite Hce in Hr'. unfold ensured. cbn [d_unit d_env d_err].
  rewrite (Ho' (UnitPath (PathsFor ns n))) by (done || apply agent_file_unit). split_all.
  - intros q Hq Hqu Hqe. rewrite Ho' by done. by apply Ho.
  - destruct cu; [by intros _; apply Hr|done].
  - destruct ce; [by intros _; apply Hr'|done].
  - destruct cu; apply Hr.
  - destruct ce; apply Hr'.
  - destruct cu; [done|by intros _; apply Hr].
  - destruct ce; [done|by intros _; apply Hr'].
Qed.

Lemma EnsureUnit_spec ns n u e (s0 : S) :
  env_triple (eq s0)
    (EnsureUnitWithDetails (G:=G) (UnitName (PathsFor ns n)) u (EnvPath (PathsFor ns n)) e)
    (ensured (PathsFor ns n) u e s0).
Proof.
  unfold EnsureUnitWithDetails.
  change (JoinPath unitDir (UnitName (PathsFor ns n))) with (UnitPath (PathsFor ns n)).
  eapply env_triple_bind; [apply write_unit_file; [apply not_temp_unit|apply agent_file_unit]|].
  intros [cu|err]; [|by apply env_triple_ret; intros s; apply ensured_unit_failed].
  eapply env_triple_bind.
  { eapply (env_triple_rel _ units_kept _ (written (UnitPath (PathsFor ns n)) u s0 (Ok cu)));
      [apply op_mkdir_kept|].
    intros s s' [Ho Hr] Hk. split.
    - intros q Hq Hqu. rewrite (Hk q Hq). by apply Ho.
    - by rewrite (Hk _ (agent_file_unit ns n)). }
  intros [x|err]; [|by apply env_triple_ret; intros s Hs; eapply ensured_env_failed].
  intros w Hw.
  pose proof (write_unit_file (EnvPath (PathsFor ns n)) e 384 (env w) (not_temp_env ns n)
    (agent_file_env ns n) w eq_refl) as He.
  unfold bind. destruct (writeIfChanged (EnvPath (PathsFor ns n)) e 384 w) as [r w']. cbn [fst snd] in *.
  destruct r as [ce|err]; cbn [ret fst snd]; [by eapply ensured_written|].
  eapply ensured_env_failed; [exact Hw|]. destruct He as [Ho Hr]. intros q Hq.
  destruct (decide (q = EnvPath (PathsFor ns n))) as [->|Hne]; [done|by apply Ho].
Qed.

Lemma RemoveUnit_frame ns n :
  env_rel (unit_frame (S:=S) (PathsFor ns n))
    (RemoveUnitWithDetails (G:=G) (UnitPath (PathsFor ns n)) (EnvPath (PathsFor ns n))).
Proof.
  assert (∀ q, q = UnitPath (PathsFor ns n) ∨ q = EnvPath (PathsFor ns n) →
    env_rel (unit_frame (S:=S) (PathsFor ns n)) (removeIfExists (G:=G) q)) as Hr.
  { intros q Hq. apply env_rel_triple. intros s0.
    eapply env_triple_weaken; [apply removeIfExists_spec|done|].
    intros r s [Ho _] q' _ Hu He. apply Ho. by destruct Hq as [-> | ->]. }
  unfold RemoveUnitWithDetails.
  apply env_rel_bind; [apply _|apply Hr; by left|]. intros [b|e]; [|by intros w q].
  apply env_rel_bind; [apply _|apply Hr; by right|]. by intros [b'|e] w q.
Qed.
End units.
