(* ===== verification/AgentOci.v ===== *)
(** * OCI artifacts (agent/artifact_oci.go)

    [Ensure] downloads the artifact of a digest into a cache directory of its
    own, extracts its only layer next to the directory [rootfs], renames it and
    marks the cache ready.  The registry, the local store and the manifest type
    are libraries and the methods of [OciHost]; of the file system and of
    [archive/tar] and [compress/gzip] the class has the operations and the
    sequence of headers the code sees. *)

From S2P Require Import Prelude GoStrings GoTime GoStrconv GoNet GoPath GoJson GatewayStatus.
From S2P Require Import AgentHost.

#[local] Open Scope go_scope.

(** ** Data *)

(** An error: its text and what [errors.Is] and [errors.As] tell about it:
    a passed deadline, a network error that is a timeout or temporary. *)
Record GoError := mkGoError { ge_Message : string; ge_Deadline : bool; ge_Temporary : bool }.

Definition errorf (msg : string) : GoError := mkGoError msg false false.

(** [registry.Reference]. *)
Record Reference := mkReference { rf_Registry : string; rf_Repository : string; rf_Reference : string }.

(** What the code reads of [ocispec.Descriptor], for a layer. *)
Record Layer := mkLayer { ly_MediaType : string; ly_Digest : string }.

(** One entry of an archive: its header, the bytes that can be read and the
    error the reading ends with, if any. *)
Record TarEntry := mkTarEntry {
  te_Name : string;
  te_Typeflag : Z;
  te_Mode : Z;
  te_Data : string;
  te_Broken : option GoError
}.

(** What [tar.Reader.Next] answers, one after the other; [None] at the end is
    [io.EOF]. *)
Record TarStream := mkTarStream { ts_Entries : list TarEntry; ts_End : option GoError }.

(** The bytes of a layer, read as they are and through [gzip.NewReader]. *)
Record LayerReader := mkLayerReader { lr_Plain : TarStream; lr_Gzip : result GoError TarStream }.

(** The calls that may change the cache or the network's state. *)
Inductive OciCall :=
  | OciMkdirAll (dir : string) (perm : Z)
  | OciOpenLock (path : string)
  | OciFlock (path : string)
  | OciUnlock (path : string)
  | OciCloseLock (path : string)
  | OciNewStore (dir : string)
  | OciPull (r : Reference) (plainHTTP : bool) (dir : string)
  | OciSleep (d : Z)
  | OciCloseLayer (l : Layer)
  | OciCreate (path : string) (perm : Z)
  | OciCopy (path data : string)
  | OciClose (path : string)
  | OciRemoveAll (path : string)
  | OciRename (from to : string)
  | OciWriteFile (path content : string) (perm : Z).

(** [stat] answers whether a path that exists is a directory; [sleep] answers
    the error of a context that ends first; [pull] is [oras.Copy] and answers
    the digest of the manifest it copied; [copy_file] is [io.Copy] from an entry
    of the archive and answers how many bytes it wrote. *)
Class OciHost (S : Type) := {
  ParseReference : string → result GoError Reference;
  NewRepository : string → result GoError unit;
  UnmarshalManifest : string → result GoError (list Layer);
  Getenv : string → string;
  stat : string → S → option bool;
  fetch_all : string → string → S → result GoError string;
  fetch_layer : string → Layer → S → result GoError LayerReader;
  mkdir_path : string → Z → S → result GoError unit * S;
  open_lock : string → S → result GoError unit * S;
  flock : string → S → result GoError unit * S;
  unlock : string → S → unit * S;
  close_lock : string → S → unit * S;
  new_store : string → S → result GoError unit * S;
  pull : Reference → bool → string → S → result GoError string * S;
  sleep : Z → S → option GoError * S;
  close_layer : Layer → S → unit * S;
  create_file : string → Z → S → result GoError unit * S;
  copy_file : string → string → option GoError → S → (Z * option GoError) * S;
  close_path : string → S → unit * S;
  remove_all : string → S → result GoError unit * S;
  rename_path : string → string → S → result GoError unit * S;
  write_path : string → string → Z → S → result GoError unit * S
}.

Definition defaultOCIArtifactRoot : string := "/var/lib/apollo/artifacts/oci".
Definition readyMarkerName : string := "READY".
Definition maxExtractEntries : Z := 10000.
Definition maxExtractBytes : Z := Z.shiftl 512 20.

Definition newOCIFetcher (root : string) : string :=
  let r := TrimSpace root in if String.eqb r "" then defaultOCIArtifactRoot else r.

(** ** Results *)

(** The assignments to [res]. *)
Definition set_lastError (e : string) (r : OciResult) : OciResult :=
  mkOciResult (oci_rootfsPath r) (oci_digest r) (oci_downloaded r) (oci_verified r) (oci_attempts r)
    (oci_lastAttemptTime r) e (oci_downloadReason r) (oci_downloadMessage r) (oci_verifyReason r)
    (oci_verifyMessage r).
Definition set_verify (reason msg : string) (r : OciResult) : OciResult :=
  mkOciResult (oci_rootfsPath r) (oci_digest r) (oci_downloaded r) (oci_verified r) (oci_attempts r)
    (oci_lastAttemptTime r) (oci_lastError r) (oci_downloadReason r) (oci_downloadMessage r) reason msg.
Definition set_attempts (n : Z) (r : OciResult) : OciResult :=
  mkOciResult (oci_rootfsPath r) (oci_digest r) (oci_downloaded r) (oci_verified r) n
    (oci_lastAttemptTime r) (oci_lastError r) (oci_downloadReason r) (oci_downloadMessage r)
    (oci_verifyReason r) (oci_verifyMessage r).
Definition set_lastAttempt (at_ : string) (r : OciResult) : OciResult :=
  mkOciResult (oci_rootfsPath r) (oci_digest r) (oci_downloaded r) (oci_verified r) (oci_attempts r)
    at_ (oci_lastError r) (oci_downloadReason r) (oci_downloadMessage r) (oci_verifyReason r)
    (oci_verifyMessage r).
Definition set_downloaded (digest : string) (r : OciResult) : OciResult :=
  mkOciResult (oci_rootfsPath r) digest true (oci_verified r) (oci_attempts r)
    (oci_lastAttemptTime r) (oci_lastError r) "ArtifactDownloaded" "artifact downloaded"
    (oci_verifyReason r) (oci_verifyMessage r).

Definition initial_result : OciResult :=
  mkOciResult "" "" false false 0 "" "" "ArtifactDownloadFailed" "" "ArtifactVerifyFailed" "".

Definition cached_result (rootfs digest : string) (r : OciResult) : OciResult :=
  mkOciResult rootfs digest true true (oci_attempts r) (oci_lastAttemptTime r) ""
    "ArtifactDownloaded" "artifact cached" "ArtifactVerified" "artifact cached".

Definition verified_result (rootfs digest : string) (r : OciResult) : OciResult :=
  mkOciResult rootfs digest true true (oci_attempts r) (oci_lastAttemptTime r) ""
    (oci_downloadReason r) (oci_downloadMessage r) "ArtifactVerified" "artifact verified".

Definition errorString (e : GoError) : string :=
  let msg := TrimSpace (ge_Message e) in
  if (300 <? String.length msg)%nat then take_bytes 300 msg else msg.

(** [digestPattern]. *)
Definition hex_byte (c : ascii) : bool := in_range 65 70 c || in_range 97 102 c || in_range 48 57 c.
Definition digestPattern (s : string) : bool :=
  HasPrefix s "sha256:" &&
  (String.length (TrimPrefix s "sha256:") =? 64)%nat && all_bytes hex_byte (TrimPrefix s "sha256:").

(** ** Extraction *)

(** An [extractError] or any other error. *)
Inductive ExtractError :=
  | OtherError (e : GoError)
  | Rejected (reason msg : string).

Definition extract_error (e : ExtractError) : GoError :=
  match e with
  | OtherError e => e
  | Rejected reason msg => errorf (if String.eqb msg "" then reason else msg)
  end.

Definition TypeReg : Z := 48.
Definition TypeRegA : Z := 0.
Definition TypeDir : Z := 53.

(** The permission bits of a header. *)
Definition entry_perm (e : TarEntry) : Z := Z.land (te_Mode e) 511.

Definition reject_entries (n : Z) : ExtractError :=
  Rejected "ExtractLimitExceeded"
    ("extraction aborted: too many entries (" +:+ pretty n +:+ " > " +:+ pretty maxExtractEntries +:+ ")").
Definition reject_size (total : Z) : ExtractError :=
  Rejected "ExtractLimitExceeded"
    ("extraction aborted: size " +:+ pretty total +:+ " exceeds limit " +:+ pretty maxExtractBytes).
Definition reject_path `{Unicode} (name : string) : ExtractError :=
  Rejected "InvalidPath" ("rejecting unsafe path " +:+ Quote name).
Definition reject_outside `{Unicode} (name : string) : ExtractError :=
  Rejected "InvalidPath" ("rejecting path outside rootfs: " +:+ Quote name).
Definition reject_type `{Unicode} (e : TarEntry) : ExtractError :=
  Rejected "UnsupportedEntryType"
    ("unsupported entry type " +:+ pretty (te_Typeflag e) +:+ " for " +:+ Quote (te_Name e)).

(** The name an entry is extracted to: [None] for one that is skipped. *)
Definition entry_name `{Unicode} (e : TarEntry) : result ExtractError (option string) :=
  let name := Clean (te_Name e) in
  if String.eqb name "." || String.eqb name "" then Ok None
  else if IsAbs name || HasPrefix name ".." || Contains name "../" then Err (reject_path (te_Name e))
  else Ok (Some name).

Definition fileExists {S} `{OciHost S} (p : string) (s : S) : bool := bool_decide (stat p s = Some false).
Definition dirExists {S} `{OciHost S} (p : string) (s : S) : bool := bool_decide (stat p s = Some true).

(** ** Retries *)

Definition isRetryable `{Unicode} (e : GoError) : bool :=
  let s := ToLower (ge_Message e) in
  ge_Deadline e || ge_Temporary e ||
  (Contains s "429" || Contains s "too many requests") ||
  (Contains s " 5" || Contains s "internal server error").

(** The backoff without its jitter. *)
Definition backoff_base (attempt : Z) : Z :=
  let base := Second * Z.shiftl 1 attempt in if maxBackoff <? base then maxBackoff else base.

Section oci.
Context {G S : Type} `{OciHost S} `{Unicode}.
Context (root : string).

Abbreviation OG := (M G S OciCall).

Definition randInt63n (n : Z) : OG Z := if n <=? 0 then ret 0 else now <- time_now ;; ret (now mod n).

Definition backoffDuration (attempt : Z) : OG Z :=
  jitter <- randInt63n (backoff_base attempt / 2) ;; ret (backoff_base attempt + jitter).

(** ** The registry without TLS *)

Definition allowPlainHTTP (reg : string) : bool :=
  let plainAll := equal_fold "1" (TrimSpace (Getenv "APOLLO_OCI_PLAIN_HTTP")) ||
                  equal_fold "true" (TrimSpace (Getenv "APOLLO_OCI_PLAIN_HTTP")) in
  let hostOnly := match SplitHostPort reg with Some (h, _) => h | None => reg end in
  let hostOnly := ToLower hostOnly in
  if plainAll then true
  else
    let allowlist := FieldsFunc comma (TrimSpace (Getenv "APOLLO_OCI_PLAIN_HTTP_HOSTS")) in
    existsb (λ h, let h := ToLower (TrimSpace h) in negb (String.eqb h "") && String.eqb h hostOnly)
      allowlist.

(** ** Extracting a layer *)

Definition oci_mkdir (d : string) (perm : Z) : OG (result GoError unit) :=
  call (OciMkdirAll d perm) (mkdir_path d perm).
Definition oci_remove (p : string) : OG (result GoError unit) := call (OciRemoveAll p) (remove_all p).
Definition oci_rename (a b : string) : OG (result GoError unit) := call (OciRename a b) (rename_path a b).
Definition oci_write (p c : string) (perm : Z) : OG (result GoError unit) :=
  call (OciWriteFile p c perm) (write_path p c perm).

(** A regular file: the new total, with the error that ends the extraction. *)
Definition extract_file (e : TarEntry) (target : string) (total : Z) : OG (Z * option ExtractError) :=
  r <- oci_mkdir (Dir target) 493 ;;
  match r with
  | Err err => ret (total, Some (OtherError err))
  | Ok _ =>
      r <- call (OciCreate target (entry_perm e)) (create_file target (entry_perm e)) ;;
      match r with
      | Err err => ret (total, Some (OtherError err))
      | Ok _ =>
          c <- call (OciCopy target (te_Data e)) (copy_file target (te_Data e) (te_Broken e)) ;;
          call (OciClose target) (close_path target) ;;;
          let total := int64 (total + c.1) in
          if maxExtractBytes <? total then ret (total, Some (reject_size total))
          else ret (total, OtherError <$> c.2)
      end
  end.

(** The body of the loop for entry number [entries]. *)
Definition extract_entry (dest : string) (entries total : Z) (e : TarEntry) : OG (Z * option ExtractError) :=
  if maxExtractEntries <? entries then ret (total, Some (reject_entries entries))
  else match entry_name e with
  | Err err => ret (total, Some err)
  | Ok None => ret (total, None)
  | Ok (Some name) =>
      let target := JoinPath dest name in
      if negb (HasPrefix target (dest +:+ "/")) then ret (total, Some (reject_outside (te_Name e)))
      else if te_Typeflag e =? TypeDir then
        r <- oci_mkdir target (entry_perm e) ;;
        ret (total, match r with Err err => Some (OtherError err) | Ok _ => None end)
      else if (te_Typeflag e =? TypeReg) || (te_Typeflag e =? TypeRegA) then
        extract_file e target total
      else ret (total, Some (reject_type e))
  end.

Fixpoint extract_entries (dest : string) (entries total : Z) (l : list TarEntry) (end_ : option GoError)
    : OG (Z * option ExtractError) :=
  match l with
  | [] => ret (total, OtherError <$> end_)
  | e :: l' =>
      r <- extract_entry dest (entries + 1) total e ;;
      match r.2 with
      | Some err => ret (r.1, Some err)
      | None => extract_entries dest (entries + 1) r.1 l' end_
      end
  end.

(** The stream a layer is read as. *)
Definition layer_stream (r : LayerReader) (mediaType : string) : result GoError TarStream :=
  if Contains (ToLower mediaType) "gzip" then lr_Gzip r else Ok (lr_Plain r).

Definition extractLayer (r : LayerReader) (mediaType dest : string) : OG (Z * option ExtractError) :=
  match layer_stream r mediaType with
  | Err e => ret (0, Some (OtherError e))
  | Ok st => extract_entries dest 0 0 (ts_Entries st) (ts_End st)
  end.

(** ** Ensure *)

(** [if err := m; err != nil { return res, err }]. *)
Definition or_return {A B} (res : B) (m : OG (result GoError A)) (k : A → OG (B * option GoError))
    : OG (B * option GoError) :=
  r <- m ;; match r with Err e => ret (res, Some e) | Ok a => k a end.

(** The same, with the text of the error in [res.lastError]. *)
Definition fail_with (e : GoError) (res : OciResult) : OciResult * option GoError :=
  (set_lastError (errorString e) res, Some e).
Definition or_fail {A} (res : OciResult) (m : OG (result GoError A)) (k : A → OG (OciResult * option GoError))
    : OG (OciResult * option GoError) :=
  r <- m ;; match r with Err e => ret (fail_with e res) | Ok a => k a end.

(** How the attempts end: with the outcome of the last one, or because the
    context ended. *)
Inductive Pulled :=
  | PullDone (attempts : Z) (at_ : string) (r : result GoError string)
  | PullCancelled (at_ : string) (e : GoError).

(** The attempts from number [attempt] on; [n] of them are left. *)
Fixpoint pull_loop (r : Reference) (plain : bool) (dir : string) (n : nat) (attempt : Z) (at_ : string)
    (last : result GoError string) : OG Pulled :=
  match n with
  | O => ret (PullDone (int32 attempt) at_ last)
  | Datatypes.S n' =>
      now <- time_now ;;
      let at_ := format_rfc3339 now in
      c <- call (OciPull r plain dir) (pull r plain dir) ;;
      match c with
      | Ok d => ret (PullDone (int32 (attempt + 1)) at_ (Ok d))
      | Err e =>
          if negb (isRetryable e) then ret (PullDone (int32 (attempt + 1)) at_ (Err e))
          else
            backoff <- backoffDuration attempt ;;
            c <- call (OciSleep backoff) (sleep backoff) ;;
            match c with
            | Some e => ret (PullCancelled at_ e)
            | None => pull_loop r plain dir n' (attempt + 1) at_ (Err e)
            end
      end
  end.

Definition readyPath (dir : string) : string := JoinPath dir readyMarkerName.
Definition rootfsPath (dir : string) : string := JoinPath dir "rootfs".
Definition tmpRoot (dir : string) (nano : Z) : string := JoinPath dir ("rootfs.tmp." +:+ pretty nano).

Definition meta_text (ref digest : string) (size fetchedAt : Z) : string :=
  print_json_indent 0 (JObject [("ref", JString ref); ("digest", JString digest);
    ("size", JNumber size); ("fetchedAt", JString (format_rfc3339 fetchedAt))]).

(** The result of an extraction that failed. *)
Definition extract_failed (e : ExtractError) (res : OciResult) : OciResult :=
  let text := errorString (extract_error e) in
  let res := set_lastError text res in
  match e with
  | OtherError _ => set_verify (oci_verifyReason res) text res
  | Rejected reason msg =>
      set_verify (or_default reason (oci_verifyReason res)) (or_default msg text) res
  end.

(** From the extracted directory to the marker. *)
Definition install (ref dir tmp digest : string) (size : Z) (res : OciResult) : OG (OciResult * option GoError) :=
  let cleanup (e : GoError) := oci_remove tmp ;;; ret (fail_with e res) in
  r <- oci_remove (rootfsPath dir) ;;
  match r with
  | Err e => cleanup e
  | Ok _ =>
      r <- oci_rename tmp (rootfsPath dir) ;;
      match r with
      | Err e => cleanup e
      | Ok _ =>
          now <- time_now ;;
          or_fail res (oci_write (JoinPath dir "meta.json") (meta_text ref digest size now) 420) (λ _,
            or_fail res (oci_write (readyPath dir) ("ok" +:+ nl) 420) (λ _,
              ret (verified_result (rootfsPath dir) digest res, None)))
      end
  end.

(** From the manifest's only layer on. *)
Definition extract_and_install (ref dir digest : string) (layer : Layer) (reader : LayerReader)
    (res : OciResult) : OG (OciResult * option GoError) :=
  now <- time_now ;;
  let tmp := tmpRoot dir now in
  or_fail res (oci_mkdir tmp 493) (λ _,
    x <- extractLayer reader (ly_MediaType layer) tmp ;;
    match x.2 with
    | Some e => oci_remove tmp ;;; ret (extract_failed e res, Some (extract_error e))
    | None => install ref dir tmp digest x.1 res
    end).

(** From the downloaded artifact on. *)
Definition verify_and_extract (ref dir digest got : string) (res : OciResult) : OG (OciResult * option GoError) :=
  let res := set_downloaded digest res in
  let reject reason msg :=
    ret (set_verify reason msg (set_lastError msg res), Some (errorf msg)) in
  if negb (String.eqb got digest) then
    reject "DigestMismatch" ("unexpected manifest digest " +:+ got +:+ " (want " +:+ digest +:+ ")")
  else
    or_fail res (ask (fetch_all dir got)) (λ bytes,
      or_fail res (ret (UnmarshalManifest bytes)) (λ layers,
        match layers with
        | [] => reject (oci_verifyReason res) "manifest has no layers"
        | [layer] =>
            or_fail res (ask (fetch_layer dir layer)) (λ reader,
              deferred (call (OciCloseLayer layer) (close_layer layer))
                (extract_and_install ref dir digest layer reader res))
        | _ => reject "UnsupportedArtifact" "MVP requires single-layer tar artifact"
        end)).

(** Under the lock. *)
Definition ensure_locked (ref dir : string) (r : Reference) (res : OciResult) : OG (OciResult * option GoError) :=
  ready <- ask (fileExists (readyPath dir)) ;;
  rootfs <- (if ready then ask (dirExists (rootfsPath dir)) else ret false) ;;
  if rootfs then ret (cached_result (rootfsPath dir) (rf_Reference r) res, None)
  else
    or_return res (call (OciNewStore dir) (new_store dir)) (λ _,
      or_return res (ret (NewRepository (rf_Registry r +:+ "/" +:+ rf_Repository r))) (λ _,
        p <- pull_loop r (allowPlainHTTP (rf_Registry r)) dir 3 0 "" (Ok "") ;;
        match p with
        | PullCancelled at_ e => ret (set_lastAttempt at_ res, Some e)
        | PullDone attempts at_ c =>
            let res := set_attempts attempts (set_lastAttempt at_ res) in
            match c with
            | Err e => ret (fail_with e res)
            | Ok got => verify_and_extract ref dir (rf_Reference r) got res
            end
        end)).

Definition cache_dir (reference : string) : string := JoinPath root (TrimPrefix reference "sha256:").

Definition Ensure (ref : string) : OG (OciResult * option GoError) :=
  let res := initial_result in
  match ParseReference (TrimSpace ref) with
  | Err e => ret (res, Some (mkGoError ("invalid oci ref: " +:+ ge_Message e) (ge_Deadline e) (ge_Temporary e)))
  | Ok r =>
      if String.eqb (rf_Reference r) "" || negb (digestPattern (rf_Reference r)) then
        ret (res, Some (errorf ("oci ref must be pinned by digest (got " +:+ Quote (rf_Reference r) +:+ ")")))
      else
        let dir := cache_dir (rf_Reference r) in
        let lockPath := JoinPath dir ".lock" in
        or_return res (oci_mkdir dir 493) (λ _,
          or_return res (call (OciOpenLock lockPath) (open_lock lockPath)) (λ _,
            deferred (call (OciCloseLock lockPath) (close_lock lockPath))
              (or_return res (call (OciFlock lockPath) (flock lockPath)) (λ _,
                deferred (call (OciUnlock lockPath) (unlock lockPath))
                  (ensure_locked ref dir r res)))))
  end.
End oci.
