(* ===== verification/AgentOciLaws.v ===== *)
(** * What the OCI fetcher relies on

    [OciLaws]: the documented behaviour of the file system, of the local store
    and of the registry client, over the nodes of the file tree.  [OciMachine]
    is an instance: a tree, a registry with one manifest, the answers of the next
    pulls and a set of calls that fail. *)

From S2P Require Import Prelude GoStrings GoTime GoCrypto GoPath AgentHost AgentOci.

Inductive Node := NodeDir | NodeFile (content : string).

(** The entries of an image layout ([oci.New], [oras.Copy]), below the cache
    directory. *)
Definition store_path (dir p : string) : Prop :=
  within (dir +:+ "/oci-layout") p ∨ within (dir +:+ "/index.json") p ∨
  within (dir +:+ "/blobs") p ∨ within (dir +:+ "/ingest") p.

(** [blob l r]: [r] reads the content that the digest of [l] names.  Failing
    calls may leave part of their work, as the laws say. *)
Class OciLaws (S : Type) `{OciHost S} := {
  node : S → string → option Node;
  blob : Layer → LayerReader → Prop;
  stat_node : ∀ p s, stat p s =
    match node s p with None => None | Some NodeDir => Some true | Some (NodeFile _) => Some false end;
  fetch_all_digest : ∀ dir d s b, fetch_all dir d s = Ok b → HasPrefix d "sha256:" = true →
    d = "sha256:" +:+ hex (sha256 b);
  fetch_layer_blob : ∀ dir l s r, fetch_layer dir l s = Ok r → blob l r;
  mkdir_path_old : ∀ d perm s p n, node s p = Some n → node (mkdir_path d perm s).2 p = Some n;
  mkdir_path_new : ∀ d perm s p, node s p = None →
    node (mkdir_path d perm s).2 p = None ∨ node (mkdir_path d perm s).2 p = Some NodeDir ∧ within p d;
  mkdir_path_ok : ∀ d perm s s', mkdir_path d perm s = (Ok tt, s') → node s' d = Some NodeDir;
  open_lock_frame : ∀ a s p, p ≠ a → node (open_lock a s).2 p = node s p;
  flock_frame : ∀ a s p, node (flock a s).2 p = node s p;
  unlock_frame : ∀ a s p, node (unlock a s).2 p = node s p;
  close_lock_frame : ∀ a s p, node (close_lock a s).2 p = node s p;
  new_store_frame : ∀ dir s p, ¬ store_path dir p → node (new_store dir s).2 p = node s p;
  pull_frame : ∀ r plain dir s p, ¬ store_path dir p → node (pull r plain dir s).2 p = node s p;
  sleep_frame : ∀ d s p, node (sleep d s).2 p = node s p;
  close_layer_frame : ∀ l s p, node (close_layer l s).2 p = node s p;
  create_file_frame : ∀ a perm s p, p ≠ a → node (create_file a perm s).2 p = node s p;
  create_file_ok : ∀ a perm s s', create_file a perm s = (Ok tt, s') → node s' a = Some (NodeFile "");
  copy_file_frame : ∀ a data broken s p, p ≠ a → node (copy_file a data broken s).2 p = node s p;
  copy_file_ok : ∀ a data broken s n s' c, copy_file a data broken s = ((n, None), s') →
    node s a = Some (NodeFile c) → node s' a = Some (NodeFile (c +:+ data));
  copy_file_count : ∀ a data broken s, 0 ≤ (copy_file a data broken s).1.1 ≤ Z.of_nat (String.length data) ∧
    ((copy_file a data broken s).1.2 = None → (copy_file a data broken s).1.1 = Z.of_nat (String.length data));
  close_path_frame : ∀ a s p, node (close_path a s).2 p = node s p;
  remove_all_frame : ∀ a s p, ¬ within a p → node (remove_all a s).2 p = node s p;
  remove_all_within : ∀ a s p, node (remove_all a s).2 p = node s p ∨ node (remove_all a s).2 p = None;
  remove_all_ok : ∀ a s s' p, remove_all a s = (Ok tt, s') → within a p → node s' p = None;
  rename_path_ok : ∀ a b s s' rest, rename_path a b s = (Ok tt, s') → rest = "" ∨ HasPrefix rest "/" = true →
    node s' (b +:+ rest) = node s (a +:+ rest);
  rename_path_frame : ∀ a b s p, ¬ within a p → ¬ within b p → node (rename_path a b s).2 p = node s p;
  rename_path_err : ∀ a b s e s' p, rename_path a b s = (Err e, s') → node s' p = node s p;
  write_path_frame : ∀ a c perm s p, p ≠ a → node (write_path a c perm s).2 p = node s p;
  write_path_ok : ∀ a c perm s s', write_path a c perm s = (Ok tt, s') → node s' a = Some (NodeFile c)
}.

(** ** An instance *)

Record OciMachine := mkOciMachine {
  om_nodes : string → option Node;
  om_manifest : string;
  om_pulls : list (result GoError string);
  om_faults : OciCall → bool
}.

Definition set_nodes (f : string → option Node) (m : OciMachine) : OciMachine :=
  mkOciMachine f (om_manifest m) (om_pulls m) (om_faults m).
Definition set_pulls (l : list (result GoError string)) (m : OciMachine) : OciMachine :=
  mkOciMachine (om_nodes m) (om_manifest m) l (om_faults m).

Definition set_node (p : string) (n : Node) (f : string → option Node) : string → option Node :=
  λ q, if String.eqb q p then Some n else f q.

Definition withinb (d p : string) : bool := String.eqb p d || HasPrefix p (d +:+ "/").

Lemma withinb_spec d p : withinb d p = true ↔ within d p.
Proof. unfold withinb, within, below. by rewrite orb_true_iff, String.eqb_eq. Qed.

Definition eio : GoError := errorf "input/output error".

(** A call that fails as [om_faults] says and changes the nodes otherwise. *)
Definition machine_op (c : OciCall) (f : (string → option Node) → option (string → option Node))
    (m : OciMachine) : result GoError unit * OciMachine :=
  if om_faults m c then (Err eio, m)
  else match f (om_nodes m) with
       | Some t => (Ok tt, set_nodes t m)
       | None => (Err eio, m)
       end.

(** Directories are made along the whole path unless a file is in the way. *)
Definition tree_mkdir (d : string) (t : string → option Node) : option (string → option Node) :=
  match t d with
  | Some (NodeFile _) => None
  | _ => Some (λ q, match t q with Some n => Some n | None => if withinb q d then Some NodeDir else None end)
  end.

Definition tree_create (p : string) (t : string → option Node) : option (string → option Node) :=
  match t p with Some NodeDir => None | _ => Some (set_node p (NodeFile "") t) end.

Definition tree_write (p c : string) (t : string → option Node) : option (string → option Node) :=
  match t p with Some NodeDir => None | _ => Some (set_node p (NodeFile c) t) end.

Definition tree_remove (a : string) (t : string → option Node) : string → option Node :=
  λ q, if withinb a q then None else t q.

Definition tree_rename (a b : string) (t : string → option Node) : string → option Node :=
  λ q, if withinb b q then t (a +:+ drop_bytes (String.length b) q)
       else if withinb a q then None else t q.

Definition machine_copy (a data : string) (broken : option GoError) (m : OciMachine)
    : (Z * option GoError) * OciMachine :=
  let old := match om_nodes m a with Some (NodeFile c) => c | _ => "" end in
  ((Z.of_nat (String.length data), broken),
   set_nodes (set_node a (NodeFile (old +:+ data)) (om_nodes m)) m).

Definition machine_pull (m : OciMachine) : result GoError string * OciMachine :=
  match om_pulls m with
  | r :: l => (r, set_pulls l m)
  | [] => (Ok ("sha256:" +:+ hex (sha256 (om_manifest m))), m)
  end.

(** The layer a digest names: a program that holds the digest. *)
Definition machine_layer (l : Layer) : LayerReader :=
  mkLayerReader
    (mkTarStream [mkTarEntry "bin/" TypeDir 493 "" None; mkTarEntry "./bin/agent" TypeReg 493 (ly_Digest l) None] None)
    (Err (errorf "gzip: invalid header")).

(** A manifest is the digest of its only layer; references end with a digest
    after the at sign. *)
Definition oci_machine_in (environment : string → string) : OciHost OciMachine := {|
  ParseReference s :=
    match after_byte "@" s with
    | Some d => Ok (mkReference (before_byte slash s) (before_byte "@" (default "" (after_byte slash s))) d)
    | None => Err (errorf "invalid reference")
    end;
  NewRepository _ := Ok tt;
  UnmarshalManifest b := Ok [mkLayer "application/vnd.oci.image.layer.v1.tar" b];
  Getenv := environment;
  stat p m := match om_nodes m p with
              | None => None | Some NodeDir => Some true | Some (NodeFile _) => Some false end;
  fetch_all dir d m :=
    if String.eqb d ("sha256:" +:+ hex (sha256 (om_manifest m))) then Ok (om_manifest m)
    else Err (errorf "not found");
  fetch_layer dir l m := Ok (machine_layer l);
  mkdir_path d perm := machine_op (OciMkdirAll d perm) (tree_mkdir d);
  open_lock a := machine_op (OciOpenLock a) (λ t, Some (set_node a (NodeFile "") t));
  flock a := machine_op (OciFlock a) Some;
  unlock a m := (tt, m);
  close_lock a m := (tt, m);
  new_store dir := machine_op (OciNewStore dir) Some;
  pull r plain dir := machine_pull;
  sleep d m := (None, m);
  close_layer l m := (tt, m);
  create_file a perm := machine_op (OciCreate a perm) (tree_create a);
  copy_file := machine_copy;
  close_path a m := (tt, m);
  remove_all a := machine_op (OciRemoveAll a) (λ t, Some (tree_remove a t));
  rename_path a b := machine_op (OciRename a b) (λ t, Some (tree_rename a b t));
  write_path a c perm := machine_op (OciWriteFile a c perm) (tree_write a c)
|}.

#[export] Instance oci_machine_host : OciHost OciMachine := oci_machine_in (λ _, "").

(** What an operation of the machine changes. *)
Lemma machine_op_node c f m p :
  om_nodes (machine_op c f m).2 p = om_nodes m p ∨
  ∃ t, f (om_nodes m) = Some t ∧ om_nodes (machine_op c f m).2 p = t p.
Proof.
  unfold machine_op. destruct (om_faults m c); [by left|]. destruct (f (om_nodes m)) as [t|]; [|by left].
  right. by exists t.
Qed.

Lemma machine_op_ok c f m m' : machine_op c f m = (Ok tt, m') →
  ∃ t, f (om_nodes m) = Some t ∧ om_nodes m' = t.
Proof.
  unfold machine_op. destruct (om_faults m c); [done|]. destruct (f (om_nodes m)) as [t|]; [|done].
  intros [= <-]. by exists t.
Qed.

Lemma machine_op_err c f m e m' : machine_op c f m = (Err e, m') → m' = m.
Proof.
  unfold machine_op. destruct (om_faults m c); [by intros [= _ <-]|].
  destruct (f (om_nodes m)) as [t|]; [done|by intros [= _ <-]].
Qed.

Lemma set_node_ne p q n t : q ≠ p → set_node p n t q = t q.
Proof. unfold set_node. intros Hq. apply String.eqb_neq in Hq. by rewrite Hq. Qed.
Lemma set_node_eq p n t : set_node p n t p = Some n.
Proof. unfold set_node. by rewrite String.eqb_refl. Qed.

Lemma tree_mkdir_spec d t t' : tree_mkdir d t = Some t' →
  t' d = Some NodeDir ∧ (∀ q n, t q = Some n → t' q = Some n) ∧
  ∀ q, t q = None → t' q = None ∨ t' q = Some NodeDir ∧ within q d.
Proof.
  unfold tree_mkdir. intros E.
  assert (t' = λ q, match t q with Some n => Some n | None => if withinb q d then Some NodeDir else None end) as ->.
  { destruct (t d) as [[]|]; congruence. }
  split; [|split].
  - destruct (t d) as [[]|]; [done|done|]. unfold withinb. by rewrite String.eqb_refl.
  - by intros q n ->.
  - intros q ->. destruct (withinb q d) eqn:Hw; [right|by left]. by apply withinb_spec in Hw.
Qed.

Lemma tree_rename_spec a b t rest : rest = "" ∨ HasPrefix rest "/" = true →
  tree_rename a b t (b +:+ rest) = t (a +:+ rest).
Proof.
  intros Hr. unfold tree_rename.
  assert (withinb b (b +:+ rest) = true) as ->; [|by rewrite drop_bytes_app].
  apply withinb_spec. destruct Hr as [->|Hr]; [left; apply app_empty_r|right].
  apply HasPrefix_spec in Hr as [u ->]. unfold below. rewrite <-app_assoc_s. apply HasPrefix_app.
Qed.

Lemma machine_frame c f m p : (∀ t t', f t = Some t' → t' p = t p) →
  om_nodes (machine_op c f m).2 p = om_nodes m p.
Proof. intros Hf. destruct (machine_op_node c f m p) as [E|(t & E & ->)]; [done|by apply Hf]. Qed.

#[export] Program Instance oci_machine_laws : OciLaws OciMachine :=
  {| node := om_nodes; blob l r := r = machine_layer l |}.
Next Obligation. done. Qed.
Next Obligation.
  simpl. intros dir d s b E _. destruct (String.eqb_spec d ("sha256:" +:+ hex (sha256 (om_manifest s)))); congruence.
Qed.
Next Obligation. simpl. congruence. Qed.
Next Obligation.
  simpl. intros d perm s p n Hn. destruct (machine_op_node (OciMkdirAll d perm) (tree_mkdir d) s p) as [->|(t & E & ->)];
    [done|]. by apply (tree_mkdir_spec _ _ _ E).
Qed.
Next Obligation.
  simpl. intros d perm s p Hn. destruct (machine_op_node (OciMkdirAll d perm) (tree_mkdir d) s p) as [->|(t & E & ->)];
    [by left|]. by apply (tree_mkdir_spec _ _ _ E).
Qed.
Next Obligation.
  simpl. intros d perm s s' E. destruct (machine_op_ok _ _ _ _ E) as (t & Et & ->).
  exact (proj1 (tree_mkdir_spec _ _ _ Et)).
Qed.
Next Obligation. simpl. intros a s p Hp. apply machine_frame. intros t t' [= <-]. by apply set_node_ne. Qed.
Next Obligation. simpl. intros a s p. apply machine_frame. by intros t t' [= <-]. Qed.
Next Obligation. done. Qed.
Next Obligation. done. Qed.
Next Obligation. simpl. intros dir s p _. apply machine_frame. by intros t t' [= <-]. Qed.
Next Obligation. simpl. intros r plain dir s p _. unfold machine_pull. by destruct (om_pulls s). Qed.
Next Obligation. done. Qed.
Next Obligation. done. Qed.
Next Obligation.
  simpl. intros a perm s p Hp. apply machine_frame. intros t t'. unfold tree_create.
  destruct (t a) as [[]|]; intros [= <-]; by apply set_node_ne.
Qed.
Next Obligation.
  simpl. intros a perm s s' E. destruct (machine_op_ok _ _ _ _ E) as (t & Et & ->). unfold tree_create in Et.
  destruct (om_nodes s a) as [[]|]; simplify_eq; apply set_node_eq.
Qed.
Next Obligation. simpl. intros a data broken s p Hp. by apply set_node_ne. Qed.
Next Obligation.
  simpl. unfold machine_copy. intros a data broken s n s' c [= _ _ <-] Hc. cbn. rewrite Hc. apply set_node_eq.
Qed.
Next Obligation. simpl. intros a data broken s. unfold machine_copy. cbn. split; [lia|done]. Qed.
Next Obligation. done. Qed.
Next Obligation.
  simpl. intros a s p Hp. apply machine_frame. intros t t' [= <-]. unfold tree_remove.
  destruct (withinb a p) eqn:E; [by apply withinb_spec in E|done].
Qed.
Next Obligation.
  simpl. intros a s p.
  destruct (machine_op_node (OciRemoveAll a) (λ t, Some (tree_remove a t)) s p) as [->|(t & [= <-] & ->)]; [by left|].
  unfold tree_remove. destruct (withinb a p); [by right|by left].
Qed.
Next Obligation.
  simpl. intros a s s' p E Hw. destruct (machine_op_ok _ _ _ _ E) as (t & [= <-] & ->).
  apply withinb_spec in Hw. unfold tree_remove. by rewrite Hw.
Qed.
Next Obligation.
  simpl. intros a b s s' rest E Hr. destruct (machine_op_ok _ _ _ _ E) as (t & [= <-] & ->).
  by apply tree_rename_spec.
Qed.
Next Obligation.
  simpl. intros a b s p Ha Hb. apply machine_frame. intros t t' [= <-]. unfold tree_rename.
  destruct (withinb b p) eqn:E; [by apply withinb_spec in E|].
  destruct (withinb a p) eqn:E'; [by apply withinb_spec in E'|done].
Qed.
Next Obligation. simpl. intros a b s e s' p E. by rewrite (machine_op_err _ _ _ _ _ E). Qed.
Next Obligation.
  simpl. intros a c perm s p Hp. apply machine_frame. intros t t'. unfold tree_write.
  destruct (t a) as [[]|]; intros [= <-]; by apply set_node_ne.
Qed.
Next Obligation.
  simpl. intros a c perm s s' E. destruct (machine_op_ok _ _ _ _ E) as (t & Et & ->). unfold tree_write in Et.
  destruct (om_nodes s a) as [[]|]; simplify_eq; apply set_node_eq.
Qed.
