(* ===== verification/AgentOciFacts.v ===== *)
(** * What the OCI fetcher guarantees *)

From S2P Require Import Prelude GoStrings GoTime GoCrypto GoStrconv GoNet GoPath GatewayStatus.
From S2P Require Import AgentHost AgentOci AgentOciLaws.

#[local] Open Scope go_scope.

#[local] Abbreviation plain := (λ x, plain_part x = true).

(** ** The names of entries *)

Lemma entry_name_parts `{Unicode} e name : entry_name e = Ok (Some name) →
  ∃ ps, ps ≠ [] ∧ Forall plain ps ∧ name = Join (str1 slash) ps.
Proof.
  unfold entry_name. cbv zeta. intros E.
  destruct (_ || String.eqb (Clean (te_Name e)) "") eqn:E1; [done|].
  destruct (_ || Contains _ _) eqn:E2; [done|]. simplify_eq. bool_prop.
  apply Clean_relative; [done|done|]. by apply String.eqb_neq.
Qed.

(** ** Specification

    The tree a layer describes: a directory for a directory entry, the bytes of
    the last entry of a name for a file. *)
Definition add_entry `{Unicode} (t : gmap string Node) (e : TarEntry) : gmap string Node :=
  match entry_name e with
  | Ok (Some name) => <[name := if te_Typeflag e =? TypeDir then NodeDir else NodeFile (te_Data e)]> t
  | _ => t
  end.
Definition layer_tree `{Unicode} (l : list TarEntry) : gmap string Node := foldl add_entry ∅ l.

(** The node of every name of a tree is below [d]. *)
Definition holds_tree {S} `{OciLaws S} (d : string) (t : gmap string Node) (s : S) : Prop :=
  ∀ name n, t !! name = Some n → node s (d +:+ "/" +:+ name) = Some n.

(** [dir] provides the artifact of [digest]: there is a manifest with this
    digest and one layer, and [rootfs] holds the whole tree of that layer. *)
Definition provides {S} `{OciLaws S} `{Unicode} (dir digest : string) (s : S) : Prop :=
  ∃ manifest layer reader st,
    digest = "sha256:" +:+ hex (sha256 manifest) ∧ UnmarshalManifest manifest = Ok [layer] ∧
    blob layer reader ∧ layer_stream reader (ly_MediaType layer) = Ok st ∧ ts_End st = None ∧
    holds_tree (rootfsPath dir) (layer_tree (ts_Entries st)) s.

(** A directory that [Ensure] takes for a cached artifact. *)
Definition is_cached {S} `{OciLaws S} (dir : string) (s : S) : Prop :=
  (∃ c, node s (readyPath dir) = Some (NodeFile c)) ∧ node s (rootfsPath dir) = Some NodeDir.

Definition cache_ok {S} `{OciLaws S} `{Unicode} (dir digest : string) (s : S) : Prop :=
  is_cached dir s → provides dir digest s.

(** One call. *)
Inductive oci_step {S} `{OciHost S} : S → S → Prop :=
  | ostep_mkdir d perm s : oci_step s (mkdir_path d perm s).2
  | ostep_open a s : oci_step s (open_lock a s).2
  | ostep_flock a s : oci_step s (flock a s).2
  | ostep_unlock a s : oci_step s (unlock a s).2
  | ostep_close_lock a s : oci_step s (close_lock a s).2
  | ostep_store d s : oci_step s (new_store d s).2
  | ostep_pull r p d s : oci_step s (pull r p d s).2
  | ostep_sleep d s : oci_step s (sleep d s).2
  | ostep_close_layer l s : oci_step s (close_layer l s).2
  | ostep_create a perm s : oci_step s (create_file a perm s).2
  | ostep_copy a data b s : oci_step s (copy_file a data b s).2
  | ostep_close a s : oci_step s (close_path a s).2
  | ostep_remove a s : oci_step s (remove_all a s).2
  | ostep_rename a b s : oci_step s (rename_path a b s).2
  | ostep_write a c perm s : oci_step s (write_path a c perm s).2.
#[local] Hint Constructors oci_step : core.

Section cache.
Context {G S : Type} `{OciLaws S} `{Unicode}.
Context (dps : list string) (Hne : dps ≠ []) (Hplain : Forall plain dps) (digest : string).

#[local] Abbreviation dir := (abs_path dps).
#[local] Abbreviation OG := (M G S OciCall).

(** [J] is whatever the steps to good caches preserve. *)
Context (J : S → Prop) (HJ : ∀ s s', oci_step s s' → J s → cache_ok dir digest s' → J s').

(** ** Paths of the cache *)

Lemma cache_path c : plain_part c = true → JoinPath dir c = abs_path (dps ++ [c]).
Proof.
  intros Hc. change c with (Join (str1 slash) [c]) at 1.
  apply JoinPath_abs; [done|done|done|by apply Forall_singleton].
Qed.

Lemma ready_eq : readyPath dir = abs_path (dps ++ ["READY"]).
Proof. by apply cache_path. Qed.
Lemma rootfs_eq : rootfsPath dir = abs_path (dps ++ ["rootfs"]).
Proof. by apply cache_path. Qed.

Definition tmp_part (nano : Z) : string := "rootfs.tmp." +:+ pretty nano.
Lemma tmp_part_plain nano : plain_part (tmp_part nano) = true.
Proof.
  unfold plain_part, tmp_part. rewrite !andb_true_iff. split_all; try reflexivity.
  rewrite lacks_app. rewrite (lacks_impl (λ c, is_decimal c || Ascii.eqb dash c) slash (pretty nano) eq_refl (pretty_Z_decimal nano)).
  reflexivity.
Qed.
Lemma tmp_eq nano : tmpRoot dir nano = abs_path (dps ++ [tmp_part nano]).
Proof. unfold tmpRoot. apply cache_path, tmp_part_plain. Qed.

Lemma plain_snoc c ps : plain_part c = true → Forall plain ps → Forall plain (dps ++ c :: ps).
Proof. intros Hc Hp. apply Forall_app. split; [done|]. by constructor. Qed.

(** The marker and [rootfs] are within no other part of the cache directory. *)
Lemma not_within_other c ps q : c ≠ "READY" → c ≠ "rootfs" → plain_part c = true → Forall plain ps →
  q = readyPath dir ∨ q = rootfsPath dir → ¬ within q (abs_path (dps ++ c :: ps)).
Proof.
  intros Hr Hf Hc Hp Hq Hw.
  assert (∀ x, plain_part x = true → c ≠ x → ¬ within (abs_path (dps ++ [x])) (abs_path (dps ++ c :: ps))) as Hx.
  { intros x Hx Hcx Hwx. apply within_abs_path in Hwx as [rest E].
    - rewrite <-app_assoc in E. apply app_inv_head in E. simplify_eq/=.
    - apply app_cons_ne.
    - apply app_cons_ne.
    - by apply (plain_snoc x []).
    - by apply plain_snoc. }
  destruct Hq as [->| ->]; rewrite ?ready_eq, ?rootfs_eq in Hw; by apply Hx in Hw.
Qed.

(** The nodes the state of the cache depends on. *)
Definition cache_path_of (p : string) : Prop := p = readyPath dir ∨ within (rootfsPath dir) p.

Lemma not_within_part c p : (∀ t, "READY" ≠ c +:+ t) →
  (∀ t u, t = "" ∨ HasPrefix t "/" = true → "rootfs" +:+ t ≠ c +:+ u) →
  cache_path_of p → ¬ within (dir +:+ "/" +:+ c) p.
Proof.
  intros Hr Hf Hp Hw. apply within_app in Hw as (u & -> & _).
  destruct Hp as [E|Hp].
  - rewrite ready_eq, abs_path_app, !app_assoc_s in E by done.
    apply app_inj_l, app_inj_l in E. symmetry in E. exact (Hr u E).
  - rewrite rootfs_eq, abs_path_app, within_app in Hp by done. destruct Hp as (t & E & Ht).
    rewrite !app_assoc_s in E. apply app_inj_l, app_inj_l in E. symmetry in E. exact (Hf t u Ht E).
Qed.

Lemma not_store_path p : cache_path_of p → ¬ store_path dir p.
Proof.
  intros Hp Hs. unfold store_path in Hs.
  change "/oci-layout" with ("/" +:+ "oci-layout") in Hs. change "/index.json" with ("/" +:+ "index.json") in Hs.
  change "/blobs" with ("/" +:+ "blobs") in Hs. change "/ingest" with ("/" +:+ "ingest") in Hs.
  destruct Hs as [Hs|[Hs|[Hs|Hs]]]; revert Hs; apply not_within_part; try exact Hp; discriminate.
Qed.

Lemma not_within_tmp nano p : cache_path_of p → ¬ within (tmpRoot dir nano) p.
Proof.
  rewrite tmp_eq, abs_path_app by done. change (Join (str1 slash) [tmp_part nano]) with (tmp_part nano).
  apply not_within_part; [discriminate|].
  intros t u Ht E. unfold tmp_part in E. change ("rootfs.tmp.") with ("rootfs" +:+ ".tmp.") in E.
  rewrite !app_assoc_s in E. apply app_inj_l in E. destruct Ht as [->|Ht]; [done|].
  apply HasPrefix_spec in Ht as [x ->]. discriminate E.
Qed.

(** Making a directory elsewhere in the cache directory, or above it. *)
Lemma mkdir_kept d perm s p : ¬ within (readyPath dir) d → ¬ within (rootfsPath dir) d → cache_path_of p →
  node (mkdir_path d perm s).2 p = node s p.
Proof.
  intros Hr Hf Hp. destruct (node s p) as [n|] eqn:E; [by apply mkdir_path_old|].
  destruct (mkdir_path_new d perm s p E) as [->|[_ Hw]]; [done|].
  destruct Hp as [->|Hp]; [by apply Hr in Hw|]. destruct Hf. by apply (within_trans _ p).
Qed.

(** ** States of the cache *)

Definition same_cache (s s' : S) : Prop := ∀ p, cache_path_of p → node s' p = node s p.

Definition not_cached (s : S) : Prop := ¬ is_cached dir s.

Lemma same_cache_is_cached s s' : same_cache s s' → is_cached dir s' ↔ is_cached dir s.
Proof. intros Hs. unfold is_cached. rewrite !Hs; [done|right; by left|by left]. Qed.
Lemma same_cache_not_cached s s' : same_cache s s' → not_cached s → not_cached s'.
Proof. intros Hs. unfold not_cached. by rewrite (same_cache_is_cached s s'). Qed.
Lemma same_cache_provides s s' : same_cache s s' → provides dir digest s → provides dir digest s'.
Proof.
  intros Hs (m & l & r & st & Hd & Hm & Hb & Hl & He & Ht). exists m, l, r, st. split_all; try done.
  intros name n Hn. rewrite Hs; [by apply Ht|]. right. right. apply below_app.
Qed.
Lemma same_cache_ok s s' : same_cache s s' → cache_ok dir digest s → cache_ok dir digest s'.
Proof.
  intros Hs Hok Hc. apply (same_cache_provides s s'); [done|]. apply Hok. by apply (same_cache_is_cached s s').
Qed.

(** What is known of the cache between two calls: it is good, it does not look
    like a cached artifact, or it provides the artifact. *)
Inductive stage : (S → Prop) → Prop :=
  | stage_ok : stage (cache_ok dir digest)
  | stage_not_cached : stage not_cached
  | stage_provides : stage (provides dir digest).
#[local] Hint Constructors stage : core.

Lemma stage_kept X s s' : stage X → same_cache s s' → X s → X s'.
Proof. intros []; [apply same_cache_ok|apply same_cache_not_cached|apply same_cache_provides]. Qed.
Lemma stage_cache_ok X s : stage X → X s → cache_ok dir digest s.
Proof. intros [] HX; [done|by intros Hc|by intros _]. Qed.

Definition at_stage (X : S → Prop) (s : S) : Prop := J s ∧ X s.

Lemma at_stage_step X s s' : stage X → oci_step s s' → same_cache s s' → at_stage X s → at_stage X s'.
Proof.
  intros HX Hs Hc [HJs HXs]. assert (X s') as HX' by (by apply (stage_kept X s)).
  split; [|done]. apply (HJ s); [done|done|by apply (stage_cache_ok X)].
Qed.

(** A call that leaves the cache as it is. *)
Lemma quiet_call {A} X (c : OciCall) (f : S → A * S) : stage X → (∀ s, oci_step s (f s).2) →
  (∀ s, same_cache s (f s).2) → env_triple (at_stage X) (call (G:=G) c f) (λ _, at_stage X).
Proof.
  intros HX Hs Hc. apply env_triple_call. intros s a s' E. assert (s' = (f s).2) as -> by (by rewrite E).
  by apply at_stage_step.
Qed.

(** ** Extraction *)

Section extraction.
Context (nano : Z).
#[local] Abbreviation tmp := (tmpRoot dir nano).

(** The cache does not look like an artifact and [tmp] holds a tree. *)
Definition extracted (t : gmap string Node) (s : S) : Prop := at_stage not_cached s ∧ holds_tree tmp t s.

Lemma target_eq ps : ps ≠ [] → Forall plain ps →
  JoinPath tmp (Join (str1 slash) ps) = abs_path (dps ++ tmp_part nano :: ps) ∧
  JoinPath tmp (Join (str1 slash) ps) = tmp +:+ "/" +:+ Join (str1 slash) ps.
Proof.
  intros Hp Hps. rewrite tmp_eq. rewrite JoinPath_abs; [|apply app_cons_ne|done| |done].
  - rewrite abs_path_app; [|apply app_cons_ne|done]. rewrite <-abs_path_app; [|apply app_cons_ne|done].
    by rewrite <-app_assoc.
  - apply plain_snoc; [apply tmp_part_plain|constructor].
Qed.

(** A call on an entry of the archive: the cache is kept, and so is what has
    been extracted under other names. *)
Lemma extract_call {A} (c : OciCall) (f : S → A * S) t (Q : A → S → Prop) :
  (∀ s, oci_step s (f s).2) → (∀ s, same_cache s (f s).2) →
  (∀ s a s', f s = (a, s') → holds_tree tmp t s → Q a s') →
  env_triple (extracted t) (call (G:=G) c f) (λ a s, at_stage not_cached s ∧ Q a s).
Proof.
  intros Hs Hc HQ. apply env_triple_call. intros s a s' E [Hat Ht].
  split; [|by apply (HQ s)]. assert (s' = (f s).2) as -> by (by rewrite E). by apply (at_stage_step _ s).
Qed.

Lemma mkdir_extract d perm t : ¬ within (readyPath dir) d → ¬ within (rootfsPath dir) d →
  env_triple (extracted t) (oci_mkdir (G:=G) d perm)
    (λ r s, extracted t s ∧ (is_ok r = true → node s d = Some NodeDir)).
Proof.
  intros Hr Hf. eapply env_triple_weaken; [apply (extract_call _ _ t (λ r s, holds_tree tmp t s ∧
    (is_ok r = true → node s d = Some NodeDir)))|done|].
  - intros s. constructor.
  - intros s p Hp. by apply mkdir_kept.
  - intros s r s' E Ht. split.
    + intros name n Hn. assert (s' = (mkdir_path d perm s).2) as -> by (by rewrite E).
      apply mkdir_path_old. by apply Ht.
    + destruct r as [[]|]; [|done]. intros _. by apply (mkdir_path_ok _ _ _ _ E).
  - intros r s (? & ? & ?). done.
Qed.

(** The names of a tree other than [name]. *)
Lemma holds_tree_insert t name n s s' : holds_tree tmp t s →
  (∀ p, p ≠ tmp +:+ "/" +:+ name → node s' p = node s p) →
  node s' (tmp +:+ "/" +:+ name) = Some n → holds_tree tmp (<[name := n]> t) s'.
Proof.
  intros Ht Hf Hn m k Hk. destruct (decide (m = name)) as [->|Hm].
  - rewrite lookup_insert_eq in Hk. congruence.
  - rewrite lookup_insert_ne in Hk by done. rewrite Hf; [by apply Ht|].
    intros E. do 2 apply app_inj_l in E. done.
Qed.

Lemma holds_tree_kept t s s' : (∀ p, node s' p = node s p) → holds_tree tmp t s → holds_tree tmp t s'.
Proof. intros Hs Ht name n Hn. rewrite Hs. by apply Ht. Qed.

(** Nothing within the extraction is part of the cache's state. *)
Lemma target_not_cache ps : Forall plain ps → ¬ cache_path_of (abs_path (dps ++ tmp_part nano :: ps)).
Proof.
  intros Hp Hc. destruct (not_within_tmp nano _ Hc). rewrite tmp_eq.
  apply within_abs_path; [apply app_cons_ne|apply app_cons_ne| |by apply plain_snoc; [apply tmp_part_plain|]|].
  - apply plain_snoc; [apply tmp_part_plain|constructor].
  - exists ps. by rewrite <-app_assoc.
Qed.

Lemma file_calls t name ps data broken perm : ps ≠ [] → Forall plain ps → name = Join (str1 slash) ps →
  let target := JoinPath tmp name in
  env_triple (extracted t) (call (G:=G) (OciCreate target perm) (create_file target perm))
    (λ r s, at_stage not_cached s ∧ (is_ok r = true → extracted (<[name := NodeFile ""]> t) s)) ∧
  env_triple (extracted (<[name := NodeFile ""]> t))
    (call (G:=G) (OciCopy target data) (copy_file target data broken))
    (λ r s, at_stage not_cached s ∧ (r.2 = None → extracted (<[name := NodeFile data]> t) s)).
Proof.
  intros Hne' Hps -> target. destruct (target_eq ps Hne' Hps) as [E1 E2].
  assert (∀ p, cache_path_of p → p ≠ target) as Hc.
  { intros p Hp ->. unfold target in Hp. rewrite E1 in Hp. by apply target_not_cache in Hp. }
  fold target in E2. split.
  - eapply env_triple_weaken; [apply (extract_call _ _ t (λ r s,
      is_ok r = true → holds_tree tmp (<[Join (str1 slash) ps := NodeFile ""]> t) s))|done|].
    + intros s. constructor.
    + intros s p Hp. apply create_file_frame. by apply Hc.
    + intros s [[]|] s' E Ht; [|done]. intros _. apply (holds_tree_insert _ _ _ s); [done| |].
      * intros p Hp. assert (s' = (create_file target perm s).2) as -> by (by rewrite E).
        apply create_file_frame. by rewrite E2.
      * rewrite <-E2. by apply (create_file_ok _ _ _ _ E).
    + intros r s [? HQ]. split; [done|]. intros Hr. split; [done|by apply HQ].
  - eapply env_triple_weaken; [apply (extract_call _ _ (<[Join (str1 slash) ps := NodeFile ""]> t) (λ r s,
      r.2 = None → holds_tree tmp (<[Join (str1 slash) ps := NodeFile data]> t) s))|done|].
    + intros s. constructor.
    + intros s p Hp. apply copy_file_frame. by apply Hc.
    + intros s [n r] s' E Ht. cbn [snd]. intros ->.
      rewrite <-(insert_insert_eq t (Join (str1 slash) ps) (NodeFile data) (NodeFile "")).
      apply (holds_tree_insert _ _ _ s); [done| |].
      * intros p Hp. assert (s' = (copy_file target data broken s).2) as -> by (by rewrite E).
        apply copy_file_frame. by rewrite E2.
      * rewrite <-E2. change data with ("" +:+ data). apply (copy_file_ok _ _ _ _ _ _ "" E).
        rewrite E2. apply Ht. by rewrite lookup_insert_eq.
    + intros r s [? HQ]. split; [done|]. intros Hr. split; [done|by apply HQ].
Qed.

(** What a step of the extraction leaves. *)
Definition extracts (t : gmap string Node) {A} (r : Z * option A) (s : S) : Prop :=
  at_stage not_cached s ∧ (r.2 = None → extracted t s).

Lemma tmp_not_cache ps q : Forall plain ps → q = readyPath dir ∨ q = rootfsPath dir →
  ¬ within q (abs_path (dps ++ tmp_part nano :: ps)).
Proof. intros Hp. apply not_within_other; [discriminate|discriminate|apply tmp_part_plain|done]. Qed.

Lemma extract_ret t A (r : Z * option A) : r.2 = None → env_triple (extracted t) (ret (G:=G) (C:=OciCall) r) (extracts t).
Proof. intros Hr. apply env_triple_ret. intros s Hs. split; [apply Hs|done]. Qed.
Lemma extract_stop t t' A total (e : A) : env_triple (extracted t) (ret (G:=G) (C:=OciCall) (total, Some e)) (extracts t').
Proof. apply env_triple_ret. intros s Hs. split; [apply Hs|done]. Qed.
Lemma extract_fail t A total (e : A) :
  env_triple (at_stage not_cached) (ret (G:=G) (C:=OciCall) (total, Some e)) (extracts t).
Proof. apply env_triple_ret. intros s Hs. by split. Qed.

Lemma extract_file_triple t e name ps total : ps ≠ [] → Forall plain ps → name = Join (str1 slash) ps →
  env_triple (extracted t) (extract_file (G:=G) e (JoinPath tmp name) total)
    (extracts (<[name := NodeFile (te_Data e)]> t)).
Proof.
  intros Hne' Hps Hn. unfold extract_file.
  destruct (file_calls t name ps (te_Data e) (te_Broken e) (entry_perm e) Hne' Hps Hn) as [Hcreate Hcopy].
  destruct (target_eq ps Hne' Hps) as [E1 _].
  assert (∃ init, Forall plain init ∧ Dir (JoinPath tmp name) = abs_path (dps ++ tmp_part nano :: init)) as (init & Hi & Ed).
  { destruct (exists_last Hne') as (init & c & ->). apply Forall_app in Hps as [Hi Hc].
    exists init. split; [done|]. rewrite Hn, E1. change (dps ++ tmp_part nano :: init ++ [c])
      with (dps ++ (tmp_part nano :: init) ++ [c]). rewrite app_assoc. apply Dir_abs_path.
    rewrite <-app_assoc. apply plain_snoc; [apply tmp_part_plain|]. by apply Forall_app. }
  eapply env_triple_bind; [apply mkdir_extract; rewrite Ed; apply tmp_not_cache; auto|].
  intros [u|err]; [|eapply env_triple_weaken; [apply extract_stop| |]; [by intros s [? _]|done]].
  eapply env_triple_bind; [eapply env_triple_weaken; [exact Hcreate| |]; [by intros s [? _]|]|].
  { intros r s Hr. exact Hr. }
  intros [u'|err]; [|eapply env_triple_weaken; [apply extract_fail|by intros s [? _]|done]].
  eapply env_triple_bind; [eapply env_triple_weaken; [exact Hcopy| |]|].
  { intros s [_ Hs]. by apply Hs. }
  { intros r s Hr. exact Hr. }
  intros c. eapply env_triple_bind.
  { apply (env_triple_call _ _ _ (λ _ s, extracts (<[name := NodeFile (te_Data e)]> t) c s)).
    intros s a s' E [Hat Ht]. assert (s' = (close_path (JoinPath tmp name) s).2) as -> by (by rewrite E).
    assert (at_stage not_cached (close_path (JoinPath tmp name) s).2).
    { apply (at_stage_step _ s); [constructor|constructor|intros p _; apply close_path_frame|done]. }
    split; [done|]. intros Hc. split; [done|]. apply (holds_tree_kept _ s); [apply close_path_frame|].
    apply (Ht Hc). }
  intros ?. cbv zeta. destruct (maxExtractBytes <? _); [|destruct c as [n [err|]]].
  - eapply env_triple_weaken; [apply extract_fail|by intros s [? _]|done].
  - eapply env_triple_weaken; [apply extract_fail|by intros s [? _]|done].
  - apply env_triple_ret. intros s [? HQ]. split; [done|]. intros _. by apply HQ.
Qed.

Lemma extract_entry_triple t entries total e :
  env_triple (extracted t) (extract_entry (G:=G) tmp entries total e) (extracts (add_entry t e)).
Proof.
  unfold extract_entry. destruct (maxExtractEntries <? entries); [apply extract_stop|].
  destruct (entry_name e) as [[name|]|err] eqn:En; [|unfold add_entry; rewrite En; by apply extract_ret|apply extract_stop].
  destruct (entry_name_parts e name En) as (ps & Hne' & Hps & Hn). cbv zeta.
  destruct (target_eq ps Hne' Hps) as [E1 E2]. rewrite <-Hn in E1, E2.
  destruct (negb _); [apply extract_stop|]. unfold add_entry. rewrite En.
  destruct (te_Typeflag e =? TypeDir).
  - eapply env_triple_bind; [apply mkdir_extract; rewrite E1; apply tmp_not_cache; auto|].
    intros [u|err]; [|eapply env_triple_weaken; [apply extract_stop| |]; [by intros s [? _]|done]].
    apply env_triple_ret. intros s [[Hat Ht] Hd]. split; [done|]. intros _. split; [done|].
    apply (holds_tree_insert _ _ _ s); [done|done|]. rewrite <-E2. by apply Hd.
  - destruct (_ || _); [by apply extract_file_triple with ps|apply extract_stop].
Qed.

Lemma extract_entries_triple t entries total l end_ :
  env_triple (extracted t) (extract_entries (G:=G) tmp entries total l end_)
    (λ r s, extracts (foldl add_entry t l) r s ∧ (r.2 = None → end_ = None)).
Proof.
  revert t entries total. induction l as [|e l IH]; intros t entries total.
  - cbn. apply env_triple_ret. intros s Hs. destruct end_; split; try done; split; try done; apply Hs.
  - cbn [extract_entries foldl]. eapply env_triple_bind; [apply extract_entry_triple|].
    intros [n [err|]]; cbn [fst snd].
    + apply env_triple_ret. intros s [Hs _]. split; [by split|done].
    + eapply env_triple_weaken; [apply IH|intros s [_ Hs]; by apply Hs|intros r s Hr; exact Hr].
Qed.

(** The directory to extract to is made first; it may hold leftovers of an
    extraction that was cut off. *)
Lemma extractLayer_triple reader mediaType :
  env_triple (extracted ∅) (extractLayer (G:=G) reader mediaType tmp)
    (λ r s, at_stage not_cached s ∧ (r.2 = None → ∃ st, layer_stream reader mediaType = Ok st ∧
       ts_End st = None ∧ extracted (layer_tree (ts_Entries st)) s)).
Proof.
  unfold extractLayer. destruct (layer_stream reader mediaType) as [st|e].
  - eapply env_triple_weaken; [apply (extract_entries_triple ∅)|done|].
    intros r s [[Hat Ht] He]. split; [done|]. intros Hr. exists st. split; [done|]. split; [by apply He|by apply Ht].
  - apply env_triple_ret. intros s Hs. split; [apply Hs|done].
Qed.

(** ** Installation *)

(** What [Ensure] leaves behind, and what its success means. *)
Definition ensured (r : OciResult * option GoError) (s : S) : Prop :=
  at_stage (cache_ok dir digest) s ∧
  (r.2 = None → provides dir digest s ∧ oci_rootfsPath r.1 = rootfsPath dir).

Lemma at_stage_ok X s : stage X → at_stage X s → at_stage (cache_ok dir digest) s.
Proof. intros HX [HJs HXs]. split; [done|by apply (stage_cache_ok X)]. Qed.

Lemma ensured_err X res e : stage X → env_triple (at_stage X) (ret (G:=G) (C:=OciCall) (res, Some e)) ensured.
Proof. intros HX. apply env_triple_ret. intros s Hs. split; [by apply (at_stage_ok X)|done]. Qed.

Lemma remove_tmp_triple X : stage X → env_triple (at_stage X) (oci_remove (G:=G) tmp) (λ _, at_stage X).
Proof.
  intros HX. apply quiet_call; [done|constructor|]. intros s p Hp. apply remove_all_frame. by apply not_within_tmp.
Qed.

Lemma tmp_not_rootfs name : ¬ within (rootfsPath dir) (tmp +:+ "/" +:+ name).
Proof.
  intros Hw. destruct (not_within_tmp nano (tmp +:+ "/" +:+ name)); [by right|right; apply below_app].
Qed.

Lemma remove_rootfs_triple t :
  env_triple (extracted t) (oci_remove (G:=G) (rootfsPath dir)) (λ _, extracted t).
Proof.
  apply env_triple_call. intros s a s' E [[HJs Hnc] Ht].
  assert (s' = (remove_all (rootfsPath dir) s).2) as -> by (by rewrite E).
  assert (not_cached (remove_all (rootfsPath dir) s).2) as Hnc'.
  { intros [[c Hr] Hf]. apply Hnc. split.
    - exists c. rewrite <-Hr. symmetry. apply remove_all_frame. rewrite rootfs_eq, ready_eq.
      rewrite within_abs_path; [|apply app_cons_ne|apply app_cons_ne|by apply (plain_snoc "rootfs" [])|
        by apply (plain_snoc "READY" [])].
      intros [rest Er]. rewrite <-app_assoc in Er. by apply app_inv_head in Er.
    - destruct (remove_all_within (rootfsPath dir) s (rootfsPath dir)) as [E'|E']; congruence. }
  split.
  - split; [|done]. apply (HJ s); [constructor|done|by apply (stage_cache_ok not_cached)].
  - intros name n Hn. rewrite remove_all_frame; [by apply Ht|apply tmp_not_rootfs].
Qed.

Lemma rename_triple t : (∀ s, holds_tree (rootfsPath dir) t s → provides dir digest s) →
  env_triple (extracted t) (oci_rename (G:=G) tmp (rootfsPath dir))
    (λ r s, match r with Ok _ => at_stage (provides dir digest) s | Err _ => at_stage not_cached s end).
Proof.
  intros Hprov. apply env_triple_call. intros s [[]|e] s' E [Hat Ht].
  - assert (provides dir digest s') as Hp.
    { apply Hprov. intros name n Hn. rewrite (rename_path_ok _ _ _ _ ("/" +:+ name) E); [by apply Ht|].
      right. apply HasPrefix_app. }
    split; [|done]. assert (s' = (rename_path tmp (rootfsPath dir) s).2) as -> by (by rewrite E).
    apply (HJ s); [constructor|apply Hat|by apply (stage_cache_ok (provides dir digest))].
  - apply (at_stage_step _ s); [constructor| | |done].
    + assert (s' = (rename_path tmp (rootfsPath dir) s).2) as -> by (by rewrite E). constructor.
    + intros p _. by apply (rename_path_err _ _ _ _ _ p E).
Qed.

Lemma write_meta_triple X c perm : stage X →
  env_triple (at_stage X) (oci_write (G:=G) (JoinPath dir "meta.json") c perm) (λ _, at_stage X).
Proof.
  intros HX. apply quiet_call; [done|constructor|]. intros s p Hp. apply write_path_frame. intros ->.
  revert Hp. rewrite cache_path, abs_path_app by done. intros Hp.
  apply (not_within_part "meta.json" _ ltac:(discriminate) ltac:(discriminate) Hp). by left.
Qed.

Lemma write_ready_triple c perm :
  env_triple (at_stage (provides dir digest)) (oci_write (G:=G) (readyPath dir) c perm)
    (λ _, at_stage (provides dir digest)).
Proof.
  apply env_triple_call. intros s a s' E [HJs Hp].
  assert (s' = (write_path (readyPath dir) c perm s).2) as -> by (by rewrite E).
  assert (provides dir digest (write_path (readyPath dir) c perm s).2) as Hp'.
  { destruct Hp as (m & l & r & st & Hd & Hm & Hb & Hl & He & Ht). exists m, l, r, st. split_all; try done.
    intros name n Hn. rewrite write_path_frame; [by apply Ht|]. rewrite rootfs_eq, ready_eq, !abs_path_app by done.
    rewrite !app_assoc_s. intros Er. do 2 apply app_inj_l in Er. discriminate Er. }
  split; [|done]. apply (HJ s); [constructor|done|by apply (stage_cache_ok (provides dir digest))].
Qed.

Lemma install_triple t ref size res : (∀ s, holds_tree (rootfsPath dir) t s → provides dir digest s) →
  env_triple (extracted t) (install (G:=G) ref dir tmp digest size res) ensured.
Proof.
  intros Hprov. unfold install. cbv zeta.
  assert (∀ e, env_triple (at_stage not_cached)
    (oci_remove (G:=G) tmp ;;; ret (fail_with e res)) ensured) as Hclean.
  { intros e. eapply env_triple_bind; [by apply remove_tmp_triple|]. intros ?. by apply ensured_err. }
  eapply env_triple_bind; [apply remove_rootfs_triple|].
  intros [u|e]; [|eapply env_triple_weaken; [apply Hclean|by intros s [? _]|done]].
  eapply env_triple_bind; [by apply rename_triple|]. intros [u1|e]; [|apply Hclean].
  eapply env_triple_bind; [by apply env_triple_silent|]. intros now. unfold or_fail.
  eapply env_triple_bind; [by apply write_meta_triple|]. intros [u2|e]; [|by apply ensured_err].
  eapply env_triple_bind; [apply write_ready_triple|]. intros [u3|e]; [|by apply ensured_err].
  apply env_triple_ret. intros s Hs. split; [by apply (at_stage_ok (provides dir digest))|].
  intros _. split; [apply Hs|done].
Qed.
End extraction.

(** ** The whole of [Ensure] *)

Lemma ensured_quiet {A} r (c : OciCall) (f : S → A * S) :
  (∀ s, oci_step s (f s).2) → (∀ s, same_cache s (f s).2) →
  env_triple (ensured r) (call (G:=G) c f) (λ _, ensured r).
Proof.
  intros Hs Hc. apply env_triple_call. intros s a s' E [Hat Hr].
  assert (s' = (f s).2) as -> by (by rewrite E). split.
  - apply (at_stage_step _ s); [constructor|apply Hs|apply Hc|done].
  - intros Hn. destruct (Hr Hn) as [Hp Hpath]. split; [|done]. by apply (same_cache_provides s).
Qed.

(** [defer] of a call that leaves the cache as it is. *)
Lemma deferred_quiet {A} P (c : OciCall) (f : S → A * S) (m : OG (OciResult * option GoError)) :
  (∀ s, oci_step s (f s).2) → (∀ s, same_cache s (f s).2) →
  env_triple P m ensured → env_triple P (deferred (call c f) m) ensured.
Proof.
  intros Hs Hc Hm. unfold deferred. eapply env_triple_bind; [exact Hm|]. intros r.
  eapply env_triple_bind; [by apply ensured_quiet|]. intros ?. by apply env_triple_ret.
Qed.

Lemma extract_and_install_triple ref manifest layer reader res :
  digest = "sha256:" +:+ hex (sha256 manifest) → UnmarshalManifest manifest = Ok [layer] → blob layer reader →
  env_triple (at_stage not_cached) (extract_and_install (G:=G) ref dir digest layer reader res) ensured.
Proof.
  intros Hd Hm Hb. unfold extract_and_install, or_fail. cbv zeta.
  eapply env_triple_bind; [by apply env_triple_silent|]. intros nano.
  eapply env_triple_bind.
  { eapply env_triple_weaken; [apply (mkdir_extract nano _ _ ∅)| |].
    - rewrite tmp_eq. apply tmp_not_cache; auto.
    - rewrite tmp_eq. apply tmp_not_cache; auto.
    - intros s Hs. split; [done|]. intros name n Hn. by rewrite lookup_empty in Hn.
    - intros r s [Hs _]. exact Hs. }
  intros [u|e].
  2: { eapply env_triple_weaken; [by apply (ensured_err not_cached)|by intros s [? _]|done]. }
  eapply env_triple_bind; [apply extractLayer_triple|]. intros [size [e|]]; cbn [fst snd].
  - eapply env_triple_bind; [eapply env_triple_weaken; [by apply (remove_tmp_triple nano not_cached)| |]|].
    + by intros s [? _].
    + intros r s Hs. exact Hs.
    + intros ?. by apply ensured_err.
  - intros w [Hat Ht]. destruct (Ht eq_refl) as (st & Hst & He & Hx).
    apply (install_triple nano (layer_tree (ts_Entries st))); [|exact Hx].
    intros s Hh. by exists manifest, layer, reader, st.
Qed.

Lemma verify_and_extract_triple ref got res : HasPrefix digest "sha256:" = true →
  env_triple (at_stage not_cached) (verify_and_extract (G:=G) ref dir digest got res) ensured.
Proof.
  intros Hpre. unfold verify_and_extract. cbv zeta.
  destruct (String.eqb_spec got digest) as [->|_]; cbn [negb]; [|by apply ensured_err].
  unfold or_fail. eapply env_triple_bind.
  { apply (env_triple_ask _ _ (λ r s, (∀ b, r = Ok b → digest = "sha256:" +:+ hex (sha256 b)) ∧ at_stage not_cached s)).
    intros s Hs. split; [|done]. intros b Hb. by apply (fetch_all_digest dir digest s). }
  intros [bytes|e]; [|eapply env_triple_weaken; [by apply (ensured_err not_cached)|by intros s [_ ?]|done]].
  apply env_triple_pre. intros Hd. specialize (Hd bytes eq_refl).
  eapply env_triple_bind; [apply (env_triple_ret _ _ (λ r s, r = UnmarshalManifest bytes ∧ at_stage not_cached s));
    by intros s Hs|].
  intros r. apply env_triple_pre. intros ->.
  destruct (UnmarshalManifest bytes) as [[|layer [|]]|e] eqn:Em; [by apply ensured_err| |by apply ensured_err..].
  eapply env_triple_bind.
  { apply (env_triple_ask _ _ (λ r s, (∀ x, r = Ok x → blob layer x) ∧ at_stage not_cached s)).
    intros s Hs. split; [|done]. intros x Hx. by apply (fetch_layer_blob dir layer s). }
  intros [reader|e]; [|eapply env_triple_weaken; [by apply (ensured_err not_cached)|by intros s [_ ?]|done]].
  apply env_triple_pre. intros Hb. apply deferred_quiet; [constructor|intros s p _; apply close_layer_frame|].
  by apply (extract_and_install_triple ref bytes); [|done|apply Hb].
Qed.

Lemma backoff_triple P attempt : env_triple P (backoffDuration (G:=G) (S:=S) attempt) (λ _, P).
Proof.
  apply env_triple_silent. intros w. unfold backoffDuration, randInt63n. by destruct (_ <=? 0).
Qed.

Lemma pull_loop_triple X r plain n attempt at_ last : stage X →
  env_triple (at_stage X) (pull_loop (G:=G) r plain dir n attempt at_ last) (λ _, at_stage X).
Proof.
  intros HX. revert attempt at_ last. induction n as [|n IH]; intros attempt at_ last; cbn [pull_loop].
  - by apply env_triple_ret.
  - eapply env_triple_bind; [by apply env_triple_silent|]. intros now. cbv zeta.
    eapply env_triple_bind; [apply quiet_call; [done|constructor|]|].
    { intros s p Hp. by apply pull_frame, not_store_path. }
    intros [d|e]; [by apply env_triple_ret|]. destruct (negb _); [by apply env_triple_ret|].
    eapply env_triple_bind; [apply backoff_triple|]. intros b.
    eapply env_triple_bind; [apply quiet_call; [done|constructor|intros s p _; apply sleep_frame]|].
    intros [e'|]; [by apply env_triple_ret|apply IH].
Qed.

Lemma cached_stat s : fileExists (readyPath dir) s = true → dirExists (rootfsPath dir) s = true → is_cached dir s.
Proof.
  unfold fileExists, dirExists. intros Hr Hf. apply bool_decide_eq_true in Hr, Hf. rewrite stat_node in Hr, Hf.
  destruct (node s (readyPath dir)) as [[|c]|] eqn:Er; try done.
  destruct (node s (rootfsPath dir)) as [[|]|] eqn:Ef; try done. split; [by exists c|done].
Qed.
Lemma uncached_stat s : is_cached dir s → fileExists (readyPath dir) s = true ∧ dirExists (rootfsPath dir) s = true.
Proof.
  intros [[c Hr] Hf]. unfold fileExists, dirExists. rewrite !stat_node, Hr, Hf. done.
Qed.

Lemma ensure_locked_triple ref r res : rf_Reference r = digest → HasPrefix digest "sha256:" = true →
  env_triple (at_stage (cache_ok dir digest)) (ensure_locked (G:=G) ref dir r res) ensured.
Proof.
  intros Hr Hpre. unfold ensure_locked.
  set (rest := or_return _ (call (OciNewStore dir) _) _).
  assert (env_triple (at_stage not_cached) rest ensured) as Hrest.
  { unfold rest, or_return. eapply env_triple_bind; [apply quiet_call; [done|constructor|]|].
    { intros s p Hp. by apply new_store_frame, not_store_path. }
    intros [u|e]; [|by apply ensured_err].
    eapply env_triple_bind; [by apply (env_triple_ret _ _ (λ _, at_stage not_cached))|].
    intros [u'|e]; [|by apply ensured_err].
    eapply env_triple_bind; [by apply pull_loop_triple|].
    intros [attempts at_ [got|e]|at_ e]; cbv zeta; [|by apply ensured_err..].
    rewrite Hr. by apply verify_and_extract_triple. }
  intros w [HJw Hok]. rewrite run_ask. destruct (fileExists (readyPath dir) (env w)) eqn:Er.
  - rewrite run_ask. destruct (dirExists (rootfsPath dir) (env w)) eqn:Ef.
    + split; [by split|]. intros _. split; [|done]. apply Hok. by apply cached_stat.
    + apply Hrest. split; [done|]. intros Hc. apply uncached_stat in Hc as [_ Hc]. congruence.
  - apply Hrest. split; [done|]. intros Hc. apply uncached_stat in Hc as [Hc _]. congruence.
Qed.

Lemma lock_not_cache p : cache_path_of p → p ≠ JoinPath dir ".lock".
Proof.
  intros Hp ->. revert Hp. rewrite cache_path, abs_path_app by done. intros Hp.
  apply (not_within_part ".lock" _ ltac:(discriminate) ltac:(discriminate) Hp). by left.
Qed.

(** From the lock on. *)
Lemma locked_triple ref r res : rf_Reference r = digest → HasPrefix digest "sha256:" = true →
  let lock := JoinPath dir ".lock" in
  env_triple (at_stage (cache_ok dir digest))
    (or_return res (oci_mkdir (G:=G) dir 493) (λ _,
       or_return res (call (OciOpenLock lock) (open_lock lock)) (λ _,
         deferred (call (OciCloseLock lock) (close_lock lock))
           (or_return res (call (OciFlock lock) (flock lock)) (λ _,
             deferred (call (OciUnlock lock) (unlock lock)) (ensure_locked ref dir r res))))))
    ensured.
Proof.
  intros Hr Hpre lock. unfold or_return.
  assert (∀ e, env_triple (at_stage (cache_ok dir digest)) (ret (G:=G) (C:=OciCall) (res, Some e)) ensured) as Herr.
  { intros e. by apply (ensured_err (cache_ok dir digest)). }
  assert (∀ c, plain_part c = true → ¬ within (abs_path (dps ++ [c])) dir) as Hup.
  { intros c Hc. rewrite within_abs_path; [|apply app_cons_ne|done|by apply (plain_snoc c [])|done].
    intros [rest E]. rewrite <-app_assoc, <-(app_nil_r dps) in E at 1. by apply app_inv_head in E. }
  eapply env_triple_bind; [apply quiet_call; [done|constructor|]|].
  { intros s p Hp. apply mkdir_kept; [rewrite ready_eq|rewrite rootfs_eq|done]; by apply Hup. }
  intros [u|e]; [|apply Herr].
  eapply env_triple_bind; [apply quiet_call; [done|constructor|]|].
  { intros s p Hp. apply open_lock_frame. by apply lock_not_cache. }
  intros [u1|e]; [|apply Herr].
  apply deferred_quiet; [constructor|intros s p _; apply close_lock_frame|].
  eapply env_triple_bind; [apply quiet_call; [done|constructor|intros s p _; apply flock_frame]|].
  intros [u2|e]; [|apply Herr].
  apply deferred_quiet; [constructor|intros s p _; apply unlock_frame|].
  by apply ensure_locked_triple.
Qed.
End cache.
