(* ===== verification/AgentOciProps.v ===== *)
(** * Properties of the OCI fetcher *)

From S2P Require Import Prelude GoStrings GoTime GoCrypto GoStrconv GoNet GoPath GatewayStatus.
From S2P Require Import AgentHost AgentOci AgentOciLaws AgentOciFacts.

#[local] Open Scope go_scope.

(** ** A machine that remembers its states *)

#[export] Instance logged_oci {S} `{OciHost S} : OciHost (S * list S) := {|
  ParseReference := ParseReference (S:=S);
  NewRepository := NewRepository (S:=S);
  UnmarshalManifest := UnmarshalManifest (S:=S);
  Getenv := Getenv (S:=S);
  stat p sl := stat p sl.1;
  fetch_all dir d sl := fetch_all dir d sl.1;
  fetch_layer dir l sl := fetch_layer dir l sl.1;
  mkdir_path d perm := logging (mkdir_path d perm);
  open_lock a := logging (open_lock a);
  flock a := logging (flock a);
  unlock a := logging (unlock a);
  close_lock a := logging (close_lock a);
  new_store dir := logging (new_store dir);
  pull r plain dir := logging (pull r plain dir);
  sleep d := logging (sleep d);
  close_layer l := logging (close_layer l);
  create_file a perm := logging (create_file a perm);
  copy_file a data broken := logging (copy_file a data broken);
  close_path a := logging (close_path a);
  remove_all a := logging (remove_all a);
  rename_path a b := logging (rename_path a b);
  write_path a c perm := logging (write_path a c perm)
|}.

#[export] Program Instance logged_oci_laws {S} `{OciLaws S} : OciLaws (S * list S) :=
  {| node sl := node sl.1; blob := blob (S:=S) |}.
Next Obligation. intros S H H0 p sl. apply (stat_node (S:=S)). Qed.
Next Obligation. intros S H H0 dir d sl b. apply (fetch_all_digest (S:=S)). Qed.
Next Obligation. intros S H H0 dir l sl r. apply (fetch_layer_blob (S:=S)). Qed.
Next Obligation. intros S H H0 d perm sl p n. apply (mkdir_path_old (S:=S)). Qed.
Next Obligation. intros S H H0 d perm sl p. apply (mkdir_path_new (S:=S)). Qed.
Next Obligation. intros S H H0 d perm sl sl' E%logging_inv. by eapply (mkdir_path_ok (S:=S)). Qed.
Next Obligation. intros S H H0 a sl p. apply (open_lock_frame (S:=S)). Qed.
Next Obligation. intros S H H0 a sl p. apply (flock_frame (S:=S)). Qed.
Next Obligation. intros S H H0 a sl p. apply (unlock_frame (S:=S)). Qed.
Next Obligation. intros S H H0 a sl p. apply (close_lock_frame (S:=S)). Qed.
Next Obligation. intros S H H0 dir sl p. apply (new_store_frame (S:=S)). Qed.
Next Obligation. intros S H H0 r plain dir sl p. apply (pull_frame (S:=S)). Qed.
Next Obligation. intros S H H0 d sl p. apply (sleep_frame (S:=S)). Qed.
Next Obligation. intros S H H0 l sl p. apply (close_layer_frame (S:=S)). Qed.
Next Obligation. intros S H H0 a perm sl p. apply (create_file_frame (S:=S)). Qed.
Next Obligation. intros S H H0 a perm sl sl' E%logging_inv. by eapply (create_file_ok (S:=S)). Qed.
Next Obligation. intros S H H0 a data broken sl p. apply (copy_file_frame (S:=S)). Qed.
Next Obligation. intros S H H0 a data broken sl n sl' c E%logging_inv. by eapply (copy_file_ok (S:=S)). Qed.
Next Obligation. intros S H H0 a data broken sl. apply (copy_file_count (S:=S)). Qed.
Next Obligation. intros S H H0 a sl p. apply (close_path_frame (S:=S)). Qed.
Next Obligation. intros S H H0 a sl p. apply (remove_all_frame (S:=S)). Qed.
Next Obligation. intros S H H0 a sl p. apply (remove_all_within (S:=S)). Qed.
Next Obligation. intros S H H0 a sl sl' p E%logging_inv. by eapply (remove_all_ok (S:=S)). Qed.
Next Obligation. intros S H H0 a b sl sl' rest E%logging_inv. by eapply (rename_path_ok (S:=S)). Qed.
Next Obligation. intros S H H0 a b sl p. apply (rename_path_frame (S:=S)). Qed.
Next Obligation. intros S H H0 a b sl e sl' p E%logging_inv. by eapply (rename_path_err (S:=S)). Qed.
Next Obligation. intros S H H0 a c perm sl p. apply (write_path_frame (S:=S)). Qed.
Next Obligation. intros S H H0 a c perm sl sl' E%logging_inv. by eapply (write_path_ok (S:=S)). Qed.

Lemma oci_step_log {S} `{OciHost S} (sl sl' : S * list S) : oci_step sl sl' → sl'.2 = sl.2 ++ [sl'.1].
Proof. by destruct 1. Qed.

(** The states of the machine, seen through the log. *)
Lemma provides_log {S} `{OciLaws S} `{Unicode} dir digest (sl : S * list S) :
  provides dir digest sl ↔ provides dir digest sl.1.
Proof. done. Qed.

(** ** A sample *)

(** A machine whose registry has one artifact; the first pull fails for a
    moment. *)
#[local] Existing Instance ascii_unicode.

Definition cache_parts : list string := ["var"; "lib"; "apollo"; "artifacts"; "oci"].
Definition sample_digest : string := Eval vm_compute in "sha256:" +:+ hex (sha256 "m1").
Definition sample_ref : string := Eval vm_compute in "ghcr.io/app@" +:+ sample_digest.
Definition sample_oci (faults : OciCall → bool) : OciMachine :=
  mkOciMachine (λ _, None) "m1" [Err (errorf "unexpected status 503")] faults.

(** ** The cache *)

Lemma digest_part digest : digestPattern digest = true →
  HasPrefix digest "sha256:" = true ∧ plain_part (TrimPrefix digest "sha256:") = true.
Proof.
  unfold digestPattern. intros Hd. bool_prop. split; [done|].
  match goal with H : all_bytes hex_byte _ = true |- _ => rename H into Hb end.
  match goal with H : (_ =? 64)%nat = true |- _ => apply Nat.eqb_eq in H; rename H into Hl end.
  destruct (TrimPrefix digest "sha256:") as [|a [|b s]]; [done|done|].
  unfold plain_part. rewrite (lacks_impl hex_byte slash _ eq_refl Hb).
  cbn in Hb. apply andb_true_iff in Hb as [Ha Hb].
  destruct (Ascii.eqb_spec a "."%char) as [->|Hne]; [done|].
  assert (∀ t, String.eqb (String a (String b s)) (String "."%char t) = false) as Hdot.
  { intros t. apply String.eqb_neq. congruence. }
  by rewrite (Hdot ""), (Hdot ".").
Qed.

(** C23: what the agent takes for the artifact of a digest is that artifact.
    [Ensure] may be cut off after any of its calls and each of them may fail: in
    no state it leads through does the cache directory look ready (marker and
    [rootfs]) without [rootfs] holding the complete tree of the one layer that
    the manifest with this SHA-256 digest names, provided this held before; and
    when [Ensure] returns no error, the directory it answers provides it. *)
Theorem cache_always_complete {G S} `{OciLaws S} `{Unicode} ps ref r (w : World G (S * list S) OciCall) :
  ps ≠ [] → Forall (λ x, plain_part x = true) ps →
  ParseReference (S:=S) (TrimSpace ref) = Ok r →
  let digest := rf_Reference r in
  let dir := cache_dir (abs_path ps) digest in
  cache_ok dir digest (env w).1 → (env w).2 = [] →
  let out := Ensure (abs_path ps) ref w in
  Forall (cache_ok dir digest) (env out.2).2 ∧
  (out.1.2 = None → provides dir digest (env out.2).1 ∧ oci_rootfsPath out.1.1 = rootfsPath dir).
Proof.
  intros Hne Hps Hparse digest dir Hok Hlog out.
  unfold Ensure in out. subst out. cbv zeta. change (ParseReference (S:=S*list S)) with (ParseReference (S:=S)).
  rewrite Hparse. fold digest.
  destruct (String.eqb digest "" || negb (digestPattern digest)) eqn:Ep.
  { split; [|done]. change (Forall (cache_ok dir digest) (env w).2). by rewrite Hlog. }
  bool_prop. destruct (digest_part digest) as [Hpre Hpart]; [done|].
  assert (dir = abs_path (ps ++ [TrimPrefix digest "sha256:"])) as Edir.
  { unfold dir, cache_dir. by apply (cache_path ps Hne Hps). }
  fold dir. clearbody dir. subst dir.
  destruct (locked_triple (G:=G) (S:=S * list S) (ps ++ [TrimPrefix digest "sha256:"]) ltac:(by destruct ps)
    ltac:(apply Forall_app; split; [done|by apply Forall_singleton]) digest
    (λ sl, Forall (cache_ok (abs_path (ps ++ [TrimPrefix digest "sha256:"])) digest) sl.2)) with
    (ref := ref) (r := r) (res := initial_result) (w := w) as [[HJ Hok'] Hr]; try done.
  - intros sl sl' Hs Hall Hc. rewrite (oci_step_log _ _ Hs). apply Forall_app. split; [done|].
    by apply Forall_singleton.
  - split; [by rewrite Hlog|done].
Qed.

Lemma cache_always_complete_witness :
  let w := mkWorld tt (sample_oci (λ _, false), []) (λ n, Z.of_nat n) 0 [] in
  let dir := cache_dir (abs_path cache_parts) sample_digest in
  let out := Ensure (abs_path cache_parts) sample_ref w in
  Forall (cache_ok dir sample_digest) (env out.2).2 ∧ provides dir sample_digest (env out.2).1 ∧
  oci_attempts out.1.1 = 2 ∧
  node (env out.2).1 (dir +:+ "/rootfs/bin/agent") = Some (NodeFile "m1").
Proof.
  intros w dir out.
  destruct (cache_always_complete cache_parts sample_ref (mkReference "ghcr.io" "app" sample_digest) w)
    as [Hall Hout].
  - discriminate.
  - by repeat constructor.
  - vm_compute. reflexivity.
  - intros [[c Hc] _]. discriminate Hc.
  - reflexivity.
  - split; [exact Hall|]. split; [|split; vm_compute; reflexivity].
    apply Hout. vm_compute. reflexivity.
Defined.

(** ** The calls of an extraction *)

(** The paths a call names. *)
Definition call_paths (c : OciCall) : list string :=
  match c with
  | OciMkdirAll p _ | OciOpenLock p | OciFlock p | OciUnlock p | OciCloseLock p | OciNewStore p
  | OciPull _ _ p | OciCreate p _ | OciCopy p _ | OciClose p | OciRemoveAll p | OciWriteFile p _ _ => [p]
  | OciRename a b => [a; b]
  | OciSleep _ | OciCloseLayer _ => []
  end.

(** A path that is the directory of components [ds] or below it, without any
    dots or empty components in between. *)
Definition confined (ds : list string) (p : string) : Prop :=
  ∃ qs, Forall (λ x, plain_part x = true) qs ∧ p = abs_path (ds ++ qs).
Definition stays (ds : list string) (c : OciCall) : Prop := Forall (confined ds) (call_paths c).

Section confinement.
Context {G S : Type} `{OciHost S} `{Unicode}.
Context (ds : list string) (Hne : ds ≠ []) (Hds : Forall (λ x, plain_part x = true) ds).

#[local] Abbreviation dir := (abs_path ds).

Lemma stays_one c p : call_paths c = [p] → confined ds p → stays ds c.
Proof. unfold stays. intros ->. by rewrite Forall_singleton. Qed.

Lemma confined_dir : confined ds dir.
Proof. exists []. split; [constructor|by rewrite app_nil_r]. Qed.
Lemma confined_part c : plain_part c = true → confined ds (JoinPath dir c).
Proof.
  intros Hc. exists [c]. split; [by apply Forall_singleton|]. by apply cache_path.
Qed.
Lemma confined_tmp nano : confined ds (tmpRoot dir nano).
Proof. apply confined_part, tmp_part_plain. Qed.

#[local] Hint Extern 0 (stays _ _) => solve [constructor] : effects.
#[local] Hint Extern 1 (stays _ _) => (eapply stays_one; [reflexivity|]) : effects.
#[local] Hint Resolve confined_dir confined_tmp : effects.
#[local] Hint Extern 1 (confined _ (readyPath _)) => (by apply confined_part) : effects.
#[local] Hint Extern 1 (confined _ (rootfsPath _)) => (by apply confined_part) : effects.
#[local] Hint Extern 1 (confined _ (JoinPath _ _)) => (by apply confined_part) : effects.
#[local] Hint Extern 1 (emits _ (ask _)) => apply emits_ask : effects.

(** Where an entry is extracted to. *)
Lemma confined_target nano e name : entry_name e = Ok (Some name) →
  confined ds (JoinPath (tmpRoot dir nano) name) ∧ confined ds (Dir (JoinPath (tmpRoot dir nano) name)).
Proof.
  intros En. destruct (entry_name_parts e name En) as (ps & Hp & Hps & ->).
  destruct (target_eq ds Hne Hds nano ps Hp Hps) as [-> _]. split.
  - exists (tmp_part nano :: ps). split; [constructor; [apply tmp_part_plain|done]|done].
  - destruct (exists_last Hp) as (init & c & ->).
    change (ds ++ tmp_part nano :: init ++ [c]) with (ds ++ (tmp_part nano :: init) ++ [c]).
    rewrite app_assoc, Dir_abs_path.
    + apply Forall_app in Hps as [Hi _]. exists (tmp_part nano :: init).
      split; [constructor; [apply tmp_part_plain|done]|done].
    + rewrite <-app_assoc. apply Forall_app. split; [done|]. constructor; [apply tmp_part_plain|done].
Qed.

Lemma emits_extract_entry nano entries total e :
  emits (stays ds) (extract_entry (G:=G) (S:=S) (tmpRoot dir nano) entries total e).
Proof.
  unfold extract_entry, extract_file, oci_mkdir.
  destruct (entry_name e) as [[name|]|err] eqn:En; [|effects|effects].
  destruct (confined_target nano e name En) as [Ht Hd]. effects.
Qed.

Lemma emits_extract_entries nano entries total l end_ :
  emits (stays ds) (extract_entries (G:=G) (S:=S) (tmpRoot dir nano) entries total l end_).
Proof.
  revert entries total. induction l as [|e l IH]; intros entries total; cbn [extract_entries]; [effects|].
  apply emits_bind; [apply emits_extract_entry|]. intros [n [err|]]; [effects|apply IH].
Qed.

Lemma emits_extract_and_install ref digest layer reader res :
  emits (stays ds) (extract_and_install (G:=G) (S:=S) ref dir digest layer reader res).
Proof.
  unfold extract_and_install, or_fail, oci_mkdir, extractLayer. effects; try apply emits_extract_entries;
    unfold install, or_fail, oci_remove, oci_rename, oci_write in *; effects.
  apply emits_call. repeat constructor; [apply confined_tmp|by apply confined_part].
Qed.

Lemma emits_pull_loop r plain n attempt at_ last :
  emits (stays ds) (pull_loop (G:=G) (S:=S) r plain dir n attempt at_ last).
Proof.
  revert attempt at_ last. induction n as [|n IH]; intros attempt at_ last; cbn [pull_loop]; [effects|].
  unfold backoffDuration, randInt63n. effects; apply IH.
Qed.

Lemma emits_ensure_locked ref r res : emits (stays ds) (ensure_locked (G:=G) (S:=S) ref dir r res).
Proof.
  unfold ensure_locked, or_return. effects; try apply emits_pull_loop.
  unfold verify_and_extract, or_fail. effects; apply emits_extract_and_install.
Qed.
End confinement.

(** C24: an artifact cannot write outside its own cache directory.  Whatever the
    registry and the archive are, every path that a call of [Ensure] names consists
    of the components of [<root>/<digest>], for the 64 hexadecimal digits of the
    digest in the reference it was asked for, and further components that are
    neither empty nor dots nor contain a slash; with a reference that cannot be
    parsed or is not pinned by such a digest it calls nothing. *)
Theorem extraction_confined {G S} `{OciHost S} `{Unicode} ps ref :
  ps ≠ [] → Forall (λ x, plain_part x = true) ps →
  match ParseReference (S:=S) (TrimSpace ref) with
  | Ok r =>
      let hexdigest := TrimPrefix (rf_Reference r) "sha256:" in
      emits (λ c, rf_Reference r = "sha256:" +:+ hexdigest ∧ String.length hexdigest = 64%nat ∧
               all_bytes hex_byte hexdigest = true ∧ stays (ps ++ [hexdigest]) c)
        (Ensure (G:=G) (S:=S) (abs_path ps) ref)
  | Err _ => emits (λ _, False) (Ensure (G:=G) (S:=S) (abs_path ps) ref)
  end.
Proof.
  intros Hne Hps. destruct (ParseReference (TrimSpace ref)) as [r|e] eqn:Er.
  2: { unfold Ensure. rewrite Er. effects. }
  cbv zeta. unfold Ensure. rewrite Er. cbv zeta.
  destruct (String.eqb (rf_Reference r) "" || negb (digestPattern (rf_Reference r))) eqn:Ep; [effects|].
  bool_prop. destruct (digest_part (rf_Reference r)) as [Hpre Hpart]; [done|].
  apply HasPrefix_spec in Hpre as [h0 Eh].
  set (h := TrimPrefix (rf_Reference r) "sha256:") in *.
  assert (rf_Reference r = "sha256:" +:+ h) as Eref by (unfold h; by rewrite Eh, TrimPrefix_app).
  assert (String.length h = 64%nat ∧ all_bytes hex_byte h = true) as [Hl Hb].
  { unfold digestPattern in *. bool_prop. split; [by apply Nat.eqb_eq|done]. }
  set (ds := ps ++ [h]). assert (ds ≠ []) as Hne' by apply app_cons_ne.
  assert (Forall (λ x, plain_part x = true) ds) as Hds by (apply Forall_app; split; [done|by apply Forall_singleton]).
  assert (cache_dir (abs_path ps) (rf_Reference r) = abs_path ds) as -> by (by apply (cache_path ps Hne Hps)).
  assert (confined ds (JoinPath (abs_path ds) ".lock")) as Hlock by (by apply confined_part).
  assert (confined ds (abs_path ds)) as Hdir by apply confined_dir.
  apply (emits_weaken (stays ds)); [by intros c Hc|].
  unfold or_return, oci_mkdir. effects; try (by apply emits_call, Forall_singleton).
  by apply emits_ensure_locked.
Qed.

Lemma extraction_confined_witness :
  let w := mkWorld tt (sample_oci (λ _, false)) (λ n, Z.of_nat n) 0 [] in
  ∃ new, trace (Ensure (abs_path cache_parts) sample_ref w).2 = [] ++ new ∧ (10 < length new)%nat ∧
    Forall (λ c, stays (cache_parts ++ [TrimPrefix sample_digest "sha256:"]) c) new.
Proof.
  intros w. pose proof (extraction_confined (G:=unit) (S:=OciMachine) cache_parts sample_ref) as HT.
  assert (ParseReference (S:=OciMachine) (TrimSpace sample_ref) = Ok (mkReference "ghcr.io" "app" sample_digest))
    as Hr by (vm_compute; reflexivity).
  rewrite Hr in HT. destruct (HT ltac:(discriminate) ltac:(by repeat constructor) w) as (new & Ht & Hf).
  assert ((10 <? length (trace (Ensure (abs_path cache_parts) sample_ref w).2))%nat = true) as Hlen
    by (vm_compute; reflexivity).
  rewrite Ht in Hlen. exists new. split; [exact Ht|]. split; [by apply Nat.ltb_lt|].
  eapply Forall_impl; [exact Hf|]. intros c Hc. apply Hc.
Defined.

(** ** Limits *)

(** The bytes that are copied from an archive, file by file. *)
Definition copied (tr : list OciCall) : list string :=
  omap (λ c, match c with OciCopy _ data => Some data | _ => None end) tr.

Definition total_length (l : list string) : Z := foldr (λ s n, Z.of_nat (String.length s) + n) 0 l.

Ltac lengths := unfold total_length in *; cbn [foldr length removelast app] in *; lia.

Lemma copied_app l1 l2 : copied (l1 ++ l2) = copied l1 ++ copied l2.
Proof. apply omap_app. Qed.

Lemma total_length_nonneg l : 0 ≤ total_length l.
Proof. unfold total_length. induction l; cbn [foldr]; lia. Qed.

Definition small_entry (e : TarEntry) : Prop :=
  Z.of_nat (String.length (te_Data e)) ≤ max_int64 - maxExtractBytes.

Section limits.
Context {G S : Type} `{OciLaws S} `{Unicode}.

(** An entry copies at most one file, and goes on only within the limit. *)
Lemma extract_entry_copied dest entries total e (w : World G S OciCall) :
  0 ≤ total ≤ maxExtractBytes → small_entry e →
  ∃ new, let r := extract_entry dest entries total e w in
    trace r.2 = trace w ++ new ∧
    (copied new = [] ∧ (r.1.2 = None → r.1.1 = total) ∨
     copied new = [te_Data e] ∧ entries ≤ maxExtractEntries ∧
     (r.1.2 = None → r.1.1 = total + Z.of_nat (String.length (te_Data e)) ∧ r.1.1 ≤ maxExtractBytes)).
Proof.
  intros Ht He. unfold extract_entry.
  destruct (maxExtractEntries <? entries) eqn:El.
  { exists []. cbn. rewrite app_nil_r. split; [done|left]. done. }
  bool_prop. destruct (entry_name e) as [[name|]|err];
    [|exists []; cbn; rewrite app_nil_r; split; [done|by left]..].
  cbv zeta. destruct (negb _); [exists []; cbn; rewrite app_nil_r; split; [done|by left]|].
  destruct (te_Typeflag e =? TypeDir).
  { eexists. unfold oci_mkdir. rewrite run_call. cbn. split; [reflexivity|left]. split; [done|].
    by destruct (mkdir_path _ _ _).1. }
  destruct (_ || _); [|exists []; cbn; rewrite app_nil_r; split; [done|by left]].
  unfold extract_file, oci_mkdir. rewrite run_call. destruct (mkdir_path _ _ _).1 as [u|err].
  2: { eexists. cbn. split; [reflexivity|by left]. }
  rewrite run_call. cbn [env trace]. destruct (create_file _ _ _).1 as [u1|err].
  2: { eexists. cbn. rewrite <-app_assoc. split; [reflexivity|by left]. }
  rewrite run_call. cbn [env trace self clock tick].
  set (s := (create_file _ _ _).2). set (cp := copy_file _ _ _ s).
  destruct (copy_file_count (JoinPath dest name) (te_Data e) (te_Broken e) s) as [Hn Hall]. fold cp in Hn, Hall.
  rewrite run_call. cbn [env trace]. cbv zeta.
  assert (int64 (total + cp.1.1) = total + cp.1.1) as ->.
  { apply int64_id. unfold small_entry, min_int64, max_int64 in *. lia. }
  exists [OciMkdirAll (Dir (JoinPath dest name)) 493; OciCreate (JoinPath dest name) (entry_perm e);
          OciCopy (JoinPath dest name) (te_Data e); OciClose (JoinPath dest name)].
  destruct (maxExtractBytes <? total + cp.1.1) eqn:Eb; cbn.
  - rewrite <-!app_assoc. split; [done|right]. split; [done|]. split; [lia|done].
  - rewrite <-!app_assoc. split; [done|right]. split; [done|]. split; [lia|]. bool_prop.
    destruct (cp.1.2); [done|]. intros _. rewrite <-(Hall eq_refl). split; [done|lia].
Qed.

Lemma extract_entries_copied dest entries total l end_ (w : World G S OciCall) :
  0 ≤ entries ≤ maxExtractEntries → 0 ≤ total ≤ maxExtractBytes → Forall small_entry l →
  ∃ new, trace (extract_entries dest entries total l end_ w).2 = trace w ++ new ∧
    Z.of_nat (length (copied new)) ≤ maxExtractEntries - entries ∧
    total + total_length (removelast (copied new)) ≤ maxExtractBytes.
Proof.
  revert entries total w. induction l as [|e l IH]; intros entries total w Hen Ht Hs.
  { exists []. cbn. rewrite app_nil_r. split; [done|]. lia. }
  apply Forall_cons in Hs as [He Hs]. cbn [extract_entries].
  destruct (extract_entry_copied dest (entries + 1) total e w Ht He) as (new & Htr & Hnew). cbv zeta in Htr, Hnew.
  rewrite run_step. set (r := extract_entry dest (entries + 1) total e w) in *.
  assert (copied new = [] ∨ copied new = [te_Data e] ∧ entries < maxExtractEntries) as Hone.
  { destruct Hnew as [[-> _]|(-> & ? & _)]; [by left|right; split; [done|lia]]. }
  destruct (r.1.2) as [err|] eqn:Er.
  { exists new. split; [exact Htr|]. destruct Hone as [->|[-> ?]]; lengths. }
  assert (total ≤ r.1.1 ≤ maxExtractBytes ∧ r.1.1 = total + total_length (copied new)) as [Hr Hrt].
  { destruct Hnew as [[-> Hn]|(-> & _ & Hn)].
    - rewrite (Hn eq_refl). lengths.
    - destruct (Hn eq_refl) as [-> ?]. lengths. }
  destruct (decide (entries < maxExtractEntries)) as [Hlt|Hge].
  - destruct (IH (entries + 1) r.1.1 r.2) as (new' & Htr' & Hlen & Htot); [lia|lia|done|].
    exists (new ++ new'). rewrite Htr', Htr, app_assoc. split; [done|]. rewrite copied_app, length_app.
    split; [destruct Hone as [->|[-> ?]]; lengths|].
    destruct Hnew as [[E _]|(E & _)]; rewrite E in *; [lengths|].
    destruct (copied new') as [|x l'] eqn:E'; [lengths|].
    rewrite removelast_app by done. unfold total_length in *. rewrite foldr_app. lengths.
  - destruct Hone as [E|[_ ?]]; [|lia]. destruct l as [|e' l].
    + exists new. split; [exact Htr|]. rewrite E. lengths.
    + cbn [extract_entries]. exists new. rewrite run_step. unfold extract_entry.
      assert (maxExtractEntries <? entries + 1 + 1 = true) as -> by (apply Z.ltb_lt; lia).
      cbn. rewrite E. split; [exact Htr|]. lengths.
Qed.
End limits.

(** C26: an archive is extracted within limits.  However many entries it has and
    whatever their types, at most [maxExtractEntries] files are written, and all
    files but the last one have at most [maxExtractBytes] bytes together (sizes
    whose sum does not leave the 64 bits of the counter). *)
Theorem extraction_limits {G S} `{OciLaws S} `{Unicode} reader mediaType dest :
  Forall (λ st, Forall small_entry (ts_Entries st))
    (lr_Plain reader :: match lr_Gzip reader with Ok st => [st] | Err _ => [] end) →
  writes (λ tr, Z.of_nat (length (copied tr)) ≤ maxExtractEntries ∧
                total_length (removelast (copied tr)) ≤ maxExtractBytes)
    (extractLayer (G:=G) (S:=S) reader mediaType dest).
Proof.
  intros Hs. apply Forall_cons in Hs as [Hp Hg]. intros w.
  unfold extractLayer, layer_stream. destruct (Contains (ToLower mediaType) "gzip").
  - destruct (lr_Gzip reader) as [st|e].
    + apply Forall_cons in Hg as [Hg _].
      destruct (extract_entries_copied dest 0 0 (ts_Entries st) (ts_End st) w) as (new & ? & ? & ?); try done.
      exists new. split; [done|]. lia.
    + exists []. cbn. rewrite app_nil_r. split; [done|]. split; vm_compute; discriminate.
  - destruct (extract_entries_copied dest 0 0 (ts_Entries (lr_Plain reader)) (ts_End (lr_Plain reader)) w)
      as (new & ? & ? & ?); try done.
    exists new. split; [done|]. lia.
Qed.

(** A layer with three entries: the third file is refused by its name. *)
Definition sample_reader : LayerReader :=
  mkLayerReader (mkTarStream [mkTarEntry "bin/" TypeDir 493 "" None; mkTarEntry "bin/a" TypeReg 493 "aa" None;
    mkTarEntry "../b" TypeReg 420 "bbb" None] None) (Err (errorf "gzip: invalid header")).

Lemma extraction_limits_witness :
  let w := mkWorld tt (sample_oci (λ _, false)) (λ n, Z.of_nat n) 0 [] in
  let out := extractLayer sample_reader "application/tar" "/r/rootfs.tmp.1" w in
  out.1 = (2, Some (Rejected "InvalidPath" ("rejecting unsafe path " +:+ Quote "../b"))) ∧
  copied (trace out.2) = ["aa"] ∧
  ∃ new, trace out.2 = [] ++ new ∧ Z.of_nat (length (copied new)) ≤ maxExtractEntries ∧
    total_length (removelast (copied new)) ≤ maxExtractBytes.
Proof.
  intros w out. split; [vm_compute; reflexivity|]. split; [vm_compute; reflexivity|].
  apply (extraction_limits sample_reader "application/tar" "/r/rootfs.tmp.1").
  repeat constructor; vm_compute; discriminate.
Defined.

(** The size limit is only looked at after a file has been written.  A file
    of any size is extracted completely before the extraction is aborted, so the
    limit does not bound what an archive writes to the disk. *)
Theorem size_limit_checked_late data :
  let dest := "/r/rootfs.tmp.1" in
  let st := mkTarStream [mkTarEntry "big" TypeReg 420 data None] None in
  let w := mkWorld tt (sample_oci (λ _, false)) (λ n, Z.of_nat n) 0 [] in
  let out := extractLayer (mkLayerReader st (Ok st)) "application/tar" dest w in
  let size := int64 (Z.of_nat (String.length data)) in
  node (env out.2) (dest +:+ "/big") = Some (NodeFile data) ∧
  out.1 = (size, if maxExtractBytes <? size then Some (reject_size size) else None).
Proof.
  intros dest st w out size. unfold out, extractLayer. change (layer_stream _ _) with (@Ok GoError _ st).
  cbn [ts_Entries ts_End st extract_entries]. unfold extract_entry.
  change (maxExtractEntries <? 0 + 1) with false. cbv iota.
  assert (∀ e, te_Name e = "big" → entry_name e = Ok (Some "big")) as Hn.
  { intros e He. unfold entry_name. rewrite He. vm_compute. reflexivity. }
  rewrite Hn by done. cbv zeta iota.
  change (JoinPath dest "big") with "/r/rootfs.tmp.1/big".
  change (negb (HasPrefix _ _)) with false. cbv iota. cbn [te_Typeflag].
  change (TypeReg =? TypeDir) with false. change ((TypeReg =? TypeReg) || _) with true. cbv iota.
  unfold extract_file, oci_mkdir. cbn [te_Data te_Broken entry_perm te_Mode].
  change (Dir "/r/rootfs.tmp.1/big") with "/r/rootfs.tmp.1".
  rewrite !run_bind, run_call.
  change (mkdir_path _ _ (env w)).1 with (@Ok GoError unit tt). cbv iota.
  rewrite !run_bind, run_call. cbn [env].
  set (s1 := (mkdir_path _ _ (env w)).2).
  change (create_file _ _ s1).1 with (@Ok GoError unit tt). cbv iota. cbn [self clock tick trace].
  set (s2 := (create_file _ _ s1).2).
  rewrite !run_bind, run_call. cbn [env].
  change (copy_file "/r/rootfs.tmp.1/big" data None s2).1 with (Z.of_nat (String.length data), @None GoError).
  rewrite !run_bind, run_call. cbn [fst snd]. rewrite Z.add_0_l. fold size.
  set (s3 := (copy_file _ _ _ s2).2). cbn [env self clock tick trace].
  assert (node (close_path "/r/rootfs.tmp.1/big" s3).2 "/r/rootfs.tmp.1/big" = Some (NodeFile data)) as Hd.
  { rewrite close_path_frame. apply (copy_file_ok "/r/rootfs.tmp.1/big" data None s2
      (Z.of_nat (String.length data)) s3 ""); reflexivity. }
  destruct (maxExtractBytes <? size); split; try exact Hd; reflexivity.
Qed.
