(* ===== verification/AgentOciCalls.v ===== *)
(** * The order and number of the calls of the OCI fetcher

    How often and how the registry is asked, what happens under the lock of the
    cache directory, and which registries are spoken to without TLS. *)

From S2P Require Import Prelude GoStrings GoTime GoCrypto GoStrconv GoNet GoPath GatewayStatus.
From S2P Require Import AgentHost AgentOci AgentOciLaws AgentOciFacts AgentOciProps.

#[local] Open Scope go_scope.

Section calls.
Context {G S : Type} `{OciHost S} `{Unicode}.

#[local] Abbreviation OG := (M G S OciCall).

(** ** The registry *)

(** The pulls and the pauses among the calls. *)
Definition asks_registry (c : OciCall) : bool :=
  match c with OciPull _ _ _ | OciSleep _ => true | _ => false end.
Definition registry_calls (tr : list OciCall) : list OciCall := List.filter asks_registry tr.

(** Neither a pull nor a pause nor a lock. *)
Definition local_call (c : OciCall) : Prop :=
  match c with
  | OciPull _ _ _ | OciSleep _ | OciOpenLock _ | OciFlock _ | OciUnlock _ | OciCloseLock _ => False
  | _ => True
  end.
Definition no_lock (c : OciCall) : Prop :=
  match c with OciOpenLock _ | OciFlock _ | OciUnlock _ | OciCloseLock _ => False | _ => True end.

Lemma registry_calls_app l l' : registry_calls (l ++ l') = registry_calls l ++ registry_calls l'.
Proof. apply List.filter_app. Qed.
Lemma registry_calls_local l : Forall local_call l → registry_calls l = [].
Proof. induction 1 as [|c l Hc Hl IH]; [done|]. by destruct c. Qed.

#[local] Hint Extern 1 (local_call _) => exact I : effects.
#[local] Hint Extern 1 (no_lock _) => exact I : effects.

Lemma local_extract_entry dest entries total e :
  emits local_call (extract_entry (G:=G) (S:=S) dest entries total e).
Proof. unfold extract_entry, extract_file, oci_mkdir. effects. Qed.

Lemma local_extract_entries dest entries total l end_ :
  emits local_call (extract_entries (G:=G) (S:=S) dest entries total l end_).
Proof.
  revert entries total. induction l as [|e l IH]; intros entries total; cbn [extract_entries]; [effects|].
  apply emits_bind; [apply local_extract_entry|]. intros [n [err|]]; [effects|apply IH].
Qed.

Lemma local_verify_and_extract ref dir digest got res :
  emits local_call (verify_and_extract (G:=G) (S:=S) ref dir digest got res).
Proof.
  unfold verify_and_extract, or_fail. cbv zeta. effects; try apply emits_ask.
  unfold extract_and_install, or_fail, oci_mkdir, extractLayer. effects; try apply local_extract_entries.
  unfold install, or_fail, oci_remove, oci_rename, oci_write. effects.
Qed.

(** The attempts are only set before. *)
Definition attempts_of (n : Z) (r : OciResult * option GoError) : Prop := oci_attempts r.1 = n.

Lemma attempts_extract e res : oci_attempts (extract_failed e res) = oci_attempts res.
Proof. by destruct e. Qed.

Lemma attempts_or_fail {A} n res (m : OG (result GoError A)) k : oci_attempts res = n →
  (∀ a, answers (attempts_of n) (k a)) → answers (attempts_of n) (or_fail res m k).
Proof.
  intros Hn Hk. unfold or_fail. apply answers_bind. intros [a|e]; [apply Hk|by apply answers_ret].
Qed.

Lemma attempts_install ref dir tmp digest size res n : oci_attempts res = n →
  answers (attempts_of n) (install (G:=G) (S:=S) ref dir tmp digest size res).
Proof.
  intros Hn. unfold install. cbv zeta. apply answers_bind. intros [u|e].
  2: { apply answers_bind. intros ?. by apply answers_ret. }
  apply answers_bind. intros [u1|e]. 2: { apply answers_bind. intros ?. by apply answers_ret. }
  apply answers_bind. intros now. apply attempts_or_fail; [done|]. intros ?.
  apply attempts_or_fail; [done|]. intros ?. by apply answers_ret.
Qed.

Lemma attempts_verify_and_extract ref dir digest got res n : oci_attempts res = n →
  answers (attempts_of n) (verify_and_extract (G:=G) (S:=S) ref dir digest got res).
Proof.
  intros Hn. unfold verify_and_extract. cbv zeta. destruct (negb _); [by apply answers_ret|].
  apply attempts_or_fail; [done|]. intros bytes. apply attempts_or_fail; [done|].
  intros [|layer [|]]; [by apply answers_ret| |by apply answers_ret].
  apply attempts_or_fail; [done|]. intros reader. unfold deferred.
  apply (answers_bind_post (attempts_of n)).
  2: { intros r Hr. apply answers_bind. intros ?. by apply answers_ret. }
  unfold extract_and_install. apply answers_bind. intros now. cbv zeta.
  apply attempts_or_fail; [done|]. intros ?. apply answers_bind. intros [size [e|]].
  - apply answers_bind. intros ?. apply answers_ret. unfold attempts_of. cbn [fst]. by rewrite attempts_extract.
  - by apply attempts_install.
Qed.

(** A pause is at least the backoff of its attempt and less than half as much
    again. *)
Definition pause_ok (attempt d : Z) : Prop :=
  2 ^ attempt * Second ≤ d ∧ 2 * d < 3 * (2 ^ attempt * Second).

Lemma backoff_pause attempt : 0 ≤ attempt ≤ 2 →
  traced (λ d l, l = [] ∧ pause_ok attempt d) (backoffDuration (G:=G) (S:=S) attempt).
Proof.
  intros Ha. unfold backoffDuration, randInt63n.
  assert (backoff_base attempt = 2 ^ attempt * Second ∧ 0 < backoff_base attempt / 2) as [Hb Hp].
  { assert (attempt = 0 ∨ attempt = 1 ∨ attempt = 2) as [->|[->| ->]] by lia; split; reflexivity. }
  assert (backoff_base attempt / 2 <=? 0 = false) as -> by (apply Z.leb_gt; lia).
  intros w. exists []. rewrite app_nil_r. split; [done|]. split; [done|].
  cbn. rewrite Hb in Hp |- *. pose proof (Z.mod_pos_bound (clock w (tick w)) (2 ^ attempt * Second / 2) Hp).
  pose proof (Z.mul_div_le (2 ^ attempt * Second) 2 ltac:(lia)). unfold pause_ok. lia.
Qed.

(** The calls of attempts that failed, each with the pause after it. *)
Definition rounds (c : OciCall) (ds : list Z) : list OciCall := mjoin ((λ d, [c; OciSleep d]) <$> ds).

(** The pauses after the attempts from number [attempt] on. *)
Definition paused (attempt : Z) (ds : list Z) : Prop :=
  ∀ i d, ds !! i = Some d → pause_ok (attempt + Z.of_nat i) d.

Lemma rounds_cons c d ds : rounds c (d :: ds) = c :: OciSleep d :: rounds c ds.
Proof. done. Qed.
Lemma paused_nil attempt : paused attempt [].
Proof. by intros i d. Qed.
Lemma paused_cons attempt d ds : pause_ok attempt d → paused (attempt + 1) ds → paused attempt (d :: ds).
Proof.
  intros Hd Hds [|i] x Hx; [injection Hx as <-; by rewrite Z.add_0_r|].
  replace (attempt + Z.of_nat (Datatypes.S i)) with (attempt + 1 + Z.of_nat i) by lia. by apply Hds.
Qed.

(** What a loop of [n] attempts from number [attempt] on calls, and what it
    answers: it ends with an attempt, with the pause after the last one, or with a
    pause that is cut short. *)
Definition pulled_ok (c : OciCall) (attempt : Z) (n : nat) (p : Pulled) (tr : list OciCall) : Prop :=
  ∃ ds, match p with
        | PullDone m _ r =>
            (tr = rounds c ds ++ [c] ∧ paused attempt ds ∧ (length ds < n)%nat ∧ m = attempt + Z.of_nat (length ds) + 1) ∨
            (tr = rounds c ds ∧ paused attempt ds ∧ length ds = n ∧ m = attempt + Z.of_nat n ∧
             ∃ e, r = Err e)
        | PullCancelled _ e =>
            ∃ d s, tr = rounds c (ds ++ [d]) ∧ paused attempt (ds ++ [d]) ∧ (length ds < n)%nat ∧
                   (sleep d s).1 = Some e
        end.

Lemma pulled_ok_retry c attempt n p d tr :
  pause_ok attempt d → pulled_ok c (attempt + 1) n p tr →
  pulled_ok c attempt (Datatypes.S n) p (c :: OciSleep d :: tr).
Proof.
  intros Hd (ds & Hds). exists (d :: ds). destruct p as [m a r|a e].
  - destruct Hds as [(-> & Hp & Hl & ->)|(-> & Hp & Hl & -> & Hr)]; [left|right].
    + cbn [length]. split_all; try done; [by apply paused_cons|lia|lia].
    + cbn [length]. split_all; try done; [by apply paused_cons|lia|lia].
  - destruct Hds as (d' & s & -> & Hp & Hl & Hs). exists d', s. cbn [length]. split_all; [done| |lia|done].
    by apply paused_cons.
Qed.

Lemma pulled_ok_calls c attempt n p tr : no_lock c ∧ asks_registry c = true → pulled_ok c attempt n p tr →
  Forall no_lock tr ∧ registry_calls tr = tr.
Proof.
  intros [Hno Hc]. assert (∀ ds, Forall no_lock (rounds c ds) ∧ registry_calls (rounds c ds) = rounds c ds) as Hr.
  { induction ds as [|d ds [IH1 IH2]]; [by split|]. rewrite rounds_cons. split; [by repeat constructor|].
    unfold registry_calls in *. cbn [List.filter]. rewrite Hc. cbn [asks_registry]. by rewrite IH2. }
  intros (ds & Hds). destruct p as [m a r|a e].
  - destruct Hds as [(-> & _)|(-> & _)]; [|apply Hr].
    rewrite registry_calls_app, (proj2 (Hr ds)). split; [apply Forall_app; split; [apply Hr|by constructor]|].
    unfold registry_calls. cbn [List.filter]. by rewrite Hc.
  - destruct Hds as (d & s & -> & _). apply Hr.
Qed.

Lemma pull_loop_calls r plain dir n attempt at_ last : 0 ≤ attempt → attempt + Z.of_nat n ≤ 3 →
  (0 < n)%nat ∨ (∃ e, last = Err e) →
  traced (pulled_ok (OciPull r plain dir) attempt n) (pull_loop (G:=G) (S:=S) r plain dir n attempt at_ last).
Proof.
  revert attempt at_ last. induction n as [|n IH]; intros attempt at_ last Ha Hn Hlast; cbn [pull_loop].
  { apply traced_ret. exists []. rewrite int32_id by (unfold max_int32; lia). right.
    destruct Hlast as [Hlast|Hlast]; [lia|]. split_all; [done|apply paused_nil|done|lia|done]. }
  assert (int32 (attempt + 1) = attempt + 1) as Hi by (apply int32_id; unfold max_int32; lia).
  assert (∀ a res, pulled_ok (OciPull r plain dir) attempt (Datatypes.S n) (PullDone (attempt + 1) a res)
    [OciPull r plain dir]) as Hone.
  { intros a res. exists []. left. cbn. split_all; [done|apply paused_nil|lia|lia]. }
  apply (traced_bind (λ _ l, l = [])); [by apply traced_silent|]. intros now l ->. cbv zeta.
  apply (traced_bind (λ _ l, l = [OciPull r plain dir])); [by apply traced_call|].
  intros [d|e] l ->; [apply traced_ret; rewrite Hi; apply Hone|].
  destruct (negb (isRetryable e)); [apply traced_ret; rewrite Hi; apply Hone|].
  apply (traced_bind (λ d l, l = [] ∧ pause_ok attempt d)); [apply backoff_pause; lia|]. intros d l [-> Hd].
  apply (traced_bind (λ a l, l = [OciSleep d] ∧ ∃ s, (sleep d s).1 = a)).
  { apply traced_call_answer. by split; [|eexists]. }
  intros [e'|] l (-> & s & Hs).
  - apply traced_ret. exists [], d, s. split_all; [done| |cbn; lia|done].
    apply paused_cons; [done|apply paused_nil].
  - eapply traced_weaken; [apply IH; [lia|lia|right; by eexists]|]. intros p l Hp.
    by apply pulled_ok_retry.
Qed.

(** How [Ensure] uses the registry: [c] is the call of an attempt, [cached] the
    answer from the cache. *)
Inductive registry_use (c : OciCall) (cached : OciResult) (out : OciResult * option GoError) : list OciCall → Prop :=
  | registry_unused :
      oci_attempts out.1 = 0 → is_Some out.2 ∨ out = (cached, None) →
      registry_use c cached out []
  | registry_answered ds : (length ds < 3)%nat → paused 0 ds →
      oci_attempts out.1 = Z.of_nat (length ds) + 1 →
      registry_use c cached out (rounds c ds ++ [c])
  | registry_given_up ds : length ds = 3%nat → paused 0 ds →
      oci_attempts out.1 = 3 → is_Some out.2 →
      registry_use c cached out (rounds c ds)
  | registry_cancelled ds d s : (length ds < 3)%nat → paused 0 (ds ++ [d]) →
      is_Some (sleep d s).1 → out.2 = (sleep d s).1 → oci_attempts out.1 = 0 →
      registry_use c cached out (rounds c (ds ++ [d])).

Lemma ensure_locked_calls ref dir r res : oci_attempts res = 0 →
  traced (λ out tr,
      registry_use (OciPull r (allowPlainHTTP (S:=S) (rf_Registry r)) dir)
        (cached_result (rootfsPath dir) (rf_Reference r) res) out (registry_calls tr) ∧ Forall no_lock tr)
    (ensure_locked (G:=G) (S:=S) ref dir r res).
Proof.
  intros Hres. unfold ensure_locked. set (plain := allowPlainHTTP _). set (c := OciPull _ _ _).
  set (cached := cached_result _ _ _).
  apply (traced_bind (λ _ l, l = [])); [by apply traced_silent|]. intros ready l ->.
  apply (traced_bind (λ _ l, l = [])); [destruct ready; by apply traced_silent|]. intros rootfs l ->.
  destruct rootfs; [apply traced_ret; split; [|constructor]; apply registry_unused; [done|by right]|].
  unfold or_return.
  apply (traced_bind (λ _ l, l = [OciNewStore dir])); [by apply traced_call|]. intros u l ->.
  destruct u as [u|e]; [|apply traced_ret; split; [|by repeat constructor]; apply registry_unused; [done|by left]].
  apply (traced_bind (λ _ l, l = [])); [by apply traced_ret|]. intros u1 l ->.
  destruct u1 as [u1|e]; [|apply traced_ret; split; [|by repeat constructor]; apply registry_unused; [done|by left]].
  apply (traced_bind (pulled_ok c 0 3)); [apply pull_loop_calls; [lia|lia|left; lia]|].
  intros p tr (ds & Hds). cbn [app].
  assert (Forall no_lock tr ∧ registry_calls tr = tr) as [Hno Htr].
  { apply (pulled_ok_calls c 0 3 p); [by split|by exists ds]. }
  assert (∀ out tr', Forall local_call tr' → registry_use c cached out tr →
    registry_use c cached out (registry_calls (OciNewStore dir :: tr ++ tr')) ∧
    Forall no_lock (OciNewStore dir :: tr ++ tr')) as Hout.
  { intros out tr' Hloc Hu. split.
    - change (registry_calls (_ :: tr ++ tr')) with (registry_calls (tr ++ tr')).
      by rewrite registry_calls_app, (registry_calls_local tr'), app_nil_r, Htr.
    - constructor; [done|]. apply Forall_app. split; [done|]. eapply Forall_impl; [exact Hloc|]. by intros []. }
  destruct p as [attempts at_ got|at_ e]; cbv zeta.
  - assert (∀ out, oci_attempts out.1 = attempts → (∀ e, got = Err e → is_Some out.2) →
      registry_use c cached out tr) as Huse.
    { intros out Ho He. destruct Hds as [(-> & Hp & Hl & ->)|(-> & Hp & Hl & -> & e & ->)].
      - apply registry_answered; [done|done|rewrite Ho; lia].
      - apply registry_given_up; [done|done|done|by eapply He]. }
    destruct got as [got|e].
    + eapply traced_weaken; [apply traced_of;
        [by apply (attempts_verify_and_extract _ _ _ _ _ attempts)|by apply local_verify_and_extract]|].
      intros out tr' [Ha Hloc]. by apply Hout; [|apply Huse].
    + apply traced_ret, Hout; [constructor|]. apply Huse; [done|by eexists].
  - destruct Hds as (d & s & -> & Hp & Hl & Hs). apply traced_ret, Hout; [constructor|].
    apply (registry_cancelled _ _ _ ds d s); [done|done|by rewrite Hs|by rewrite Hs|done].
Qed.
End calls.

Lemma traced_deferred {G S C A B} (Q R : A → list C → Prop) (c : C) (f : S → B * S) (m : M G S C A) :
  traced Q m → (∀ a l, Q a l → R a (l ++ [c])) → traced R (deferred (call c f) m).
Proof.
  intros Hm HR. unfold deferred. apply (traced_bind Q); [exact Hm|]. intros a l Hl.
  apply (traced_bind (λ _ l', l' = [c])); [by apply traced_call|]. intros b l' ->.
  apply traced_ret. rewrite app_nil_r. by apply HR.
Qed.

(** How the lock of a cache directory is used: not at all when the reference is
    refused, the directory cannot be made or the file cannot be opened; closed
    again when it cannot be taken; and otherwise taken before everything else,
    released after it and closed last. *)
Inductive lock_protocol (dir : string) : list OciCall → Prop :=
  | lock_unused : lock_protocol dir []
  | lock_no_dir : lock_protocol dir [OciMkdirAll dir 493]
  | lock_not_opened : lock_protocol dir [OciMkdirAll dir 493; OciOpenLock (JoinPath dir ".lock")]
  | lock_not_taken : lock_protocol dir
      [OciMkdirAll dir 493; OciOpenLock (JoinPath dir ".lock"); OciFlock (JoinPath dir ".lock");
       OciCloseLock (JoinPath dir ".lock")]
  | lock_held body : Forall no_lock body → lock_protocol dir
      ([OciMkdirAll dir 493; OciOpenLock (JoinPath dir ".lock"); OciFlock (JoinPath dir ".lock")] ++ body ++
       [OciUnlock (JoinPath dir ".lock"); OciCloseLock (JoinPath dir ".lock")]).

(** The attempt of a reference, and the answer from the cache. *)
Definition attempt_call {S} `{OciHost S} `{Unicode} (root : string) (r : Reference) : OciCall :=
  OciPull r (allowPlainHTTP (S:=S) (rf_Registry r)) (cache_dir root (rf_Reference r)).
Definition from_cache (root : string) (r : Reference) : OciResult :=
  cached_result (rootfsPath (cache_dir root (rf_Reference r))) (rf_Reference r) initial_result.

(** What [Ensure] answers and calls, for a reference that is parsed. *)
Lemma Ensure_calls {G S} `{OciHost S} `{Unicode} root ref r : ParseReference (S:=S) (TrimSpace ref) = Ok r →
  traced (λ out tr, registry_use (attempt_call (S:=S) root r) (from_cache root r) out (registry_calls tr) ∧
                    lock_protocol (cache_dir root (rf_Reference r)) tr)
    (Ensure (G:=G) (S:=S) root ref).
Proof.
  intros Hr. unfold Ensure. rewrite Hr. cbv zeta. unfold attempt_call, from_cache. set (c := OciPull _ _ _).
  set (dir := cache_dir root _). set (lock := JoinPath dir ".lock"). set (cached := cached_result _ _ _).
  assert (∀ e, registry_use c cached (initial_result, Some e) []) as Hnone.
  { intros e. apply registry_unused; [done|left; by eexists]. }
  destruct (_ || _); [apply traced_ret; split; [apply Hnone|constructor]|]. unfold or_return, oci_mkdir.
  apply (traced_bind (λ _ l, l = [OciMkdirAll dir 493])); [by apply traced_call|]. intros [u|e] l ->.
  2: { apply traced_ret. split; [apply Hnone|constructor]. }
  apply (traced_bind (λ _ l, l = [OciOpenLock lock])); [by apply traced_call|]. intros [u1|e] l ->.
  2: { apply traced_ret. split; [apply Hnone|constructor]. }
  apply (traced_deferred (λ out tr, registry_use c cached out (registry_calls tr) ∧
    (tr = [OciFlock lock] ∨ ∃ body, Forall no_lock body ∧ tr = [OciFlock lock] ++ body ++ [OciUnlock lock]))).
  2: { intros out tr [Hu Htr]. split.
       - change (registry_use c cached out (registry_calls (tr ++ [OciCloseLock lock]))).
         by rewrite registry_calls_app, app_nil_r.
       - destruct Htr as [->|(body & Hb & ->)]; [apply lock_not_taken|].
         change ([OciMkdirAll dir 493] ++ [OciOpenLock lock] ++ (([OciFlock lock] ++ body ++ [OciUnlock lock]) ++
           [OciCloseLock lock])) with ([OciMkdirAll dir 493; OciOpenLock lock; OciFlock lock] ++
           ((body ++ [OciUnlock lock]) ++ [OciCloseLock lock])).
         rewrite <-app_assoc. by apply lock_held. }
  apply (traced_bind (λ _ l, l = [OciFlock lock])); [by apply traced_call|]. intros [u2|e] l ->.
  2: { apply traced_ret. split; [apply Hnone|by left]. }
  eapply traced_deferred; [by apply ensure_locked_calls|]. intros out tr [Hu Hno].
  split; [|right; by exists tr].
  change (registry_use c cached out (registry_calls (tr ++ [OciUnlock lock]))).
  by rewrite registry_calls_app, app_nil_r.
Qed.

(** C25: one [Ensure] asks the registry at most three times, always for the same
    reference, into the same directory and with the same choice of TLS.  Every
    attempt but the last is followed by exactly one pause before the next, of the
    backoff of its attempt (one, two and four seconds) and less than half of it
    again, and by nothing else.  The pulls and pauses of a call are one of: none,
    and then the artifact was in the cache or an error is returned; some rounds of
    a pull and a pause and a last pull, which the result counts; three rounds,
    counted, with an error; or some rounds the last pause of which is cut short,
    when its error is returned and the result counts no attempt. *)
Theorem registry_use_bounded {G S} `{OciHost S} `{Unicode} root ref r :
  ParseReference (S:=S) (TrimSpace ref) = Ok r →
  traced (λ out tr, registry_use (attempt_call (S:=S) root r) (from_cache root r) out (registry_calls tr))
    (Ensure (G:=G) (S:=S) root ref).
Proof. intros Hr. eapply traced_weaken; [by apply Ensure_calls|]. by intros out tr [Hu _]. Qed.


#[local] Existing Instance ascii_unicode.

(** The registry answers with 503 once: a pull, a pause and a second pull. *)
Lemma registry_use_bounded_witness :
  let w := mkWorld tt (sample_oci (λ _, false)) (λ n, Z.of_nat n * Second) 0 [] in
  let r := mkReference "ghcr.io" "app" sample_digest in
  let out := Ensure (abs_path cache_parts) sample_ref w in
  let c := attempt_call (S:=OciMachine) (abs_path cache_parts) r in
  registry_calls (trace out.2) = [c; OciSleep Second; c] ∧ oci_attempts out.1.1 = 2 ∧
  ∃ new, trace out.2 = [] ++ new ∧
    registry_use c (from_cache (abs_path cache_parts) r) out.1 (registry_calls new).
Proof.
  intros w r out c. split_all; [vm_compute; reflexivity|vm_compute; reflexivity|].
  refine (registry_use_bounded (abs_path cache_parts) sample_ref r _ w). vm_compute. reflexivity.
Defined.

(** ** Registries without TLS *)

Definition lower_byte (c : ascii) : ascii := if in_range 65 90 c then byte (code c + 32) else c.
Fixpoint map_bytes (f : ascii → ascii) (s : string) : string :=
  match s with EmptyString => EmptyString | String c r => String (f c) (map_bytes f r) end.

Definition ascii_byte (c : ascii) : bool := code c <? 128.

(** Lower case of an ASCII string. *)
Lemma ToLower_ascii `{Unicode} s : all_bytes ascii_byte s = true → ToLower s = map_bytes lower_byte s.
Proof.
  unfold ToLower, MapRunes, runes. induction s as [|c s IH]; [done|]. cbn [all_bytes]. intros Hs.
  apply andb_true_iff in Hs as [Hc Hs]. unfold ascii_byte in Hc.
  cbn [decode]. rewrite Hc. cbn [map_bytes fmap list_fmap default foldr]. unfold default. cbn [from_option id].
  fold (fmap (M:=list) (default RuneError)). rewrite <-(IH Hs).
  bool_prop. pose proof (code_range c) as Hr. rewrite to_lower_ascii by lia.
  unfold lower_byte, in_range. destruct ((65 <=? code c) && (code c <=? 90)) eqn:E.
  - bool_prop. unfold encode_rune.
    replace ((0 <=? code c + 32) && (code c + 32 <? 128)) with true; [done|].
    symmetry. rewrite andb_true_iff, Z.leb_le, Z.ltb_lt. lia.
  - unfold encode_rune. replace ((0 <=? code c) && (code c <? 128)) with true.
    + by rewrite byte_code.
    + symmetry. rewrite andb_true_iff, Z.leb_le, Z.ltb_lt. lia.
Qed.

Lemma visible_ascii s : all_bytes visible s = true → all_bytes ascii_byte s = true.
Proof.
  apply all_bytes_impl. unfold visible, in_range, ascii_byte. intros c Hc. bool_prop. apply Z.ltb_lt. lia.
Qed.

Lemma lower_byte_colon c : lower_byte c = colon ↔ c = colon.
Proof.
  split; [|by intros ->]. unfold lower_byte, in_range. destruct (_ && _) eqn:E; [|done]. bool_prop.
  intros Hc. apply (f_equal code) in Hc. rewrite code_byte in Hc by lia. change (code colon) with 58 in Hc. lia.
Qed.

Lemma lacks_lower s : lacks colon (map_bytes lower_byte s) = lacks colon s.
Proof.
  unfold lacks. induction s as [|c s IH]; [done|]. cbn [map_bytes all_bytes]. rewrite IH. f_equal. f_equal.
  destruct (Ascii.eqb_spec colon c) as [<-|Hne]; [done|].
  destruct (Ascii.eqb_spec colon (lower_byte c)) as [Hl|]; [|done].
  symmetry in Hl. apply (proj1 (lower_byte_colon c)) in Hl. congruence.
Qed.

(** An entry of the list of registries: visible ASCII without commas. *)
Definition host_entry (e : string) : Prop := e ≠ "" ∧ all_bytes visible e = true ∧ lacks comma e = true.

Lemma fields_entries entries : Forall host_entry entries →
  FieldsFunc comma (TrimSpace (Join (str1 comma) entries)) = entries.
Proof.
  intros He. rewrite TrimSpace_visible.
  - destruct entries as [|e entries]; [done|]. unfold FieldsFunc. rewrite Split_Join; [|done|].
    + induction He as [|x l (Hx & _) Hl IH]; [done|]. cbn [List.filter]. apply String.eqb_neq in Hx.
      rewrite Hx. cbn [negb]. by rewrite IH.
    + eapply Forall_impl; [exact He|]. by intros x (_ & _ & ?).
  - induction He as [|x l (_ & Hx & _) Hl IH]; [done|]. destruct l as [|y l]; [done|].
    rewrite Join_cons by done. by rewrite !all_bytes_app, Hx, IH.
Qed.

(** TLS is given up for a registry with a port exactly when an entry of
    [APOLLO_OCI_PLAIN_HTTP_HOSTS] is its host without the port, up to the case of
    letters.  So an entry that names a port, which the test of this list uses,
    never has any effect. *)
Theorem plain_http_hosts {S} `{OciHost S} `{Unicode} entries reg host port :
  TrimSpace (Getenv (S:=S) "APOLLO_OCI_PLAIN_HTTP") = "" →
  Getenv (S:=S) "APOLLO_OCI_PLAIN_HTTP_HOSTS" = Join (str1 comma) entries → Forall host_entry entries →
  SplitHostPort reg = Some (host, port) → HasPrefix reg "[" = false → all_bytes ascii_byte host = true →
  allowPlainHTTP (S:=S) reg = true ↔
  ∃ e, e ∈ entries ∧ contains_byte colon e = false ∧ map_bytes lower_byte e = map_bytes lower_byte host.
Proof.
  intros Hall Hget He Hsplit Hbr Hascii.
  pose proof (SplitHostPort_host _ _ _ Hsplit Hbr) as Hcolon.
  assert (∀ e, host_entry e → TrimSpace e = e ∧ ToLower e = map_bytes lower_byte e ∧ ToLower e ≠ "") as Hent.
  { intros e (Hne & Hv & _). split; [by apply TrimSpace_visible|]. rewrite ToLower_ascii by (by apply visible_ascii).
    split; [done|]. by destruct e. }
  unfold allowPlainHTTP. rewrite Hall, Hget, fields_entries, Hsplit by done. cbv zeta.
  change (equal_fold "1" "" || equal_fold "true" "") with false. cbv iota.
  rewrite existsb_exists. split.
  - intros (e & Hin & Hb). bool_prop. apply list_elem_of_In in Hin. exists e.
    rewrite Forall_forall in He. destruct (Hent e (He e Hin)) as (Ht & Hl & _).
    match goal with H : String.eqb _ _ = true |- _ => apply String.eqb_eq in H; rewrite Ht, Hl, ToLower_ascii in H by done;
      rename H into Heq end.
    split_all; [done| |done]. rewrite <-(negb_involutive (contains_byte colon e)), <-lacks_contains, <-lacks_lower, Heq.
    by rewrite lacks_lower, Hcolon.
  - intros (e & Hin & _ & Heq). exists e. split; [by apply list_elem_of_In|].
    rewrite Forall_forall in He. destruct (Hent e (He e Hin)) as (Ht & Hl & Hne). rewrite Ht.
    apply String.eqb_neq in Hne. rewrite Hne, Hl, Heq, ToLower_ascii by done. by rewrite String.eqb_refl.
Qed.

(** The case of the test of the list, and the entry that would work. *)
Lemma plain_http_hosts_witness :
  let env (entry x : string) := if String.eqb x "APOLLO_OCI_PLAIN_HTTP_HOSTS" then entry else "" in
  @allowPlainHTTP OciMachine (oci_machine_in (env "registry.local:5000")) _ "registry.local:5000" = false ∧
  @allowPlainHTTP OciMachine (oci_machine_in (env "quay.io,Registry.Local")) _ "registry.local:5000" = true.
Proof.
  intros env. split.
  - apply not_true_iff_false. intros Ha.
    apply (@plain_http_hosts OciMachine (oci_machine_in (env "registry.local:5000")) _
      ["registry.local:5000"] "registry.local:5000" "registry.local" "5000") in Ha; try reflexivity.
    + destruct Ha as (e & He & Hc & _). apply list_elem_of_singleton in He as ->. discriminate Hc.
    + repeat constructor. discriminate.
  - apply (@plain_http_hosts OciMachine (oci_machine_in (env "quay.io,Registry.Local")) _
      ["quay.io"; "Registry.Local"] "registry.local:5000" "registry.local" "5000"); try reflexivity.
    + repeat constructor; discriminate.
    + exists "Registry.Local". split; [by apply list_elem_of_further, list_elem_of_here|split; reflexivity].
Defined.
