(* ===== verification/AgentFetcher.v ===== *)
(** * The agent with its OCI fetcher

    [ociFetcher] is an interface of the agent ([ensure_artifact] of [Host]), and
    [Ensure] its implementation.  Here the implementation is put behind the
    interface, and what the agent relies on is proved of it: a download changes
    no unit or environment file. *)

From S2P Require Import Prelude GoStrings GoPath AgentHost AgentOci AgentOciLaws AgentOciFacts AgentOciProps.

#[local] Open Scope go_scope.

(** The regular files of a tree. *)
Definition file_at {S} `{OciLaws S} (s : S) (p : string) : option string :=
  match node s p with Some (NodeFile c) => Some c | _ => None end.

(** Nothing outside a directory changes, except that directories are made. *)
Definition files_outside {S} `{OciLaws S} (root : string) (s s' : S) : Prop :=
  ∀ p, ¬ within root p → file_at s' p = file_at s p.

#[export] Instance files_outside_preorder {S} `{OciLaws S} root : PreOrder (files_outside root).
Proof. split; [by intros s p|]. intros s1 s2 s3 H12 H23 p Hp. by rewrite H23, H12. Qed.

Section frame.
Context {G S : Type} `{OciLaws S} `{Unicode}.
Context (ps : list string) (Hne : ps ≠ []) (Hps : Forall (λ x, plain_part x = true) ps) (hexdigest : string).
Context (Hhex : plain_part hexdigest = true).

#[local] Abbreviation root := (abs_path ps).
#[local] Abbreviation ds := (ps ++ [hexdigest]).
#[local] Abbreviation dir := (abs_path ds).

Lemma ds_ne : ds ≠ [].
Proof. apply app_cons_ne. Qed.
Lemma ds_plain : Forall (λ x, plain_part x = true) ds.
Proof. apply Forall_app. split; [done|by apply Forall_singleton]. Qed.

Lemma outside_confined p q : ¬ within root p → confined ds q → ¬ within q p.
Proof.
  intros Hp (qs & Hqs & ->) Hw. apply Hp. eapply within_trans; [|exact Hw].
  apply within_abs_path; [done|intros E; apply (app_cons_ne ps qs hexdigest); by rewrite <-app_assoc in E|done| |].
  - rewrite <-app_assoc. apply Forall_app. split; [done|]. by constructor.
  - exists ([hexdigest] ++ qs). by rewrite app_assoc.
Qed.
Lemma outside_ne p q : ¬ within root p → confined ds q → p ≠ q.
Proof. intros Hp Hq ->. apply (outside_confined q q Hp Hq). by left. Qed.

(** A call that leaves the nodes outside alone. *)
Lemma outside_call {A} (c : OciCall) (f : S → A * S) :
  (∀ s p, ¬ within root p → node (f s).2 p = node s p) → env_rel (files_outside root) (call (G:=G) c f).
Proof. intros Hf. apply env_rel_call. intros s p Hp. unfold file_at. by rewrite Hf. Qed.

Lemma outside_mkdir d perm : env_rel (files_outside root) (oci_mkdir (G:=G) (S:=S) d perm).
Proof.
  apply env_rel_call. intros s p Hp. unfold file_at. destruct (node s p) as [n|] eqn:E.
  - by rewrite (mkdir_path_old _ _ _ _ _ E).
  - by destruct (mkdir_path_new d perm s p E) as [->|[-> _]].
Qed.

Lemma outside_store p : ¬ within root p → ¬ store_path dir p.
Proof.
  intros Hp Hs. apply (outside_confined p dir Hp); [apply confined_dir|].
  unfold store_path in Hs. destruct Hs as [Hs|[Hs|[Hs|Hs]]]; eapply within_trans; try exact Hs; right;
    match goal with |- below _ (_ +:+ ?t) => change t with ("/" +:+ drop_bytes 1 t) end; apply below_app.
Qed.

#[local] Hint Resolve outside_mkdir : effects.
#[local] Hint Extern 1 (env_rel _ (call (OciUnlock _) _)) => (apply outside_call; intros; apply unlock_frame) : effects.
#[local] Hint Extern 1 (env_rel _ (call (OciCloseLock _) _)) => (apply outside_call; intros; apply close_lock_frame) : effects.
#[local] Hint Extern 1 (env_rel _ (call (OciFlock _) _)) => (apply outside_call; intros; apply flock_frame) : effects.
#[local] Hint Extern 1 (env_rel _ (call (OciSleep _) _)) => (apply outside_call; intros; apply sleep_frame) : effects.
#[local] Hint Extern 1 (env_rel _ (call (OciCloseLayer _) _)) => (apply outside_call; intros; apply close_layer_frame) : effects.
#[local] Hint Extern 1 (env_rel _ (call (OciClose _) _)) => (apply outside_call; intros; apply close_path_frame) : effects.
#[local] Hint Extern 1 (env_rel _ (call (OciNewStore _) _)) =>
  (apply outside_call; intros; by apply new_store_frame, outside_store) : effects.
#[local] Hint Extern 1 (env_rel _ (call (OciPull _ _ _) _)) =>
  (apply outside_call; intros; by apply pull_frame, outside_store) : effects.

Lemma outside_write q c perm : confined ds q → env_rel (files_outside root) (oci_write (G:=G) (S:=S) q c perm).
Proof. intros Hq. apply outside_call. intros s p Hp. apply write_path_frame. by apply outside_ne. Qed.
Lemma outside_remove q : confined ds q → env_rel (files_outside root) (oci_remove (G:=G) (S:=S) q).
Proof. intros Hq. apply outside_call. intros s p Hp. apply remove_all_frame. by apply outside_confined. Qed.
Lemma outside_rename a b : confined ds a → confined ds b →
  env_rel (files_outside root) (oci_rename (G:=G) (S:=S) a b).
Proof.
  intros Ha Hb. apply outside_call. intros s p Hp. apply rename_path_frame; by apply outside_confined.
Qed.
Lemma outside_create q perm : confined ds q →
  env_rel (files_outside root) (call (G:=G) (OciCreate q perm) (create_file (S:=S) q perm)).
Proof. intros Hq. apply outside_call. intros s p Hp. apply create_file_frame. by apply outside_ne. Qed.
Lemma outside_copy q data broken : confined ds q →
  env_rel (files_outside root) (call (G:=G) (OciCopy q data) (copy_file (S:=S) q data broken)).
Proof. intros Hq. apply outside_call. intros s p Hp. apply copy_file_frame. by apply outside_ne. Qed.
Lemma outside_lock q : confined ds q →
  env_rel (files_outside root) (call (G:=G) (OciOpenLock q) (open_lock (S:=S) q)).
Proof. intros Hq. apply outside_call. intros s p Hp. apply open_lock_frame. by apply outside_ne. Qed.
#[local] Hint Resolve outside_write outside_remove outside_rename outside_create outside_copy outside_lock : effects.

Lemma confined_in c : plain_part c = true → confined ds (JoinPath dir c).
Proof. apply confined_part; [apply ds_ne|apply ds_plain]. Qed.
#[local] Hint Extern 1 (confined _ (JoinPath _ _)) => (by apply confined_in) : effects.
#[local] Hint Extern 1 (confined _ (readyPath _)) => (by apply confined_in) : effects.
#[local] Hint Extern 1 (confined _ (rootfsPath _)) => (by apply confined_in) : effects.
#[local] Hint Extern 1 (confined _ (tmpRoot _ _)) => (apply confined_tmp; [apply ds_ne|apply ds_plain]) : effects.

Lemma outside_entry nano entries total e :
  env_rel (files_outside root) (extract_entry (G:=G) (S:=S) (tmpRoot dir nano) entries total e).
Proof.
  unfold extract_entry, extract_file. destruct (entry_name e) as [[name|]|err] eqn:En; [|effects|effects].
  destruct (confined_target ds ds_ne ds_plain nano e name En) as [Ht _]. effects.
Qed.

Lemma outside_entries nano entries total l end_ :
  env_rel (files_outside root) (extract_entries (G:=G) (S:=S) (tmpRoot dir nano) entries total l end_).
Proof.
  revert entries total. induction l as [|e l IH]; intros entries total; cbn [extract_entries]; [effects|].
  apply env_rel_bind; [apply _|apply outside_entry|]. intros [n [err|]]; [effects|apply IH].
Qed.

Lemma outside_pull_loop r plain n attempt at_ last :
  env_rel (files_outside root) (pull_loop (G:=G) (S:=S) r plain dir n attempt at_ last).
Proof.
  revert attempt at_ last. induction n as [|n IH]; intros attempt at_ last; cbn [pull_loop]; [effects|].
  unfold backoffDuration, randInt63n. effects; apply IH.
Qed.

Lemma outside_ensure_locked ref r res :
  env_rel (files_outside root) (ensure_locked (G:=G) (S:=S) ref dir r res).
Proof.
  unfold ensure_locked, or_return. effects; try apply outside_pull_loop.
  unfold verify_and_extract, or_fail. effects.
  unfold extract_and_install, or_fail, extractLayer. effects; try apply outside_entries.
  unfold install, or_fail. effects.
Qed.
End frame.

Lemma Ensure_outside {G S} `{OciLaws S} `{Unicode} ps ref : ps ≠ [] → Forall (λ x, plain_part x = true) ps →
  env_rel (files_outside (abs_path ps)) (Ensure (G:=G) (S:=S) (abs_path ps) ref).
Proof.
  intros Hne Hps. unfold Ensure. destruct (ParseReference _) as [r|e]; [|effects]. cbv zeta.
  destruct (String.eqb (rf_Reference r) "" || negb (digestPattern (rf_Reference r))) eqn:Ep; [effects|].
  bool_prop. destruct (digest_part (rf_Reference r)) as [_ Hpart]; [done|].
  set (h := TrimPrefix (rf_Reference r) "sha256:") in *.
  assert (cache_dir (abs_path ps) (rf_Reference r) = abs_path (ps ++ [h])) as -> by (by apply cache_path).
  unfold or_return. effects;
    first [by apply outside_mkdir
          |apply (outside_lock ps Hne Hps h Hpart); by apply confined_in
          |apply outside_call; intros s p _; first [apply flock_frame|apply unlock_frame|apply close_lock_frame]
          |by apply outside_ensure_locked].
Qed.

(** ** The fetcher behind the interface *)

Section fetcher.
Context {S : Type} {HS : Host S} {HL : HostLaws S} `{OciLaws S} `{Unicode}.
Context (clock : S → nat → Z).

(** The OCI root of the agent that [main] starts. *)
Definition fetch (ref : string) (s : S) : (OciResult * option string) * S :=
  let out := Ensure (newOCIFetcher "") ref (mkWorld tt s (clock s) 0 []) in
  ((out.1.1, ge_Message <$> out.1.2), env out.2).

(** The same machine, its downloads done by [Ensure]. *)
Definition fetching_host : Host S := {|
  read_file := read_file;
  mkdir_all := mkdir_all;
  create_temp := create_temp;
  chmod_file := chmod_file;
  write_file := write_file;
  close_file := close_file;
  rename_file := rename_file;
  remove_file := remove_file;
  systemctl := systemctl;
  ensure_artifact := fetch;
  http_do := http_do
|}.

(** The root is not above the files of the agent. *)
Lemma agent_file_outside p : agent_file p = true → ¬ within (newOCIFetcher "") p.
Proof.
  intros Hp Hw. apply within_app in Hw as (t & -> & _). unfold agent_file in Hp.
  apply orb_true_iff in Hp as [Hp|Hp]; discriminate Hp.
Qed.

Lemma fetch_frame (Hfiles : ∀ s p, content s p = file_at s p) ref s p :
  agent_file p = true → content (fetch ref s).2 p = content s p.
Proof.
  intros Hp. rewrite !Hfiles. unfold fetch. cbn [snd].
  refine (Ensure_outside (G:=unit) ["var"; "lib"; "apollo"; "artifacts"; "oci"] ref _ _
    (mkWorld tt s (clock s) 0 []) p _); [done|by repeat constructor|by apply agent_file_outside].
Qed.

(** Whatever the agent needs of its machine holds with [Ensure] as fetcher. *)
Definition fetching_laws (Hfiles : ∀ s p, content s p = file_at s p) : @HostLaws S fetching_host :=
  @Build_HostLaws S fetching_host (@content S HS HL) read_file_ok read_file_missing mkdir_all_frame create_temp_ok
    create_temp_err chmod_file_frame write_file_ok write_file_frame close_file_frame rename_file_ok
    rename_file_err remove_file_ok remove_file_missing remove_file_err remove_file_frame systemctl_frame
    (fetch_frame Hfiles) http_frame.
End fetcher.
