(* ===== verification/Agent.v ===== *)
(** * The agent (agent/main.go)

    The reconcile loop and the requests of the agent as computations over its
    own state ([self]) and its machine ([env]).  The logger is left out, and
    with it the calls that only log.  Sleeping and the tickers of [run] are not
    part of the computations. *)

From S2P Require Import Prelude GoStrings GoTime GoCrypto GoJson GoPath Api SpecHash.
From S2P Require Import GatewayState GatewayStatus GatewayServer AgentRender AgentPaths AgentHost AgentSystemd.

#[local] Open Scope go_scope.

(** ** State *)

Record managedItem := mkManaged {
  mi_UnitName : string;
  mi_LastActionAt : string;
  mi_LastActionSpecHash : string;
  mi_LastActionDescription : string
}.

Definition no_managed : managedItem := mkManaged "" "" "" "".

(** The fields of [agent] that do not change; [ac_cwd] is the working directory
    and [ac_version] the version of the program. *)
Record AgentConfig := mkAgentConfig {
  ac_deviceName : string;
  ac_gatewayURL : string;
  ac_deviceToken : string;
  ac_deviceTokenSecret : string;
  ac_statePath : string;
  ac_cwd : string;
  ac_version : string
}.

Record Agent := mkAgent {
  lastETag : string;
  lastObserved : gmap string string;
  lastDesired : option DesiredResponse;
  managed : gmap string managedItem;
  heartbeat : Z
}.

Definition set_ETag (v : string) (a : Agent) : Agent :=
  mkAgent v (lastObserved a) (lastDesired a) (managed a) (heartbeat a).
Definition set_observed (v : gmap string string) (a : Agent) : Agent :=
  mkAgent (lastETag a) v (lastDesired a) (managed a) (heartbeat a).
Definition set_desired (v : option DesiredResponse) (a : Agent) : Agent :=
  mkAgent (lastETag a) (lastObserved a) v (managed a) (heartbeat a).
Definition set_managed (v : gmap string managedItem) (a : Agent) : Agent :=
  mkAgent (lastETag a) (lastObserved a) (lastDesired a) v (heartbeat a).
Definition set_heartbeat (v : Z) (a : Agent) : Agent :=
  mkAgent (lastETag a) (lastObserved a) (lastDesired a) (managed a) v.

Definition agentHeartbeatSeconds : Z := 15.

(** The agent [main] starts, with the managed items of its state file. *)
Definition new_agent (deviceName gatewayURL token secret statePath cwd version : string)
    (state : gmap string managedItem) : AgentConfig * Agent :=
  (mkAgentConfig deviceName (TrimSuffix slash gatewayURL) (TrimSpace token) (TrimSpace secret)
     statePath cwd version,
   mkAgent "" ∅ None state (seconds agentHeartbeatSeconds)).

Definition agentDeviceToken (cfg : AgentConfig) : string :=
  if negb (String.eqb (ac_deviceTokenSecret cfg) "")
  then hex (hmac_sha256 (ac_deviceTokenSecret cfg) (ac_deviceName cfg))
  else ac_deviceToken cfg.

(** ** Actions on a unit *)

Definition carryManaged (prev : managedItem) (unitName : string) : managedItem :=
  mkManaged unitName (mi_LastActionAt prev) (mi_LastActionSpecHash prev) (mi_LastActionDescription prev).

Definition marked (now : Z) (mi : managedItem) (specHash desc : string) : managedItem :=
  mkManaged (mi_UnitName mi) (format_rfc3339 now) specHash desc.

Definition driftInterval : Z := 5 * Second.

(** ** Observations *)

Definition new_observation (item : DesiredItem) : Observation :=
  mkObservation (di_Namespace item) (di_Name item) (di_SpecHash item)
    None None 0 "" None None "" 0 "" "" None None "" "" "" "".

(** [observation.ProcessStarted = boolPtr(b); observation.Healthy = boolPtr(b)] *)
Definition with_running (b : bool) (o : Observation) : Observation :=
  mkObservation (ob_Namespace o) (ob_Name o) (ob_ObservedSpecHash o) (Some b) (Some b) (ob_PID o)
    (ob_StartTime o) (ob_ErrorMessage o) (ob_WarningMessage o) (ob_ArtifactDigest o)
    (ob_ArtifactDownloadAttempts o) (ob_LastArtifactAttemptTime o) (ob_ArtifactLastError o)
    (ob_ArtifactDownloaded o) (ob_ArtifactVerified o) (ob_ArtifactDownloadReason o)
    (ob_ArtifactDownloadMessage o) (ob_ArtifactVerifyReason o) (ob_ArtifactVerifyMessage o).

Definition with_process (pid : Z) (start : string) (o : Observation) : Observation :=
  mkObservation (ob_Namespace o) (ob_Name o) (ob_ObservedSpecHash o) (ob_ProcessStarted o)
    (ob_Healthy o) pid start (ob_ErrorMessage o) (ob_WarningMessage o) (ob_ArtifactDigest o)
    (ob_ArtifactDownloadAttempts o) (ob_LastArtifactAttemptTime o) (ob_ArtifactLastError o)
    (ob_ArtifactDownloaded o) (ob_ArtifactVerified o) (ob_ArtifactDownloadReason o)
    (ob_ArtifactDownloadMessage o) (ob_ArtifactVerifyReason o) (ob_ArtifactVerifyMessage o).

Definition with_messages (err warning : option string) (o : Observation) : Observation :=
  mkObservation (ob_Namespace o) (ob_Name o) (ob_ObservedSpecHash o) (ob_ProcessStarted o)
    (ob_Healthy o) (ob_PID o) (ob_StartTime o) err warning (ob_ArtifactDigest o)
    (ob_ArtifactDownloadAttempts o) (ob_LastArtifactAttemptTime o) (ob_ArtifactLastError o)
    (ob_ArtifactDownloaded o) (ob_ArtifactVerified o) (ob_ArtifactDownloadReason o)
    (ob_ArtifactDownloadMessage o) (ob_ArtifactVerifyReason o) (ob_ArtifactVerifyMessage o).

Definition with_error (msg : string) (o : Observation) : Observation :=
  with_messages (Some msg) (ob_WarningMessage o) o.
Definition with_warning (msg : string) (o : Observation) : Observation :=
  with_messages (ob_ErrorMessage o) (Some msg) o.

Definition with_artifact (digest : string) (attempts : Z) (at_ lastError : string)
    (downloaded verified : bool) (o : Observation) : Observation :=
  mkObservation (ob_Namespace o) (ob_Name o) (ob_ObservedSpecHash o) (ob_ProcessStarted o)
    (ob_Healthy o) (ob_PID o) (ob_StartTime o) (ob_ErrorMessage o) (ob_WarningMessage o)
    digest attempts at_ lastError (Some downloaded) (Some verified)
    (ob_ArtifactDownloadReason o) (ob_ArtifactDownloadMessage o) (ob_ArtifactVerifyReason o)
    (ob_ArtifactVerifyMessage o).

Definition with_reasons (dr dm vr vm : string) (o : Observation) : Observation :=
  mkObservation (ob_Namespace o) (ob_Name o) (ob_ObservedSpecHash o) (ob_ProcessStarted o)
    (ob_Healthy o) (ob_PID o) (ob_StartTime o) (ob_ErrorMessage o) (ob_WarningMessage o)
    (ob_ArtifactDigest o) (ob_ArtifactDownloadAttempts o) (ob_LastArtifactAttemptTime o)
    (ob_ArtifactLastError o) (ob_ArtifactDownloaded o) (ob_ArtifactVerified o) dr dm vr vm.

(** The process does not run, because of an error. *)
Definition failed (msg : string) (o : Observation) : Observation := with_error msg (with_running false o).

Definition not_applicable (o : Observation) : Observation :=
  with_reasons "NotApplicable" "artifact type not oci" "NotApplicable" "artifact type not oci"
    (with_artifact "" 0 "" "" false false o).

Definition defaultString (val fallback : string) : string :=
  if String.eqb (TrimSpace val) "" then fallback else val.

Definition never_warning : string :=
  "DaemonSet semantics: agent will start service when stopped even if Restart=no; RestartPolicy affects systemd only.".

Definition set_Command (cmd : list string) (item : DesiredItem) : DesiredItem :=
  let sp := di_Spec item in let ex := sp_Execution sp in
  mkDesiredItem (di_UID item) (di_Namespace item) (di_Name item) (di_Generation item)
    (mkSpec (sp_DeviceRef sp) (sp_Artifact sp)
       (mkExecution (ex_Backend ex) cmd (ex_Args ex) (ex_Env ex) (ex_WorkingDir ex) (ex_User ex))
       (sp_RestartPolicy sp) (sp_HealthCheck sp))
    (di_SpecHash item).

(** ** The state file *)

Definition json_managed (mi : managedItem) : json :=
  JObject ([("unitName", JString (mi_UnitName mi))] ++
           omit_string "lastActionAt" (mi_LastActionAt mi) ++
           omit_string "lastActionSpecHash" (mi_LastActionSpecHash mi) ++
           omit_string "lastActionDescription" (mi_LastActionDescription mi)).

(** [agentState]: the keys of a map are printed in order. *)
Definition state_text `{SortSlice} (m : gmap string managedItem) : string :=
  print_json_indent 0 (JObject [("managed",
    JObject ((λ kv, (kv.1, json_managed kv.2)) <$>
             sort_slice (λ a b, String.ltb a.1 b.1) (map_to_list m)))]).

Example state_text_ex :
  @state_text insertion_sort_slice {[ "ns/a" := mkManaged "u.service" "" "h" "" ]} =
  "{" +:+ nl +:+ "  " +:+ json_string "managed" +:+ ": {" +:+ nl +:+
  "    " +:+ json_string "ns/a" +:+ ": {" +:+ nl +:+
  "      " +:+ json_string "unitName" +:+ ": " +:+ json_string "u.service" +:+ "," +:+ nl +:+
  "      " +:+ json_string "lastActionSpecHash" +:+ ": " +:+ json_string "h" +:+ nl +:+
  "    }" +:+ nl +:+ "  }" +:+ nl +:+ "}".
Proof. vm_compute. reflexivity. Qed.

(** ** Reconciling *)

Section agent.
Context {S : Type} `{Host S} `{Unicode} `{LocalZone} `{SortSlice} `{MapRange}.
Context (cfg : AgentConfig).

Abbreviation AG := (M Agent S AgentCall).

Definition markAction (mi : managedItem) (specHash desc : string) : AG managedItem :=
  now <- time_now ;; ret (marked now mi specHash desc).

(** The clock is only read when it matters. *)
Definition shouldAttemptAction (mi : managedItem) (specHash : string) (minInterval : Z) : AG bool :=
  if String.eqb (TrimSpace (mi_LastActionAt mi)) "" then ret true
  else if negb (String.eqb (mi_LastActionSpecHash mi) "") &&
          negb (String.eqb (mi_LastActionSpecHash mi) specHash) then ret true
  else match parse_rfc3339 (mi_LastActionAt mi) with
       | None => ret true
       | Some last => now <- time_now ;; ret (minInterval <=? Sub now last)
       end.

(** The end of an item whose unit has to be stopped. *)
Definition stop_with (u : string) (o : Observation) (cur : managedItem) : AG (Observation * managedItem) :=
  stopAndDisableQuiet u ;;; ret (o, cur).

(** The artifact of an item: the item with its command resolved, or the
    observation that ends it. *)
Definition fetch_artifact (item : DesiredItem) (o : Observation)
    : AG (result Observation (DesiredItem * Observation)) :=
  if negb (String.eqb (art_Type (sp_Artifact (di_Spec item))) ArtifactTypeOCI)
  then ret (Ok (item, not_applicable o))
  else
    let ref := art_URL (sp_Artifact (di_Spec item)) in
    r <- call (CallEnsure ref) (ensure_artifact ref) ;;
    let '(res, err) := r in
    let o := with_artifact (oci_digest res) (oci_attempts res) (oci_lastAttemptTime res)
               (oci_lastError res) (oci_downloaded res) (oci_verified res) o in
    let dr := defaultString (oci_downloadReason res) "ArtifactDownloaded" in
    let dm := defaultString (oci_downloadMessage res) "artifact downloaded" in
    let vr := defaultString (oci_verifyReason res) "ArtifactVerified" in
    let vm := defaultString (oci_verifyMessage res) "artifact verified" in
    match err with
    | Some e =>
        let msg := if negb (String.eqb (TrimSpace (oci_lastError res)) "")
                   then oci_lastError res else e in
        let dr := or_default dr "ArtifactDownloadFailed" in
        let dm := defaultString dm e in
        let vr := or_default vr "ArtifactVerifyFailed" in
        let vm := defaultString vm dm in
        ret (Err (with_reasons dr dm vr vm (failed msg o)))
    | None =>
        match resolveCommand (ac_cwd cfg) (ex_Command (sp_Execution (di_Spec item)))
                (oci_rootfsPath res) with
        | Err e => ret (Err (with_reasons dr dm vr vm (failed (render_error_text e) o)))
        | Ok cmd => ret (Ok (set_Command cmd item, with_reasons dr dm vr vm o))
        end
    end.

(** What the unit runs as, at the end of an item. *)
Definition observe_unit (st : UnitStatus) (o : Observation) : Observation :=
  let processStarted := String.eqb (us_active st) "active" && (0 <? us_pid st) in
  let o := with_running processStarted o in
  if negb processStarted then with_process 0 "" o
  else with_process (us_pid st) (if IsZero (us_start st) then "" else format_rfc3339 (us_start st)) o.

(** A unit that does not run is started, at most every [driftInterval]. *)
Definition correct_drift (u specHash : string) (st : UnitStatus) (o : Observation) (cur : managedItem)
    : AG (UnitStatus * Observation * managedItem) :=
  let needStart := negb (String.eqb (us_active st) "active") || (us_pid st =? 0) in
  attempt <- (if needStart then shouldAttemptAction cur specHash driftInterval else ret false) ;;
  if negb attempt then ret (st, o, cur)
  else
    let restart := String.eqb (us_active st) "active" && (us_pid st =? 0) in
    actionErr <- (if restart then Restart u else EnableAndStart u) ;;
    cur <- markAction cur specHash (if restart then "restart-drift" else "enable-and-start-drift") ;;
    match actionErr with
    | Some e => stopAndDisableQuiet u ;;; ret (st, failed e o, cur)
    | None =>
        r <- Show u ;;
        match r with
        | Ok st => ret (st, o, cur)
        | Err e => ret (mkUnitStatus 0 zero_time "" "", with_error e o, cur)
        end
    end.

Definition show_unit (u specHash : string) (o : Observation) (cur : managedItem)
    : AG (Observation * managedItem) :=
  r <- Show u ;;
  match r with
  | Err e => ret (failed e o, cur)
  | Ok st =>
      d <- correct_drift u specHash st o cur ;;
      let '(st, o, cur) := d in ret (observe_unit st o, cur)
  end.

(** A new unit is enabled and started, a changed one restarted. *)
Definition start_unit_of (u specHash : string) (hadPrev changed : bool) (cur : managedItem)
    : AG (result string managedItem) :=
  if negb hadPrev then
    err <- EnableAndStart u ;;
    match err with
    | Some e => ret (Err e)
    | None => cur <- markAction cur specHash "enable-and-start" ;; ret (Ok cur)
    end
  else if changed then
    err <- Restart u ;;
    match err with
    | Some e => ret (Err e)
    | None => cur <- markAction cur specHash "restart" ;; ret (Ok cur)
    end
  else ret (Ok cur).

(** The files of a unit that cannot be rendered are removed. *)
Definition remove_invalid (p : Paths) : AG unit :=
  d <- RemoveUnitWithDetails (UnitPath p) (EnvPath p) ;;
  match d_err d with
  | Some _ => ret tt
  | None => when (d_unit d) (DaemonReload ;;; ret tt)
  end.

(** From the rendering of the files on. *)
Definition apply_unit (hadPrev : bool) (item : DesiredItem) (o : Observation) (cur : managedItem)
    : AG (Observation * managedItem) :=
  let p := PathsFor (di_Namespace item) (di_Name item) in
  match renderUnitFiles item (EnvPath p) with
  | Err e =>
      stopAndDisableQuiet (UnitName p) ;;; remove_invalid p ;;;
      ret (failed (render_error_text e) o, cur)
  | Ok (unitContent, envContent) =>
      d <- EnsureUnitWithDetails (UnitName p) unitContent (EnvPath p) envContent ;;
      match d_err d with
      | Some e => stop_with (UnitName p) (failed (io_Message e) o) cur
      | None =>
          when (d_unit d) (DaemonReload ;;; ret tt) ;;;
          r <- start_unit_of (UnitName p) (di_SpecHash item) hadPrev (d_unit d || d_env d) cur ;;
          match r with
          | Err e => stop_with (UnitName p) (failed e o) cur
          | Ok cur => show_unit (UnitName p) (di_SpecHash item) o cur
          end
      end
  end.

(** The body of the loop over the desired items; [prev] is the entry of the
    item in [a.managed]. *)
Definition reconcile_item (prev : option managedItem) (item : DesiredItem)
    : AG (Observation * managedItem) :=
  let p := PathsFor (di_Namespace item) (di_Name item) in
  let cur := carryManaged (default no_managed prev) (UnitName p) in
  let o := new_observation item in
  let o := if String.eqb (sp_RestartPolicy (di_Spec item)) DeviceProcessRestartPolicyNever
           then with_warning never_warning o else o in
  if negb (String.eqb (ex_Backend (sp_Execution (di_Spec item))) DeviceProcessBackendSystemd)
  then ret (with_running false o, cur)
  else
    r <- fetch_artifact item o ;;
    match r with
    | Err o => stop_with (UnitName p) o cur
    | Ok (item, o) => apply_unit (bool_decide (is_Some prev)) item o cur
    end.

Definition item_key (item : DesiredItem) : string := itemKey (di_Namespace item) (di_Name item).

(** The loop: the observations in the order of the items, and the new map. *)
Fixpoint reconcile_items (old : gmap string managedItem) (items : list DesiredItem)
    (acc : list Observation * gmap string managedItem)
    : AG (list Observation * gmap string managedItem) :=
  match items with
  | [] => ret acc
  | item :: items' =>
      r <- reconcile_item (old !! item_key item) item ;;
      reconcile_items old items' (acc.1 ++ [r.1], <[item_key item := r.2]> acc.2)
  end.

(** The body of the loop over the items that are no longer desired. *)
Definition remove_item (managedNow : gmap string managedItem) (kv : string * managedItem)
    : AG (option unit) :=
  match managedNow !! kv.1 with
  | Some _ => ret None
  | None =>
      match splitKey kv.1 with
      | None => ret None
      | Some (ns, name) =>
          let p := PathsFor ns name in
          stopAndDisableQuiet (mi_UnitName kv.2) ;;;
          d <- RemoveUnitWithDetails (UnitPath p) (EnvPath p) ;;
          when (d_unit d) (DaemonReload ;;; ret tt) ;;; ret None
      end
  end.

Definition writeFileAtomic (path data : string) (perm : Z) : AG (result IoError unit) :=
  replace_file ".tmp-agent-state-" path data perm.

Definition persistState : AG (result IoError unit) :=
  a <- get_self ;; writeFileAtomic (ac_statePath cfg) (state_text (managed a)) 384.

Definition reconcile (desired : DesiredResponse) : AG (list Observation) :=
  a <- get_self ;;
  r <- reconcile_items (managed a) (de_Items desired) ([], ∅) ;;
  for_each (map_range (managed a)) (remove_item r.2) ;;;
  modify (set_managed r.2) ;;;
  persistState ;;;
  ret r.1.

(** ** Talking to the gateway *)

Definition device_url (action : string) : string :=
  ac_gatewayURL cfg +:+ "/v1/devices/" +:+ ac_deviceName cfg +:+ "/" +:+ action.

Definition do_request (r : HttpRequest) : AG (result string Response) := call (CallHttp r) (http_do r).

(** What a poll learns: the decoded answer, or [None] when nothing changed, and
    the ETag. *)
Definition fetchDesired : AG (result string (option DesiredResponse * string)) :=
  a <- get_self ;;
  r <- do_request (mkHttpRequest "GET" (device_url "desired") (agentDeviceToken cfg) (lastETag a) None) ;;
  match r with
  | Err e => ret (Err e)
  | Ok resp =>
      let etag := TrimSpace (default "" (rs_ETag resp)) in
      let etag := if String.eqb etag "" then lastETag a else etag in
      if rs_Status resp =? StatusOK then
        match rs_Body resp with
        | DesiredBody d => ret (Ok (Some d, etag))
        | _ => ret (Err "invalid body")
        end
      else if rs_Status resp =? StatusNotModified then ret (Ok (None, etag))
      else ret (Err ("unexpected status " +:+ pretty (rs_Status resp)))
  end.

Definition observed_map (observations : list Observation) (m : gmap string string) : gmap string string :=
  foldl (λ m o, <[itemKey (ob_Namespace o) (ob_Name o) := ob_ObservedSpecHash o]> m) m observations.

Definition report_body (now : Z) (observations : list Observation) : ReportRequest :=
  mkReportRequest (ac_version cfg) (format_rfc3339 now) true observations.

Definition sendReport (observations : list Observation) : AG (option string) :=
  now <- time_now ;;
  r <- do_request (mkHttpRequest "POST" (device_url "report") (agentDeviceToken cfg) ""
         (Some (report_body now observations))) ;;
  match r with
  | Err e => ret (Some e)
  | Ok resp =>
      if rs_Status resp =? StatusOK then
        modify (λ a, set_observed (observed_map observations (lastObserved a)) a) ;;; ret None
      else ret (Some ("report failed with status " +:+ pretty (rs_Status resp)))
  end.

(** What a poll remembers before it reconciles; the answer is the desired state
    to reconcile. *)
Definition remember (fetched : option DesiredResponse) (etag : string) (a : Agent)
    : option DesiredResponse * Agent :=
  let a := if String.eqb etag "" then a else set_ETag etag a in
  let a := match fetched with Some d => set_desired (Some d) a | None => a end in
  match lastDesired a with
  | None => (None, a)
  | Some d =>
      (Some d,
       if 0 <? de_HeartbeatIntervalSeconds d
       then set_heartbeat (seconds (de_HeartbeatIntervalSeconds d)) a else a)
  end.

Definition pollDesired : AG (option string) :=
  r <- fetchDesired ;;
  match r with
  | Err e => ret (Some e)
  | Ok (fetched, etag) =>
      d <- locked (remember fetched etag) ;;
      match d with
      | None => ret None
      | Some desired =>
          obs <- reconcile desired ;;
          match obs with
          | [] => ret None
          | _ => sendReport obs
          end
      end
  end.
End agent.

(** [nextBackoff] doubles the delay up to half a minute. *)
Definition nextBackoff (current : Z) : Z :=
  let n := int64 (current * 2) in if maxBackoff <? n then maxBackoff else n.
