(* ===== verification/AgentState.v ===== *)
(** * The agent's state file (agent/main.go readStateFile, loadState)

    What an agent that is started again manages: the items the file holds.  The
    file is replaced in one step, so this is the state before or after the last
    change, whenever the agent was stopped. *)

From S2P Require Import Prelude GoStrings GoUtf8 GoTime GoCrypto GoJson GoJsonFacts GoJsonCodec SpecCodec GoPath.
From S2P Require Import AgentHost AgentSystemd AgentSystemdFacts AgentRender AgentPaths Agent.

#[local] Open Scope go_scope.

(** ** Decoding *)

Definition fill_managed (fs : list (string * json)) (a : managedItem) : option managedItem :=
  unit ← get dec_string (mi_UnitName a) "unitName" fs;
  at_ ← get dec_string (mi_LastActionAt a) "lastActionAt" fs;
  hash ← get dec_string (mi_LastActionSpecHash a) "lastActionSpecHash" fs;
  description ← get dec_string (mi_LastActionDescription a) "lastActionDescription" fs;
  Some (mkManaged unit at_ hash description).

#[export] Instance managed_codec : Codec managedItem :=
  {| enc := json_managed; dec := dec_struct fill_managed; zero := mkManaged "" "" "" ""; levels := 1;
     encodable a := valid_utf8 (mi_UnitName a) && valid_utf8 (mi_LastActionAt a) &&
       valid_utf8 (mi_LastActionSpecHash a) && valid_utf8 (mi_LastActionDescription a) |}.

(** [agentState]. *)
Definition fill_state (fs : list (string * json)) (m : gmap string managedItem) : option (gmap string managedItem) :=
  get (dec_map zero dec) m "managed" fs.

(** The managed items of a file; [None] when it is not the JSON of a state. *)
Definition decode_state (data : string) : option (gmap string managedItem) :=
  if String.eqb data "" then Some ∅ else j ← Unmarshal data; dec_struct fill_state j ∅.

Section state.
Context {S : Type} `{Host S} (cfg : AgentConfig).

(** [None] is an error. *)
Definition readStateFile (path : string) (s : S) : option (gmap string managedItem) :=
  match read_file path s with
  | Err e => if io_NotExist e then Some ∅ else None
  | Ok data => decode_state data
  end.

(** The answer is whether there was no error; [main] logs one and goes on. *)
Definition loadState : M Agent S AgentCall bool :=
  r <- ask (readStateFile (ac_statePath cfg)) ;;
  match r with
  | None => ret false
  | Some m => modify (set_managed m) ;;; ret true
  end.
End state.

Example decode_state_ex :
  decode_state (@state_text insertion_sort_slice {[ "ns/a" := mkManaged "u.service" "" "<h>" "" ]}) =
    Some {[ "ns/a" := mkManaged "u.service" "" "<h>" "" ]} ∧
  decode_state "null" = Some ∅ ∧ decode_state "{" = None.
Proof. vm_compute. split_all; reflexivity. Qed.

(** ** Starting (agent/main.go main)

    The flags with their values from the command line; the others come from the
    environment. *)

Record AgentFlags := mkAgentFlags {
  fl_deviceName : option string;
  fl_gatewayURL : option string;
  fl_deviceToken : option string;
  fl_deviceTokenSecret : option string
}.

Definition defaultStatePath : string := "/var/lib/apollo/agent/state.json".

Definition getenv (environ : string → string) (key fallback : string) : string :=
  if String.eqb (environ key) "" then fallback else environ key.

(** The configured agent, or why the program exits. *)
Definition main_config (environ : string → string) (fl : AgentFlags) (cwd version : string)
    : result string (AgentConfig * Agent) :=
  let deviceName := default (getenv environ "APOLLO_DEVICE_NAME" "") (fl_deviceName fl) in
  let gatewayURL := default (getenv environ "APOLLO_GATEWAY_URL" "") (fl_gatewayURL fl) in
  let deviceToken := default (getenv environ "APOLLO_DEVICE_TOKEN" "") (fl_deviceToken fl) in
  let secret := default (getenv environ "APOLLO_DEVICE_TOKEN_SECRET" "") (fl_deviceTokenSecret fl) in
  let statePath := getenv environ "APOLLO_AGENT_STATE_FILE" defaultStatePath in
  if String.eqb deviceName "" then Err "missing device name"
  else if String.eqb gatewayURL "" then Err "missing gateway URL"
  else Ok (new_agent deviceName gatewayURL deviceToken secret statePath cwd version ∅).

(** Up to the main loop, with the state file read; [run] comes next. *)
Definition main_loaded {S} `{Host S} (environ : string → string) (fl : AgentFlags) (cwd version : string)
    (s : S) (clk : nat → Z) : result string (AgentConfig * World Agent S AgentCall) :=
  match main_config environ fl cwd version with
  | Err e => Err e
  | Ok (cfg, a) => Ok (cfg, (loadState cfg (mkWorld a s clk 0 [])).2)
  end.

Example main_config_ex :
  let environ k := if String.eqb k "APOLLO_DEVICE_NAME" then "tor1" else "" in
  main_config environ (mkAgentFlags None None None None) "/" "v1" = Err "missing gateway URL" ∧
  main_config environ (mkAgentFlags None (Some "http://gw/") None (Some " s ")) "/" "v1" =
    Ok (mkAgentConfig "tor1" "http://gw" "" "s" defaultStatePath "/" "v1", mkAgent "" ∅ None ∅ (15 * Second)).
Proof. vm_compute. split; reflexivity. Qed.

(** ** What is written is read back *)

#[export] Instance managed_codec_laws : CodecLaws managedItem.
Proof.
  split; cbn [enc dec zero managed_codec]; unfold json_managed.
  - intros a [|d] Hd; [cbn in Hd; lia|]. depths.
  - intros a H. cbn [encodable managed_codec] in H. valid H. unfold fill_managed. decode_struct_with a fs decode_leaf.
Qed.

(** The items are valid UTF-8, as all that comes from the gateway is. *)
Definition state_encodable (m : gmap string managedItem) : Prop :=
  map_Forall (λ k a, valid_utf8 k = true ∧ encodable a = true) m.

Lemma dec_entries_enc {A} `{CodecLaws A} (l : list (string * A)) (m : gmap string A) :
  NoDup l.*1 → Forall (λ kv, valid_utf8 kv.1 = true ∧ encodable kv.2 = true) l →
  dec_entries zero dec (cleaned ((λ kv, (kv.1, enc kv.2)) <$> l)) m = Some (list_to_map l ∪ m).
Proof.
  revert m. induction l as [|[k a] l IH]; intros m Hn Hl.
  - cbn. by rewrite (left_id_L ∅ (∪)).
  - rewrite fmap_cons in Hn. apply NoDup_cons in Hn as [Hk Hn]. inversion_clear Hl as [|? ? [Hv Ha] Hr].
    change (cleaned ((λ kv, (kv.1, enc kv.2)) <$> (k, a) :: l))
      with ((to_valid k, clean (enc a)) :: cleaned ((λ kv, (kv.1, enc kv.2)) <$> l)).
    cbn [dec_entries fst snd] in *. rewrite (dec_enc a Ha), to_valid_id by done. cbn [mbind option_bind].
    rewrite IH by done. f_equal. cbn [list_to_map foldr fst snd].
    rewrite <-insert_union_l, insert_union_r; [done|]. by apply not_elem_of_list_to_map_1.
Qed.

Lemma decode_state_text `{SortSlice} m : state_encodable m → decode_state (state_text m) = Some m.
Proof.
  intros Hm. unfold state_text. set (l := sort_slice _ (map_to_list m)).
  assert (l ≡ₚ map_to_list m) as Hl by apply sort_slice_perm.
  assert (NoDup l.*1) as Hn.
  { rewrite Hl. apply NoDup_fst_map_to_list. }
  assert (Forall (λ kv, valid_utf8 kv.1 = true ∧ encodable kv.2 = true) l) as Hv.
  { rewrite Hl. by apply map_Forall_to_list in Hm; eapply Forall_impl; [exact Hm|intros [k a]]. }
  set (j := JObject _). unfold decode_state.
  replace (String.eqb (print_json_indent 0 j) "") with false by done.
  rewrite (Unmarshal_print_indent 3); [| |done].
  2: { unfold j. depths. clear. induction l as [|[k a] l IH]; [done|]. rewrite fmap_cons, plain_fields_cons, IH.
       rewrite andb_true_r. refine (enc_plain a _ _). cbn. lia. }
  unfold j. rewrite clean_object. cbn [mbind option_bind dec_struct]. unfold fill_state. field_values.
  rewrite clean_object. cbn [decode_all dec_map].
  change json_managed with (enc (A:=managedItem)).
  rewrite dec_entries_enc by done. rewrite (right_id_L ∅ (∪)). cbn. f_equal.
  rewrite <-(list_to_map_to_list m). by apply list_to_map_proper.
Qed.

(** ** Restarting *)

(** A file that is there can be read. *)
Definition readable {S} `{Host S} (path : string) (s : S) : Prop :=
  ∀ e, read_file path s = Err e → io_NotExist e = true.

(** What is recovered from the content of the file. *)
Definition recovered (c : option string) : option (gmap string managedItem) :=
  match c with None => Some ∅ | Some data => decode_state data end.

Lemma readStateFile_recovered {S} `{HostLaws S} path (s : S) :
  readable path s → readStateFile path s = recovered (content s path).
Proof.
  intros Hr. unfold readStateFile. destruct (read_file path s) as [data|e] eqn:E.
  - by rewrite (read_file_ok _ _ _ E).
  - rewrite (Hr e E). by rewrite (read_file_missing _ _ _ E (Hr e E)).
Qed.

Lemma loadState_read {S} `{Host S} cfg (w : World Agent S AgentCall) m :
  readStateFile (ac_statePath cfg) (env w) = Some m →
  (loadState cfg w).1 = true ∧ managed (self (loadState cfg w).2) = m.
Proof. intros E. unfold loadState. by rewrite run_ask, E. Qed.

(** C22: an agent that is started again knows what it managed.  Writing the state
    file may be cut off after any of its calls and each of them may fail: in all
    states it leads through, a restarted agent that can read the file recovers
    either what it would have recovered before or exactly the items managed now;
    and after a write without an error it loads exactly the latter, every name,
    time, hash and description as it was. *)
Theorem state_survives_restart {S} `{HostLaws S} `{SortSlice} cfg (w : World Agent (S * list S) AgentCall) :
  ¬ is_temp ".tmp-agent-state-" (ac_statePath cfg) (ac_statePath cfg) →
  (env w).2 = [] → state_encodable (managed (self w)) →
  let path := ac_statePath cfg in
  let out := persistState cfg w in
  Forall (λ s, readable path s → readStateFile path s = recovered (content (env w).1 path) ∨
                                 readStateFile path s = Some (managed (self w))) (env out.2).2 ∧
  (is_ok out.1 = true → ∀ w' : World Agent S AgentCall, env w' = (env out.2).1 → readable path (env w') →
   (loadState cfg w').1 = true ∧ managed (self (loadState cfg w').2) = managed (self w)).
Proof.
  intros Hp Hlog Hm path out. pose proof (decode_state_text _ Hm) as Hd.
  set (text := state_text (managed (self w))) in *.
  destruct (replace_file_triple (G:=Agent) ".tmp-agent-state-" path text (env w)
    (λ sl, Forall (λ s, content s path = content (env w).1 path ∨ content s path = Some text) sl.2))
    with (perm := 384) (w := w) as (HJ & _ & Hr).
  { intros sl sl' Hs HJ Hc. rewrite (host_step_log _ _ Hs). apply Forall_app. split; [done|]. by apply Forall_singleton. }
  { exact Hp. }
  { split; [by rewrite Hlog|by split]. }
  change (replace_file _ path text 384 w) with out in HJ, Hr. split.
  - eapply Forall_impl; [exact HJ|]. intros s [E|E] Hs; rewrite (readStateFile_recovered _ _ Hs), E; [by left|by right].
  - intros Hok w' Hw' Hread. apply loadState_read. fold path. rewrite (readStateFile_recovered _ _ Hread), Hw'.
    destruct out as [[[]|e] w1]; [|done]. cbn in Hr |- *. by rewrite Hr.
Qed.

Lemma state_survives_restart_witness :
  let cfg := (new_agent "tor1" "http://gw" "" "s" "/state" "/" "v1" ∅).1 in
  let m := mkMachine {[ "/state" := "" ]} ∅ [] false (λ _, (mkOciResult "" "" false false 0 "" "" "" "" "" "", None))
             (λ _, Err "down") 0 in
  let a := mkAgent "" ∅ None {[ "ns/a" := mkManaged "u.service" "t" "h" "started" ]} 0 in
  let w := mkWorld a (m, []) (λ _, 0) 0 [] in
  let out := @persistState _ _ insertion_sort_slice cfg w in
  Forall (λ s, readable "/state" s → readStateFile "/state" s = recovered (content m "/state") ∨
                                     readStateFile "/state" s = Some (managed a)) (env out.2).2 ∧
  (is_ok out.1 = true → ∀ w' : World Agent Machine AgentCall, env w' = (env out.2).1 → readable "/state" (env w') →
   (loadState cfg w').1 = true ∧ managed (self (loadState cfg w').2) = managed a) ∧
  is_ok out.1 = true ∧ length (env out.2).2 = 7%nat.
Proof.
  intros cfg m a w out.
  assert (¬ is_temp ".tmp-agent-state-" "/state" "/state") as Ht by (intros [x Hx]; discriminate Hx).
  assert (state_encodable (managed a)) as Hm.
  { apply map_Forall_singleton. split; vm_compute; reflexivity. }
  destruct (@state_survives_restart Machine machine_host machine_laws insertion_sort_slice cfg w Ht eq_refl Hm) as [H1 H2].
  split; [exact H1|]. split; [exact H2|]. split; vm_compute; reflexivity.
Defined.
