(* ===== verification/AgentMain.v ===== *)
(** * The agent's command line (agent/main.go main)

    A flag overrides its variable of the environment; the device name and the
    gateway's URL must come from one of them. *)

From S2P Require Import Prelude GoStrings GoTime GoStrconv GoFlag GoPath.
From S2P Require Import AgentHost AgentRender AgentPaths Agent AgentState.

Definition agent_flags : gmap string FlagKind :=
  list_to_map [("device-name", FString); ("gateway-url", FString); ("device-token", FString);
    ("device-token-secret", FString)].

(** The values the command line sets; the registered defaults are the
    variables, which [main_config] looks up. *)
Definition agent_values (v : Values) : AgentFlags :=
  let value n := match v !! n with Some (VString s) => Some s | _ => None end in
  mkAgentFlags (value "device-name") (value "gateway-url") (value "device-token") (value "device-token-secret").

(** Up to the agent that [main] makes, or the status it exits with. *)
Definition agent_start (libs : gmap string FlagKind) (environ : string → string) (args : list string)
    (cwd version : string) : result Z (AgentConfig * Agent) :=
  match parse_flags (agent_flags ∪ libs) args ∅ with
  | Err e => Err (flag_exit e)
  | Ok (v, _) =>
      match main_config environ (agent_values v) cwd version with
      | Err _ => Err 1
      | Ok c => Ok c
      end
  end.

Definition agent_args (dev url token secret : string) : list string :=
  flag_arg <$> [("device-name", dev); ("gateway-url", url); ("device-token", token);
    ("device-token-secret", secret)].

Definition agent_environ (dev url token secret statePath : string) (k : string) : string :=
  default "" ((list_to_map [("APOLLO_DEVICE_NAME", dev); ("APOLLO_GATEWAY_URL", url);
    ("APOLLO_DEVICE_TOKEN", token); ("APOLLO_DEVICE_TOKEN_SECRET", secret);
    ("APOLLO_AGENT_STATE_FILE", statePath)] : gmap string string) !! k).

(** C39: an agent can be configured by its flags, whatever the environment says in
    their place, or by the environment alone; both make the same agent.  The path of
    the state file has no flag and comes from the environment in both cases. *)
Theorem agent_configured libs environ dev url token secret statePath cwd version :
  dev ≠ "" → url ≠ "" → statePath ≠ "" → environ "APOLLO_AGENT_STATE_FILE" = statePath →
  agent_start libs environ (agent_args dev url token secret) cwd version =
    Ok (new_agent dev url token secret statePath cwd version ∅) ∧
  agent_start libs (agent_environ dev url token secret statePath) [] cwd version =
    Ok (new_agent dev url token secret statePath cwd version ∅).
Proof.
  intros Hd Hu Hs He. apply String.eqb_neq in Hd as Ed, Hu as Eu, Hs as Es. split.
  - unfold agent_start, agent_args. set (l := [("device-name", dev); _; _; _]).
    rewrite <-(app_nil_r (flag_arg <$> l)).
    rewrite (parse_flag_args _ l [] _
      (<["device-token-secret" := VString secret]> (<["device-token" := VString token]>
        (<["gateway-url" := VString url]> (<["device-name" := VString dev]> ∅))))).
    + cbn [parse_flags]. unfold agent_values. simplify_map_eq. unfold main_config.
      cbn [fl_deviceName fl_gatewayURL fl_deviceToken fl_deviceTokenSecret]. unfold default. cbn [from_option id].
      rewrite Ed, Eu. unfold getenv. by rewrite Es.
    + unfold l. repeat constructor; vm_compute; congruence.
    + unfold l, set_all. cbn [foldl fst snd mbind option_bind].
      assert (∀ n, agent_flags !! n = Some FString → (agent_flags ∪ libs) !! n = Some FString) as Hf
        by (intros n; apply lookup_union_Some_l).
      rewrite (Hf "device-name" eq_refl). cbn [mbind option_bind set_flag fst snd].
      rewrite (Hf "gateway-url" eq_refl). cbn [mbind option_bind set_flag fst snd].
      rewrite (Hf "device-token" eq_refl). cbn [mbind option_bind set_flag fst snd].
      by rewrite (Hf "device-token-secret" eq_refl).
  - unfold agent_start. cbn [parse_flags]. unfold main_config, agent_values.
    cbn [fl_deviceName fl_gatewayURL fl_deviceToken fl_deviceTokenSecret].
    unfold getenv, agent_environ. simplify_map_eq. unfold default. cbn [from_option id].
    rewrite Ed, Eu, Es. 
    rewrite Ed, Eu. destruct (String.eqb_spec token "") as [->|], (String.eqb_spec secret "") as [->|]; done.
Qed.

Lemma agent_configured_witness :
  agent_start ∅ (λ k, if String.eqb k "APOLLO_AGENT_STATE_FILE" then "/s" else "other")
    (agent_args "tor1" "http://gw/" "t" "") "/" "v1" =
    Ok (new_agent "tor1" "http://gw/" "t" "" "/s" "/" "v1" ∅).
Proof.
  apply (agent_configured ∅ (λ k, if String.eqb k "APOLLO_AGENT_STATE_FILE" then "/s" else "other")
    "tor1" "http://gw/" "t" "" "/s" "/" "v1"); [discriminate..|reflexivity].
Defined.
