(* ===== verification/AgentProps.v ===== *)
(** * What the agent's reconcile loop guarantees

    Every desired item gets one truthful observation; the loop touches only
    the units it is responsible for; and what it reports as running has the
    files rendered for it. *)

From S2P Require Import Prelude GoStrings GoTime GoTimeFacts GoPath Api GatewayState GatewayStatus GatewayServer.
From S2P Require Import AgentRender AgentPaths AgentHost AgentSystemd AgentSystemdFacts AgentUnits Agent.

#[local] Open Scope go_scope.

Section observations.
Context {S : Type} `{Host S} `{Unicode} `{LocalZone} `{SortSlice} `{MapRange}.
Context (cfg : AgentConfig).

Definition of_item (item : DesiredItem) (o : Observation) : Prop :=
  ob_Namespace o = di_Namespace item ∧ ob_Name o = di_Name item ∧
  ob_ObservedSpecHash o = di_SpecHash item.

(** An observation of an item: whether the process runs and is healthy is
    reported as one fact, a process identifier exactly for a process that runs,
    and an error only for one that does not. *)
Definition truthful (item : DesiredItem) (o : Observation) : Prop :=
  of_item item o ∧
  ∃ b, ob_ProcessStarted o = Some b ∧ ob_Healthy o = Some b ∧
    if b then 0 < ob_PID o ∧ ob_ErrorMessage o = None
    else ob_PID o = 0 ∧ ob_StartTime o = "".

(** The observation so far: nothing is known of the process. *)
Definition undecided (item : DesiredItem) (o : Observation) : Prop :=
  of_item item o ∧ ob_PID o = 0 ∧ ob_StartTime o = "" ∧ ob_ErrorMessage o = None.

Lemma truthful_stopped item o : undecided item o → truthful item (with_running false o).
Proof. intros (Ho & Hp & Hs & _). split; [exact Ho|]. exists false. done. Qed.

Lemma truthful_failed item msg o : undecided item o → truthful item (failed msg o).
Proof. intros (Ho & Hp & Hs & _). split; [exact Ho|]. exists false. done. Qed.

Lemma truthful_reasons item dr dm vr vm o :
  truthful item o → truthful item (with_reasons dr dm vr vm o).
Proof. done. Qed.

(** A unit that is not running yields a stopped observation, whatever error
    was noted; one that runs was reported without error. *)
Definition runs (st : UnitStatus) : bool := String.eqb (us_active st) "active" && (0 <? us_pid st).

Lemma truthful_observed item st o :
  of_item item o → (runs st = true → ob_ErrorMessage o = None) → truthful item (observe_unit st o).
Proof.
  intros Ho He. unfold observe_unit. fold (runs st). destruct (runs st) eqn:E; cbn [negb].
  - split; [exact Ho|]. exists true. unfold runs in E. bool_prop. cbn. auto.
  - split; [exact Ho|]. exists false. done.
Qed.

Lemma answers_fetch_artifact item o :
  undecided item o →
  answers (λ r, match r with
                | Err o' => truthful item o'
                | Ok (item', o') => undecided item o' ∧
                    di_Namespace item' = di_Namespace item ∧ di_Name item' = di_Name item ∧
                    di_SpecHash item' = di_SpecHash item
                end) (fetch_artifact cfg item o).
Proof.
  intros Ho. unfold fetch_artifact. cbv zeta.
  destruct (negb _); [by apply answers_ret|].
  apply answers_bind. intros [res [e|]].
  - apply answers_ret. by apply truthful_reasons, truthful_failed.
  - destruct (resolveCommand _ _ _) as [cmd|e]; apply answers_ret; [done|].
    by apply truthful_reasons, truthful_failed.
Qed.

Definition need_start (st : UnitStatus) : bool :=
  negb (String.eqb (us_active st) "active") || (us_pid st =? 0).

Lemma need_start_runs st : need_start st = true → runs st = false.
Proof.
  unfold need_start, runs. destruct (String.eqb (us_active st) "active"); [|done]. cbn [negb orb andb].
  intros H'%Z.eqb_eq. rewrite H'. done.
Qed.

Lemma answers_correct_drift item u hash st o cur :
  undecided item o →
  answers (λ r, of_item item r.1.2 ∧ (runs r.1.1 = true → ob_ErrorMessage r.1.2 = None) ∧
                mi_UnitName r.2 = mi_UnitName cur)
    (correct_drift u hash st o cur).
Proof.
  intros (Ho & Hp & Hs & He). unfold correct_drift. cbv zeta. fold (need_start st).
  apply (answers_bind_post (λ b, b = true → need_start st = true)).
  { destruct (need_start st); [by intros w|by apply answers_ret]. }
  intros [|] Hneed; cbn [negb]; [|by apply answers_ret].
  pose proof (need_start_runs st (Hneed eq_refl)) as Hr.
  apply answers_bind. intros err.
  apply (answers_bind_post (λ c, mi_UnitName c = mi_UnitName cur)); [by intros w|].
  intros cur' Hcur. destruct err as [e|]; apply answers_bind.
  - intros _. apply answers_ret. cbn. by rewrite Hr.
  - intros [st'|e]; by apply answers_ret.
Qed.

Lemma answers_show_unit item u hash o cur :
  undecided item o →
  answers (λ r, truthful item r.1 ∧ mi_UnitName r.2 = mi_UnitName cur) (show_unit u hash o cur).
Proof.
  intros Ho. unfold show_unit. apply answers_bind. intros [st|e].
  - eapply answers_bind_post; [by apply answers_correct_drift|].
    intros [[st' o'] cur'] (Hi & He & Hc). apply answers_ret. split; [|done].
    by apply truthful_observed.
  - apply answers_ret. split; [by apply truthful_failed|done].
Qed.

Lemma answers_start_unit_of u hash hadPrev changed cur :
  answers (λ r, match r with Ok c => mi_UnitName c = mi_UnitName cur | Err _ => True end)
    (start_unit_of u hash hadPrev changed cur).
Proof.
  unfold start_unit_of. destruct (negb hadPrev); [|destruct changed; [|by apply answers_ret]].
  all: apply answers_bind; intros [e|]; [by apply answers_ret|by intros w].
Qed.

Lemma answers_apply_unit hadPrev item o cur :
  undecided item o →
  answers (λ r, truthful item r.1 ∧ mi_UnitName r.2 = mi_UnitName cur) (apply_unit hadPrev item o cur).
Proof.
  intros Ho. unfold apply_unit. cbv zeta.
  destruct (renderUnitFiles _ _) as [[unit env]|e].
  2: { do 2 (apply answers_bind; intros _). apply answers_ret. split; [by apply truthful_failed|done]. }
  apply answers_bind. intros d. destruct (d_err d) as [e|].
  { apply answers_bind. intros _. apply answers_ret. split; [by apply truthful_failed|done]. }
  apply answers_bind. intros _. eapply answers_bind_post; [apply answers_start_unit_of|].
  intros [cur'|e] Hc.
  - eapply answers_impl; [by apply answers_show_unit|]. intros r [Ht ->]. by split.
  - apply answers_bind. intros _. apply answers_ret. split; [by apply truthful_failed|done].
Qed.

Lemma answers_reconcile_item prev item :
  answers (λ r, truthful item r.1 ∧
                mi_UnitName r.2 = UnitName (PathsFor (di_Namespace item) (di_Name item)))
    (reconcile_item cfg prev item).
Proof.
  unfold reconcile_item. cbv zeta. set (cur := carryManaged _ _).
  set (o := if String.eqb _ _ then _ else _).
  assert (undecided item o) as Ho by (unfold o; destruct (String.eqb _ _); by repeat split).
  destruct (negb _); [by apply answers_ret; split; [apply truthful_stopped|]|].
  eapply answers_bind_post; [by apply answers_fetch_artifact|]. intros [[item' o']|o'] Hr.
  - destruct Hr as (Ho' & Hns & Hn & Hh).
    assert (undecided item' o') as Hi.
    { destruct Ho' as [(E1 & E2 & E3) Hrest]. split; [|done]. unfold of_item. split_all; congruence. }
    eapply answers_impl; [by apply answers_apply_unit|]. intros r [Ht Hu]. split; [|done].
    destruct Ht as [(E1 & E2 & E3) Hb]. split; [|exact Hb]. unfold of_item. split_all; congruence.
  - apply answers_bind. intros _. by apply answers_ret.
Qed.

(** The loop answers one observation per item, in order, and the keys of the
    items. *)
Lemma answers_reconcile_items old items acc :
  answers (λ r, ∃ os, r.1 = acc.1 ++ os ∧ Forall2 truthful items os ∧
                dom r.2 = dom acc.2 ∪ list_to_set (item_key <$> items))
    (reconcile_items cfg old items acc).
Proof.
  revert acc. induction items as [|item items IH]; intros acc; cbn [reconcile_items].
  { apply answers_ret. exists []. split_all; [by rewrite app_nil_r|constructor|set_solver]. }
  eapply answers_bind_post; [apply answers_reconcile_item|]. intros r [Ht _].
  eapply answers_impl; [apply IH|]. cbn. intros r' (os & E & Hos & Hd).
  exists (r.1 :: os). split_all.
  - by rewrite E, <-app_assoc.
  - by constructor.
  - rewrite Hd, dom_insert_L. set_solver.
Qed.
End observations.

(** ** Footprints *)

(** The calls for the units [ps] named [us]: [systemctl] for one of the names,
    files of one of the units and their temporary files, and artifacts of
    [refs]. *)
Definition unit_call (us : list string) (ps : list Paths) (refs : list string) (c : AgentCall) : Prop :=
  match c with
  | CallSystemctl args =>
      args = ["daemon-reload"] ∨
      ∃ u, u ∈ us ∧ (args = ["enable"; "--now"; u] ∨ args = ["restart"; u] ∨
                     args = ["disable"; "--now"; u] ∨ args = show_args u)
  | CallEnsure ref => ref ∈ refs
  | CallMkdirAll d | CallCreateTemp d _ => d = unitDir ∨ d = envDir
  | CallChmod n _ | CallWrite n _ | CallClose n =>
      ∃ d x, (d = unitDir ∨ d = envDir) ∧ n = in_dir d (tempFileTemplate +:+ x)
  | CallRename _ q => ∃ p, p ∈ ps ∧ (q = UnitPath p ∨ q = EnvPath p)
  | CallRemove q =>
      (∃ p, p ∈ ps ∧ (q = UnitPath p ∨ q = EnvPath p)) ∨
      ∃ d x, (d = unitDir ∨ d = envDir) ∧ q = in_dir d (tempFileTemplate +:+ x)
  | CallHttp _ => False
  end.

Section footprint.
Context {S : Type} `{HostLaws S} `{Unicode} `{LocalZone} `{SortSlice} `{MapRange}.
Context (cfg : AgentConfig) (us : list string) (ps : list Paths) (refs : list string).

#[local] Abbreviation P := (unit_call us ps refs).

Lemma emits_systemctl {G} args : P (CallSystemctl args) → emits P (runSystemctl (G:=G) (S:=S) args).
Proof. apply emits_call. Qed.

Lemma emits_checked {G} what args : P (CallSystemctl args) → emits P (checked (G:=G) (S:=S) what args).
Proof.
  intros Ha. unfold checked. apply emits_bind; [by apply emits_systemctl|]. intros r. apply emits_ret.
Qed.

Lemma emits_reload {G} : emits P (DaemonReload (G:=G) (S:=S)).
Proof. apply emits_checked. by left. Qed.

Lemma emits_stop {G} u : u ∈ us → emits P (stopAndDisableQuiet (G:=G) (S:=S) u).
Proof.
  intros Hu. apply emits_bind; [|intros r; apply emits_ret].
  apply emits_checked. right. exists u. auto.
Qed.

Lemma emits_start {G} u : u ∈ us → emits P (EnableAndStart (G:=G) (S:=S) u).
Proof. intros Hu. apply emits_checked. right. exists u. auto. Qed.

Lemma emits_restart {G} u : u ∈ us → emits P (Restart (G:=G) (S:=S) u).
Proof. intros Hu. apply emits_checked. right. exists u. auto. Qed.

Lemma emits_Show {G} u : u ∈ us → emits P (Show (G:=G) (S:=S) u).
Proof.
  intros Hu. apply emits_bind; [|intros r; apply emits_ret].
  apply emits_systemctl. right. exists u. auto.
Qed.

(** What is done with a temporary file once it has its name. *)
Lemma emits_replace {G} path text perm p : p ∈ ps → path = UnitPath p ∨ path = EnvPath p →
  Dir path = unitDir ∨ Dir path = envDir →
  emits P (replace_file (G:=G) (S:=S) tempFileTemplate path text perm).
Proof.
  intros Hp Hpath Hd. unfold replace_file, bind_ok, deferred, or_close.
  apply emits_bind; [by apply emits_call|]. intros [u|e]; [|apply emits_ret].
  apply emits_call_bind; [done|]. intros s [n|e] s' E; [|apply emits_ret].
  destruct (create_temp_ok _ _ _ _ _ E) as ([x Hn] & _).
  assert (∃ d x, (d = unitDir ∨ d = envDir) ∧ n = in_dir d (tempFileTemplate +:+ x)) as Ht by eauto.
  assert (emits P (op_close (G:=G) (S:=S) n)) as Hclose by (by apply emits_call).
  apply emits_bind; [|intros r; apply emits_bind; [apply emits_call; by right|intros ?; apply emits_ret]].
  apply emits_bind; [destruct (perm =? 0); [apply emits_ret|by apply emits_call]|].
  intros [u'|e]; [|by apply emits_bind; [|intros ?; apply emits_ret]].
  apply emits_bind; [by apply emits_call|].
  intros [u''|e]; [|by apply emits_bind; [|intros ?; apply emits_ret]].
  apply emits_bind; [done|]. intros [u3|e]; [|apply emits_ret].
  apply emits_call. by exists p.
Qed.

Lemma emits_write {G} path text perm p : p ∈ ps → path = UnitPath p ∨ path = EnvPath p →
  Dir path = unitDir ∨ Dir path = envDir →
  emits P (writeIfChanged (G:=G) (S:=S) path text perm).
Proof.
  intros Hp Hpath Hd. unfold writeIfChanged. apply emits_bind; [apply emits_ask|]. intros r. cbv zeta.
  assert (emits P (bind_ok (replace_file (G:=G) (S:=S) tempFileTemplate path text perm)
                     (λ _, ret (Ok true)))) as Hw.
  { apply emits_bind; [by eapply emits_replace|]. intros [u|e]; apply emits_ret. }
  destruct r as [c|e]; [destruct (String.eqb c text)|destruct (io_NotExist e)]; auto using emits_ret.
Qed.

Lemma emits_remove {G} path : P (CallRemove path) → emits P (removeIfExists (G:=G) (S:=S) path).
Proof.
  intros Hp. apply emits_bind; [by apply emits_call|].
  intros [u|e]; [|destruct (io_NotExist e)]; apply emits_ret.
Qed.

Lemma emits_ensure {G} ns n u e : PathsFor ns n ∈ ps →
  emits P (EnsureUnitWithDetails (G:=G) (S:=S) (UnitName (PathsFor ns n)) u (EnvPath (PathsFor ns n)) e).
Proof.
  intros Hp. unfold EnsureUnitWithDetails.
  change (JoinPath unitDir (UnitName (PathsFor ns n))) with (UnitPath (PathsFor ns n)).
  apply emits_bind; [eapply emits_write; eauto using unit_path_Dir|].
  intros [cu|err]; [|apply emits_ret].
  apply emits_bind; [apply emits_call; rewrite env_path_Dir; by right|].
  intros [x|err]; [|apply emits_ret].
  apply emits_bind; [eapply emits_write; eauto using env_path_Dir|].
  intros [ce|err]; apply emits_ret.
Qed.

Lemma emits_remove_unit {G} ns n : PathsFor ns n ∈ ps →
  emits P (RemoveUnitWithDetails (G:=G) (S:=S) (UnitPath (PathsFor ns n)) (EnvPath (PathsFor ns n))).
Proof.
  intros Hp. unfold RemoveUnitWithDetails.
  apply emits_bind; [apply emits_remove; left; eauto|]. intros [b|e]; [|apply emits_ret].
  apply emits_bind; [apply emits_remove; left; eauto|]. intros [b'|e]; apply emits_ret.
Qed.

(** *** The agent's functions *)

Create HintDb agent_calls.
#[local] Hint Resolve emits_ret emits_reload emits_stop emits_start emits_restart emits_Show
  emits_ensure emits_remove_unit emits_time_now : agent_calls.

Ltac calls :=
  repeat match goal with
  | |- emits _ (bind _ _) => apply emits_bind; [|intros ?]
  | |- emits _ (when ?b _) => unfold when; destruct b
  | |- emits _ (match ?x with _ => _ end) => destruct x
  | |- _ => solve [auto with agent_calls]
  end.

Lemma emits_when_reload {G} b : emits P (when (G:=G) b (DaemonReload (S:=S) ;;; ret tt)).
Proof. calls. Qed.

Lemma emits_shouldAttempt mi hash d : emits P (shouldAttemptAction (S:=S) mi hash d).
Proof. unfold shouldAttemptAction. calls. Qed.

Lemma emits_fetch_artifact item o : art_URL (sp_Artifact (di_Spec item)) ∈ refs →
  emits P (fetch_artifact cfg item o).
Proof.
  intros Hr. unfold fetch_artifact. cbv zeta. destruct (negb _); [apply emits_ret|].
  apply emits_bind; [by apply emits_call|]. intros [res [e|]]; calls.
Qed.

Lemma emits_correct_drift u hash st o cur : u ∈ us → emits P (correct_drift u hash st o cur).
Proof.
  intros Hu. unfold correct_drift, markAction. cbv zeta.
  apply emits_bind; [destruct (_ || _); [apply emits_shouldAttempt|apply emits_ret]|]. intros b. calls.
Qed.

Lemma emits_apply_unit hadPrev item o cur :
  UnitName (PathsFor (di_Namespace item) (di_Name item)) ∈ us →
  PathsFor (di_Namespace item) (di_Name item) ∈ ps →
  emits P (apply_unit hadPrev item o cur).
Proof.
  intros Hu Hp. unfold apply_unit, stop_with, remove_invalid, start_unit_of, show_unit, markAction.
  cbv zeta. destruct (renderUnitFiles _ _) as [[unit env]|e]; [|calls].
  apply emits_bind; [by apply emits_ensure|]. intros d. destruct (d_err d); [calls|].
  apply emits_bind; [apply emits_when_reload|]. intros _.
  apply emits_bind; [calls|]. intros [cur'|e]; [|calls].
  apply emits_bind; [by apply emits_Show|]. intros [st|e]; [|apply emits_ret].
  apply emits_bind; [by apply emits_correct_drift|]. intros [[st' o'] c']. apply emits_ret.
Qed.

Lemma fetch_artifact_name item o :
  answers (λ r, match r with
                | Ok (item', _) => di_Namespace item' = di_Namespace item ∧ di_Name item' = di_Name item
                | Err _ => True
                end) (fetch_artifact cfg item o).
Proof.
  unfold fetch_artifact. cbv zeta. destruct (negb _); [by apply answers_ret|].
  apply answers_bind. intros [res [e|]]; [by apply answers_ret|].
  destruct (resolveCommand _ _ _); by apply answers_ret.
Qed.

Lemma emits_reconcile_item prev item :
  UnitName (PathsFor (di_Namespace item) (di_Name item)) ∈ us →
  PathsFor (di_Namespace item) (di_Name item) ∈ ps →
  art_URL (sp_Artifact (di_Spec item)) ∈ refs →
  emits P (reconcile_item cfg prev item).
Proof.
  intros Hu Hp Hr. unfold reconcile_item. cbv zeta. destruct (negb _); [apply emits_ret|].
  eapply emits_bind_post; [by apply emits_fetch_artifact|apply fetch_artifact_name|].
  intros [[item' o']|o'] Hname; [|unfold stop_with; calls].
  destruct Hname as [E1 E2]. apply emits_apply_unit; by rewrite E1, E2.
Qed.

Lemma emits_reconcile_items old items acc :
  (∀ item, item ∈ items →
     UnitName (PathsFor (di_Namespace item) (di_Name item)) ∈ us ∧
     PathsFor (di_Namespace item) (di_Name item) ∈ ps ∧
     art_URL (sp_Artifact (di_Spec item)) ∈ refs) →
  emits P (reconcile_items cfg old items acc).
Proof.
  revert acc. induction items as [|item items IH]; intros acc Hi; cbn [reconcile_items];
    [apply emits_ret|].
  destruct (Hi item) as (Hu & Hp & Hr); [by constructor|].
  apply emits_bind; [by apply emits_reconcile_item|]. intros r. apply IH.
  intros item' Hin. apply Hi. by constructor.
Qed.

Lemma emits_remove_item now kv :
  (now !! kv.1 = None → mi_UnitName kv.2 ∈ us ∧
   ∀ ns n, splitKey kv.1 = Some (ns, n) → PathsFor ns n ∈ ps) →
  emits P (remove_item (S:=S) now kv).
Proof.
  intros Hkv. unfold remove_item. destruct (now !! kv.1); [apply emits_ret|].
  destruct (Hkv eq_refl) as [Hu Hp]. destruct (splitKey kv.1) as [[ns n]|]; [|apply emits_ret].
  specialize (Hp _ _ eq_refl). cbv zeta. calls.
Qed.
End footprint.

(** ** The units a reconcile is responsible for *)

Definition item_paths `{Unicode} (item : DesiredItem) : Paths := PathsFor (di_Namespace item) (di_Name item).

Definition desired_keys (desired : DesiredResponse) : gset string :=
  list_to_set (item_key <$> de_Items desired).

(** The managed items that are no longer desired. *)
Definition undesired (desired : DesiredResponse) (old : gmap string managedItem)
    : list (string * managedItem) :=
  filter (λ kv, kv.1 ∉ desired_keys desired) (map_to_list old).

Definition key_paths `{Unicode} (kv : string * managedItem) : option Paths :=
  match splitKey kv.1 with Some (ns, n) => Some (PathsFor ns n) | None => None end.

Definition responsible_names `{Unicode} (desired : DesiredResponse) (old : gmap string managedItem)
    : list string :=
  ((λ item, UnitName (item_paths item)) <$> de_Items desired) ++
  ((λ kv, mi_UnitName kv.2) <$> undesired desired old).

Definition responsible_paths `{Unicode} (desired : DesiredResponse) (old : gmap string managedItem)
    : list Paths :=
  (item_paths <$> de_Items desired) ++ omap key_paths (undesired desired old).

Definition artifact_refs (desired : DesiredResponse) : list string :=
  (λ item, art_URL (sp_Artifact (di_Spec item))) <$> de_Items desired.

Definition state_temp (cfg : AgentConfig) (n : string) : Prop :=
  is_temp ".tmp-agent-state-" (ac_statePath cfg) n.

(** The calls that replace the state file. *)
Definition state_call (cfg : AgentConfig) (c : AgentCall) : Prop :=
  match c with
  | CallMkdirAll d | CallCreateTemp d _ => d = Dir (ac_statePath cfg)
  | CallChmod n _ | CallWrite n _ | CallClose n | CallRemove n => state_temp cfg n
  | CallRename n q => state_temp cfg n ∧ q = ac_statePath cfg
  | _ => False
  end.

Section reconcile.
Context {S : Type} `{HostLaws S} `{Unicode} `{LocalZone} `{SortSlice} `{MapRange}.
Context (cfg : AgentConfig).

Lemma emits_persist : emits (state_call cfg) (persistState (S:=S) cfg).
Proof.
  unfold persistState. apply emits_bind; [apply emits_get_self|]. intros a.
  unfold replace_file, bind_ok, deferred, or_close.
  apply emits_bind; [by apply emits_call|]. intros [u|e]; [|apply emits_ret].
  apply emits_call_bind; [done|]. intros s [n|e] s' E; [|apply emits_ret].
  destruct (create_temp_ok _ _ _ _ _ E) as (Hn & _).
  assert (state_temp cfg n) as Ht by exact Hn.
  assert (emits (state_call cfg) (op_close (G:=Agent) (S:=S) n)) as Hclose by (by apply emits_call).
  apply emits_bind; [|intros r; apply emits_bind; [by apply emits_call|intros ?; apply emits_ret]].
  apply emits_bind; [by apply emits_call|].
  intros [u'|e]; [|by apply emits_bind; [|intros ?; apply emits_ret]].
  apply emits_bind; [by apply emits_call|].
  intros [u''|e]; [|by apply emits_bind; [|intros ?; apply emits_ret]].
  apply emits_bind; [done|]. intros [u3|e]; [|apply emits_ret].
  by apply emits_call.
Qed.

Lemma undesired_elem desired (old now : gmap string managedItem) k mi :
  dom now = desired_keys desired → old !! k = Some mi → now !! k = None →
  (k, mi) ∈ undesired desired old.
Proof.
  intros Hd Ho Hn. apply list_elem_of_filter. split; [|by apply elem_of_map_to_list].
  cbn. rewrite <-Hd. by apply not_elem_of_dom.
Qed.

Lemma emits_cleanup desired old (now : gmap string managedItem) :
  dom now = desired_keys desired →
  emits (unit_call (responsible_names desired old) (responsible_paths desired old) (artifact_refs desired))
    (for_each (map_range old) (remove_item (S:=S) now)).
Proof.
  intros Hd. apply emits_for_each. intros [k mi] Hkv. apply emits_remove_item. cbn [fst snd].
  intros Hn. rewrite map_range_perm in Hkv. apply elem_of_map_to_list in Hkv.
  pose proof (undesired_elem _ _ _ _ _ Hd Hkv Hn) as Hu. split.
  - apply elem_of_app. right. by apply (list_elem_of_fmap_2 (λ kv, mi_UnitName kv.2) _ (k, mi)).
  - intros ns n Hs. apply elem_of_app. right. apply list_elem_of_omap. exists (k, mi).
    split; [done|]. unfold key_paths. cbn. by rewrite Hs.
Qed.

(** The calls of a reconcile, from the managed items at its start. *)
Lemma emits_reconcile desired (w : World Agent S AgentCall) :
  ∃ new, trace (reconcile cfg desired w).2 = trace w ++ new ∧
    Forall (λ c, unit_call (responsible_names desired (managed (self w)))
                   (responsible_paths desired (managed (self w))) (artifact_refs desired) c ∨
                 state_call cfg c) new.
Proof.
  unfold reconcile. rewrite run_get_self. set (old := managed (self w)).
  match goal with |- ∃ new, trace (?m w).2 = _ ∧ Forall ?Q new => cut (emits Q m); [by intros Hm|] end.
  eapply emits_bind_post; [|apply answers_reconcile_items|].
  - eapply emits_weaken; [|apply emits_reconcile_items].
    + intros c Hc. left. exact Hc.
    + intros item Hi. split_all.
      3: by apply (list_elem_of_fmap_2 (λ item, art_URL (sp_Artifact (di_Spec item)))).
      * apply elem_of_app. left. by apply (list_elem_of_fmap_2 (λ item, UnitName (item_paths item))).
      * apply elem_of_app. left. by apply (list_elem_of_fmap_2 item_paths).
  - cbn. intros r (os & _ & _ & Hd).
    apply emits_bind.
    { eapply emits_weaken; [|apply (emits_cleanup desired old r.2)].
      - auto.
      - rewrite Hd. set_solver. }
    intros _. apply emits_bind; [apply emits_locked|]. intros _.
    apply emits_bind; [|intros ?; apply emits_ret].
    eapply emits_weaken; [|apply emits_persist]. auto.
Qed.
End reconcile.

(** ** The files of a running item *)

Lemma env_triple_any {G S C A} (P : S → Prop) (m : M G S C A) (Q : A → S → Prop) :
  (∀ s0, env_triple (eq s0) m Q) → env_triple P m Q.
Proof. intros Hm w _. by apply (Hm (env w)). Qed.

Lemma env_triple_answers {G S C A} (P : S → Prop) (m : M G S C A) (F : A → Prop) (Q : A → S → Prop) :
  answers (λ a, ¬ F a) m → env_triple P m (λ a s, F a → Q a s).
Proof. intros Hm w _ HF. by destruct (Hm w). Qed.

(** The command an item runs: as written, or resolved in the root directory that
    a fetch of its artifact answered. *)
Definition resolves (S : Type) `{Host S} (cfg : AgentConfig) (item : DesiredItem) (cmd : list string) : Prop :=
  if String.eqb (art_Type (sp_Artifact (di_Spec item))) ArtifactTypeOCI
  then ∃ (s s' : S) res, ensure_artifact (art_URL (sp_Artifact (di_Spec item))) s = ((res, None), s') ∧
       resolveCommand (ac_cwd cfg) (ex_Command (sp_Execution (di_Spec item))) (oci_rootfsPath res) = Ok cmd
  else cmd = ex_Command (sp_Execution (di_Spec item)).

(** The files on the machine are those rendered for the item. *)
Definition deployed {S} `{HostLaws S} `{Unicode} `{SortSlice} (cfg : AgentConfig)
    (item : DesiredItem) (s : S) : Prop :=
  ∃ cmd unit env, resolves S cfg item cmd ∧
    renderUnitFiles (set_Command cmd item) (EnvPath (item_paths item)) = Ok (unit, env) ∧
    content s (UnitPath (item_paths item)) = Some unit ∧
    content s (EnvPath (item_paths item)) = Some env.

Definition started (o : Observation) : Prop := ob_ProcessStarted o = Some true.

Section deploy.
Context {S : Type} `{HostLaws S} `{Unicode} `{LocalZone} `{SortSlice} `{MapRange}.
Context (cfg : AgentConfig).

Ltac kept :=
  repeat match goal with
  | |- env_rel _ (bind _ _) => apply env_rel_bind; [apply _| |intros ?]
  | |- env_rel _ (match ?x with _ => _ end) => destruct x
  | |- env_rel _ (when _ _) => unfold when
  | |- env_rel units_kept (ret _) => by intros ? ?
  | |- env_rel units_kept time_now => by intros ? ?
  | |- env_rel units_kept (checked _ _) => apply checked_kept
  | |- env_rel units_kept (Show _) => apply Show_kept
  | |- env_rel units_kept (stopAndDisableQuiet _) => apply stopAndDisableQuiet_kept
  end.

Lemma fetch_artifact_kept item o : env_rel (units_kept (S:=S)) (fetch_artifact cfg item o).
Proof.
  unfold fetch_artifact. cbv zeta. destruct (negb _); [by intros w q|].
  apply env_rel_bind; [apply _| |].
  - intros w q Hq. by apply ensure_frame.
  - intros [res [e|]]; [by intros w q|]. destruct (resolveCommand _ _ _); by intros w q.
Qed.

Lemma show_unit_kept u hash o cur : env_rel (units_kept (S:=S)) (show_unit u hash o cur).
Proof.
  unfold show_unit, correct_drift, shouldAttemptAction, markAction, EnableAndStart, Restart. cbv zeta. kept.
Qed.

Lemma start_unit_of_kept u hash hadPrev changed cur :
  env_rel (units_kept (S:=S)) (start_unit_of u hash hadPrev changed cur).
Proof. unfold start_unit_of, markAction, EnableAndStart, Restart. kept. Qed.

Lemma when_reload_kept {G} b : env_rel (units_kept (S:=S)) (when (G:=G) b (DaemonReload ;;; ret tt)).
Proof. unfold DaemonReload. kept. Qed.

Lemma set_Command_paths cmd item : item_paths (set_Command cmd item) = item_paths item.
Proof. done. Qed.

Lemma apply_unit_frame hadPrev item o cur :
  env_rel (unit_frame (S:=S) (item_paths item)) (apply_unit hadPrev item o cur).
Proof.
  unfold apply_unit, item_paths. cbv zeta. destruct (renderUnitFiles _ _) as [[unit env]|e].
  - apply env_rel_bind; [apply _| |].
    { apply env_rel_triple. intros s0. eapply env_triple_weaken; [apply EnsureUnit_spec|done|].
      by intros d s (Hf & _). }
    intros d. apply units_kept_frame. unfold stop_with. destruct (d_err d); [kept|].
    apply env_rel_bind; [apply _|apply when_reload_kept|]. intros _.
    apply env_rel_bind; [apply _|apply start_unit_of_kept|]. intros [c|e]; [apply show_unit_kept|kept].
  - apply env_rel_bind; [apply _|apply units_kept_frame; kept|]. intros _.
    apply env_rel_bind; [apply _| |by intros _ w q].
    unfold remove_invalid. apply env_rel_bind; [apply _|apply RemoveUnit_frame|].
    intros d. apply units_kept_frame. destruct (d_err d); [kept|apply when_reload_kept].
Qed.

(** An item that is reported as started has its files. *)
Lemma apply_unit_files hadPrev item o cur (P : S → Prop) :
  env_triple P (apply_unit hadPrev item o cur)
    (λ r s, started r.1 → ∃ unit env,
       renderUnitFiles item (EnvPath (item_paths item)) = Ok (unit, env) ∧
       content s (UnitPath (item_paths item)) = Some unit ∧
       content s (EnvPath (item_paths item)) = Some env).
Proof.
  apply env_triple_any. intros s0. unfold apply_unit, item_paths. cbv zeta.
  destruct (renderUnitFiles _ _) as [[unit env]|e].
  2: { apply (env_triple_answers _ _ (λ r, started r.1)).
       do 2 (apply answers_bind; intros ?). by apply answers_ret. }
  eapply env_triple_bind; [apply EnsureUnit_spec|]. intros d. destruct (d_err d) eqn:Ed.
  { apply (env_triple_answers _ _ (λ r, started r.1)). apply answers_bind. intros ?. by apply answers_ret. }
  set (files s := content s (UnitPath (item_paths item)) = Some unit ∧
                  content s (EnvPath (item_paths item)) = Some env).
  eapply (env_triple_weaken _ _ _ (λ _, files)); [|intros s Hs; exact Hs|].
  2: { intros r s [Hu He] _. by exists unit, env. }
  eapply (env_triple_rel _ units_kept).
  - apply env_rel_bind; [apply _|apply when_reload_kept|]. intros _.
    apply env_rel_bind; [apply _|apply start_unit_of_kept|]. intros [c|e]; [apply show_unit_kept|].
    unfold stop_with. kept.
  - intros s s' (_ & _ & _ & Hd) Hk. rewrite Ed in Hd. destruct Hd as (Hu & He & _). split.
    + rewrite (Hk (UnitPath (item_paths item)) (agent_file_unit _ _)). exact Hu.
    + rewrite (Hk (EnvPath (item_paths item)) (agent_file_env _ _)). exact He.
Qed.

Lemma fetch_artifact_resolves item o :
  answers (λ r, match r with
                | Ok (item', _) => ∃ cmd, resolves S cfg item cmd ∧ item' = set_Command cmd item
                | Err o' => ¬ started o'
                end) (fetch_artifact cfg item o).
Proof.
  unfold fetch_artifact, resolves. cbv zeta.
  destruct (String.eqb (art_Type (sp_Artifact (di_Spec item))) ArtifactTypeOCI) eqn:E; cbn [negb].
  - intros w. rewrite run_call.
    destruct (ensure_artifact _ (env w)) as [[res [e|]] s'] eqn:Ee; cbn [fst snd]; [done|].
    destruct (resolveCommand _ _ _) as [cmd|e] eqn:Er; [|done].
    exists cmd. split; [by exists (env w), s', res|done].
  - apply answers_ret. eexists. split; [done|].
    destruct item as [u ns n g sp h]. destruct sp as [r a ex rp hc]. by destruct ex.
Qed.

Lemma reconcile_item_frame prev item :
  env_rel (unit_frame (S:=S) (item_paths item)) (reconcile_item cfg prev item).
Proof.
  unfold reconcile_item. cbv zeta. destruct (negb _); [by intros w q|].
  intros w. unfold bind. set (r := fetch_artifact _ _ _ w).
  assert (unit_frame (item_paths item) (env w) (env r.2)) as Hf.
  { intros q Hq _ _. by apply fetch_artifact_kept. }
  pose proof (fetch_artifact_resolves item
    (if String.eqb (sp_RestartPolicy (di_Spec item)) DeviceProcessRestartPolicyNever
     then with_warning never_warning (new_observation item) else new_observation item) w) as Hr.
  fold r in Hr. etrans; [exact Hf|].
  destruct r as [[[item' o']|o'] w']; cbn [fst snd] in *.
  - destruct Hr as (cmd & _ & ->). apply (apply_unit_frame _ (set_Command cmd item)).
  - assert (env_rel (unit_frame (S:=S) (item_paths item))
      (stop_with (UnitName (PathsFor (di_Namespace item) (di_Name item))) o'
         (carryManaged (default no_managed prev) (UnitName (PathsFor (di_Namespace item) (di_Name item))))))
      as Hs; [|apply Hs].
    apply units_kept_frame. unfold stop_with. kept.
Qed.

Lemma reconcile_item_files prev item (P : S → Prop) :
  env_triple P (reconcile_item cfg prev item) (λ r s, started r.1 → deployed cfg item s).
Proof.
  unfold reconcile_item. cbv zeta. destruct (negb _).
  { apply (env_triple_answers _ _ (λ r, started r.1)). by apply answers_ret. }
  intros w _. unfold bind. set (r := fetch_artifact _ _ _ w).
  pose proof (fetch_artifact_resolves item
    (if String.eqb (sp_RestartPolicy (di_Spec item)) DeviceProcessRestartPolicyNever
     then with_warning never_warning (new_observation item) else new_observation item) w) as Hr.
  fold r in Hr. destruct r as [[[item' o']|o'] w']; cbn [fst snd] in *; [|by intros Hs].
  destruct Hr as (cmd & Hc & ->). intros Hs.
  destruct (apply_unit_files (bool_decide (is_Some prev)) (set_Command cmd item) o'
    (carryManaged (default no_managed prev) (UnitName (PathsFor (di_Namespace item) (di_Name item))))
    (λ _, True) w' I Hs) as (unit & env & Hren & Hu & He).
  by exists cmd, unit, env.
Qed.

Lemma deployed_frame item p (s s' : S) :
  UnitName (item_paths item) ≠ UnitName p → (∃ ns n, p = PathsFor ns n) → unit_frame p s s' →
  deployed cfg item s → deployed cfg item s'.
Proof.
  intros Hne (ns & n & ->) Hf (cmd & unit & env & Hc & Hr & Hu & He).
  destruct (unit_paths_distinct _ _ _ _ Hne) as [Hup Hep].
  exists cmd, unit, env. split_all; [done|done| |].
  - rewrite <-Hu. apply Hf; [apply agent_file_unit|done|apply unit_path_not_env].
  - rewrite <-He. apply Hf; [apply agent_file_env| |done].
    intros E. by eapply unit_path_not_env.
Qed.

Lemma deployed_kept item (s s' : S) : units_kept s s' → deployed cfg item s → deployed cfg item s'.
Proof.
  intros Hk (cmd & unit & env & Hc & Hr & Hu & He). exists cmd, unit, env.
  split_all; [done|done| |].
  - rewrite <-Hu. apply Hk, agent_file_unit.
  - rewrite <-He. apply Hk, agent_file_env.
Qed.

Definition item_name (item : DesiredItem) : string := UnitName (item_paths item).

(** They depend on the names and the spec of the item only. *)
Lemma deployed_same item item' (s : S) :
  di_Namespace item' = di_Namespace item → di_Name item' = di_Name item → di_Spec item' = di_Spec item →
  deployed cfg item s → deployed cfg item' s.
Proof.
  destruct item as [u ns n g sp h], item' as [u' ns' n' g' sp' h']. cbn. intros -> -> ->.
  intros (cmd & unit & env & Hc & Hrest). exists cmd, unit, env. done.
Qed.

Definition files_ok (s : S) (item : DesiredItem) (o : Observation) : Prop :=
  started o → deployed cfg item s.

Lemma reconcile_items_files old pre items acc :
  NoDup (item_name <$> (pre ++ items)) →
  env_triple (λ s, Forall2 (files_ok s) pre acc.1) (reconcile_items (S:=S) cfg old items acc)
    (λ r s, Forall2 (files_ok s) (pre ++ items) r.1).
Proof.
  revert pre acc. induction items as [|item items IH]; intros pre acc Hnd; cbn [reconcile_items].
  { apply env_triple_ret. intros s Hs. by rewrite app_nil_r. }
  intros w Hw. unfold bind.
  pose proof (reconcile_item_files (old !! item_key item) item (λ _, True) w I) as Hitem.
  pose proof (reconcile_item_frame (old !! item_key item) item w) as Hframe.
  destruct (reconcile_item cfg (old !! item_key item) item w) as [r w']. cbn [fst snd] in *.
  replace (pre ++ item :: items) with ((pre ++ [item]) ++ items) in * by by rewrite <-app_assoc.
  apply IH; [done|]. cbn [fst]. apply Forall2_app; [|by repeat constructor].
  apply (Forall2_impl (λ i o, files_ok (env w) i o ∧ item_name i ≠ item_name item)).
  - apply Forall2_same_length_lookup_2; [by eapply Forall2_length|].
    intros k i o Hi Ho. split; [by eapply Forall2_lookup_lr|].
    intros E. rewrite !fmap_app in Hnd. apply NoDup_app in Hnd as (Hnd & _ & _).
    apply NoDup_app in Hnd as (_ & Hdisj & _). apply (Hdisj (item_name i)).
    + apply list_elem_of_fmap_2. by eapply list_elem_of_lookup_2.
    + rewrite E. constructor.
  - intros i o [Hok Hne] Hs. apply (deployed_frame i (item_paths item) (env w)); auto.
    by eexists _, _.
Qed.

(** What [R] keeps: the files of the desired items. *)
Definition keeps_items (items : list DesiredItem) : relation S :=
  λ s s', ∀ item, item ∈ items → deployed cfg item s → deployed cfg item s'.

#[export] Instance keeps_items_preorder items : PreOrder (keeps_items items).
Proof. split; [by intros s item|]. intros s1 s2 s3 H12 H23 item Hi Hd. by apply H23, H12. Qed.

Lemma keeps_items_kept {A} items (m : M Agent S AgentCall A) :
  env_rel units_kept m → env_rel (keeps_items items) m.
Proof. intros Hm w item _. apply deployed_kept, Hm. Qed.

Lemma remove_item_keeps items now kv :
  (now !! kv.1 = None → ∀ p, key_paths kv = Some p → UnitName p ∉ (item_name <$> items)) →
  env_rel (keeps_items items) (remove_item now kv).
Proof.
  intros Hkv. unfold remove_item. destruct (now !! kv.1); [by intros w item|].
  specialize (Hkv eq_refl). unfold key_paths in Hkv.
  destruct (splitKey kv.1) as [[ns n]|]; [|by intros w item].
  specialize (Hkv _ eq_refl). cbv zeta.
  apply env_rel_bind; [apply _|apply keeps_items_kept; kept|]. intros _.
  apply env_rel_bind; [apply _| |].
  - intros w item Hi. apply (deployed_frame item (PathsFor ns n)); [|by eauto|apply RemoveUnit_frame].
    intros E. apply Hkv. rewrite <-E. by apply (list_elem_of_fmap_2 item_name).
  - intros d. apply keeps_items_kept. apply env_rel_bind; [apply _|apply when_reload_kept|].
    by intros _ w q.
Qed.

(** The state file is none of the files of a unit. *)
Definition separate_state : Prop :=
  agent_file (ac_statePath cfg) = false ∧ ¬ state_temp cfg (ac_statePath cfg) ∧
  ∀ q, state_temp cfg q → agent_file q = false.

Lemma persist_kept : separate_state → env_rel (units_kept (S:=S)) (persistState cfg).
Proof.
  intros (Hs & Ht & Hq). unfold persistState.
  apply env_rel_bind; [apply _|by intros w q|]. intros a. apply env_rel_triple. intros s0.
  eapply env_triple_weaken; [by apply replace_file_spec|done|].
  intros r s [Ho _] q Haq. apply Ho.
  - intros ->. congruence.
  - intros Hqt. specialize (Hq q Hqt). congruence.
Qed.
End deploy.
