(* ===== verification/AgentReconcile.v ===== *)
(** * Properties of the agent's reconcile loop

    What a reconcile reports, which units it touches, when its files are on the
    machine, and what becomes of units that are no longer desired. *)

From S2P Require Import Prelude GoStrings GoTime GoTimeFacts GoPath Api GatewayState GatewayStatus GatewayServer.
From S2P Require Import AgentRender AgentPaths AgentHost AgentSystemd AgentSystemdFacts AgentUnits Agent AgentProps.

#[local] Open Scope go_scope.

(** ** A machine for the witnesses *)

Definition plain_item (name command : string) : DesiredItem :=
  mkDesiredItem "uid" "ns" name 1
    (mkSpec (mkDeviceRef DeviceRefKindServer "dev-1" "") (mkArtifact ArtifactTypeFile "file:///a" "")
       (mkExecution DeviceProcessBackendSystemd [command] [] [] "" "") DeviceProcessRestartPolicyAlways None)
    ("sha256:" +:+ name).

Definition sample_desired (items : list DesiredItem) : DesiredResponse := mkDesiredResponse "dev-1" 15 items.

Definition sample_agent_config : AgentConfig :=
  mkAgentConfig "dev-1" "http://gw" "" "secret" "/var/lib/apollo/agent/state.json" "/" "v1".

Definition sample_artifact : OciResult * option string :=
  (mkOciResult "/roots/a" "sha256:d" true true 1 "" "" "" "" "" "", None).

Definition empty_machine : Machine :=
  mkMachine ∅ ∅ [] false (λ _, sample_artifact) (λ _, Err "down") 0.

Definition sample_clock (i : nat) : Z := 63839768931 * Second + Z.of_nat i * Second.

Definition sample_world (m : gmap string managedItem) (machine : Machine) : World Agent Machine AgentCall :=
  mkWorld (mkAgent "" ∅ None m (15 * Second)) machine sample_clock 0 [].

#[local] Existing Instance ascii_unicode.
#[local] Existing Instance utc_zone.
#[local] Existing Instance plain_range.
#[local] Existing Instance insertion_sort_slice.

Lemma sample_separate : separate_state sample_agent_config.
Proof.
  split; [reflexivity|]. split; [by intros [x Hx]|]. by intros q [x ->].
Qed.

(** ** The state of the agent *)

Section state.
Context {S : Type} `{Host S} `{Unicode} `{LocalZone} `{SortSlice} `{MapRange}.
Context (cfg : AgentConfig).

#[local] Abbreviation same := (self_rel (S:=S) (C:=AgentCall) (@eq Agent)).

Lemma same_replace pat path c perm : same (replace_file pat path c perm).
Proof.
  unfold replace_file, or_close, op_mkdir, op_create, op_chmod, op_write, op_close, op_rename, op_remove.
  effects.
Qed.

Lemma same_write path c perm : same (writeIfChanged path c perm).
Proof.
  unfold writeIfChanged. cbv zeta. effects; auto using same_replace.
Qed.

Lemma same_remove p : same (RemoveUnitWithDetails (UnitPath p) (EnvPath p)).
Proof. unfold RemoveUnitWithDetails, removeIfExists, op_remove. effects. Qed.

Lemma same_checked what args : same (checked what args).
Proof. unfold checked, runSystemctl. effects. Qed.

Lemma same_stop u : same (stopAndDisableQuiet u).
Proof. unfold stopAndDisableQuiet, StopAndDisable, checked, runSystemctl. effects. Qed.

Lemma same_item prev item : same (reconcile_item cfg prev item).
Proof.
  unfold reconcile_item, fetch_artifact, stop_with, apply_unit, EnsureUnitWithDetails, remove_invalid,
    start_unit_of, show_unit, correct_drift, shouldAttemptAction, markAction, Show, runSystemctl,
    EnableAndStart, Restart, DaemonReload, op_mkdir. cbv zeta.
  effects; auto using same_write, same_remove, same_checked, same_stop.
Qed.

Lemma same_items old items acc : same (reconcile_items cfg old items acc).
Proof.
  revert acc. induction items as [|item items IH]; intros acc; cbn [reconcile_items]; [effects|].
  apply self_rel_bind; [apply _|apply same_item|]. intros r. apply IH.
Qed.

Lemma same_remove_item now kv : same (remove_item now kv).
Proof.
  unfold remove_item, DaemonReload, checked, runSystemctl. cbv zeta.
  effects; auto using same_remove, same_stop.
Qed.

Lemma same_persist : same (persistState cfg).
Proof. unfold persistState. effects. apply same_replace. Qed.

(** A reconcile changes the managed items only. *)
Lemma reconcile_self desired w :
  self (reconcile cfg desired w).2 =
  set_managed (reconcile_items cfg (managed (self w)) (de_Items desired) ([], ∅) w).1.2 (self w).
Proof.
  unfold reconcile. rewrite run_get_self, run_step.
  set (r := reconcile_items _ _ _ _ w).
  assert (self r.2 = self w) as Hr by (symmetry; apply same_items).
  rewrite run_step. set (c := for_each _ _ r.2).
  assert (self c.2 = self w) as Hc.
  { rewrite <-Hr. symmetry. apply self_rel_for_each; [apply _|]. intros kv _. apply same_remove_item. }
  rewrite run_modify, Hc, run_step. cbn [ret snd]. symmetry.
  match goal with |- _ = self (persistState cfg ?w').2 => apply (same_persist w') end.
Qed.

Lemma reconcile_answer desired w :
  (reconcile cfg desired w).1 =
  (reconcile_items cfg (managed (self w)) (de_Items desired) ([], ∅) w).1.1.
Proof. reflexivity. Qed.
End state.

(** ** Properties *)

(** C17: every desired item is observed.  A reconcile answers exactly one
    observation per desired item, in the order of the items and with the hash of
    the item's spec, whatever the machine does; each says whether the process
    runs, reports health as the same fact, and has a process identifier and no
    error exactly when it runs.  Afterwards the agent manages exactly the
    desired items. *)
Theorem reconcile_observes_every_item {S} `{Host S} `{Unicode} `{LocalZone} `{SortSlice} `{MapRange}
    cfg desired (w : World Agent S AgentCall) :
  let r := reconcile cfg desired w in
  Forall2 truthful (de_Items desired) r.1 ∧
  dom (managed (self r.2)) = desired_keys desired.
Proof.
  intros r. unfold r. rewrite reconcile_answer, reconcile_self.
  destruct (answers_reconcile_items cfg (managed (self w)) (de_Items desired) ([], ∅) w)
    as (os & E & Hos & Hd).
  rewrite E. split; [exact Hos|]. cbn [managed set_managed]. rewrite Hd. unfold desired_keys. set_solver.
Qed.

(** C18: a reconcile touches its own units only.  Every [systemctl] call names a
    desired unit or one the agent managed and that is no longer desired (or
    reloads the daemon); every file written, renamed to or removed is a unit or
    environment file of one of those, a temporary file next to one, or the
    state file; and only artifacts of desired items are fetched. *)
Theorem reconcile_touches_own_units {S} `{HostLaws S} `{Unicode} `{LocalZone} `{SortSlice} `{MapRange}
    cfg desired (w : World Agent S AgentCall) :
  let old := managed (self w) in
  ∃ new, trace (reconcile cfg desired w).2 = trace w ++ new ∧
    Forall (λ c, unit_call (responsible_names desired old) (responsible_paths desired old)
                   (artifact_refs desired) c ∨ state_call cfg c) new.
Proof. apply emits_reconcile. Qed.

(** Items reported as started have their files at the end of the reconcile. *)
Lemma reconcile_deploys {S} `{HostLaws S} `{Unicode} `{LocalZone} `{SortSlice} `{MapRange}
    cfg desired (w : World Agent S AgentCall) :
  NoDup (item_name <$> de_Items desired) →
  (∀ kv p, kv ∈ undesired desired (managed (self w)) → key_paths kv = Some p →
     UnitName p ∉ (item_name <$> de_Items desired)) →
  separate_state cfg →
  let r := reconcile cfg desired w in
  Forall2 (λ item o, ob_ProcessStarted o = Some true → deployed cfg item (env r.2)) (de_Items desired) r.1.
Proof.
  intros Hnd Hun Hst r. unfold r. rewrite reconcile_answer. unfold reconcile.
  rewrite run_get_self, run_step.
  pose proof (reconcile_items_files cfg (managed (self w)) [] (de_Items desired) ([], ∅) Hnd w
    ltac:(constructor)) as Hf.
  pose proof (answers_reconcile_items cfg (managed (self w)) (de_Items desired) ([], ∅) w) as Hd.
  destruct (reconcile_items _ _ _ _ w) as [[os now] w1] eqn:E. cbn [fst snd app] in *.
  assert (dom now = desired_keys desired) as Hdom.
  { destruct Hd as (_ & _ & _ & ->). unfold desired_keys. set_solver. }
  rewrite !run_step. cbn [ret snd].
  set (w2 := (for_each _ _ w1).2).
  assert (env_rel (keeps_items (S:=S) cfg (de_Items desired))
            (for_each (map_range (managed (self w))) (remove_item now))) as Hclean.
  { apply env_rel_for_each; [apply _|]. intros [k mi] Hkv. apply remove_item_keeps. intros Hn p.
    apply Hun. apply (undesired_elem desired (managed (self w)) now k mi Hdom); [|exact Hn].
    rewrite map_range_perm in Hkv. by apply elem_of_map_to_list in Hkv. }
  match goal with |- Forall2 (λ _ _, _ → deployed _ _ (env ?w')) _ _ => set (w3 := w') end.
  assert (units_kept (env w2) (env w3)) as H23
    by exact (persist_kept cfg Hst (modify (set_managed now) w2).2).
  apply Forall2_same_length_lookup_2; [by eapply Forall2_length|]. intros i item o Hi Ho Hs.
  apply (deployed_kept cfg item _ _ H23). apply (Hclean w1); [by eapply list_elem_of_lookup_2|].
  by apply (Forall2_lookup_lr _ _ _ _ _ _ Hf Hi Ho).
Qed.

(** C16: what runs is what was asked for.  When no two desired items share a unit
    name and no unit that is removed shares one with them, then at the end of a
    reconcile every item reported as started has on the machine exactly the unit
    file and the environment file rendered for its spec, with its command
    resolved in the root of its artifact. *)
Theorem running_items_deployed {S} `{HostLaws S} `{Unicode} `{LocalZone} `{SortSlice} `{MapRange}
    cfg desired (w : World Agent S AgentCall) :
  NoDup (item_name <$> de_Items desired) →
  (∀ kv p, kv ∈ undesired desired (managed (self w)) → key_paths kv = Some p →
     UnitName p ∉ (item_name <$> de_Items desired)) →
  separate_state cfg →
  let r := reconcile cfg desired w in
  Forall2 (λ item o, ob_ProcessStarted o = Some true → deployed cfg item (env r.2)) (de_Items desired) r.1.
Proof. apply reconcile_deploys. Qed.

Lemma running_items_deployed_witness :
  let desired := sample_desired [plain_item "a" "/bin/a"; plain_item "b" "/bin/b"] in
  let r := reconcile sample_agent_config desired (sample_world ∅ empty_machine) in
  Forall2 (λ item o, ob_ProcessStarted o = Some true → deployed sample_agent_config item (env r.2))
    (de_Items desired) r.1 ∧
  (ob_ProcessStarted <$> r.1) = [Some true; Some true].
Proof.
  intros desired r. split; [|vm_compute; reflexivity].
  apply running_items_deployed; [| |exact sample_separate].
  - refine (bool_decide_unpack _ _). vm_compute. exact I.
  - intros kv p Hkv. unfold undesired in Hkv. cbn in Hkv. by apply list_elem_of_filter in Hkv as [_ Hkv%elem_of_nil].
Defined.

(** Drift is corrected at most every five seconds.  After an action at time
    [t], another one for the same spec is attempted exactly when five seconds
    have passed since [t] cut to whole seconds, so never within four seconds of
    [t]; one for another spec is attempted at once. *)
Theorem drift_throttled cfg_hash hash desc mi t {S} (w : World Agent S AgentCall) :
  printable_time t → cfg_hash ≠ "" →
  let last := marked t mi cfg_hash desc in
  let now := clock w (tick w) in
  let b := (shouldAttemptAction last hash driftInterval w).1 in
  (hash ≠ cfg_hash → b = true) ∧
  (hash = cfg_hash → b = bool_decide (5 * Second ≤ now - t / Second * Second) ∧
     (b = true → 4 * Second < now - t)).
Proof.
  intros Ht Hne last now b. pose proof (parse_format t Ht) as Hp.
  assert (b = if String.eqb cfg_hash hash then driftInterval <=? Sub now (t / Second * Second) else true) as Hb.
  { unfold b, shouldAttemptAction. cbn [mi_LastActionAt mi_LastActionSpecHash last marked].
    destruct (String.eqb_spec (TrimSpace (format_rfc3339 t)) "") as [E|_];
      [by apply parse_visible in Hp|].
    destruct (String.eqb_spec cfg_hash ""); [done|]. cbn [negb andb].
    destruct (String.eqb cfg_hash hash); cbn [negb]; [|done]. rewrite Hp. done. }
  split.
  - intros Hh. rewrite Hb. by destruct (String.eqb_spec cfg_hash hash).
  - intros ->. rewrite String.eqb_refl in Hb.
    assert (b = bool_decide (5 * Second ≤ now - t / Second * Second)) as Hb'.
    { rewrite Hb. apply eq_bool_prop_intro. rewrite !Is_true_true, Z.leb_le, bool_decide_eq_true.
      unfold driftInterval. pose proof (Sub_le now (t / Second * Second) (5 * Second - 1)
        ltac:(unfold min_int64, max_int64, Second; lia)). unfold Second in *. lia. }
    split; [exact Hb'|]. intros E. rewrite E in Hb'. symmetry in Hb'. apply bool_decide_eq_true in Hb'.
    pose proof (Z.mod_pos_bound t Second ltac:(unfold Second; lia)).
    pose proof (Z.div_mod t Second ltac:(unfold Second; lia)). lia.
Qed.

Lemma drift_throttled_witness :
  let t := 63839768931 * Second + 999999999 in
  let w := mkWorld (mkAgent "" ∅ None ∅ 0) tt (λ _, t + 4 * Second) 0 [] in
  printable_time t ∧
  (shouldAttemptAction (marked t no_managed "h" "restart") "h" driftInterval w).1 = false.
Proof.
  intros t w. assert (printable_time t) as Ht by (split; vm_compute; done). split; [exact Ht|].
  destruct (drift_throttled "h" "h" "restart" no_managed t w Ht ltac:(done)) as [_ H].
  destruct (H eq_refl) as [E _]. rewrite E. vm_compute. reflexivity.
Defined.

(** A failed download is reported with the message of a successful one.
    When the fetcher fails without messages of its own, as [Ensure] does for
    every error before the download is complete, the observation has the
    failure's reasons but says "artifact downloaded" and "artifact verified":
    the defaults are put in before the error is looked at, so the error's text
    is never used. *)
Theorem failed_download_message {S} `{Host S} `{Unicode} cfg item o (w : World Agent S AgentCall) res e s' :
  art_Type (sp_Artifact (di_Spec item)) = ArtifactTypeOCI →
  ensure_artifact (art_URL (sp_Artifact (di_Spec item))) (env w) = ((res, Some e), s') →
  oci_downloadMessage res = "" → oci_verifyMessage res = "" →
  TrimSpace (oci_downloadReason res) ≠ "" → TrimSpace (oci_verifyReason res) ≠ "" →
  ∃ o', (fetch_artifact cfg item o w).1 = Err o' ∧
    ob_ArtifactDownloadReason o' = oci_downloadReason res ∧
    ob_ArtifactVerifyReason o' = oci_verifyReason res ∧
    ob_ArtifactDownloadMessage o' = "artifact downloaded" ∧
    ob_ArtifactVerifyMessage o' = "artifact verified".
Proof.
  intros Ht He Hd Hv Hdr Hvr. unfold fetch_artifact. cbv zeta.
  rewrite Ht, String.eqb_refl. cbn [negb]. rewrite run_call, He. cbn [fst snd].
  eexists. split; [reflexivity|]. rewrite Hd, Hv. cbn.
  assert (∀ r d d', TrimSpace r ≠ "" → or_default (defaultString r d) d' = r) as Hreason.
  { intros r d d' Hr. unfold defaultString, or_default.
    destruct (String.eqb_spec (TrimSpace r) ""); [done|].
    destruct (String.eqb_spec r ""); [by subst|done]. }
  by rewrite !Hreason.
Qed.

Lemma failed_download_message_witness :
  let item := mkDesiredItem "u" "ns" "a" 1
    (mkSpec (mkDeviceRef DeviceRefKindServer "dev-1" "") (mkArtifact ArtifactTypeOCI "reg/a@sha256:00" "")
       (mkExecution DeviceProcessBackendSystemd ["bin/a"] [] [] "" "") DeviceProcessRestartPolicyAlways None) "h" in
  let res := mkOciResult "" "" false false 3 "" "connection refused" "ArtifactDownloadFailed" "" "ArtifactVerifyFailed" "" in
  let m := mkMachine ∅ ∅ [] false (λ _, (res, Some "connection refused")) (λ _, Err "down") 0 in
  ∃ o', (fetch_artifact sample_agent_config item (new_observation item) (sample_world ∅ m)).1 = Err o' ∧
    ob_ArtifactDownloadReason o' = "ArtifactDownloadFailed" ∧
    ob_ArtifactVerifyReason o' = "ArtifactVerifyFailed" ∧
    ob_ArtifactDownloadMessage o' = "artifact downloaded" ∧
    ob_ArtifactVerifyMessage o' = "artifact verified".
Proof.
  intros item res m.
  apply (failed_download_message sample_agent_config item (new_observation item) (sample_world ∅ m)
    res "connection refused" m); reflexivity || discriminate.
Defined.

(** A process is never started without its artifact.  When the fetcher fails
    for an item, the two calls the agent makes for it are the download and the
    stopping of its unit: no file is written and nothing is started, and the
    observation says so, with the error. *)
Theorem artifact_failure_stops_unit {S} `{Host S} `{Unicode} `{LocalZone} cfg prev item
    (w : World Agent S AgentCall) res e s' :
  ex_Backend (sp_Execution (di_Spec item)) = DeviceProcessBackendSystemd →
  art_Type (sp_Artifact (di_Spec item)) = ArtifactTypeOCI →
  ensure_artifact (art_URL (sp_Artifact (di_Spec item))) (env w) = ((res, Some e), s') →
  let u := UnitName (PathsFor (di_Namespace item) (di_Name item)) in
  let out := reconcile_item cfg prev item w in
  trace out.2 = trace w ++ [CallEnsure (art_URL (sp_Artifact (di_Spec item)));
                            CallSystemctl ["disable"; "--now"; u]] ∧
  ob_ProcessStarted out.1.1 = Some false ∧ ob_Healthy out.1.1 = Some false ∧
  ob_ErrorMessage out.1.1 = Some (if String.eqb (TrimSpace (oci_lastError res)) "" then e else oci_lastError res).
Proof.
  intros Hb Ht He u out. unfold out, reconcile_item, fetch_artifact. cbv zeta.
  rewrite Hb, Ht, !String.eqb_refl. cbn [negb]. rewrite !run_bind, run_call, He. cbn [fst snd].
  rewrite run_ret. unfold stop_with, stopAndDisableQuiet, StopAndDisable, checked, runSystemctl.
  autorewrite with run. cbn. rewrite <-app_assoc. split; [done|].
  split; [done|]. split; [done|]. f_equal. by destruct (String.eqb (TrimSpace (oci_lastError res)) "").
Qed.

Lemma artifact_failure_stops_unit_witness :
  let item := mkDesiredItem "u" "ns" "a" 1
    (mkSpec (mkDeviceRef DeviceRefKindServer "dev-1" "") (mkArtifact ArtifactTypeOCI "reg/a:latest" "")
       (mkExecution DeviceProcessBackendSystemd ["bin/a"] [] [] "" "") DeviceProcessRestartPolicyAlways None) "h" in
  let res := mkOciResult "" "" false false 0 "" "" "ArtifactDownloadFailed" "" "ArtifactVerifyFailed" "" in
  let m := mkMachine ∅ ∅ [] false (λ _, (res, Some "oci ref must be pinned by digest")) (λ _, Err "down") 0 in
  let out := reconcile_item sample_agent_config None item (sample_world ∅ m) in
  trace out.2 = [] ++ [CallEnsure "reg/a:latest"; CallSystemctl ["disable"; "--now"; "apollo-ns-a.service"]] ∧
  ob_ProcessStarted out.1.1 = Some false ∧ ob_Healthy out.1.1 = Some false ∧
  ob_ErrorMessage out.1.1 = Some "oci ref must be pinned by digest".
Proof.
  intros item res m out.
  destruct (artifact_failure_stops_unit sample_agent_config None item (sample_world ∅ m) res
    "oci ref must be pinned by digest" m) as (Htr & Hs & Hh & Hm); [reflexivity..|].
  split; [etransitivity; [exact Htr|vm_compute; reflexivity]|]. split; [exact Hs|]. split; [exact Hh|exact Hm].
Defined.

(** ** Units that are no longer desired *)

Section removal.
Context {S : Type} `{HostLaws S} `{Unicode} `{LocalZone} `{SortSlice} `{MapRange}.
Context (cfg : AgentConfig).

Lemma some_calls_items old items acc :
  emits (λ _, True) (reconcile_items (S:=S) cfg old items acc).
Proof.
  set (d := mkDesiredResponse "" 0 items).
  eapply emits_weaken; [|apply (emits_reconcile_items cfg (responsible_names d ∅)
    (responsible_paths d ∅) (artifact_refs d))]; [done|].
  intros item Hi. split; [|split].
  - apply elem_of_app. left. by apply (list_elem_of_fmap_2 (λ item, UnitName (item_paths item))).
  - apply elem_of_app. left. by apply (list_elem_of_fmap_2 item_paths).
  - by apply (list_elem_of_fmap_2 (λ item, art_URL (sp_Artifact (di_Spec item)))).
Qed.

Lemma some_calls_remove_item now kv : emits (λ _, True) (remove_item (S:=S) now kv).
Proof.
  eapply emits_weaken; [|apply (emits_remove_item [mi_UnitName kv.2]
    (match key_paths kv with Some p => [p] | None => [] end) [])]; [done|].
  intros _. split; [constructor|]. intros ns n Hk. unfold key_paths. rewrite Hk. constructor.
Qed.

Lemma remove_item_goes_on now kv : answers (eq None) (remove_item (S:=S) now kv).
Proof.
  unfold remove_item. destruct (now !! kv.1); [by apply answers_ret|].
  destruct (splitKey kv.1) as [[ns n]|]; [|by apply answers_ret]. cbv zeta.
  do 3 (apply answers_bind; intros ?). by apply answers_ret.
Qed.

(** The calls made for one item that is removed. *)
Lemma remove_item_calls now k mi ns n c :
  now !! k = None → splitKey k = Some (ns, n) →
  c = CallSystemctl ["disable"; "--now"; mi_UnitName mi] ∨ c = CallRemove (UnitPath (PathsFor ns n)) →
  writes (λ l, c ∈ l) (remove_item (S:=S) now (k, mi)).
Proof.
  intros Hn Hk Hc. unfold remove_item. cbn [fst snd]. rewrite Hn, Hk. cbv zeta.
  destruct Hc as [-> | ->].
  - apply writes_in_l.
    + unfold stopAndDisableQuiet, StopAndDisable, checked, runSystemctl.
      do 2 (apply writes_in_l; [|intros ?; apply emits_ret]).
      intros w. eexists. split; [reflexivity|constructor].
    + intros ?. apply emits_bind; [|intros d; apply emits_bind; [|intros ?; apply emits_ret]].
      * eapply emits_weaken; [|apply (emits_remove_unit [] [PathsFor ns n] [])]; [done|constructor].
      * eapply emits_weaken; [|apply (emits_when_reload [] [] [])]. done.
  - apply (writes_in_r (λ _, True)); [|done|intros ? _; apply writes_in_l].
    + eapply emits_weaken; [|apply (emits_stop [mi_UnitName mi] [] [])]; [done|constructor].
    + unfold RemoveUnitWithDetails. apply writes_in_l.
      * unfold removeIfExists, op_remove. apply writes_in_l.
        -- intros w. eexists. split; [reflexivity|constructor].
        -- intros [u|e]; [|destruct (io_NotExist e)]; apply emits_ret.
      * intros [b|e]; [|apply emits_ret]. apply emits_bind; [|intros [b'|e]; apply emits_ret].
        eapply emits_weaken; [|apply (emits_remove [] [PathsFor ns n] [])]; [done|].
        left. exists (PathsFor ns n). split; [constructor|by right].
    + intros d. apply emits_bind; [|intros ?; apply emits_ret].
      eapply emits_weaken; [|apply (emits_when_reload [] [] [])]. done.
Qed.

Lemma reconcile_removal_calls desired (w : World Agent S AgentCall) k mi ns n c :
  managed (self w) !! k = Some mi → k ∉ desired_keys desired → splitKey k = Some (ns, n) →
  c = CallSystemctl ["disable"; "--now"; mi_UnitName mi] ∨ c = CallRemove (UnitPath (PathsFor ns n)) →
  ∃ new, trace (reconcile cfg desired w).2 = trace w ++ new ∧ c ∈ new.
Proof.
  intros Hm Hk Hs Hc. unfold reconcile. rewrite run_get_self. revert Hm.
  generalize (managed (self w)) as old. intros old Hm.
  match goal with |- ∃ new, trace (?m w).2 = _ ∧ _ => cut (writes (λ l, c ∈ l) m); [by intros Hw|] end.
  eapply writes_in_r; [apply some_calls_items|apply answers_reconcile_items|].
  cbn. intros r (os & _ & _ & Hd). apply writes_in_l.
  - apply (writes_in_for_each _ (k, mi)).
    + rewrite map_range_perm. by apply elem_of_map_to_list.
    + apply remove_item_goes_on.
    + apply some_calls_remove_item.
    + apply (remove_item_calls _ _ _ ns n); [|done|done].
      apply not_elem_of_dom. rewrite Hd. unfold desired_keys in Hk. set_solver.
  - intros ?. apply emits_bind; [apply emits_locked|]. intros ?.
    apply emits_bind; [|intros ?; apply emits_ret].
    eapply emits_weaken; [|apply (emits_persist cfg)]. done.
Qed.
End removal.

(** C21: a unit that is no longer desired is stopped and removed once.  A
    reconcile calls [systemctl disable --now] for it and removes its unit file,
    and forgets it whatever those calls answer; so when they fail the process
    goes on running, unmanaged, and no later reconcile tries again. *)
Theorem removal_attempted_once {S} `{HostLaws S} `{Unicode} `{LocalZone} `{SortSlice} `{MapRange}
    cfg desired (w : World Agent S AgentCall) k mi ns n :
  managed (self w) !! k = Some mi → k ∉ desired_keys desired → splitKey k = Some (ns, n) →
  let r := reconcile cfg desired w in
  (∃ new, trace r.2 = trace w ++ new ∧
     CallSystemctl ["disable"; "--now"; mi_UnitName mi] ∈ new ∧
     CallRemove (UnitPath (PathsFor ns n)) ∈ new) ∧
  managed (self r.2) !! k = None.
Proof.
  intros Hm Hk Hs r. split.
  - destruct (reconcile_removal_calls cfg desired w k mi ns n _ Hm Hk Hs (or_introl eq_refl))
      as (new & E & Hin).
    destruct (reconcile_removal_calls cfg desired w k mi ns n _ Hm Hk Hs (or_intror eq_refl))
      as (new' & E' & Hin').
    exists new. split; [exact E|]. split; [exact Hin|]. rewrite E in E'. by apply app_inv_head in E' as ->.
  - unfold r. rewrite reconcile_self. cbn [managed set_managed]. apply not_elem_of_dom.
    destruct (answers_reconcile_items cfg (managed (self w)) (de_Items desired) ([], ∅) w)
      as (os & _ & _ & Hd).
    rewrite Hd. unfold desired_keys in Hk. set_solver.
Qed.

(** The witness: the unit cannot be stopped, and is still running afterwards. *)
Lemma removal_attempted_once_witness :
  let u := "apollo-ns-a.service" in
  let m := mkMachine {[ "/etc/systemd/system/" +:+ u := "x" ]} {[ u := 100 ]} [["disable"; "--now"; u]] false
             (λ _, sample_artifact) (λ _, Err "down") 0 in
  let w := sample_world {[ "ns/a" := mkManaged u "" "" "" ]} m in
  let r := reconcile sample_agent_config (sample_desired []) w in
  managed (self r.2) !! "ns/a" = None ∧ units (env r.2) !! u = Some 100.
Proof.
  intros u m w r. split; [|vm_compute; reflexivity].
  apply (removal_attempted_once sample_agent_config (sample_desired []) w "ns/a" (mkManaged u "" "" "") "ns" "a");
    [reflexivity| |reflexivity].
  unfold desired_keys. cbn. set_solver.
Defined.

(** ** A unit in order *)

(** What is observed of an item before anything is done. *)
Definition first_observation (item : DesiredItem) : Observation :=
  if String.eqb (sp_RestartPolicy (di_Spec item)) DeviceProcessRestartPolicyNever
  then with_warning never_warning (new_observation item) else new_observation item.

Lemma unchanged_file {G S} `{Host S} path c perm (w : World G S AgentCall) :
  read_file path (env w) = Ok c → writeIfChanged path c perm w = (Ok false, w).
Proof. intros E. unfold writeIfChanged. by rewrite run_ask, E, String.eqb_refl. Qed.

(** C20: a unit in order is left alone.  For an item that is already managed,
    whose files have the content rendered for it and whose unit runs, a
    reconcile fetches the artifact, makes sure of the directory of environment
    files and asks for the unit's status, and does nothing else: no file is
    written, nothing is reloaded, started, restarted or stopped, and the record
    of the last action stays. *)
Theorem running_unit_left_alone {S} `{HostLaws S} `{Unicode} `{LocalZone} `{SortSlice}
    cfg mi item item' o (w w1 : World Agent S AgentCall) unit environment out s1 s2 :
  let p := item_paths item in
  ex_Backend (sp_Execution (di_Spec item)) = DeviceProcessBackendSystemd →
  fetch_artifact cfg item (first_observation item) w = (Ok (item', o), w1) →
  renderUnitFiles item' (EnvPath p) = Ok (unit, environment) →
  read_file (UnitPath p) (env w1) = Ok unit →
  mkdir_all envDir (env w1) = (Ok tt, s1) →
  read_file (EnvPath p) s1 = Ok environment →
  systemctl (show_args (UnitName p)) s1 = ((out, None), s2) →
  runs (parse_show out) = true →
  reconcile_item cfg (Some mi) item w =
    ((observe_unit (parse_show out) o, carryManaged mi (UnitName p)),
     mkWorld (self w1) s2 (clock w1) (tick w1)
       (trace w1 ++ [CallMkdirAll envDir; CallSystemctl (show_args (UnitName p))])).
Proof.
  intros p Hb Hf Hren Hu Hmk He Hshow Hrun. unfold reconcile_item. cbv zeta.
  change (PathsFor (di_Namespace item) (di_Name item)) with p. rewrite Hb, String.eqb_refl. cbn [negb].
  fold (first_observation item). rewrite run_step, Hf. cbn [fst snd].
  pose proof (fetch_artifact_name cfg item (first_observation item) w) as Hname. rewrite Hf in Hname.
  destruct Hname as [E1 E2].
  unfold apply_unit. cbv zeta. rewrite E1, E2. change (PathsFor (di_Namespace item) (di_Name item)) with p.
  rewrite Hren. unfold EnsureUnitWithDetails. change (JoinPath unitDir (UnitName p)) with (UnitPath p).
  rewrite !run_bind, run_step, (unchanged_file _ _ _ _ Hu). cbn [fst snd].
  rewrite !run_bind. unfold op_mkdir. rewrite (env_path_Dir (di_Namespace item) (di_Name item) : Dir (EnvPath p) = envDir).
  rewrite run_call, Hmk. cbn [fst snd].
  rewrite !run_bind, run_step. rewrite unchanged_file by exact He. cbn [fst snd].
  rewrite run_ret. cbn [d_err d_unit d_env when].
  rewrite run_ret, bool_decide_eq_true_2 by by eexists.
  unfold start_unit_of. cbn [negb orb]. rewrite run_ret.
  unfold show_unit, Show, runSystemctl. rewrite !run_bind, run_call. cbn [env]. rewrite Hshow. cbn [fst snd].
  rewrite run_ret. unfold correct_drift. cbv zeta.
  assert (need_start (parse_show out) = false) as Hns.
  { destruct (need_start (parse_show out)) eqn:E; [|done]. apply need_start_runs in E. congruence. }
  unfold need_start in Hns. rewrite Hns. cbn [negb]. rewrite !run_bind, !run_ret. cbn [ret].
  cbn [self clock tick trace]. by rewrite <-app_assoc.
Qed.

Lemma running_unit_left_alone_witness :
  let desired := sample_desired [plain_item "a" "/bin/a"] in
  let item := plain_item "a" "/bin/a" in
  let w := (reconcile sample_agent_config desired (sample_world ∅ empty_machine)).2 in
  ∃ mi, managed (self w) !! "ns/a" = Some mi ∧
  trace (reconcile_item sample_agent_config (Some mi) item w).2 =
    trace w ++ [CallMkdirAll envDir; CallSystemctl (show_args (UnitName (item_paths item)))].
Proof.
  intros desired item w.
  destruct (managed (self w) !! "ns/a") as [mi|] eqn:Em; [|vm_compute in Em; discriminate Em].
  exists mi. split; [reflexivity|].
  destruct (renderUnitFiles item (EnvPath (item_paths item))) as [[u e]|e] eqn:Er;
    [|vm_compute in Er; discriminate Er].
  assert (read_file (UnitPath (item_paths item)) (env w) = Ok u ∧
          read_file (EnvPath (item_paths item)) (env w) = Ok e) as [Eu Ee].
  { vm_compute in Er. injection Er as <- <-. split; vm_compute; reflexivity. }
  assert (systemctl (show_args (UnitName (item_paths item))) (env w) =
          ((show_text (Some 100), None), env w)) as Es by (vm_compute; reflexivity).
  clear Em. clearbody w.
  rewrite (running_unit_left_alone sample_agent_config mi item item (not_applicable (first_observation item))
      w w u e (show_text (Some 100)) (env w) (env w)).
  - reflexivity.
  - reflexivity.
  - reflexivity.
  - exact Er.
  - exact Eu.
  - reflexivity.
  - exact Ee.
  - exact Es.
  - vm_compute. reflexivity.
Defined.

(** ** Managed items *)

(** Every entry is filed under the key of an item, with the unit of that item. *)
Definition well_formed `{Unicode} (m : gmap string managedItem) : Prop :=
  map_Forall (λ k mi, ∃ ns n, k = itemKey ns n ∧ mi_UnitName mi = UnitName (PathsFor ns n)) m.

Section well_formed.
Context {S : Type} `{Host S} `{Unicode} `{LocalZone} `{SortSlice} `{MapRange}.
Context (cfg : AgentConfig).

Lemma answers_items_well_formed old items acc : well_formed acc.2 →
  answers (λ r, well_formed r.2) (reconcile_items (S:=S) cfg old items acc).
Proof.
  revert acc. induction items as [|item items IH]; intros acc Hacc; [by apply answers_ret|].
  cbn [reconcile_items]. eapply answers_bind_post; [apply answers_reconcile_item|]. intros r [_ Hu]. apply IH.
  apply map_Forall_insert_2; [|exact Hacc]. exists (di_Namespace item), (di_Name item). split; [reflexivity|exact Hu].
Qed.

(** A reconcile leaves well-formed items, whatever was there before. *)
Lemma reconcile_well_formed desired (w : World Agent S AgentCall) :
  well_formed (managed (self (reconcile cfg desired w).2)).
Proof.
  rewrite reconcile_self. apply (answers_items_well_formed _ _ ([], ∅)). apply map_Forall_empty.
Qed.

Lemma sendReport_well_formed obs : keeps (S:=S) (λ a, well_formed (managed a)) (sendReport cfg obs).
Proof. unfold sendReport, do_request. effects; try (by apply keeps_silent); by apply keeps_modify. Qed.

Lemma pollDesired_well_formed : keeps (S:=S) (λ a, well_formed (managed a)) (pollDesired cfg).
Proof.
  unfold pollDesired. apply keeps_bind.
  { unfold fetchDesired, do_request. effects; by apply keeps_silent. }
  intros [[fetched etag]|e]; [|by apply keeps_silent]. apply keeps_bind.
  { apply keeps_locked. intros a Ha. unfold remember.
    destruct (String.eqb etag ""), fetched as [d|]; cbn [lastDesired set_desired set_ETag];
      try destruct (lastDesired a) as [d'|]; try destruct (0 <? _); exact Ha. }
  intros [d|]; [|by apply keeps_silent]. apply keeps_bind; [intros w _; apply reconcile_well_formed|].
  intros [|o obs]; [by apply keeps_silent|apply sendReport_well_formed].
Qed.
End well_formed.
