(* ===== verification/AgentReload.v ===== *)
(** * When systemd is told to read the unit files again

    A changed unit file takes effect after [systemctl daemon-reload].  The agent
    asks for it in the reconcile that changes the file, and only when the
    environment file could be written too. *)

From S2P Require Import Prelude GoStrings GoTime Api Kube Samples GatewayStatus GatewayServer GoPath AgentRender AgentPaths.
From S2P Require Import AgentHost AgentSystemd AgentSystemdFacts AgentUnits Agent AgentProps AgentReconcile.

#[local] Open Scope go_scope.

Definition reload : AgentCall := CallSystemctl ["daemon-reload"].

Section reload.
Context {S : Type} `{HostLaws S} `{Unicode} `{LocalZone}.

#[local] Abbreviation quiet := (emits (G:=Agent) (S:=S) (λ c, c ≠ reload)).

Lemma reload_free_call {A} c (f : S → A * S) : c ≠ reload → quiet (call c f).
Proof. intros Hc. by apply emits_call. Qed.

#[local] Hint Extern 1 (emits _ (call _ _)) => (apply reload_free_call; discriminate) : effects.
#[local] Hint Resolve emits_ret emits_time_now : effects.

Lemma quiet_replace pat path c perm : quiet (replace_file pat path c perm).
Proof.
  unfold replace_file, or_close, op_mkdir, op_create, op_chmod, op_write, op_close, op_rename, op_remove. effects.
Qed.
#[local] Hint Resolve quiet_replace : effects.

Lemma quiet_write path c perm : quiet (writeIfChanged path c perm).
Proof. unfold writeIfChanged. cbv zeta. effects; by apply emits_silent. Qed.
#[local] Hint Resolve quiet_write : effects.

Lemma quiet_ensure unit u env e : quiet (EnsureUnitWithDetails unit u env e).
Proof. unfold EnsureUnitWithDetails, op_mkdir. effects. Qed.

Lemma quiet_stop u : quiet (stopAndDisableQuiet u).
Proof. unfold stopAndDisableQuiet, StopAndDisable, checked, runSystemctl. effects. Qed.
#[local] Hint Resolve quiet_stop : effects.

Lemma quiet_show u hash o cur : quiet (show_unit u hash o cur).
Proof.
  unfold show_unit, correct_drift, shouldAttemptAction, markAction, EnableAndStart, Restart, Show, checked, runSystemctl.
  cbv zeta. effects.
Qed.

Lemma quiet_start u hash hadPrev changed cur : quiet (start_unit_of u hash hadPrev changed cur).
Proof. unfold start_unit_of, markAction, EnableAndStart, Restart, checked, runSystemctl. effects. Qed.
End reload.

Section lost.
Context {S : Type} `{HostLaws S} `{Unicode} `{LocalZone} `{SortSlice}.

(** The files were not both written, or the unit file was not changed. *)
Lemma apply_unit_quiet hadPrev item o cur u e (w : World Agent S AgentCall) :
  let p := item_paths item in
  renderUnitFiles item (EnvPath p) = Ok (u, e) →
  let d := (EnsureUnitWithDetails (UnitName p) u (EnvPath p) e w).1 in
  d_err d ≠ None ∨ d_unit d = false →
  ∃ new, trace (apply_unit hadPrev item o cur w).2 = trace w ++ new ∧ reload ∉ new.
Proof.
  intros p Hr d Hd. unfold apply_unit. cbv zeta. change (PathsFor (di_Namespace item) (di_Name item)) with p. rewrite Hr, run_step.
  destruct (quiet_ensure (UnitName p) u (EnvPath p) e w) as (new & Ht & Hn).
  destruct (EnsureUnitWithDetails _ _ _ _ w) as [d' w1]. cbn [fst snd] in *. subst d.
  assert (∀ m : M Agent S AgentCall (Observation * managedItem), emits (λ c, c ≠ reload) m →
    ∃ new, trace (m w1).2 = trace w ++ new ∧ reload ∉ new) as Hq.
  { intros m Hm. destruct (Hm w1) as (new' & Ht' & Hn'). exists (new ++ new'). rewrite Ht', Ht, app_assoc.
    split; [done|]. intros Hin. by eapply Forall_forall in Hin; [|apply Forall_app_2; [exact Hn|exact Hn']]. }
  destruct (d_err d') as [err|]; [apply Hq; unfold stop_with; apply emits_bind; [apply quiet_stop|intros; apply emits_ret]|].
  destruct Hd as [Hd|Hd]; [done|]. rewrite Hd. apply Hq. unfold when. apply emits_bind; [apply emits_ret|]. intros _.
  apply emits_bind; [apply quiet_start|]. intros [c|err]; [apply quiet_show|].
  unfold stop_with. apply emits_bind; [apply quiet_stop|intros; apply emits_ret].
Qed.

(** A reload can be lost for good.  When the unit file of an item is changed
    and its environment file then cannot be written, this reconcile stops the unit
    without a [daemon-reload], although the new unit file stays on the disk; and
    no later reconcile of the item asks for one as long as the unit file has
    that content, even when it goes on to start or restart the unit. *)
Theorem reload_lost hadPrev item o cur u e err (w : World Agent S AgentCall) :
  let p := item_paths item in
  renderUnitFiles item (EnvPath p) = Ok (u, e) →
  let d := (EnsureUnitWithDetails (UnitName p) u (EnvPath p) e w).1 in
  d_unit d = true → d_err d = Some err →
  let out := apply_unit hadPrev item o cur w in
  content (env w) (UnitPath p) ≠ Some u ∧ content (env out.2) (UnitPath p) = Some u ∧
  (∃ new, trace out.2 = trace w ++ new ∧ reload ∉ new) ∧
  ∀ hadPrev' o' cur' (w' : World Agent S AgentCall), content (env w') (UnitPath p) = Some u →
    ∃ new, trace (apply_unit hadPrev' item o' cur' w').2 = trace w' ++ new ∧ reload ∉ new.
Proof.
  intros p Hr d Hu He out.
  assert (∀ w' : World Agent S AgentCall, ensured p u e (env w') (EnsureUnitWithDetails (UnitName p) u (EnvPath p) e w').1
    (env (EnsureUnitWithDetails (UnitName p) u (EnvPath p) e w').2)) as Hspec.
  { intros w'. by apply (EnsureUnit_spec (G:=Agent) (di_Namespace item) (di_Name item) u e (env w') w'). }
  destruct (Hspec w) as (_ & Hch & _ & Hc). fold d in Hch, Hc. rewrite He, Hu in Hc. destruct Hc as [Hc _].
  split; [by apply Hch|]. split; [|split].
  - unfold out, apply_unit. cbv zeta. change (PathsFor (di_Namespace item) (di_Name item)) with p. rewrite Hr, run_step.
    destruct (EnsureUnitWithDetails _ _ _ _ w) as [d' w1]. cbn [fst snd] in *. subst d. rewrite He.
    rewrite <-Hc. apply (stopAndDisableQuiet_kept (UnitName p) w1). apply agent_file_unit.
  - apply (apply_unit_quiet _ _ _ _ u e); [exact Hr|]. left. fold p d. by rewrite He.
  - intros hadPrev' o' cur' w' Hw'. apply (apply_unit_quiet _ _ _ _ u e); [exact Hr|].
    destruct (Hspec w') as (_ & Hch' & _). fold p. right. apply not_true_is_false. intros E. by apply Hch'.
Qed.
End lost.

(** ** A file system with a full directory *)

(** No file can be created in [dir]. *)
Definition full_directory (dir : string) {S} `{Host S} : Host S := {|
  read_file := read_file;
  mkdir_all := mkdir_all;
  create_temp d pat s := if String.eqb d dir then (Err enospc, s) else create_temp d pat s;
  chmod_file := chmod_file;
  write_file := write_file;
  close_file := close_file;
  rename_file := rename_file;
  remove_file := remove_file;
  systemctl := systemctl;
  ensure_artifact := ensure_artifact;
  http_do := http_do
|}.

Definition full_directory_laws (dir : string) {S} `{HostLaws S} : @HostLaws S (full_directory dir).
Proof.
  unshelve refine (@Build_HostLaws S (full_directory dir) content _ _ _ _ _ _ _ _ _ _ _ _ _ _ _ _ _ _);
    cbn [full_directory read_file mkdir_all create_temp chmod_file write_file close_file rename_file remove_file
         systemctl ensure_artifact http_do].
  3: apply mkdir_all_frame.
  3: { intros d pat s n s'. destruct (String.eqb d dir); [done|]. apply create_temp_ok. }
  3: { intros d pat s e s'. destruct (String.eqb d dir); [by intros [= _ <-]|]. apply create_temp_err. }
  all: eauto using read_file_ok, read_file_missing, chmod_file_frame, write_file_ok, write_file_frame, close_file_frame,
    rename_file_ok, rename_file_err, remove_file_ok, remove_file_missing, remove_file_err, remove_file_frame,
    systemctl_frame, ensure_frame, http_frame.
Defined.

#[local] Existing Instance ascii_unicode.
#[local] Existing Instance utc_zone.
#[local] Existing Instance insertion_sort_slice.

Lemma reload_lost_witness :
  let host := full_directory envDir (S:=Machine) in
  let item := plain_item "a" "/bin/a" in
  let o := new_observation item in
  let w := sample_world ∅ (mkMachine ∅ ∅ [] false (λ _, sample_artifact) (λ _, Err "down") 0) in
  let out := @apply_unit Machine host _ _ _ true item o no_managed w in
  content (env out.2) (UnitPath (item_paths item)) =
    (match renderUnitFiles item (EnvPath (item_paths item)) with Ok (u, _) => Some u | Err _ => None end) ∧
  ∃ new, trace out.2 = trace w ++ new ∧ reload ∉ new.
Proof.
  intros host item o w out.
  destruct (renderUnitFiles item (EnvPath (item_paths item))) as [[u e]|err] eqn:Er; [|vm_compute in Er; discriminate Er].
  set (d := (@EnsureUnitWithDetails Agent Machine host (UnitName (item_paths item)) u (EnvPath (item_paths item)) e w).1).
  assert (d = mkDetails true false (Some enospc)) as Hd.
  { vm_compute in Er. injection Er as <- <-. vm_compute. reflexivity. }
  destruct (@reload_lost Machine host (full_directory_laws envDir) _ _ _ true item o no_managed u e enospc w Er) as (_ & H2 & H3 & _).
  - fold d. by rewrite Hd.
  - fold d. by rewrite Hd.
  - split; [exact H2|exact H3].
Defined.
