(* ===== verification/AgentRun.v ===== *)
(** * The main loop of the agent (agent/main.go run)

    Two tickers wake the loop: every five seconds it polls the desired state, and
    after a heartbeat interval it would send a report.  The loop is a step
    relation over the agent's world and the time; a step is labelled with what
    the loop did.  The context of [main] is never cancelled, so pauses are not cut
    short. *)

From S2P Require Import Prelude GoStrings GoTime GatewayServer AgentHost Agent AgentSystemd.
From S2P Require Import AgentRender AgentPaths.

#[local] Open Scope go_scope.

(** ** Tickers: [time.Ticker]

    A ticker sends a tick every [tk_period] from [tk_next] on to a channel that
    holds one; a tick is dropped while the channel is full. *)
Record Ticker := mkTicker { tk_next : Z; tk_period : Z; tk_full : bool }.

Definition new_ticker (now d : Z) : Ticker := mkTicker (now + d) d false.

(** The ticker at the time [t]. *)
Definition ticked (t : Z) (k : Ticker) : Ticker :=
  if tk_next k <=? t
  then mkTicker (tk_next k + tk_period k * ((t - tk_next k) / tk_period k + 1)) (tk_period k) true
  else k.

Definition ready (t : Z) (k : Ticker) : bool := tk_full (ticked t k).

(** Receiving the tick, and [Ticker.Reset], which leaves a tick in the channel. *)
Definition receive (t : Z) (k : Ticker) : Ticker :=
  mkTicker (tk_next (ticked t k)) (tk_period (ticked t k)) false.
Definition reset (t d : Z) (k : Ticker) : Ticker := mkTicker (t + d) d (tk_full (ticked t k)).

Example ticker_ex :
  let k := new_ticker 0 5 in
  (ready 4 k, ready 5 k, tk_next (receive 12 k), ready 14 (receive 12 k), ready 7 (reset 6 5 k), ready 3 (reset 2 5 k)) =
  (false, true, 15, false, true, false).
Proof. reflexivity. Qed.

(** ** The loop *)

Record RunState (S : Type) := mkRun {
  rn_world : World Agent S AgentCall;
  rn_time : Z;
  rn_poll : Ticker;
  rn_beat : Ticker;
  rn_backoff : Z
}.
Arguments mkRun {S} _ _ _ _ _.
Arguments rn_world {S} _.
Arguments rn_time {S} _.
Arguments rn_poll {S} _.
Arguments rn_beat {S} _.
Arguments rn_backoff {S} _.

Definition pollInterval : Z := 5 * Second.
Definition initialBackoff : Z := 2 * Second.

(** What one turn of the loop did: a poll or a heartbeat, from when to when (a
    failed one with its pause), its error and the heartbeat interval after it. *)
Inductive RunEvent :=
  | Polled (from to : Z) (err : option string) (interval : Z)
  | Beat (from to : Z) (err : option string) (interval : Z).

Section run.
Context {S : Type} `{Host S} `{Unicode} `{LocalZone} `{SortSlice} `{MapRange}.
Context (cfg : AgentConfig).

(** Up to the loop, at the time the first poll ends; [None] when it fails, or
    when the ticker cannot be made, which ends the program. *)
Definition run_start (w : World Agent S AgentCall) (now : Z) : option (RunState S) :=
  let r := pollDesired cfg w in
  match r.1 with
  | Some _ => None
  | None =>
      if heartbeat (self r.2) <=? 0 then None
      else Some (mkRun r.2 now (new_ticker now pollInterval) (new_ticker now (heartbeat (self r.2))) initialBackoff)
  end.

(** [select]: the first moment at which a ticker has a tick. *)
Definition wakes (st : RunState S) (t : Z) : Prop :=
  rn_time st ≤ t ∧ ∀ u, rn_time st ≤ u < t → ready u (rn_poll st) = false ∧ ready u (rn_beat st) = false.

(** The pause after an error: the backoff and less than 250 milliseconds. *)
Definition paused (st : RunState S) (t t' : Z) : Prop :=
  rn_backoff st ≤ t' - t < rn_backoff st + 250 * Millisecond.

(** A turn that polls or sends a heartbeat at [t]; the call ends at [t1].  Only
    a turn without an error sets the heartbeat ticker again, which panics unless
    the interval is positive. *)
Inductive run_step (st : RunState S) : RunEvent → RunState S → Prop :=
  | run_polled t t1 (r := pollDesired cfg (rn_world st)) :
      wakes st t → ready t (rn_poll st) = true → t ≤ t1 → r.1 = None → 0 < heartbeat (self r.2) →
      run_step st (Polled t t1 None (heartbeat (self r.2)))
        (mkRun r.2 t1 (receive t (rn_poll st)) (reset t1 (heartbeat (self r.2)) (rn_beat st)) initialBackoff)
  | run_poll_failed t t1 t2 e (r := pollDesired cfg (rn_world st)) :
      wakes st t → ready t (rn_poll st) = true → t ≤ t1 → r.1 = Some e → paused st t1 t2 →
      run_step st (Polled t t2 (Some e) (heartbeat (self r.2)))
        (mkRun r.2 t2 (receive t (rn_poll st)) (rn_beat st) (nextBackoff (rn_backoff st)))
  | run_beat t t1 (r := sendReport cfg [] (rn_world st)) :
      wakes st t → ready t (rn_beat st) = true → t ≤ t1 → r.1 = None → 0 < heartbeat (self r.2) →
      run_step st (Beat t t1 None (heartbeat (self r.2)))
        (mkRun r.2 t1 (rn_poll st) (reset t1 (heartbeat (self r.2)) (receive t (rn_beat st))) initialBackoff)
  | run_beat_failed t t1 t2 e (r := sendReport cfg [] (rn_world st)) :
      wakes st t → ready t (rn_beat st) = true → t ≤ t1 → r.1 = Some e → paused st t1 t2 →
      run_step st (Beat t t2 (Some e) (heartbeat (self r.2)))
        (mkRun r.2 t2 (rn_poll st) (receive t (rn_beat st)) (nextBackoff (rn_backoff st))).

(** Turns one after the other. *)
Inductive run_steps : RunState S → list RunEvent → RunState S → Prop :=
  | run_nil st : run_steps st [] st
  | run_cons st e st1 evs st2 : run_step st e st1 → run_steps st1 evs st2 → run_steps st (e :: evs) st2.
End run.
