(* ===== verification/AgentRunProps.v ===== *)
(** * Properties of the main loop of the agent *)

From S2P Require Import Prelude GoStrings GoTime GatewayServer AgentHost Agent AgentReconcile AgentRun.

(** ** Tickers *)

Lemma ready_next k t : tk_full k = false → ready t k = (tk_next k <=? t).
Proof. intros Hf. unfold ready, ticked. destruct (tk_next k <=? t); [done|exact Hf]. Qed.

(** After a tick has been received the next one is at most a period away. *)
Lemma receive_next k t : 0 < tk_period k → tk_next k ≤ t →
  t < tk_next (receive t k) ≤ t + tk_period k ∧ tk_period (receive t k) = tk_period k ∧ tk_full (receive t k) = false.
Proof.
  intros Hp Hn. unfold receive, ticked. apply Z.leb_le in Hn as E. rewrite E. cbn. split; [|done].
  pose proof (Z.mod_pos_bound (t - tk_next k) (tk_period k) Hp).
  pose proof (Z.div_mod (t - tk_next k) (tk_period k) ltac:(lia)). nia.
Qed.

(** ** Backoff *)

Definition event_failed (e : RunEvent) : bool :=
  match e with Polled _ _ err _ | Beat _ _ err _ => bool_decide (is_Some err) end.

(** The failures since the last success. *)
Definition failures (evs : list RunEvent) : Z :=
  foldl (λ n e, if event_failed e then n + 1 else 0) 0 evs.

Definition backoff_after (n : Z) : Z := Z.min (initialBackoff * 2 ^ n) maxBackoff.

Lemma nextBackoff_after n : 0 ≤ n → nextBackoff (backoff_after n) = backoff_after (n + 1).
Proof.
  intros Hn. unfold nextBackoff, backoff_after. rewrite Z.pow_add_r by lia. change (2 ^ 1) with 2.
  assert (1 ≤ 2 ^ n) by (pose proof (Z.pow_pos_nonneg 2 n); lia).
  rewrite int64_id by (unfold min_int64, max_int64, maxBackoff, initialBackoff, Second in *; lia).
  unfold maxBackoff, initialBackoff, Second in *. destruct (_ <? _) eqn:E; bool_prop; lia.
Qed.

Section run.
Context {S : Type} `{Host S} `{Unicode} `{LocalZone} `{SortSlice} `{MapRange}.
Context (cfg : AgentConfig).

Lemma run_steps_app st evs st1 evs' st2 :
  run_steps cfg st evs st1 → run_steps cfg st1 evs' st2 → run_steps cfg st (evs ++ evs') st2.
Proof. induction 1; [done|]. intros. cbn. econstructor; eauto. Qed.

Lemma step_backoff n (st : RunState S) e st' : 0 ≤ n → run_step cfg st e st' → rn_backoff st = backoff_after n →
  rn_backoff st' = backoff_after (if event_failed e then n + 1 else 0).
Proof. intros Hn [] Hb; try done; cbn; rewrite Hb; by apply nextBackoff_after. Qed.

(** The loop backs off exponentially and never gives up.  After any turns of
    the loop the next pause is two seconds, doubled for each failure since the
    last success and at most half a minute; in particular a success sets it back
    to two seconds. *)
Theorem run_backoff_exact w now st evs st' :
  run_start cfg w now = Some st → run_steps cfg st evs st' →
  rn_backoff st' = backoff_after (failures evs) ∧ initialBackoff ≤ rn_backoff st' ≤ maxBackoff.
Proof.
  intros Hst Hrun.
  assert (∀ n, 0 ≤ n → rn_backoff st = backoff_after n →
    ∃ m, 0 ≤ m ∧ m = foldl (λ n e, if event_failed e then n + 1 else 0) n evs ∧ rn_backoff st' = backoff_after m) as Hgen.
  { clear Hst. induction Hrun as [st|st e st1 evs st2 Hstep Hrun IH]; intros n Hn Hb.
    - by exists n.
    - apply IH; [destruct (event_failed e); lia|]. by apply (step_backoff n st). }
  destruct (Hgen 0) as (m & Hm & -> & Hb); [lia| |].
  - unfold run_start in Hst. cbv zeta in Hst. destruct (pollDesired cfg w).1; [done|].
    destruct (_ <=? 0); simplify_eq. done.
  - split; [exact Hb|]. rewrite Hb. fold (failures evs) in Hm |- *. unfold backoff_after.
    assert (1 ≤ 2 ^ failures evs) by (pose proof (Z.pow_pos_nonneg 2 (failures evs)); lia).
    unfold maxBackoff, initialBackoff, Second. lia.
Qed.

(** ** Heartbeats *)

(** A turn that ended well within [d], with an interval that leaves room for a
    poll between two heartbeats. *)
Definition quick (d : Z) (e : RunEvent) : Prop :=
  match e with Polled t t' err h | Beat t t' err h => err = None ∧ t' - t ≤ d ∧ pollInterval + d < h end.

Definition is_poll (e : RunEvent) : bool := match e with Polled _ _ _ _ => true | Beat _ _ _ _ => false end.

(** After a poll: the next one is due within five seconds, the heartbeat after
    its whole interval. *)
Definition after_poll (h : Z) (st : RunState S) : Prop :=
  tk_full (rn_poll st) = false ∧ tk_period (rn_poll st) = pollInterval ∧
  tk_next (rn_poll st) ≤ rn_time st + pollInterval ∧
  tk_full (rn_beat st) = false ∧ tk_next (rn_beat st) = rn_time st + h.

Lemma wakes_by (st : RunState S) t : wakes st t → tk_full (rn_poll st) = false → t ≤ Z.max (rn_time st) (tk_next (rn_poll st)).
Proof.
  intros [Ht Hu] Hf. destruct (decide (t ≤ Z.max (rn_time st) (tk_next (rn_poll st)))); [done|].
  destruct (Hu (Z.max (rn_time st) (tk_next (rn_poll st)))) as [Hp _]; [lia|].
  rewrite ready_next in Hp by done. bool_prop. lia.
Qed.

Lemma quick_step d h (st : RunState S) e st' : 0 ≤ d → after_poll h st → pollInterval + d < h →
  run_step cfg st e st' → quick d e →
  is_poll e = true ∧ ∃ h', pollInterval + d < h' ∧ after_poll h' st'.
Proof.
  intros Hd (Hf & Hp & Hn & Hbf & Hbn) Hh Hstep Hq.
  assert (∀ t, wakes st t → ready t (rn_beat st) = false) as Hnobeat.
  { intros t Hw. pose proof (wakes_by st t Hw Hf). rewrite ready_next, Hbn by done. apply Z.leb_gt.
    unfold pollInterval, Second in *. lia. }
  destruct Hstep as [t t1 r Hw Hr Ht _ _|t t1 t2 e r Hw Hr Ht He Hpa|t t1 r Hw Hr Ht _ _|t t1 t2 e r Hw Hr Ht He Hpa];
    try (rewrite Hnobeat in Hr; done); destruct Hq as (Herr & Hdt & Hh'); try done.
  split; [done|]. exists (heartbeat (self r.2)). split; [done|]. unfold after_poll.
  cbn [rn_poll rn_beat rn_time].
  rewrite ready_next in Hr by done. bool_prop.
  destruct (receive_next (rn_poll st) t) as ((Hlo & Hhi) & Hper & Hful); [rewrite Hp; unfold pollInterval, Second; lia|done|].
  pose proof (wakes_by st t Hw Hf) as Hwt. split_all; try done.
  - congruence.
  - rewrite Hp in Hhi. lia.
  - change (ready t1 (rn_beat st) = false). rewrite ready_next, Hbn by done.
    apply Z.leb_gt. lia.
Qed.

(** C31: a healthy agent never sends a heartbeat.  Every successful turn sets the
    heartbeat ticker to a whole interval again, and a poll is due every five
    seconds.  So when the interval is longer than five seconds and the duration
    of a turn, as the 15 seconds of the default are, and the turns succeed, all of
    them are polls: heartbeats are only sent after failures. *)
Theorem heartbeats_starved d w now st evs st' :
  0 ≤ d → run_start cfg w now = Some st → pollInterval + d < heartbeat (self (rn_world st)) →
  run_steps cfg st evs st' → Forall (quick d) evs → Forall (λ e, is_poll e = true) evs.
Proof.
  intros Hd Hst Hh Hrun Hq.
  assert (after_poll (heartbeat (self (rn_world st))) st) as Hinv.
  { unfold run_start in Hst. cbv zeta in Hst. destruct (pollDesired cfg w).1; [done|].
    destruct (_ <=? 0); simplify_eq. unfold after_poll. cbn. split_all; try done; lia. }
  clear Hst. revert Hinv Hh. generalize (heartbeat (self (rn_world st))) as h.
  induction Hrun as [st|st e st1 evs st2 Hstep Hrun IH]; intros h Hinv Hh; [constructor|].
  apply Forall_cons in Hq as [Hqe Hqs].
  destruct (quick_step d h st e st1 Hd Hinv Hh Hstep Hqe) as (Hpoll & h' & Hh' & Hinv').
  constructor; [done|]. by apply (IH Hqs h').
Qed.

(** C32: the managed items are well formed in every state the loop reaches.  Each
    is filed under the key of an item and names the unit of that item, through
    polls and heartbeats that succeed or fail in any way, when this held for the
    items the agent was started with. *)
Theorem managed_well_formed w now st evs st' :
  well_formed (managed (self w)) → run_start cfg w now = Some st → run_steps cfg st evs st' →
  well_formed (managed (self (rn_world st'))).
Proof.
  intros Hw Hst Hrun. assert (well_formed (managed (self (rn_world st)))) as Hinit.
  { unfold run_start in Hst. cbv zeta in Hst. pose proof (pollDesired_well_formed cfg w Hw) as Hp.
    destruct (pollDesired cfg w) as [[e|] w1]; [done|]. destruct (_ <=? 0); cbn in Hst; simplify_eq; exact Hp. }
  clear Hst Hw. induction Hrun as [st|st e st1 evs st2 Hstep Hrun IH]; [done|]. apply IH.
  pose proof (pollDesired_well_formed cfg (rn_world st) Hinit) as Hpoll.
  pose proof (sendReport_well_formed cfg [] (rn_world st) Hinit) as Hsend.
  by destruct Hstep.
Qed.
End run.

(** ** A run *)

(** Two polls that succeed, the second one five seconds after the first. *)
Lemma two_polls {S} `{Host S} `{Unicode} `{LocalZone} `{SortSlice} `{MapRange} cfg
    (w0 w1 w2 : World Agent S AgentCall) :
  pollDesired cfg w0 = (None, w1) → pollDesired cfg w1 = (None, w2) →
  heartbeat (self w1) = 15 * Second → heartbeat (self w2) = 15 * Second →
  ∃ st st', run_start cfg w0 0 = Some st ∧ heartbeat (self (rn_world st)) = 15 * Second ∧
    run_step cfg st (Polled (5 * Second) (6 * Second) None (15 * Second)) st'.
Proof.
  intros E1 E2 H1' H2'. unfold run_start. rewrite E1. cbn [fst snd]. rewrite H1'.
  change (15 * Second <=? 0) with false. cbv iota.
  eexists (mkRun w1 0 (new_ticker 0 pollInterval) (new_ticker 0 (15 * Second)) initialBackoff), _.
  split; [done|]. split; [exact H1'|].
  pose proof (run_polled cfg (mkRun w1 0 (new_ticker 0 pollInterval) (new_ticker 0 (15 * Second)) initialBackoff)
    (5 * Second) (6 * Second)) as Hp.
  cbv zeta in Hp. cbn [rn_world rn_poll rn_beat] in Hp. rewrite E2 in Hp. cbn [fst snd] in Hp. rewrite H2' in Hp.
  apply Hp; [|reflexivity|unfold Second; lia|done|unfold Second; lia].
  split; [cbn; unfold Second; lia|]. cbn [rn_time rn_poll rn_beat]. intros u Hu. rewrite !ready_next by done. cbn.
  split; apply Z.leb_gt; unfold pollInterval, Second in *; lia.
Qed.

#[local] Existing Instance ascii_unicode.
#[local] Existing Instance utc_zone.
#[local] Existing Instance plain_range.
#[local] Existing Instance insertion_sort_slice.

(** A device without processes; its gateway refuses reports. *)
Definition idle_machine : Machine :=
  mkMachine ∅ ∅ [] false (λ _, sample_artifact)
    (λ r, if String.eqb (hr_Method r) "GET" then Ok (mkResponse 200 (Some "etag") (DesiredBody (sample_desired [])))
          else Ok (mkResponse 503 None NoBody)) 0.

Definition idle_world : World Agent Machine AgentCall := sample_world ∅ idle_machine.

(** A start and a poll five seconds later, when both succeed. *)
Lemma good_turn (w0 : World Agent Machine AgentCall) :
  let p1 := pollDesired sample_agent_config w0 in
  let p2 := pollDesired sample_agent_config p1.2 in
  p1.1 = None → p2.1 = None → heartbeat (self p1.2) = 15 * Second → heartbeat (self p2.2) = 15 * Second →
  ∃ st st', run_start sample_agent_config w0 0 = Some st ∧ heartbeat (self (rn_world st)) = 15 * Second ∧
    run_step sample_agent_config st (Polled (5 * Second) (6 * Second) None (15 * Second)) st'.
Proof.
  intros p1 p2 Hr1 Hr2 Hb1 Hb2. apply (two_polls sample_agent_config w0 p1.2 p2.2); try done.
  - by rewrite <-Hr1, <-surjective_pairing.
  - by rewrite <-Hr2, <-surjective_pairing.
Qed.

Lemma idle_turn : ∃ st st', run_start sample_agent_config idle_world 0 = Some st ∧
  heartbeat (self (rn_world st)) = 15 * Second ∧
  run_step sample_agent_config st (Polled (5 * Second) (6 * Second) None (15 * Second)) st'.
Proof. apply good_turn; vm_compute; reflexivity. Qed.

(** A device that is asked to run a process. *)
Definition busy_world : World Agent Machine AgentCall :=
  sample_world ∅ (mkMachine ∅ ∅ [] false (λ _, sample_artifact)
    (λ r, Ok (mkResponse 200 (Some "etag")
            (if String.eqb (hr_Method r) "GET" then DesiredBody (sample_desired [plain_item "a" "/bin/a"]) else NoBody))) 0).

Lemma busy_turn : ∃ st st', run_start sample_agent_config busy_world 0 = Some st ∧
  heartbeat (self (rn_world st)) = 15 * Second ∧
  run_step sample_agent_config st (Polled (5 * Second) (6 * Second) None (15 * Second)) st'.
Proof. apply good_turn; vm_compute; reflexivity. Qed.

Lemma heartbeats_starved_witness :
  ∃ st st' e, run_start sample_agent_config idle_world 0 = Some st ∧
    run_steps sample_agent_config st [e] st' ∧ Forall (λ e, is_poll e = true) [e].
Proof.
  destruct idle_turn as (st & st' & Hst & Hh & Hstep).
  exists st, st', (Polled (5 * Second) (6 * Second) None (15 * Second)).
  assert (run_steps sample_agent_config st [Polled (5 * Second) (6 * Second) None (15 * Second)] st') as Hrun.
  { eapply run_cons; [exact Hstep|constructor]. }
  split; [exact Hst|]. split; [exact Hrun|].
  apply (heartbeats_starved sample_agent_config (1 * Second) idle_world 0 st _ st');
    [unfold Second; lia|exact Hst|rewrite Hh; reflexivity|exact Hrun|].
  repeat constructor; unfold Second, pollInterval; lia.
Defined.

Lemma run_backoff_exact_witness :
  ∃ st (st' : RunState Machine), run_start sample_agent_config idle_world 0 = Some st ∧ rn_backoff st' = backoff_after 0 ∧
    initialBackoff ≤ rn_backoff st' ≤ maxBackoff.
Proof.
  destruct idle_turn as (st & st' & Hst & Hh & Hstep). exists st, st'. split; [exact Hst|].
  apply (run_backoff_exact sample_agent_config idle_world 0 st
    [Polled (5 * Second) (6 * Second) None (15 * Second)] st'); [exact Hst|].
  eapply run_cons; [exact Hstep|constructor].
Defined.

(** The process asked for is managed from the start on. *)
Lemma managed_well_formed_witness :
  ∃ st (st' : RunState Machine), run_start sample_agent_config busy_world 0 = Some st ∧
    is_Some (managed (self (rn_world st)) !! "ns/a") ∧ well_formed (managed (self (rn_world st'))).
Proof.
  destruct busy_turn as (st & st' & Hst & Hh & Hstep). exists st, st'. split; [exact Hst|]. split.
  - assert ((λ st, bool_decide (is_Some (managed (self (rn_world st)) !! "ns/a"))) <$>
      run_start sample_agent_config busy_world 0 = Some true) as Hm by (vm_compute; reflexivity).
    rewrite Hst in Hm. injection Hm as Hm. by apply bool_decide_eq_true in Hm.
  - apply (managed_well_formed sample_agent_config busy_world 0 st
      [Polled (5 * Second) (6 * Second) None (15 * Second)] st'); [apply map_Forall_empty|exact Hst|].
    eapply run_cons; [exact Hstep|constructor].
Defined.
