(* ===== verification/AgentGateway.v ===== *)
(** * The agent and the gateway together

    The requests of the agent are delivered to the handlers of the gateway: they
    pass its authorization and reach the handler for this agent's device, a
    report is accepted as it is sent, and what the agent holds after a poll is the
    gateway's desired state, also when the answer is that nothing changed. *)

From S2P Require Import Prelude GoStrings GoTime GoTimeFacts GoCrypto Api SpecHash Kube Samples GatewayState GatewayStatus.
From S2P Require Import GatewayServer GatewayAuth GatewayDesired GatewayEffects AgentHost Agent.
From S2P Require Import GoUtf8 GoJson GoJsonCodec SpecCodec Wire GoPath GatewayMain.

#[local] Open Scope go_scope.

(** ** Delivery

    The path of a request is what follows the base URL of the gateway; names of
    devices need no escaping there.  Headers arrive as sent, and a body is encoded
    by one side and decoded by the other. *)
Definition deliver (base : string) (r : HttpRequest) : Request :=
  mkRequest (hr_Method r) (TrimPrefix (hr_URL r) base) (hr_DeviceToken r) (hr_IfNoneMatch r)
    (body ← hr_Report r; decode_report (marshal body)).

(** The answer as the agent decodes it. *)
Definition receive_answer (r : Response) : Response :=
  mkResponse (rs_Status r) (rs_ETag r)
    match rs_Body r with
    | DesiredBody d => from_option DesiredBody (Text "") (decode_desired (encode_desired d))
    | b => b
    end.

(** The requests of [fetchDesired] and [sendReport]. *)
Definition poll_request (cfg : AgentConfig) (a : Agent) : HttpRequest :=
  mkHttpRequest "GET" (device_url cfg "desired") (agentDeviceToken cfg) (lastETag a) None.
Definition report_request (cfg : AgentConfig) (now : Z) (obs : list Observation) : HttpRequest :=
  mkHttpRequest "POST" (device_url cfg "report") (agentDeviceToken cfg) "" (Some (report_body cfg now obs)).

(** The secret of the agent is the one of the gateway, or neither uses one and
    they share a token. *)
Definition same_credentials (token secret gwToken gwSecret : string) : Prop :=
  TrimSpace secret ≠ "" ∧ TrimSpace gwSecret = TrimSpace secret ∨
  TrimSpace secret = "" ∧ all_bytes visible token = true ∧ TrimSpace gwToken = token.

(** The unreserved characters of a URL, which no one escapes. *)
Definition unreserved (c : ascii) : bool :=
  in_range 97 122 c || in_range 65 90 c || in_range 48 57 c || Ascii.eqb "-" c || Ascii.eqb "." c ||
  Ascii.eqb "_" c || Ascii.eqb "~" c.

Lemma unreserved_lacks s : all_bytes unreserved s = true → lacks slash s = true.
Proof. by apply lacks_impl. Qed.

Lemma TrimSpace_hex s : TrimSpace (hex s) = hex s.
Proof.
  apply TrimSpace_visible. eapply all_bytes_impl; [|apply hex_alphabet].
  intros c Hc. unfold is_hex in Hc. unfold visible, in_range.
  rewrite ?orb_true_iff, ?andb_true_iff, ?Z.leb_le in *. lia.
Qed.

(** The path of a request for a device. *)
Lemma device_url_path cfg dev action : ac_deviceName cfg = dev →
  TrimPrefix (device_url cfg action) (ac_gatewayURL cfg) = device_path (dev +:+ "/" +:+ action).
Proof. intros <-. unfold device_url. by rewrite TrimPrefix_app. Qed.

Lemma device_path_parts dev action : lacks slash dev = true → lacks slash action = true →
  trim_right_by (Ascii.eqb slash) action = action → action ≠ "" →
  path_parts (device_path (dev +:+ "/" +:+ action)) = ["v1"; "devices"; dev; action].
Proof.
  intros Hd Ha Ht Hne. unfold path_parts, Trim.
  change (trim_left_by (Ascii.eqb slash) (device_path ?x)) with (devices_prefix +:+ x).
  rewrite <-!app_assoc_s. rewrite trim_right_by_app by (by rewrite Ht). rewrite Ht, !app_assoc_s.
  rewrite Split_devices_prefix. change ("/" +:+ action) with (String slash action).
  by rewrite Split_app, (Split_lacks _ action).
Qed.

Lemma device_path_token dev action : lacks slash dev = true →
  token_device (device_path (dev +:+ "/" +:+ action)) = dev.
Proof.
  intros Hd. rewrite token_device_path. change ("/" +:+ action) with (String slash action).
  by apply before_byte_app.
Qed.

Lemma TrimSuffix_app c s t : t ≠ "" → TrimSuffix c (s +:+ t) = s +:+ TrimSuffix c t.
Proof.
  intros Ht. induction s as [|a s IH]; [done|]. rewrite !app_cons. cbn [TrimSuffix].
  destruct (s +:+ t) as [|b u] eqn:E; [destruct s; [done|by rewrite app_cons in E]|by rewrite IH].
Qed.

(** The mux hands such a request to the handler of devices. *)
Lemma device_path_routed dev action r :
  plain_part dev = true → plain_part action = true → TrimSuffix slash action = action → action ≠ "" →
  rq_Path r = device_path (dev +:+ "/" +:+ action) →
  mux_route r = Handler (Some RouteDevices).
Proof.
  intros Hd Ha Ht Hne Hp.
  assert (device_path (dev +:+ "/" +:+ action) = abs_path ["v1"; "devices"; dev; action]) as E by reflexivity.
  assert (cleanPath (rq_Path r) = rq_Path r) as Hc.
  { rewrite Hp. unfold cleanPath. cbv zeta.
    change (String.eqb (device_path _) "") with false. cbv iota.
    change (HasPrefix (device_path ?x) "/") with true. cbv iota.
    assert (TrimSuffix slash (device_path (dev +:+ "/" +:+ action)) = device_path (dev +:+ "/" +:+ action)) as ->.
    { unfold device_path. rewrite <-!app_assoc_s. by rewrite TrimSuffix_app, Ht. }
    rewrite String.eqb_refl. cbn [negb andb]. rewrite E. apply Clean_abs_path. repeat constructor; done. }
  assert (mux_match (rq_Path r) = Some RouteDevices) as Hm.
  { rewrite Hp. unfold mux_match.
    change (device_path ?x) with ("/v1/devices/" +:+ x). rewrite HasPrefix_app. reflexivity. }
  unfold mux_route. cbv zeta. rewrite Hc, Hm, String.eqb_refl. by case_match.
Qed.

Section served.
Context {S : Type} `{GatewayClient S} `{SortSlice}.
Context (dev url token secret statePath cwd version : string) (state : gmap string managedItem).
Context (gwToken gwSecret : string) (interval multiplier : Z).

#[local] Abbreviation acfg := (new_agent dev url token secret statePath cwd version state).1.
#[local] Abbreviation gcfg := (New gwToken gwSecret interval multiplier).1.

Lemma agent_authorized method action inm report : dev ≠ "" → lacks slash dev = true →
  same_credentials token secret gwToken gwSecret →
  authorize gcfg (deliver (ac_gatewayURL acfg)
    (mkHttpRequest method (device_url acfg action) (agentDeviceToken acfg) inm report)) = true.
Proof.
  intros Hne Hd Hc. unfold authorize, deliver. cbn [rq_DeviceToken rq_Path hr_DeviceToken hr_URL].
  rewrite (device_url_path acfg dev action eq_refl), device_path_token by done.
  cbn [New fst authSecret authToken]. unfold agentDeviceToken. cbn [new_agent fst ac_deviceTokenSecret ac_deviceToken ac_deviceName].
  destruct Hc as [[Hs Hg]|(Hs & Hv & Ht)].
  - apply String.eqb_neq in Hs as E. rewrite Hg, E. cbn [negb]. apply String.eqb_neq in Hne as ->. cbn [negb andb].
    unfold computeDeviceToken. by rewrite TrimSpace_hex, String.eqb_refl.
  - rewrite Hs. cbn [String.eqb negb]. rewrite Ht. rewrite !(TrimSpace_visible _ Hv).
    destruct (_ && _); [done|]. rewrite String.eqb_refl. by destruct (String.eqb token "").
Qed.

(** A poll is handled for this device. *)
Lemma poll_served a :
  plain_part dev = true → all_bytes unreserved dev = true → same_credentials token secret gwToken gwSecret →
  let poll := deliver (ac_gatewayURL acfg) (poll_request acfg a) in
  serve (S:=S) gcfg poll = (rs <- handleDesired gcfg poll dev ;; ret (SResponse rs)).
Proof.
  intros Hplain Hu Hc poll. pose proof (unreserved_lacks _ Hu) as Hd.
  assert (dev ≠ "") as Hne by (intros ->; discriminate Hplain).
  assert (mux_route poll = Handler (Some RouteDevices)) as Hr.
  { eapply (device_path_routed dev "desired"); try done. by apply (device_url_path acfg). }
  unfold serve. rewrite Hr. clear Hr. f_equal.
  unfold poll, handleDevice. unfold poll_request at 1. cbn [deliver rq_Path hr_URL].
  rewrite (device_url_path acfg dev "desired" eq_refl), device_path_parts by done.
  unfold poll_request at 1. by rewrite agent_authorized.
Qed.

(** A report is processed for this device as it was sent. *)
Lemma report_served now obs :
  plain_part dev = true → all_bytes unreserved dev = true → same_credentials token secret gwToken gwSecret →
  printable_time now → encodable (report_body acfg now obs) = true →
  Z.of_nat (String.length (marshal (report_body acfg now obs))) ≤ maxReportBodyBytes →
  serve (S:=S) gcfg (deliver (ac_gatewayURL acfg) (report_request acfg now obs)) =
    (rs <- process_report gcfg dev obs (now / Second * Second) ;; ret (SResponse rs)).
Proof.
  intros Hplain Hu Hc Hnow He Hlen. set (report := deliver _ _). pose proof (unreserved_lacks _ Hu) as Hd.
  assert (dev ≠ "") as Hne by (intros ->; discriminate Hplain).
  assert (mux_route report = Handler (Some RouteDevices)) as Hr.
  { eapply (device_path_routed dev "report"); try done. by apply (device_url_path acfg). }
  unfold serve. rewrite Hr. clear Hr. f_equal.
  unfold report, handleDevice. unfold report_request at 1. cbn [deliver rq_Path hr_URL].
  rewrite (device_url_path acfg dev "report" eq_refl), device_path_parts by done.
  unfold report_request at 1. rewrite agent_authorized by done. cbn [negb].
  change (String.eqb "report" "desired") with false. change (String.eqb "report" "report") with true.
  cbv iota. change (String.eqb (rq_Method _) "POST") with true. cbv iota.
  unfold handleReport. cbn [report_request deliver rq_Report hr_Report mbind option_bind].
  rewrite report_arrives by done. cbn [report_body rr_Timestamp rr_Observations].
  pose proof (parse_format now Hnow) as Hpf. pose proof (parse_visible _ _ Hpf) as Hv.
  destruct (String.eqb_spec (format_rfc3339 now) "") as [E|_]; [by rewrite E in Hv|]. by rewrite Hpf.
Qed.

(** C13: the gateway serves its agents.  For an agent and a gateway started with
    the same credentials, and a device name that needs no escaping and is no dot
    path, the server answers a poll with [handleDesired] for this device, and a
    report, sent while the clock is in the years that timestamps can print, is
    processed for this device with exactly the agent's observations and the time
    of sending, cut to seconds: no request is redirected, unauthorized, unknown or
    malformed.  The report is valid UTF-8 with numbers of their width, and its
    JSON is within the limit of 4 MiB. *)
Theorem agent_requests_served a now obs :
  plain_part dev = true → all_bytes unreserved dev = true → same_credentials token secret gwToken gwSecret →
  printable_time now → encodable (report_body acfg now obs) = true →
  Z.of_nat (String.length (marshal (report_body acfg now obs))) ≤ maxReportBodyBytes →
  let poll := deliver (ac_gatewayURL acfg) (poll_request acfg a) in
  let report := deliver (ac_gatewayURL acfg) (report_request acfg now obs) in
  serve (S:=S) gcfg poll = (rs <- handleDesired gcfg poll dev ;; ret (SResponse rs)) ∧
  serve (S:=S) gcfg report = (rs <- process_report gcfg dev obs (now / Second * Second) ;; ret (SResponse rs)).
Proof. intros. by split; [apply poll_served|apply report_served]. Qed.
End served.

Lemma agent_requests_served_witness :
  let cfg := (new_agent "tor1-01" "http://gw:8080/" "" "s3cret " "/state" "/" "v1" ∅).1 in
  let gw := (New "" "s3cret" (15 * Second) 3).1 in
  let poll := deliver (ac_gatewayURL cfg) (poll_request cfg (mkAgent "" ∅ None ∅ 0)) in
  let report := deliver (ac_gatewayURL cfg) (report_request cfg (5 * Second + 7) []) in
  rq_Path poll = "/v1/devices/tor1-01/desired" ∧
  @serve Store store_client insertion_sort_slice gw poll =
    (rs <- @handleDesired Store store_client insertion_sort_slice gw poll "tor1-01" ;; ret (SResponse rs)) ∧
  @serve Store store_client insertion_sort_slice gw report =
    (rs <- process_report gw "tor1-01" [] (5 * Second) ;; ret (SResponse rs)).
Proof.
  intros cfg gw poll report. split; [vm_compute; reflexivity|].
  apply (@agent_requests_served Store store_client insertion_sort_slice "tor1-01" "http://gw:8080/" "" "s3cret "
    "/state" "/" "v1" ∅ "" "s3cret" (15 * Second) 3 (mkAgent "" ∅ None ∅ 0) (5 * Second + 7) []).
  - vm_compute. reflexivity.
  - vm_compute. reflexivity.
  - left. split; [discriminate|vm_compute; reflexivity].
  - split; vm_compute; [discriminate|reflexivity].
  - vm_compute. reflexivity.
  - vm_compute. discriminate.
Defined.

(** ** Polls *)

#[local] Abbreviation content_key := GatewayDesired.item_key.

(** What the agent holds belongs together: the ETag is the one of the desired
    state. *)
Definition in_sync (a : Agent) : Prop :=
  match lastDesired a with
  | Some d => lastETag a = hashDesired (de_Items d) ∧ Forall item_ok (de_Items d)
  | None => lastETag a = ""
  end.

(** The processes of a device, as the gateway lists them; names of Kubernetes
    objects have no slashes. *)
Definition processes_of (dev : string) (l : list DeviceProcess) : list DeviceProcess :=
  filter (λ p, dp_DeviceName p = dev) l.
Definition names_ok (l : list DeviceProcess) : Prop :=
  Forall (λ p, lacks slash (dp_Namespace p) = true ∧ lacks slash (dp_Name p) = true) l.

Lemma hashDesired_visible items : TrimSpace (hashDesired items) = hashDesired items ∧ hashDesired items ≠ "".
Proof.
  split; [|done]. apply TrimSpace_visible. unfold hashDesired. rewrite !all_bytes_app.
  assert (all_bytes visible (hex (sha256 (desired_text items))) = true) as ->; [|done].
  eapply all_bytes_impl; [|apply hex_alphabet]. intros c Hc. unfold is_hex in Hc. unfold visible, in_range.
  rewrite ?orb_true_iff, ?andb_true_iff, ?Z.leb_le in *. lia.
Qed.

Section polls.
Context {GS : Type} `{GatewayClient GS} `{SortSlice}.

Lemma desired_items_ok l : names_ok l → Forall item_ok (desired_items l).
Proof.
  intros Hl. rewrite desired_items_perm. apply Forall_fmap. eapply Forall_impl; [exact Hl|].
  intros p [Hns Hn]. split; [exact Hns|]. split; [exact Hn|]. by exists (dp_Spec p).
Qed.

(** The answer to a poll: the desired state with its ETag, or 304 when the
    client has it. *)
Lemma handleDesired_answer gcfg req dev l (gw : World Gateway GS GatewayCall) :
  list_by_device dev (env gw) = Ok l →
  let resp := (handleDesired gcfg req dev gw).1 in
  let items := desired_items (processes_of dev l) in
  rs_ETag resp = Some (hashDesired items) ∧
  (rs_Status resp = StatusNotModified ∧ TrimSpace (rq_IfNoneMatch req) = hashDesired items ∨
   rs_Status resp = StatusOK ∧ ∃ d, rs_Body resp = DesiredBody d ∧ de_Items d = items).
Proof.
  intros Hl. cbv zeta. unfold handleDesired, computeDesired, listDeviceProcesses.
  autorewrite with run. rewrite Hl. fold (processes_of dev l). autorewrite with run.
  unfold recordDesiredHeartbeatIfEligible. autorewrite with run. cbn [self].
  rewrite run_step. cbn [fst].
  destruct (negb _ && String.eqb (TrimSpace (rq_IfNoneMatch req)) _) eqn:E; cbn.
  - bool_prop. match goal with H : String.eqb _ _ = true |- _ => apply String.eqb_eq in H end.
    split; [done|]. by left.
  - split; [done|]. right. split; [done|]. by eexists.
Qed.

Context {S : Type} `{Host S}.

(** A poll, and the outside after it. *)
Lemma poll_brings acfg gcfg base dev l resp s' (w : World Agent S AgentCall)
    (gw : World Gateway GS GatewayCall) :
  let items := desired_items (processes_of dev l) in
  http_do (poll_request acfg (self w)) (env w) = (Ok resp, s') →
  let answer := (handleDesired gcfg (deliver base (poll_request acfg (self w))) dev gw).1 in
  resp = receive_answer answer → (∀ d, rs_Body answer = DesiredBody d → encodable d = true) →
  list_by_device dev (env gw) = Ok l → names_ok (processes_of dev l) → in_sync (self w) →
  (∀ d, lastDesired (self w) = Some d → sha256_separates (desired_text (de_Items d)) (desired_text items)) →
  env (fetchDesired acfg w).2 = s' ∧ self (fetchDesired acfg w).2 = self w ∧
  ∃ fetched etag d, (fetchDesired acfg w).1 = Ok (fetched, etag) ∧
    (remember fetched etag (self w)).1 = Some d ∧ content_key <$> de_Items d = content_key <$> items ∧
    in_sync (remember fetched etag (self w)).2 ∧
    lastDesired (remember fetched etag (self w)).2 = Some d ∧
    (de_Items d = items ∨ lastDesired (self w) = Some d).
Proof.
  intros items Hhttp answer -> Henc Hl Hnames Hsync Hsep.
  destruct (handleDesired_answer gcfg (deliver base (poll_request acfg (self w))) dev l gw Hl) as [Het Hans].
  fold answer items in Het, Hans. destruct (hashDesired_visible items) as [Htrim Hne].
  unfold fetchDesired. rewrite run_get_self. unfold do_request.
  change (mkHttpRequest _ _ _ _ _) with (poll_request acfg (self w)).
  rewrite run_call, Hhttp. cbn [fst snd].
  change (rs_ETag (receive_answer answer)) with (rs_ETag answer).
  change (rs_Status (receive_answer answer)) with (rs_Status answer). rewrite Het. cbn [default from_option id]. cbv zeta.
  unfold default. cbn [from_option id]. rewrite Htrim. apply String.eqb_neq in Hne as E. rewrite E.
  assert (∀ d a, de_Items d = items ∨ lastDesired (self w) = Some d ∧ hashDesired items = hashDesired (de_Items d) →
    lastDesired a = Some d → lastETag a = hashDesired items →
    content_key <$> de_Items d = content_key <$> items ∧ in_sync a ∧ lastDesired a = Some d ∧
    (de_Items d = items ∨ lastDesired (self w) = Some d)) as Hdone.
  { intros d a Hd Ha Hea. unfold in_sync. rewrite Ha, Hea. destruct Hd as [Hd|[Hd Hh]].
    - rewrite Hd. split; [done|]. split; [split; [done|by apply desired_items_ok]|]. split; [done|by left].
    - unfold in_sync in Hsync. rewrite Hd in Hsync. destruct Hsync as [_ Hok]. split; [|split; [by split|by split; [|right]]].
      apply desired_text_inj; [done|by apply desired_items_ok|]. apply (Hsep d Hd). by apply hashDesired_sha256. }
  destruct Hans as [[-> Hinm]|(-> & d & Hbody & Hd)].
  - change (StatusNotModified =? StatusOK) with false. change (StatusNotModified =? StatusNotModified) with true.
    cbv iota. cbn [deliver poll_request rq_IfNoneMatch hr_IfNoneMatch] in Hinm.
    split; [done|]. split; [done|].
    destruct (lastDesired (self w)) as [d|] eqn:Ed.
    + exists None, (hashDesired items), d. split; [done|]. unfold remember. rewrite E.
      unfold in_sync in Hsync. rewrite Ed in Hsync. destruct Hsync as [Hetag Hok].
      rewrite Hetag in Hinm. destruct (hashDesired_visible (de_Items d)) as [Ht _]. rewrite Ht in Hinm.
      cbn [set_ETag lastDesired]. rewrite Ed. split; [done|]. cbn [fst snd].
      apply Hdone; [by right|by destruct (0 <? _)|by destruct (0 <? _)].
    + unfold in_sync in Hsync. rewrite Ed in Hsync. rewrite Hsync in Hinm. cbn in Hinm. congruence.
  - change (StatusOK =? StatusOK) with true. cbv iota. unfold receive_answer. rewrite Hbody.
    rewrite (desired_arrives d) by (by apply Henc). cbn [rs_Body from_option].
    split; [done|]. split; [done|].
    exists (Some d), (hashDesired items), d. split; [done|]. unfold remember. rewrite E.
    cbn [set_desired set_ETag lastDesired]. split; [done|]. cbn [fst snd].
    apply Hdone; [by left|by destruct (0 <? _)|by destruct (0 <? _)].
Qed.

(** C14: after a poll the agent holds the gateway's desired state.  When the
    gateway answers the poll of an agent that is in sync, the state the agent goes
    on to reconcile (the new one, or the remembered one after 304) has the items
    that the gateway's list of processes has at that moment, by namespace, name,
    generation and spec hash, and the agent is in sync again; this needs that
    the answer is valid UTF-8 with numbers of their width, and that SHA-256 does
    not collide on the two texts. *)
Theorem poll_is_current acfg gcfg base dev l resp s' (w : World Agent S AgentCall)
    (gw : World Gateway GS GatewayCall) :
  let items := desired_items (processes_of dev l) in
  http_do (poll_request acfg (self w)) (env w) = (Ok resp, s') →
  let answer := (handleDesired gcfg (deliver base (poll_request acfg (self w))) dev gw).1 in
  resp = receive_answer answer → (∀ d, rs_Body answer = DesiredBody d → encodable d = true) →
  list_by_device dev (env gw) = Ok l → names_ok (processes_of dev l) → in_sync (self w) →
  (∀ d, lastDesired (self w) = Some d → sha256_separates (desired_text (de_Items d)) (desired_text items)) →
  ∃ fetched etag d, (fetchDesired acfg w).1 = Ok (fetched, etag) ∧
    (remember fetched etag (self w)).1 = Some d ∧ content_key <$> de_Items d = content_key <$> items ∧
    in_sync (remember fetched etag (self w)).2.
Proof.
  intros items Hhttp answer. intros.
  destruct (poll_brings acfg gcfg base dev l resp s' w gw) as (_ & _ & fetched & etag & d & ? & ? & ? & ? & _); [done..|].
  by exists fetched, etag, d.
Qed.
End polls.

(** The first poll of an agent, answered by a gateway over a store. *)
Lemma poll_is_current_witness :
  let acfg := (new_agent "tor1" "http://gw" "" "s" "/state" "/" "v1" ∅).1 in
  let gcfg := (New "" "s" (15 * Second) 3).1 in
  let gw := mkWorld (New "" "s" (15 * Second) 3).2 (sample_store 0) (λ _, 7) 0 [] in
  let answer r := receive_answer (@handleDesired Store store_client insertion_sort_slice gcfg (deliver "http://gw" r) "tor1" gw).1 in
  let m := mkMachine ∅ ∅ [] false (λ _, (mkOciResult "" "" false false 0 "" "" "" "" "" "", None))
             (λ r, Ok (answer r)) 0 in
  let w := mkWorld (mkAgent "" ∅ None ∅ 0) m (λ _, 0) 0 [] in
  ∃ fetched etag d, (fetchDesired acfg w).1 = Ok (fetched, etag) ∧
    (remember fetched etag (self w)).1 = Some d ∧
    content_key <$> de_Items d =
      content_key <$> @desired_items insertion_sort_slice
        (processes_of "tor1" [sample_process "infra" "a" "tor1"; sample_process "infra" "b" "tor1"]) ∧
    in_sync (remember fetched etag (self w)).2.
Proof.
  intros acfg gcfg gw answer m w.
  apply (@poll_is_current Store store_client insertion_sort_slice Machine machine_host acfg gcfg "http://gw" "tor1"
    [sample_process "infra" "a" "tor1"; sample_process "infra" "b" "tor1"]
    (answer (poll_request acfg (self w))) m w gw).
  - reflexivity.
  - reflexivity.
  - set (b := rs_Body _).
    assert (match b with DesiredBody d => encodable d | _ => true end = true) as Hb by (vm_compute; reflexivity).
    intros d E. by rewrite E in Hb.
  - vm_compute. reflexivity.
  - vm_compute. repeat constructor.
  - reflexivity.
  - intros d Hd. discriminate Hd.
Defined.
