(* ===== verification/AgentThreads.v ===== *)
(** * The agent's programs as threads

    What the agent does between two looks at its tickers is a sequence of atomic
    steps: calls of the machine and of the gateway, readings of the clock and
    updates of its own state, which only the main loop touches. *)

From S2P Require Import Prelude Threads GoStrings GoTime Api GatewayStatus GatewayServer.
From S2P Require Import AgentRender AgentPaths AgentHost AgentSystemd Agent.

#[local] Open Scope go_scope.

Section systemd.
Context {G S : Type} `{Host S} `{Unicode} `{LocalZone}.

#[export] Instance threaded_replace_file pat path c perm :
  Threaded (replace_file (G:=G) (S:=S) pat path c perm).
Proof.
  unfold replace_file, or_close, op_mkdir, op_create, op_chmod, op_write, op_close, op_rename, op_remove,
    deferred, bind_ok.
  apply _.
Defined.

#[export] Instance threaded_writeIfChanged path c perm :
  Threaded (writeIfChanged (G:=G) (S:=S) path c perm).
Proof. unfold writeIfChanged, op_mkdir, bind_ok. apply _. Defined.

#[export] Instance threaded_EnsureUnitWithDetails u c p e :
  Threaded (EnsureUnitWithDetails (G:=G) (S:=S) u c p e).
Proof. unfold EnsureUnitWithDetails, op_mkdir. apply _. Defined.

#[export] Instance threaded_RemoveUnitWithDetails u e :
  Threaded (RemoveUnitWithDetails (G:=G) (S:=S) u e).
Proof. unfold RemoveUnitWithDetails, removeIfExists, op_remove. apply _. Defined.

#[export] Instance threaded_checked what args : Threaded (checked (G:=G) (S:=S) what args).
Proof. unfold checked, runSystemctl. apply _. Defined.

#[export] Instance threaded_Show u : Threaded (Show (G:=G) (S:=S) u).
Proof. unfold Show, runSystemctl. apply _. Defined.

#[export] Instance threaded_stopAndDisableQuiet u : Threaded (stopAndDisableQuiet (G:=G) (S:=S) u).
Proof. unfold stopAndDisableQuiet, StopAndDisable. apply _. Defined.
End systemd.

Section agent.
Context {S : Type} `{Host S} `{Unicode} `{LocalZone} `{SortSlice} `{MapRange} (cfg : AgentConfig).

#[export] Instance threaded_fetch_artifact item o : Threaded (fetch_artifact (S:=S) cfg item o).
Proof. unfold fetch_artifact. apply _. Defined.

#[export] Instance threaded_markAction mi h d : Threaded (markAction (S:=S) mi h d).
Proof. unfold markAction. apply _. Defined.

#[export] Instance threaded_shouldAttemptAction mi h i : Threaded (shouldAttemptAction (S:=S) mi h i).
Proof. unfold shouldAttemptAction. apply _. Defined.

#[export] Instance threaded_correct_drift u h st o cur : Threaded (correct_drift (S:=S) u h st o cur).
Proof. unfold correct_drift, Restart, EnableAndStart. cbv zeta. apply _. Defined.

#[export] Instance threaded_show_unit u h o cur : Threaded (show_unit (S:=S) u h o cur).
Proof. unfold show_unit. apply _. Defined.

#[export] Instance threaded_start_unit_of u h p c cur : Threaded (start_unit_of (S:=S) u h p c cur).
Proof. unfold start_unit_of, EnableAndStart, Restart. apply _. Defined.

#[export] Instance threaded_remove_invalid p : Threaded (remove_invalid (S:=S) p).
Proof. unfold remove_invalid, DaemonReload. apply _. Defined.

#[export] Instance threaded_apply_unit p item o cur : Threaded (apply_unit (S:=S) p item o cur).
Proof. unfold apply_unit, stop_with, DaemonReload. cbv zeta. apply _. Defined.

#[export] Instance threaded_reconcile_item prev item : Threaded (reconcile_item (S:=S) cfg prev item).
Proof. unfold reconcile_item, stop_with. cbv zeta. apply _. Defined.

#[export] Instance threaded_reconcile_items old items acc :
  Threaded (reconcile_items (S:=S) cfg old items acc).
Proof. revert acc. induction items as [|item items IH]; intros acc; cbn [reconcile_items]; apply _. Defined.

#[export] Instance threaded_remove_item now kv : Threaded (remove_item (S:=S) now kv).
Proof. unfold remove_item, DaemonReload. cbv zeta. apply _. Defined.

#[export] Instance threaded_reconcile desired : Threaded (reconcile (S:=S) cfg desired).
Proof. unfold reconcile, persistState, writeFileAtomic. apply _. Defined.

#[export] Instance threaded_fetchDesired : Threaded (fetchDesired (S:=S) cfg).
Proof. unfold fetchDesired, do_request. cbv zeta. apply _. Defined.

#[export] Instance threaded_sendReport obs : Threaded (sendReport (S:=S) cfg obs).
Proof. unfold sendReport, do_request. apply _. Defined.

#[export] Instance threaded_pollDesired : Threaded (pollDesired (S:=S) cfg).
Proof. unfold pollDesired. apply _. Defined.
End agent.
