(* ===== verification/Site.v ===== *)
(** * A device at a site

    A machine together with the gateway its agent talks to: the class [Host] of
    the agent is implemented by the machine, and its HTTP client by the handlers
    of the gateway, over a network that may lose a request or a response.  The
    laws of the machine are the laws of the site. *)

From S2P Require Import Prelude GoStrings GoTime Api Kube GatewayState GatewayStatus GatewayServer GatewayMain.
From S2P Require Import AgentHost AgentGateway.

(** What becomes of a request. *)
Inductive Fate := Delivered | RequestLost (err : string) | ResponseLost (err : string).

Record Site (MS GS : Type) := mkSite {
  site_machine : MS;
  site_gateway : World Gateway GS GatewayCall;
  site_network : nat → Fate;
  site_sent : nat
}.
Arguments mkSite {MS GS} _ _ _ _.
Arguments site_machine {MS GS} _.
Arguments site_gateway {MS GS} _.
Arguments site_network {MS GS} _ _.
Arguments site_sent {MS GS} _.

(** A call on the machine. *)
Definition on_machine {MS GS A} (f : MS → A * MS) (s : Site MS GS) : A * Site MS GS :=
  ((f (site_machine s)).1,
   mkSite (f (site_machine s)).2 (site_gateway s) (site_network s) (site_sent s)).

Lemma on_machine_inv {MS GS A} (f : MS → A * MS) (s : Site MS GS) r s' :
  on_machine f s = (r, s') → f (site_machine s) = (r, site_machine s').
Proof. unfold on_machine. intros [= <- <-]. cbn. apply surjective_pairing. Qed.

Section site.
Context {MS GS : Type} `{Host MS} `{GatewayClient GS} `{SortSlice}.
(** The configuration of the gateway, and the URL it is reached by. *)
Context (gcfg : Config) (base : string).

(** A request and its response.  A redirect is not followed. *)
Definition exchange (r : HttpRequest) (gw : World Gateway GS GatewayCall)
    : result string Response * World Gateway GS GatewayCall :=
  match serve gcfg (deliver base r) gw with
  | (SResponse rs, gw') => (Ok (receive_answer rs), gw')
  | (SRedirect _, gw') => (Err "redirect", gw')
  end.

Definition site_http (r : HttpRequest) (s : Site MS GS) : result string Response * Site MS GS :=
  let sent gw := mkSite (site_machine s) gw (site_network s) (Datatypes.S (site_sent s)) in
  match site_network s (site_sent s) with
  | RequestLost e => (Err e, sent (site_gateway s))
  | ResponseLost e => (Err e, sent (exchange r (site_gateway s)).2)
  | Delivered => ((exchange r (site_gateway s)).1, sent (exchange r (site_gateway s)).2)
  end.

Definition site_host : Host (Site MS GS) := {|
  read_file p s := read_file p (site_machine s);
  mkdir_all d := on_machine (mkdir_all d);
  create_temp d pat := on_machine (create_temp d pat);
  chmod_file n m := on_machine (chmod_file n m);
  write_file n c := on_machine (write_file n c);
  close_file n := on_machine (close_file n);
  rename_file a b := on_machine (rename_file a b);
  remove_file a := on_machine (remove_file a);
  systemctl args := on_machine (systemctl args);
  ensure_artifact ref := on_machine (ensure_artifact ref);
  http_do := site_http
|}.

Lemma site_http_machine r s : site_machine (site_http r s).2 = site_machine s.
Proof. unfold site_http. by case_match. Qed.

(** A response comes from the gateway. *)
Lemma site_http_ok r s resp s' :
  site_http r s = (Ok resp, s') →
  exchange r (site_gateway s) = (Ok resp, site_gateway s') ∧ site_machine s' = site_machine s.
Proof.
  unfold site_http. case_match; [|done..]. intros [= E <-]. cbn. split; [|done].
  rewrite <-E. apply surjective_pairing.
Qed.
End site.

Program Definition site_laws {MS GS} `{HostLaws MS} `{GatewayClient GS} `{SortSlice} gcfg base :
    @HostLaws (Site MS GS) (site_host gcfg base) :=
  {| content s := content (site_machine s) |}.
Next Obligation. intros. by apply read_file_ok. Qed.
Next Obligation. intros. by eapply read_file_missing. Qed.
Next Obligation. intros. apply mkdir_all_frame. Qed.
Next Obligation.
  simpl. intros MS GS ? ? ? ? ? ? d pat s n s' E%on_machine_inv. by apply create_temp_ok in E.
Qed.
Next Obligation.
  simpl. intros MS GS ? ? ? ? ? ? d pat s e s' E%on_machine_inv. by apply (create_temp_err _ _ _ _ _ E).
Qed.
Next Obligation. intros. apply chmod_file_frame. Qed.
Next Obligation.
  simpl. intros MS GS ? ? ? ? ? ? n c s s' E%on_machine_inv. by apply write_file_ok in E.
Qed.
Next Obligation. intros. by apply write_file_frame. Qed.
Next Obligation. intros. apply close_file_frame. Qed.
Next Obligation.
  simpl. intros MS GS ? ? ? ? ? ? a b s s' E%on_machine_inv. by apply rename_file_ok in E.
Qed.
Next Obligation.
  simpl. intros MS GS ? ? ? ? ? ? a b s e s' E%on_machine_inv. by apply (rename_file_err _ _ _ _ _ E).
Qed.
Next Obligation.
  simpl. intros MS GS ? ? ? ? ? ? a s s' E%on_machine_inv. by apply remove_file_ok in E.
Qed.
Next Obligation.
  simpl. intros MS GS ? ? ? ? ? ? a s e s' E%on_machine_inv. by apply (remove_file_missing _ _ _ _ E).
Qed.
Next Obligation.
  simpl. intros MS GS ? ? ? ? ? ? a s e s' p E%on_machine_inv. by apply (remove_file_err _ _ _ _ p E).
Qed.
Next Obligation. intros. by apply remove_file_frame. Qed.
Next Obligation. intros. by apply systemctl_frame. Qed.
Next Obligation. intros. by apply ensure_frame. Qed.
Next Obligation. intros. simpl. by rewrite site_http_machine. Qed.
