(* ===== verification/AgentTurn.v ===== *)
(** * A turn of an agent

    The agent of a device polls the gateway, reconciles its machine and reports
    what it sees; the gateway writes that into the processes the controller made
    and counts.  Here the three programs run together: the agent on a [Site],
    whose gateway stands over the API server of the controller.  After a turn
    that succeeded, what the API server was told of every process of the device
    is what the machine does. *)

From S2P Require Import Prelude Threads GoStrings GoTime GoTimeFacts GoCrypto GoPath GoJsonCodec.
From S2P Require Import Api Conditions SpecHash SpecCodec Kube KubeServer Samples Wire.
From S2P Require Import GatewayState GatewayStatus GatewayServer GatewayDesired GatewayEffects GatewayReport.
From S2P Require Import GatewayMain.
From S2P Require Import ControllerApi ControllerBuild Controller ControllerProps EndToEnd.
From S2P Require Import AgentHost AgentRender AgentPaths AgentSystemd AgentUnits Agent AgentProps.
From S2P Require Import AgentReconcile AgentThreads AgentGateway Site.

#[local] Open Scope go_scope.

(** ** What the controller reads in a status *)

Lemma ready_equal st1 st2 q :
  reflectDeepEqualStatus st1 st2 = true →
  isProcessReady (set_dp_Status st1 q) = isProcessReady (set_dp_Status st2 q).
Proof.
  unfold reflectDeepEqualStatus. intros Heq. bool_prop.
  match goal with H : conditionsEqual _ _ = true |- _ => apply conditionsEqual_spec in H as Hc end.
  match goal with H : String.eqb (st_Phase _) _ = true |- _ => apply String.eqb_eq in H as Hp end.
  unfold isProcessReady. cbn [dp_Status set_dp_Status]. rewrite Hp.
  destruct (negb _); [done|].
  pose proof (FindCondition_same _ _ ConditionAgentConnected Hc) as Ha.
  pose proof (FindCondition_same _ _ ConditionHealthy Hc) as Hb.
  repeat (destruct (FindCondition _ _); try done).
  apply same_condition_spec in Ha as (_ & -> & _), Hb as (_ & -> & _). done.
Qed.

Lemma observed_hash o t now start st :
  ob_ObservedSpecHash o ≠ "" → st_ObservedSpecHash (observed_status o t now start st) = ob_ObservedSpecHash o.
Proof.
  intros Hne. cbn [observed_status st_ObservedSpecHash]. unfold spec_changed.
  apply String.eqb_neq in Hne as ->. cbn [negb andb].
  by destruct (String.eqb_spec (st_ObservedSpecHash st) (ob_ObservedSpecHash o)).
Qed.

Lemma observed_ready o t now start st q item b :
  truthful item o → ob_ProcessStarted o = Some b →
  isProcessReady (set_dp_Status (observed_status o t now start st) q) = b.
Proof.
  intros (_ & b' & Hs & Hh & Hrest) Hb. assert (b' = b) as -> by congruence. destruct b.
  - destruct Hrest as [_ He].
    apply (running_status_ready now o t start (set_dp_Status st q)); [done..|]. by rewrite He.
  - unfold isProcessReady. cbn [dp_Status set_dp_Status observed_status st_Phase]. unfold observed_phase.
    rewrite Hs, Hh. by destruct (negb (String.eqb (trimmed (ob_ErrorMessage o)) "")).
Qed.

(** A status that tells what an agent saw is ready exactly if the process
    runs, and has the hash of the item. *)
Lemma up_to_date_reads o item q b :
  truthful item o → di_SpecHash item ≠ "" → ob_ProcessStarted o = Some b → up_to_date o (dp_Status q) →
  isProcessReady q = b ∧ st_ObservedSpecHash (dp_Status q) = di_SpecHash item.
Proof.
  intros Ht Hne Hb (t & now & start & st0 & _ & Hst).
  assert (q = set_dp_Status (dp_Status q) q) as Eq by (by destruct q).
  pose proof Ht as [(_ & _ & Hh) _]. rewrite <-Hh in *. destruct Hst as [Hst|Hst].
  - rewrite Hst, observed_hash by done. split; [|done]. rewrite Eq, Hst. by eapply observed_ready.
  - split.
    + rewrite Eq, (ready_equal _ _ _ Hst). by eapply observed_ready.
    + unfold reflectDeepEqualStatus in Hst. bool_prop.
      match goal with H : String.eqb (st_ObservedSpecHash _) _ = true |- _ => apply String.eqb_eq in H as -> end.
      by apply observed_hash.
Qed.

(** ** The steps of a turn *)

Lemma desired_keeps_env {GS} `{GatewayClient GS} `{SortSlice} cfg r device :
  env_rel (S:=GS) eq (handleDesired cfg r device).
Proof.
  unfold handleDesired, computeDesired, listDeviceProcesses, recordDesiredHeartbeatIfEligible, record_heartbeat.
  effects.
Qed.

(** The reports of a turn are valid UTF-8, with numbers of their width, and
    within the limit of the gateway. *)
Definition reports_fit (l : list AgentCall) : Prop :=
  ∀ r body, CallHttp r ∈ l → hr_Report r = Some body →
    encodable body = true ∧ Z.of_nat (String.length (marshal body)) ≤ maxReportBodyBytes.

Section steps.
Context {S : Type} `{Host S} `{Unicode} `{LocalZone} `{SortSlice} `{MapRange} (cfg : AgentConfig).
Implicit Types w : World Agent S AgentCall.

(** A report without an error was answered 200. *)
Lemma sendReport_ok obs w :
  (sendReport cfg obs w).1 = None →
  ∃ resp s', http_do (report_request cfg (clock w (tick w)) obs) (env w) = (Ok resp, s') ∧
    rs_Status resp = StatusOK ∧ env (sendReport cfg obs w).2 = s' ∧
    CallHttp (report_request cfg (clock w (tick w)) obs) ∈ trace (sendReport cfg obs w).2.
Proof.
  unfold sendReport. rewrite run_time_now. unfold do_request.
  change (mkHttpRequest _ _ _ _ _) with (report_request cfg (clock w (tick w)) obs).
  rewrite run_call. cbn [env self clock tick trace].
  destruct (http_do _ (env w)) as [[resp|e] s']; cbn [fst snd]; [|done].
  destruct (rs_Status resp =? StatusOK) eqn:E; [|done]. intros _. exists resp, s'.
  apply Z.eqb_eq in E. split_all; [done..|]. cbn. apply elem_of_app. right. constructor.
Qed.

(** The stages of a poll without an error. *)
Lemma pollDesired_ok w :
  (pollDesired cfg w).1 = None →
  ∃ fetched etag, (fetchDesired cfg w).1 = Ok (fetched, etag) ∧
    ∀ d, (remember fetched etag (self (fetchDesired cfg w).2)).1 = Some d →
    ∃ w2, env w2 = env (fetchDesired cfg w).2 ∧ clock w2 = clock w ∧
      managed (self w2) = managed (self (fetchDesired cfg w).2) ∧
      let r := reconcile cfg d w2 in
      match r.1 with
      | [] => (pollDesired cfg w).2 = r.2
      | obs => (sendReport cfg obs r.2).1 = None ∧ (pollDesired cfg w).2 = (sendReport cfg obs r.2).2
      end.
Proof.
  pose proof (threaded_clock (fetchDesired cfg) w) as Hclock. unfold pollDesired. rewrite run_step.
  destruct (fetchDesired cfg w) as [[[fetched etag]|e] w1] eqn:E; cbn [fst snd] in *; [|done].
  rewrite run_locked. cbn [fst snd]. intros Hr. exists fetched, etag. split; [done|]. intros d Hd.
  rewrite Hd in Hr |- *. rewrite run_step in Hr.
  match type of Hr with context [reconcile cfg d ?w2] => exists w2 end. split_all; [done|done| |].
  - cbn [self]. unfold remember. by repeat case_match.
  - cbv zeta. rewrite run_step. destruct (reconcile cfg d _).1; [reflexivity|]. split; [exact Hr|reflexivity].
Qed.
End steps.

(** How the two programs were started. *)
Record Pairing := mkPairing {
  pa_device : string;
  pa_url : string;
  pa_token : string;
  pa_secret : string;
  pa_statePath : string;
  pa_cwd : string;
  pa_version : string;
  pa_gatewayToken : string;
  pa_gatewaySecret : string;
  pa_interval : Z;
  pa_multiplier : Z
}.

Definition pa_new_agent (P : Pairing) : AgentConfig * Agent :=
  new_agent (pa_device P) (pa_url P) (pa_token P) (pa_secret P) (pa_statePath P) (pa_cwd P) (pa_version P) ∅.
Definition pa_new_gateway (P : Pairing) : Config * Gateway :=
  New (pa_gatewayToken P) (pa_gatewaySecret P) (pa_interval P) (pa_multiplier P).

Section turn.
Context {MS GS : Type} `{HostLaws MS} `{ConcurrentClient GS} `{Unicode} `{LocalZone} `{SortSlice} `{MapRange}.
Context (P : Pairing).

#[local] Abbreviation dev := (pa_device P).
#[local] Abbreviation acfg := (pa_new_agent P).1.
#[local] Abbreviation gcfg := (pa_new_gateway P).1.
#[local] Abbreviation base := (ac_gatewayURL acfg).
#[local] Abbreviation credentials :=
  (same_credentials (pa_token P) (pa_secret P) (pa_gatewayToken P) (pa_gatewaySecret P)).

#[local] Instance turn_host : Host (Site MS GS) := site_host gcfg base.
#[local] Instance turn_laws : HostLaws (Site MS GS) := site_laws gcfg base.

Implicit Types w : World Agent (Site MS GS) AgentCall.

(** A reconcile does not talk to the gateway. *)
Lemma reconcile_gateway desired :
  env_rel (λ s s', site_gateway s' = site_gateway s) (reconcile (S:=Site MS GS) acfg desired).
Proof.
  assert (PreOrder (λ s s' : Site MS GS, site_gateway s' = site_gateway s)) as Hpre.
  { split; [done|]. intros x y z Hxy Hyz. congruence. }
  assert (∀ old items acc, env_rel (λ s s', site_gateway s' = site_gateway s)
    (reconcile_items (S:=Site MS GS) acfg old items acc)) as Hitems.
  { intros old items. induction items as [|item items IH]; intros acc; cbn [reconcile_items]; [by effects|].
    apply env_rel_bind; [apply _| |intros r; apply IH].
    unfold reconcile_item, fetch_artifact, stop_with, apply_unit, EnsureUnitWithDetails, remove_invalid,
      start_unit_of, show_unit, correct_drift, shouldAttemptAction, markAction, Show, runSystemctl,
      EnableAndStart, Restart, DaemonReload, op_mkdir, writeIfChanged, replace_file, or_close, op_create,
      op_chmod, op_write, op_close, op_rename, op_remove, RemoveUnitWithDetails, removeIfExists,
      stopAndDisableQuiet, StopAndDisable, checked, runSystemctl.
    cbv zeta. effects. all: intros ?; reflexivity. }
  unfold reconcile, persistState, writeFileAtomic, replace_file, or_close, op_create, op_chmod, op_write,
    op_close, op_rename, op_remove, bind_ok, modify.
  apply env_rel_bind; [apply _|by effects|intros a].
  apply env_rel_bind; [apply _|apply Hitems|intros r].
  apply env_rel_bind; [apply _| |intros u; effects; intros ?; reflexivity].
  apply env_rel_for_each; [apply _|]. intros kv _.
  unfold remove_item, stopAndDisableQuiet, StopAndDisable, DaemonReload, checked, runSystemctl,
    RemoveUnitWithDetails, removeIfExists, op_remove.
  effects. all: intros ?; reflexivity.
Qed.

(** ** The two requests *)

Lemma poll_exchange a gw :
  plain_part dev = true → all_bytes unreserved dev = true → credentials →
  let r := handleDesired gcfg (deliver base (poll_request acfg a)) dev gw in
  exchange gcfg base (poll_request acfg a) gw = (Ok (receive_answer r.1), r.2).
Proof.
  intros Hp Hu Hc. unfold exchange, pa_new_agent, pa_new_gateway. by rewrite poll_served.
Qed.

Lemma report_exchange now obs gw :
  plain_part dev = true → all_bytes unreserved dev = true → credentials →
  printable_time now → encodable (report_body acfg now obs) = true →
  Z.of_nat (String.length (marshal (report_body acfg now obs))) ≤ maxReportBodyBytes →
  let r := process_report gcfg dev obs (now / Second * Second) gw in
  exchange gcfg base (report_request acfg now obs) gw = (Ok (receive_answer r.1), r.2).
Proof.
  unfold exchange, pa_new_agent, pa_new_gateway. intros. by rewrite report_served.
Qed.

(** ** What a turn relies on *)

(** The items an agent remembers have the hashes of their specs. *)
Definition hashes_fit (a : Agent) : Prop :=
  ∀ d item, lastDesired a = Some d → item ∈ de_Items d → di_SpecHash item = hashSpec (di_Spec item).


Record turn_ready w (l : list DeviceProcess) : Prop := {
  tr_device : plain_part dev = true ∧ all_bytes unreserved dev = true;
  tr_credentials : credentials;
  tr_clock : ∀ i, printable_time (clock w i);
  (** The API server, and what the gateway lists. *)
  tr_server : coherent (env (site_gateway (env w)));
  tr_listed : list_by_device dev (env (site_gateway (env w))) = Ok l;
  tr_names : names_ok (processes_of dev l);
  (** What the agent remembers. *)
  tr_sync : in_sync (self w);
  tr_hash : ∀ d, lastDesired (self w) = Some d →
    sha256_separates (desired_text (de_Items d)) (desired_text (desired_items (processes_of dev l)));
  tr_hashed : hashes_fit (self w);
  tr_specs : ∀ d item p, lastDesired (self w) = Some d → item ∈ de_Items d → p ∈ processes_of dev l →
    encodable (di_Spec item) = true ∧ encodable (dp_Spec p) = true ∧
    sha256_separates (marshal_spec (di_Spec item)) (marshal_spec (dp_Spec p));
  (** The messages can be encoded. *)
  tr_answer : ∀ d, rs_Body (handleDesired gcfg (deliver base (poll_request acfg (self w))) dev
                              (site_gateway (env w))).1 = DesiredBody d → encodable d = true;
  tr_reports : reports_fit (trace (pollDesired acfg w).2);
  (** No two units share a file. *)
  tr_units : NoDup (item_name <$> desired_items (processes_of dev l));
  tr_removed : ∀ kv p,
    kv ∈ undesired (mkDesiredResponse dev 0 (desired_items (processes_of dev l))) (managed (self w)) →
    key_paths kv = Some p → UnitName p ∉ (item_name <$> desired_items (processes_of dev l));
  tr_state : separate_state acfg
}.

(** What the status of [q] says of the process [p], and that it is so: it has the
    hash of the spec of [p], and when it is ready the machine has exactly the files
    of that spec. *)
Definition in_line (s : Site MS GS) (p q : DeviceProcess) : Prop :=
  dp_Key q = dp_Key p ∧ st_ObservedSpecHash (dp_Status q) = hashSpec (dp_Spec p) ∧
  (isProcessReady q = true → deployed acfg (desired_item p) s).

(** The keys of items that are the same in content. *)
Lemma same_content_keys (items items' : list DesiredItem) :
  GatewayDesired.item_key <$> items = GatewayDesired.item_key <$> items' →
  (λ i, (di_Namespace i, di_Name i, di_SpecHash i)) <$> items =
  (λ i, (di_Namespace i, di_Name i, di_SpecHash i)) <$> items'.
Proof.
  intros E. apply (f_equal (fmap (λ k : string * string * Z * string, (k.1.1.1, k.1.1.2, k.2)))) in E.
  by rewrite <-!list_fmap_compose in E.
Qed.

Lemma item_of_process (l : list DeviceProcess) items p :
  GatewayDesired.item_key <$> items = GatewayDesired.item_key <$> desired_items l → p ∈ l →
  ∃ item, item ∈ items ∧ di_Namespace item = dp_Namespace p ∧ di_Name item = dp_Name p ∧
    di_SpecHash item = hashSpec (dp_Spec p).
Proof.
  intros E Hp. apply same_content_keys in E.
  assert ((dp_Namespace p, dp_Name p, hashSpec (dp_Spec p)) ∈
    (λ i, (di_Namespace i, di_Name i, di_SpecHash i)) <$> items) as Hin.
  { rewrite E. apply list_elem_of_fmap. exists (desired_item p). split; [done|].
    rewrite desired_items_perm. by apply list_elem_of_fmap_2. }
  apply list_elem_of_fmap in Hin as (item & Ek & Hin). exists item. by simplify_eq.
Qed.

(** What the agent reconciles has the specs of the processes: the items are those
    of the gateway, or it remembered them and they have the same hashes. *)
Lemma reconciled_item w l d p :
  turn_ready w l → p ∈ processes_of dev l →
  GatewayDesired.item_key <$> de_Items d = GatewayDesired.item_key <$> desired_items (processes_of dev l) →
  de_Items d = desired_items (processes_of dev l) ∨ lastDesired (self w) = Some d →
  ∃ i item, de_Items d !! i = Some item ∧ di_Namespace item = dp_Namespace p ∧ di_Name item = dp_Name p ∧
    di_SpecHash item = hashSpec (dp_Spec p) ∧ di_Spec item = dp_Spec p.
Proof.
  intros Hready Hp Hkeys [Hnew|Hold].
  - assert (desired_item p ∈ de_Items d) as Hin.
    { rewrite Hnew, desired_items_perm. by apply list_elem_of_fmap_2. }
    apply list_elem_of_lookup in Hin as [i Hi]. by exists i, (desired_item p).
  - destruct (item_of_process _ _ p Hkeys Hp) as (item & Hin & Hns & Hn & Hh).
    destruct (tr_specs _ _ Hready d item p Hold Hin Hp) as (He & He' & Hsep).
    apply list_elem_of_lookup in Hin as Hi. destruct Hi as [i Hi]. exists i, item. split_all; try done.
    apply hash_same_spec; [done..|]. by rewrite <-(tr_hashed _ _ Hready d item Hold Hin).
Qed.

(** The poll of a turn: what the agent reconciles, and that nothing else has
    happened yet. *)
Lemma turn_polls w l :
  turn_ready w l → (pollDesired acfg w).1 = None →
  ∃ d w2, clock w2 = clock w ∧ managed (self w2) = managed (self w) ∧
    site_machine (env w2) = site_machine (env w) ∧
    env (site_gateway (env w2)) = env (site_gateway (env w)) ∧
    GatewayDesired.item_key <$> de_Items d =
      GatewayDesired.item_key <$> desired_items (processes_of dev l) ∧
    (de_Items d = desired_items (processes_of dev l) ∨ lastDesired (self w) = Some d) ∧
    let r := reconcile acfg d w2 in
    match r.1 with
    | [] => (pollDesired acfg w).2 = r.2
    | obs => (sendReport acfg obs r.2).1 = None ∧ (pollDesired acfg w).2 = (sendReport acfg obs r.2).2
    end.
Proof.
  intros Hready Hok. destruct (tr_device _ _ Hready) as [Hp Hu].
  destruct (pollDesired_ok acfg w Hok) as (fetched & etag & Hf & Hrest).
  destruct (http_do (poll_request acfg (self w)) (env w)) as [[resp|e] s1] eqn:Hhttp.
  2: { exfalso. revert Hf. unfold fetchDesired. rewrite run_get_self. unfold do_request.
       change (mkHttpRequest _ _ _ _ _) with (poll_request acfg (self w)).
       rewrite run_call, Hhttp. done. }
  pose proof Hhttp as Hex. apply site_http_ok in Hex as [Hex Hm].
  rewrite (poll_exchange (self w) _ Hp Hu (tr_credentials _ _ Hready)) in Hex. injection Hex as Hresp Hgw.
  destruct (poll_brings acfg gcfg base dev l resp s1 w (site_gateway (env w)) Hhttp (eq_sym Hresp)
    (tr_answer _ _ Hready) (tr_listed _ _ Hready) (tr_names _ _ Hready) (tr_sync _ _ Hready)
    (tr_hash _ _ Hready)) as (Henv & Hself & fetched' & etag' & d & Hf' & Hd & Hkeys & _ & _ & Hitems).
  rewrite Hf' in Hf. injection Hf as -> ->. rewrite Hself in Hrest.
  destruct (Hrest d Hd) as (w2 & He2 & Hc2 & Hm2 & Hr). rewrite Henv in He2.
  exists d, w2. rewrite He2. split_all; [done|done|done| |done|done|done].
  rewrite <-Hgw. symmetry. apply desired_keeps_env.
Qed.

(** The report of a turn. *)
Lemma turn_reports w l obs (w3 : World Agent (Site MS GS) AgentCall) :
  turn_ready w l → clock w3 = clock w →
  env (site_gateway (env w3)) = env (site_gateway (env w)) →
  (sendReport acfg obs w3).1 = None → (pollDesired acfg w).2 = (sendReport acfg obs w3).2 →
  let s' := env (pollDesired acfg w).2 in
  let gs := env (site_gateway (env w)) in let gs' := env (site_gateway s') in
  site_machine s' = site_machine (env w3) ∧ patched gs gs' ∧
  (∀ o, o ∈ obs → settled dev o gs gs') ∧
  (keeps_up gs → NoDup (ob_key <$> obs) →
   ∀ o p, o ∈ obs → stored gs (ob_key o) = Some p → recorded dev o gs' p).
Proof.
  intros Hready Hclock Henv Hok Hend. destruct (tr_device _ _ Hready) as [Hp Hu].
  destruct (sendReport_ok acfg obs w3 Hok) as (resp & s' & Hhttp & Hst & Hs' & Htr).
  rewrite Hclock in Hhttp, Htr. rewrite <-Hend in Hs', Htr. cbv zeta. rewrite Hs'.
  apply site_http_ok in Hhttp as [Hex Hm]. split; [done|].
  pose proof (tr_clock _ _ Hready (tick w3)) as Hnow.
  destruct (tr_reports _ _ Hready _ _ Htr eq_refl) as [He Hlen].
  rewrite (report_exchange _ obs _ Hp Hu (tr_credentials _ _ Hready) Hnow He Hlen) in Hex.
  injection Hex as Hresp Hgw. rewrite <-Hgw, <-Henv.
  assert (coherent (env (site_gateway (env w3)))) as Hc by (rewrite Henv; apply (tr_server _ _ Hready)).
  split; [apply process_report_observations|]. split.
  - apply process_report_settled; [done|]. by rewrite <-Hst, <-Hresp.
  - intros Hk Hnd. apply process_report_records; [done..|]. by rewrite <-Hst, <-Hresp.
Qed.

Lemma same_names items (l : list DeviceProcess) :
  GatewayDesired.item_key <$> items = GatewayDesired.item_key <$> desired_items l →
  (λ i, (di_Namespace i, di_Name i)) <$> items = (λ i, (di_Namespace i, di_Name i)) <$> desired_items l.
Proof.
  intros E. apply same_content_keys in E.
  apply (f_equal (fmap (λ k : string * string * string, k.1))) in E.
  by rewrite <-!list_fmap_compose in E.
Qed.

(** The observations of a reconcile have the keys of the processes. *)
Lemma observation_keys items obs (l : list DeviceProcess) :
  Forall2 truthful items obs →
  GatewayDesired.item_key <$> items = GatewayDesired.item_key <$> desired_items l →
  ob_key <$> obs ≡ₚ dp_Key <$> l.
Proof.
  intros Hobs E%same_names.
  assert (ob_key <$> obs = (λ i, (di_Namespace i, di_Name i)) <$> items) as ->.
  { clear E. induction Hobs as [|item o items obs [(E1 & E2 & _) _] _ IH]; [done|].
    rewrite !fmap_cons, IH. unfold ob_key. by rewrite E1, E2. }
  rewrite E, desired_items_perm, <-list_fmap_compose. done.
Qed.

(** Units are named by those keys. *)
Lemma item_names items (l : list DeviceProcess) :
  GatewayDesired.item_key <$> items = GatewayDesired.item_key <$> desired_items l →
  item_name <$> items = item_name <$> desired_items l ∧
  Agent.item_key <$> items = Agent.item_key <$> desired_items l.
Proof.
  intros E%same_names. split.
  - apply (f_equal (fmap (λ k : string * string, UnitName (PathsFor k.1 k.2)))) in E.
    by rewrite <-!list_fmap_compose in E.
  - apply (f_equal (fmap (λ k : string * string, itemKey k.1 k.2))) in E.
    by rewrite <-!list_fmap_compose in E.
Qed.

Lemma deployed_machine item s s' :
  site_machine s' = site_machine s → deployed acfg item s → deployed acfg item s'.
Proof.
  intros E (cmd & unit & envt & Hc & Hr & Hu & He). exists cmd, unit, envt.
  cbn [content turn_laws site_laws] in *. by rewrite E.
Qed.

(** The machine of a turn after its reconcile. *)
Lemma turn_deploys w l d w2 :
  turn_ready w l →
  GatewayDesired.item_key <$> de_Items d = GatewayDesired.item_key <$> desired_items (processes_of dev l) →
  managed (self w2) = managed (self w) →
  let r := reconcile acfg d w2 in
  Forall2 (λ item o, ob_ProcessStarted o = Some true → deployed acfg item (env r.2)) (de_Items d) r.1.
Proof.
  intros Hready Hkeys Hm2. destruct (item_names _ _ Hkeys) as [Hnames Hikeys].
  pose proof (reconcile_deploys acfg d w2) as Hdep. cbv zeta in *.
  rewrite Hnames, Hm2 in Hdep. specialize (Hdep (tr_units _ _ Hready)).
  assert (undesired d (managed (self w)) =
    undesired (mkDesiredResponse dev 0 (desired_items (processes_of dev l))) (managed (self w))) as Eun.
  { unfold undesired, desired_keys. cbn [de_Items]. by rewrite Hikeys. }
  rewrite Eun in Hdep. by apply (Hdep (tr_removed _ _ Hready) (tr_state _ _ Hready)).
Qed.

(** The observations of a turn. *)
Lemma turn_observes w l :
  turn_ready w l → (pollDesired acfg w).1 = None →
  let s' := env (pollDesired acfg w).2 in
  let gs := env (site_gateway (env w)) in let gs' := env (site_gateway s') in
  ∀ p, p ∈ processes_of dev l → ∃ o,
    (∀ q, dp_Key q = dp_Key p → up_to_date o (dp_Status q) → in_line s' p q) ∧
    ob_key o = dp_Key p ∧ patched gs gs' ∧ settled dev o gs gs' ∧ (keeps_up gs → recorded dev o gs' p).
Proof.
  intros Hready Hok s' gs gs' p Hp.
  destruct (turn_polls w l Hready Hok) as (d & w2 & Hc2 & Hm2 & Hms & Hgs & Hkeys & Hitems & Hr).
  pose proof (threaded_clock (reconcile acfg d) w2) as Hc3.
  pose proof (reconcile_gateway d w2) as Hg3. cbv beta in Hg3.
  destruct (answers_reconcile_items acfg (managed (self w2)) (de_Items d) ([], ∅) w2) as (os & Eos & Hobs & _).
  rewrite <-reconcile_answer in Eos. cbn [app fst] in Eos. rewrite <-Eos in Hobs. clear Eos os.
  pose proof (turn_deploys w l d w2 Hready Hkeys Hm2) as Hdep.
  destruct (reconciled_item w l d p Hready Hp Hkeys Hitems) as (i & item & Hi & Hns & Hn & Hh & Hsp).
  destruct (reconcile acfg d w2) as [obs w3]; cbn [fst snd] in *.
  destruct (Forall2_lookup_l _ _ _ _ _ Hobs Hi) as (o & Ho & Ht).
  pose proof (Forall2_lookup_lr _ _ _ _ _ _ Hdep Hi Ho) as Hd.
  destruct obs as [|o1 obs1]; [done|]. set (obs := o1 :: obs1) in *. destruct Hr as [Hsend Hend].
  destruct (turn_reports w l obs w3 Hready) as (Hm & Hpat & Hset & Hrec); [congruence|by rewrite Hg3|done..|].
  pose proof Ht as [(Ens & En & _) (b & Hb & _)].
  assert (ob_key o = dp_Key p) as Ek by (unfold ob_key, dp_Key; congruence).
  apply list_elem_of_lookup_2 in Ho as Hoin. exists o. split_all; [|done|done|by apply Hset|].
  - intros q Hkq Hup. destruct (up_to_date_reads o item q b Ht) as [Hready' Hhash]; [|done|done|].
    { rewrite Hh. apply hashSpec_nonempty. }
    unfold in_line. split_all; [done|congruence|]. rewrite Hready'. intros ->.
    apply (deployed_machine _ (env w3)); [exact Hm|]. apply (deployed_same acfg item); [by symmetry..|by apply Hd].
  - intros Hk. assert (p ∈ l) as Hpl by (by apply list_elem_of_filter in Hp as [_ ?]).
    apply Hrec; [done| |done|].
    + rewrite (observation_keys _ _ _ Hobs Hkeys).
      eapply sublist_NoDup; [|apply fmap_sublist, sublist_filter].
      eapply list_unique; [apply (tr_server _ _ Hready)|apply (tr_listed _ _ Hready)].
    + rewrite Ek. destruct (Hk gs) as (_ & _ & Hlive); [done|].
      exact (Hlive dev l p (tr_listed _ _ Hready) Hpl).
Qed.

(** ** Properties *)

End turn.

(** ** A first turn *)

#[local] Existing Instance ascii_unicode.
#[local] Existing Instance utc_zone.
#[local] Existing Instance plain_range.
#[local] Existing Instance insertion_sort_slice.

Definition turn_pairing : Pairing :=
  mkPairing "tor1" "http://gw/" "token" "" "/var/lib/apollo/agent/state.json" "/" "v1"
    "token" "" (15 * Second) 3.
Definition one_server : Server :=
  server_put (mkDeviceProcess (sample_meta "infra" "a")
    (mkSpec (mkDeviceRef "" "tor1" "") (mkArtifact "" "" "")
       (mkExecution DeviceProcessBackendSystemd ["/a"] [] [] "" "") "" None) empty_status)
    (mkServer ∅ [] 0).
Lemma one_server_coherent : server_coherent one_server.
Proof. apply server_put_coherent, server_empty_coherent. Qed.

Definition turn_time : Z := 63839768931 * Second.

Definition turn_site : Site Machine Server :=
  mkSite empty_machine (mkWorld (pa_new_gateway turn_pairing).2 one_server (λ _, turn_time) 0 [])
    (λ _, Delivered) 0.

Definition turn_world : World Agent (Site Machine Server) AgentCall :=
  mkWorld (pa_new_agent turn_pairing).2 turn_site (λ _, turn_time) 0 [].

#[local] Abbreviation first_turn :=
  (@pollDesired _ (turn_host turn_pairing) _ _ _ _ (pa_new_agent turn_pairing).1 turn_world).

(** Whether the process is counted as ready. *)
Definition ready_at (s : Site Machine Server) (k : NamespacedName) : option bool :=
  isProcessReady <$> stored (env (site_gateway s)) k.

(** [reports_fit], computed. *)
Definition report_fits (c : AgentCall) : bool :=
  match c with
  | CallHttp r =>
      match hr_Report r with
      | Some body => encodable body && (Z.of_nat (String.length (marshal body)) <=? maxReportBodyBytes)
      | None => true
      end
  | _ => true
  end.

Lemma reports_fit_forallb l : forallb report_fits l = true → reports_fit l.
Proof.
  rewrite forallb_forall. intros Hl r body Hin Hb. apply list_elem_of_In, Hl in Hin.
  unfold report_fits in Hin. rewrite Hb in Hin. by bool_prop.
Qed.

Lemma turn_separate : separate_state (pa_new_agent turn_pairing).1.
Proof.
  split; [reflexivity|]. split; [by intros [x Hx]|]. by intros q [x ->].
Qed.

Definition turn_processes : list DeviceProcess :=
  match list_by_device "tor1" (env (site_gateway turn_site)) with Ok l => l | Err _ => [] end.

Lemma first_turn_is_ready :
  turn_ready turn_pairing turn_world turn_processes.
Proof.
  constructor.
  - split; vm_compute; reflexivity.
  - right. split_all; reflexivity.
  - intros i. split; vm_compute; [discriminate|reflexivity].
  - exact one_server_coherent.
  - vm_compute. reflexivity.
  - vm_compute. repeat constructor.
  - reflexivity.
  - intros d Hd. discriminate Hd.
  - intros d item Hd. discriminate Hd.
  - intros d item p Hd. discriminate Hd.
  - set (b := rs_Body _).
    assert (match b with DesiredBody d => encodable d | _ => true end = true) as Hb
      by (vm_compute; reflexivity).
    intros d E. by rewrite E in Hb.
  - apply reports_fit_forallb. vm_compute. reflexivity.
  - apply (bool_decide_unpack _). vm_compute. exact I.
  - intros kv p Hkv. apply list_elem_of_filter in Hkv as [_ Hkv%elem_of_nil]. done.
  - exact turn_separate.
Qed.

Lemma first_turn_succeeds : first_turn.1 = None.
Proof. vm_compute. reflexivity. Qed.

Lemma first_turn_ready : ready_at (env first_turn.2) ("infra", "a") = Some true.
Proof. vm_compute. reflexivity. Qed.

Lemma first_turn_process :
  ∃ p, p ∈ processes_of "tor1" turn_processes ∧ dp_Key p = ("infra", "a") ∧ dp_Name p = "a".
Proof.
  assert (forallb (λ p, bool_decide (dp_Key p = ("infra", "a"))) (processes_of "tor1" turn_processes) = true ∧
    length (processes_of "tor1" turn_processes) = 1%nat) as [Hf Hl] by (split; vm_compute; reflexivity).
  destruct (processes_of _ _) as [|p l]; [done|]. cbn [forallb] in Hf. bool_prop.
  assert (dp_Key p = ("infra", "a")) as Hk by done.
  exists p. split_all; [set_solver|done|]. by apply (f_equal snd) in Hk.
Qed.

Lemma ready_at_stored s k q : stored (env (site_gateway s)) k = Some q → ready_at s k = Some true →
  isProcessReady q = true.
Proof. unfold ready_at. intros ->. by injection 1. Qed.

